(** * immo-agent-paris: price estimation and cross-source validation

    A shallow embedding of the estimation core of the repository:
    - [src/analysis/price_sources/base.py]  ([PriceEstimate],
      [MultiSourceEstimate]),
    - [src/analysis/price_sources/dvf_source.py] (outlier filter and median),
    - [src/scrapers/cross_validator.py] (matching, merging, geo-enrichment),
    - [src/analysis/multi_source_analyzer.py] and
      [src/analysis/dvf_client.py] (the callers and the transaction search).

    Numbers.  Python [float] values are rationals [Q], and [int] values are
    [Z].  Comparisons are the exact ones, and statements about numeric
    results use [==] ([Qeq]).  In the modules [PriceSources], [DVFSource],
    [DVFPriceSource], [MultiSourceAnalyzer] and [CrossValidator] the
    arithmetic operations are the exact ones: they give the formulas that
    the code evaluates.  Where a property depends on the rounding of the
    float operations (the range of the combined price, the surface bounds of
    the transaction search), the operations are those of [Binary64], which
    round every result.  The only irrational operation of the code,
    [x ** 0.5], is a parameter ([pow_half]).

    Truthiness.  The code tests values with [if x:].  For an
    [Optional[float]] this is false on [None] and on [0.0]; for a [str] it is
    false on the empty string; for an [Optional[date]] or an enum member it is
    false on [None] only.  Each test is written out with the [truthy_*]
    functions below. *)

From Stdlib Require Import ZArith NArith QArith Qabs String Ascii List Bool Lia.
From Stdlib Require Import DecimalString.
From Stdlib Require Import Permutation Sorted.
Import ListNotations.

Local Open Scope Q_scope.

(** ** Python built-ins on numbers *)

Module Py.

(** [sum(xs)] on floats: left-to-right accumulation from [0]. *)
Definition sum (xs : list Q) : Q := fold_left Qplus xs 0.

(** [min(a, b)] and [max(a, b)] return the first argument unless the second
    one is strictly smaller (resp. larger). *)
Definition min2 (a b : Q) : Q := if Qlt_le_dec b a then b else a.
Definition max2 (a b : Q) : Q := if Qlt_le_dec a b then b else a.

(** [min(xs)] and [max(xs)] on a list; the code only calls them on non-empty
    lists, [None] stands for the [ValueError] of the empty case. *)
Definition min_list (xs : list Q) : option Q :=
  match xs with
  | [] => None
  | x :: r => Some (fold_left min2 r x)
  end.

Definition max_list (xs : list Q) : option Q :=
  match xs with
  | [] => None
  | x :: r => Some (fold_left max2 r x)
  end.

(** [len(xs)] as a float operand. *)
Definition len {A} (xs : list A) : Q := inject_Z (Z.of_nat (length xs)).

(** Truth value of an [Optional[float]]. *)
Definition truthy_float (x : option Q) : bool :=
  match x with
  | Some q => negb (Qeq_bool q 0)
  | None => false
  end.

(** Truth value of a [str]. *)
Definition truthy_str (s : string) : bool :=
  match s with
  | EmptyString => false
  | _ => true
  end.

(** Truth value of an optional object whose instances are all true
    (dates, enum members). *)
Definition truthy_obj {A} (x : option A) : bool :=
  match x with
  | Some _ => true
  | None => false
  end.

End Py.

(** ** [price_sources/base.py] *)

Module PriceSources.

Inductive SourceType := DVF | COMMUNE_STATS | LISTINGS | NOTAIRES.

Inductive ReliabilityLevel := HIGH | MEDIUM | LOW | INSUFFICIENT.

(** [PriceEstimate].  The fields that no computation reads ([comparables],
    [retrieved_at]) are left out. *)
Record PriceEstimate := mkPriceEstimate {
  source_type : SourceType;
  source_name : string;
  prix_m2 : option Q;
  prix_total : option Q;
  nb_data_points : Z;
  date_range_days : Z;
  geographic_match : string;
  source_url : option string;
  notes : string
}.

(** [PriceEstimate.confidence_score]. *)
Definition confidence_score (e : PriceEstimate) : Q :=
  let score := 0 in
  let score :=
    if (20 <=? nb_data_points e)%Z then score + 40
    else if (10 <=? nb_data_points e)%Z then score + 30
    else if (5 <=? nb_data_points e)%Z then score + 20
    else if (3 <=? nb_data_points e)%Z then score + 10
    else score in
  let score :=
    if (date_range_days e <=? 180)%Z then score + 30
    else if (date_range_days e <=? 365)%Z then score + 20
    else if (date_range_days e <=? 730)%Z then score + 10
    else score in
  let score :=
    if String.eqb (geographic_match e) "exact" then score + 30
    else if String.eqb (geographic_match e) "commune" then score + 20
    else if String.eqb (geographic_match e) "department" then score + 10
    else score in
  score.

(** [MultiSourceEstimate]. *)
Record MultiSourceEstimate := mkMultiSourceEstimate {
  estimates : list PriceEstimate;
  prix_m2_combined : option Q;
  prix_m2_min : option Q;
  prix_m2_max : option Q;
  reliability : ReliabilityLevel;
  reliability_score : Q;
  sources_agreement : Q;
  dvf_estimate : option Q;
  listings_estimate : option Q;
  commune_estimate : option Q;
  analysis_notes : list string
}.

(** The dataclass defaults: [MultiSourceEstimate()]. *)
Definition empty : MultiSourceEstimate :=
  {| estimates := [];
     prix_m2_combined := None;
     prix_m2_min := None;
     prix_m2_max := None;
     reliability := INSUFFICIENT;
     reliability_score := 0;
     sources_agreement := 0;
     dvf_estimate := None;
     listings_estimate := None;
     commune_estimate := None;
     analysis_notes := [] |}.

(** [e.prix_m2] read as a number; only used on estimates that passed the
    [if e.prix_m2] filter. *)
Definition price (e : PriceEstimate) : Q :=
  match prix_m2 e with
  | Some q => q
  | None => 0
  end.

(** [[e for e in self.estimates if e.prix_m2]]. *)
Definition valid_estimates (es : list PriceEstimate) : list PriceEstimate :=
  filter (fun e => Py.truthy_float (prix_m2 e)) es.

(** The level chosen at the end of [_calculate_reliability]. *)
Definition level_of (score : Q) (n : nat) : ReliabilityLevel :=
  if Qle_bool 70 score && (2 <=? n)%nat then HIGH
  else if Qle_bool 40 score then MEDIUM
  else if Qlt_le_dec 0 score then LOW
  else INSUFFICIENT.

(** The loop "store by source type" of [_recalculate]. *)
Definition store_by_type (m : MultiSourceEstimate) (e : PriceEstimate)
  : MultiSourceEstimate :=
  match source_type e with
  | DVF =>
      {| estimates := estimates m;
         prix_m2_combined := prix_m2_combined m;
         prix_m2_min := prix_m2_min m;
         prix_m2_max := prix_m2_max m;
         reliability := reliability m;
         reliability_score := reliability_score m;
         sources_agreement := sources_agreement m;
         dvf_estimate := prix_m2 e;
         listings_estimate := listings_estimate m;
         commune_estimate := commune_estimate m;
         analysis_notes := analysis_notes m |}
  | LISTINGS =>
      {| estimates := estimates m;
         prix_m2_combined := prix_m2_combined m;
         prix_m2_min := prix_m2_min m;
         prix_m2_max := prix_m2_max m;
         reliability := reliability m;
         reliability_score := reliability_score m;
         sources_agreement := sources_agreement m;
         dvf_estimate := dvf_estimate m;
         listings_estimate := prix_m2 e;
         commune_estimate := commune_estimate m;
         analysis_notes := analysis_notes m |}
  | COMMUNE_STATS =>
      {| estimates := estimates m;
         prix_m2_combined := prix_m2_combined m;
         prix_m2_min := prix_m2_min m;
         prix_m2_max := prix_m2_max m;
         reliability := reliability m;
         reliability_score := reliability_score m;
         sources_agreement := sources_agreement m;
         dvf_estimate := dvf_estimate m;
         listings_estimate := listings_estimate m;
         commune_estimate := prix_m2 e;
         analysis_notes := analysis_notes m |}
  | NOTAIRES => m
  end.

Section Combiner.

(** The float operation [x ** 0.5]. *)
Variable pow_half : Q -> Q.

(** The agreement computed in [_calculate_reliability] from
    [[e.prix_m2 for e in self.estimates if e.prix_m2]]. *)
Definition agreement_of (prices : list Q) : Q :=
  if (2 <=? length prices)%nat then
    let mean_price := Py.sum prices / Py.len prices in
    if Qlt_le_dec 0 mean_price then
      let std_dev :=
        pow_half
          (Py.sum (map (fun p => (p - mean_price) * (p - mean_price)) prices)
           / Py.len prices) in
      let cv := std_dev / mean_price in
      Py.max2 0 (100 - cv * 200)
    else 0
  else 50.

(** [MultiSourceEstimate._calculate_reliability]. *)
Definition _calculate_reliability (m : MultiSourceEstimate)
  : MultiSourceEstimate :=
  match estimates m with
  | [] =>
      {| estimates := estimates m;
         prix_m2_combined := prix_m2_combined m;
         prix_m2_min := prix_m2_min m;
         prix_m2_max := prix_m2_max m;
         reliability := INSUFFICIENT;
         reliability_score := 0;
         sources_agreement := sources_agreement m;
         dvf_estimate := dvf_estimate m;
         listings_estimate := listings_estimate m;
         commune_estimate := commune_estimate m;
         analysis_notes := analysis_notes m |}
  | _ :: _ =>
      let avg_confidence :=
        Py.sum (map confidence_score (estimates m)) / Py.len (estimates m) in
      let source_bonus :=
        inject_Z (Z.min 20 (Z.of_nat (length (estimates m)) * 10)) in
      let prices := map price (valid_estimates (estimates m)) in
      let agreement := agreement_of prices in
      let score := avg_confidence * (1 # 2) + source_bonus + agreement * (3 # 10) in
      let score := Py.min2 100 score in
      {| estimates := estimates m;
         prix_m2_combined := prix_m2_combined m;
         prix_m2_min := prix_m2_min m;
         prix_m2_max := prix_m2_max m;
         reliability := level_of score (length (estimates m));
         reliability_score := score;
         sources_agreement := agreement;
         dvf_estimate := dvf_estimate m;
         listings_estimate := listings_estimate m;
         commune_estimate := commune_estimate m;
         analysis_notes := analysis_notes m |}
  end.

(** The combined price of [_recalculate] (lines 119-126). *)
Definition combined_price (valid : list PriceEstimate) : Q :=
  let prices := map price valid in
  let weights := map confidence_score valid in
  if Qlt_le_dec 0 (Py.sum weights) then
    Py.sum (map (fun pw => fst pw * snd pw) (combine prices weights))
    / Py.sum weights
  else
    Py.sum prices / Py.len prices.

(** [MultiSourceEstimate._recalculate]. *)
Definition _recalculate (m : MultiSourceEstimate) : MultiSourceEstimate :=
  let valid := valid_estimates (estimates m) in
  match valid with
  | [] => m
  | _ :: _ =>
      let prices := map price valid in
      let m1 :=
        {| estimates := estimates m;
           prix_m2_combined := Some (combined_price valid);
           prix_m2_min := Py.min_list prices;
           prix_m2_max := Py.max_list prices;
           reliability := reliability m;
           reliability_score := reliability_score m;
           sources_agreement := sources_agreement m;
           dvf_estimate := dvf_estimate m;
           listings_estimate := listings_estimate m;
           commune_estimate := commune_estimate m;
           analysis_notes := analysis_notes m |} in
      let m2 := fold_left store_by_type valid m1 in
      _calculate_reliability m2
  end.

(** [MultiSourceEstimate.add_estimate]. *)
Definition add_estimate (m : MultiSourceEstimate) (e : PriceEstimate)
  : MultiSourceEstimate :=
  if Py.truthy_float (prix_m2 e) then
    _recalculate
      {| estimates := estimates m ++ [e];
         prix_m2_combined := prix_m2_combined m;
         prix_m2_min := prix_m2_min m;
         prix_m2_max := prix_m2_max m;
         reliability := reliability m;
         reliability_score := reliability_score m;
         sources_agreement := sources_agreement m;
         dvf_estimate := dvf_estimate m;
         listings_estimate := listings_estimate m;
         commune_estimate := commune_estimate m;
         analysis_notes := analysis_notes m |}
  else m.

(** A sequence of [add_estimate] calls on a fresh [MultiSourceEstimate()]. *)
Definition add_all (es : list PriceEstimate) : MultiSourceEstimate :=
  fold_left add_estimate es empty.

End Combiner.

End PriceSources.

(** ** [price_sources/dvf_source.py]: outlier filter and median *)

Module DVFSource.

(** [DVFTransaction] ([storage/models.py]); dates are day ordinals. *)
Record DVFTransaction := mkDVFTransaction {
  date_mutation : option Z;
  valeur_fonciere : Q;
  surface_reelle : option Q;
  prix_m2 : option Q
}.

Definition MIN_PRICE_M2 : Q := 500.
Definition MAX_PRICE_M2 : Q := 15000.
Definition MIN_COMPARABLES : nat := 3.

(** The test of line 86:
    [t.prix_m2 and MIN_PRICE_M2 <= t.prix_m2 <= MAX_PRICE_M2]. *)
Definition keeps (t : DVFTransaction) : bool :=
  match prix_m2 t with
  | Some p =>
      negb (Qeq_bool p 0) && Qle_bool MIN_PRICE_M2 p && Qle_bool p MAX_PRICE_M2
  | None => false
  end.

(** The list [valid_prices] after the loop of lines 85-95. *)
Fixpoint valid_prices (transactions : list DVFTransaction) : list Q :=
  match transactions with
  | [] => []
  | t :: rest =>
      if keeps t then
        match prix_m2 t with
        | Some p => p :: valid_prices rest
        | None => valid_prices rest
        end
      else valid_prices rest
  end.

(** [valid_prices.sort()]: ascending, stable. *)
Fixpoint insert (x : Q) (l : list Q) : list Q :=
  match l with
  | [] => [x]
  | y :: r => if Qle_bool x y then x :: l else y :: insert x r
  end.

Definition sort (l : list Q) : list Q := fold_right insert [] l.

(** Lines 110-114 on the sorted list. *)
Definition median_price (sorted : list Q) : Q :=
  let n := length sorted in
  if (n mod 2 =? 0)%nat then
    (nth (n / 2 - 1) sorted 0 + nth (n / 2) sorted 0) / 2
  else
    nth (n / 2) sorted 0.

(** Lines 81-114 of [get_price_estimate]: the central value ([None] when the
    estimate is returned with [prix_m2=None]) and [nb_data_points]. *)
Definition aggregate (transactions : list DVFTransaction) : option Q * nat :=
  let valid := valid_prices transactions in
  if (length valid <? MIN_COMPARABLES)%nat then (None, length valid)
  else (Some (median_price (sort valid)), length valid).

(** A transaction that only carries a price per square metre. *)
Definition sample (p : Q) : DVFTransaction :=
  {| date_mutation := None;
     valeur_fonciere := 0;
     surface_reelle := None;
     prix_m2 := Some p |}.

End DVFSource.

(** ** [scrapers/cross_validator.py] *)

(** Strings.  A Python [str] is a sequence of code points; the model keeps
    the code points below 256, one per character of a Rocq [string]
    (so ["233"%char] is the letter e with an acute accent). *)

Module PyStr.

Local Open Scope string_scope.
Local Open Scope nat_scope.

Definition code (c : ascii) : nat := nat_of_ascii c.

(** [c.isspace()], which is also the class [\s] of [re]. *)
Definition is_space (c : ascii) : bool :=
  let n := code c in
  ((9 <=? n) && (n <=? 13)) || ((28 <=? n) && (n <=? 32))
  || (n =? 133) || (n =? 160).

(** The class [\d] of [re] below code point 256. *)
Definition is_digit (c : ascii) : bool :=
  let n := code c in (48 <=? n) && (n <=? 57).

Definition is_upper (c : ascii) : bool :=
  let n := code c in
  ((65 <=? n) && (n <=? 90))
  || ((192 <=? n) && (n <=? 222) && negb (n =? 215)).

Definition is_ascii_lower (c : ascii) : bool :=
  let n := code c in (97 <=? n) && (n <=? 122).

(** [c.lower()]. *)
Definition lower_char (c : ascii) : ascii :=
  if is_upper c then ascii_of_nat (code c + 32) else c.

(** [c.upper()] on the letters [a-z]. *)
Definition upper_ascii_char (c : ascii) : ascii :=
  if is_ascii_lower c then ascii_of_nat (code c - 32) else c.

Fixpoint map_chars (f : ascii -> ascii) (s : string) : string :=
  match s with
  | EmptyString => EmptyString
  | String c r => String (f c) (map_chars f r)
  end.

(** [s.lower()]. *)
Definition lower (s : string) : string := map_chars lower_char s.

Fixpoint lstrip (s : string) : string :=
  match s with
  | EmptyString => EmptyString
  | String c r => if is_space c then lstrip r else s
  end.

Fixpoint rstrip (s : string) : string :=
  match s with
  | EmptyString => EmptyString
  | String c r =>
      match rstrip r with
      | EmptyString => if is_space c then EmptyString else String c EmptyString
      | r' => String c r'
      end
  end.

(** [s.strip()]. *)
Definition strip (s : string) : string := rstrip (lstrip s).

(** [re.sub(r'\s+', ' ', s)]: every maximal run of white space becomes one
    space; [in_run] tells that the previous character was white space. *)
Fixpoint sub_spaces (in_run : bool) (s : string) : string :=
  match s with
  | EmptyString => EmptyString
  | String c r =>
      if is_space c then
        if in_run then sub_spaces true r else String " " (sub_spaces true r)
      else String c (sub_spaces false r)
  end.

(** [s.replace(old, new)] for one-character [old] and [new]. *)
Definition replace_char (old new : ascii) (s : string) : string :=
  map_chars (fun c => if Ascii.eqb c old then new else c) s.

(** [s.title()] on strings of ASCII characters: a letter is upper-cased
    after a character that is not a letter and lower-cased after a letter. *)
Fixpoint title_from (prev_cased : bool) (s : string) : string :=
  match s with
  | EmptyString => EmptyString
  | String c r =>
      if is_ascii_lower c || is_upper c then
        String (if prev_cased then lower_char c else upper_ascii_char c)
               (title_from true r)
      else String c (title_from false r)
  end.

Definition title (s : string) : string := title_from false s.

(** [s[:n]]. *)
Fixpoint take (n : nat) (s : string) : string :=
  match n, s with
  | S k, String c r => String c (take k r)
  | _, _ => EmptyString
  end.

(** The longest prefix of characters satisfying [p], and what follows. *)
Fixpoint span (p : ascii -> bool) (s : string) : string * string :=
  match s with
  | EmptyString => (EmptyString, EmptyString)
  | String c r =>
      if p c then let (a, b) := span p r in (String c a, b)
      else (EmptyString, s)
  end.

(** [s.startswith(prefix)], returning the rest of [s]. *)
Fixpoint strip_prefix (prefix s : string) : option string :=
  match prefix, s with
  | EmptyString, _ => Some s
  | String a p, String c r => if Ascii.eqb a c then strip_prefix p r else None
  | String _ _, EmptyString => None
  end.

(** [int(digits)] for a non-empty string of ASCII digits. *)
Fixpoint int_of_digits (acc : N) (s : string) : N :=
  match s with
  | EmptyString => acc
  | String c r => int_of_digits (acc * 10 + N.of_nat (code c - 48))%N r
  end.

(** [f"{n:02d}"] for [n >= 0]. *)
Definition format_02d (n : N) : string :=
  let s := NilZero.string_of_uint (N.to_uint n) in
  if (n <? 10)%N then String "0" s else s.

(** [re.match(r'^\d{5}$', s)]: five digits, then the end of the string or a
    single final newline. *)
Definition match_five_digits (s : string) : bool :=
  match s with
  | String c1 (String c2 (String c3 (String c4 (String c5 rest)))) =>
      is_digit c1 && is_digit c2 && is_digit c3 && is_digit c4 && is_digit c5
      && match rest with
         | EmptyString => true
         | String c EmptyString => code c =? 10
         | _ => false
         end
  | _ => false
  end.

(** [re.match(r'marseille\s*(\d+)', s)]: the captured group, if any. *)
Definition match_marseille (s : string) : option string :=
  match strip_prefix "marseille" s with
  | Some rest =>
      let (_, after_spaces) := span is_space rest in
      let (digits, _) := span is_digit after_spaces in
      match digits with
      | EmptyString => None
      | _ => Some digits
      end
  | None => None
  end.

(** Lookup in a [dict] with string keys written as an association list in
    insertion order; a key inserted twice keeps its last value. *)
Fixpoint lookup {A} (k : string) (d : list (string * A)) : option A :=
  match d with
  | [] => None
  | (k', v) :: r =>
      match lookup k r with
      | Some v' => Some v'
      | None => if String.eqb k k' then Some v else None
      end
  end.

End PyStr.

Module CrossValidator.

Local Open Scope string_scope.

(** [PropertyType] ([storage/models.py]). *)
Inductive PropertyType :=
  APPARTEMENT | MAISON | LOCAL_COMMERCIAL | TERRAIN | PARKING | AUTRE.

Definition PropertyType_eqb (a b : PropertyType) : bool :=
  match a, b with
  | APPARTEMENT, APPARTEMENT | MAISON, MAISON
  | LOCAL_COMMERCIAL, LOCAL_COMMERCIAL | TERRAIN, TERRAIN
  | PARKING, PARKING | AUTRE, AUTRE => true
  | _, _ => false
  end.

(** A document descriptor, a [dict] from strings to strings. *)
Definition document := list (string * string).

(** [Auction] ([storage/models.py]) with the attributes that the validator
    reads or writes.  Dates are day ordinals, visit datetimes are
    timestamps.  The counters of [self.stats] and the log lines of the
    validator are not part of any returned value and are left out. *)
Record Auction := mkAuction {
  source : string;
  url : string;
  adresse : string;
  code_postal : string;
  ville : string;
  department : string;
  type_bien : option PropertyType;
  surface : option Q;
  nb_pieces : option Z;
  nb_chambres : option Z;
  etage : option Z;
  description : string;
  occupation : string;
  photos : list string;
  documents : list document;
  date_vente : option Z;
  heure_vente : option string;
  dates_visite : list Z;
  mise_a_prix : option Q;
  tribunal : string;
  avocat_nom : option string;
  avocat_cabinet : option string;
  avocat_adresse : option string;
  avocat_telephone : option string;
  avocat_email : option string;
  pv_url : option string
}.

Definition set_source (a : Auction) (v : string) : Auction :=
  mkAuction v (url a) (adresse a) (code_postal a) (ville a) (department a)
    (type_bien a) (surface a) (nb_pieces a) (nb_chambres a) (etage a)
    (description a) (occupation a) (photos a) (documents a) (date_vente a)
    (heure_vente a) (dates_visite a) (mise_a_prix a) (tribunal a)
    (avocat_nom a) (avocat_cabinet a) (avocat_adresse a)
    (avocat_telephone a) (avocat_email a) (pv_url a).

Definition set_url (a : Auction) (v : string) : Auction :=
  mkAuction (source a) v (adresse a) (code_postal a) (ville a)
    (department a) (type_bien a) (surface a) (nb_pieces a) (nb_chambres a)
    (etage a) (description a) (occupation a) (photos a) (documents a)
    (date_vente a) (heure_vente a) (dates_visite a) (mise_a_prix a)
    (tribunal a) (avocat_nom a) (avocat_cabinet a) (avocat_adresse a)
    (avocat_telephone a) (avocat_email a) (pv_url a).

Definition set_adresse (a : Auction) (v : string) : Auction :=
  mkAuction (source a) (url a) v (code_postal a) (ville a) (department a)
    (type_bien a) (surface a) (nb_pieces a) (nb_chambres a) (etage a)
    (description a) (occupation a) (photos a) (documents a) (date_vente a)
    (heure_vente a) (dates_visite a) (mise_a_prix a) (tribunal a)
    (avocat_nom a) (avocat_cabinet a) (avocat_adresse a)
    (avocat_telephone a) (avocat_email a) (pv_url a).

Definition set_code_postal (a : Auction) (v : string) : Auction :=
  mkAuction (source a) (url a) (adresse a) v (ville a) (department a)
    (type_bien a) (surface a) (nb_pieces a) (nb_chambres a) (etage a)
    (description a) (occupation a) (photos a) (documents a) (date_vente a)
    (heure_vente a) (dates_visite a) (mise_a_prix a) (tribunal a)
    (avocat_nom a) (avocat_cabinet a) (avocat_adresse a)
    (avocat_telephone a) (avocat_email a) (pv_url a).

Definition set_ville (a : Auction) (v : string) : Auction :=
  mkAuction (source a) (url a) (adresse a) (code_postal a) v (department a)
    (type_bien a) (surface a) (nb_pieces a) (nb_chambres a) (etage a)
    (description a) (occupation a) (photos a) (documents a) (date_vente a)
    (heure_vente a) (dates_visite a) (mise_a_prix a) (tribunal a)
    (avocat_nom a) (avocat_cabinet a) (avocat_adresse a)
    (avocat_telephone a) (avocat_email a) (pv_url a).

Definition set_department (a : Auction) (v : string) : Auction :=
  mkAuction (source a) (url a) (adresse a) (code_postal a) (ville a) v
    (type_bien a) (surface a) (nb_pieces a) (nb_chambres a) (etage a)
    (description a) (occupation a) (photos a) (documents a) (date_vente a)
    (heure_vente a) (dates_visite a) (mise_a_prix a) (tribunal a)
    (avocat_nom a) (avocat_cabinet a) (avocat_adresse a)
    (avocat_telephone a) (avocat_email a) (pv_url a).

Definition set_type_bien (a : Auction) (v : option PropertyType) : Auction :=
  mkAuction (source a) (url a) (adresse a) (code_postal a) (ville a)
    (department a) v (surface a) (nb_pieces a) (nb_chambres a) (etage a)
    (description a) (occupation a) (photos a) (documents a) (date_vente a)
    (heure_vente a) (dates_visite a) (mise_a_prix a) (tribunal a)
    (avocat_nom a) (avocat_cabinet a) (avocat_adresse a)
    (avocat_telephone a) (avocat_email a) (pv_url a).

Definition set_surface (a : Auction) (v : option Q) : Auction :=
  mkAuction (source a) (url a) (adresse a) (code_postal a) (ville a)
    (department a) (type_bien a) v (nb_pieces a) (nb_chambres a) (etage a)
    (description a) (occupation a) (photos a) (documents a) (date_vente a)
    (heure_vente a) (dates_visite a) (mise_a_prix a) (tribunal a)
    (avocat_nom a) (avocat_cabinet a) (avocat_adresse a)
    (avocat_telephone a) (avocat_email a) (pv_url a).

Definition set_nb_pieces (a : Auction) (v : option Z) : Auction :=
  mkAuction (source a) (url a) (adresse a) (code_postal a) (ville a)
    (department a) (type_bien a) (surface a) v (nb_chambres a) (etage a)
    (description a) (occupation a) (photos a) (documents a) (date_vente a)
    (heure_vente a) (dates_visite a) (mise_a_prix a) (tribunal a)
    (avocat_nom a) (avocat_cabinet a) (avocat_adresse a)
    (avocat_telephone a) (avocat_email a) (pv_url a).

Definition set_nb_chambres (a : Auction) (v : option Z) : Auction :=
  mkAuction (source a) (url a) (adresse a) (code_postal a) (ville a)
    (department a) (type_bien a) (surface a) (nb_pieces a) v (etage a)
    (description a) (occupation a) (photos a) (documents a) (date_vente a)
    (heure_vente a) (dates_visite a) (mise_a_prix a) (tribunal a)
    (avocat_nom a) (avocat_cabinet a) (avocat_adresse a)
    (avocat_telephone a) (avocat_email a) (pv_url a).

Definition set_etage (a : Auction) (v : option Z) : Auction :=
  mkAuction (source a) (url a) (adresse a) (code_postal a) (ville a)
    (department a) (type_bien a) (surface a) (nb_pieces a) (nb_chambres a) v
    (description a) (occupation a) (photos a) (documents a) (date_vente a)
    (heure_vente a) (dates_visite a) (mise_a_prix a) (tribunal a)
    (avocat_nom a) (avocat_cabinet a) (avocat_adresse a)
    (avocat_telephone a) (avocat_email a) (pv_url a).

Definition set_description (a : Auction) (v : string) : Auction :=
  mkAuction (source a) (url a) (adresse a) (code_postal a) (ville a)
    (department a) (type_bien a) (surface a) (nb_pieces a) (nb_chambres a)
    (etage a) v (occupation a) (photos a) (documents a) (date_vente a)
    (heure_vente a) (dates_visite a) (mise_a_prix a) (tribunal a)
    (avocat_nom a) (avocat_cabinet a) (avocat_adresse a)
    (avocat_telephone a) (avocat_email a) (pv_url a).

Definition set_occupation (a : Auction) (v : string) : Auction :=
  mkAuction (source a) (url a) (adresse a) (code_postal a) (ville a)
    (department a) (type_bien a) (surface a) (nb_pieces a) (nb_chambres a)
    (etage a) (description a) v (photos a) (documents a) (date_vente a)
    (heure_vente a) (dates_visite a) (mise_a_prix a) (tribunal a)
    (avocat_nom a) (avocat_cabinet a) (avocat_adresse a)
    (avocat_telephone a) (avocat_email a) (pv_url a).

Definition set_photos (a : Auction) (v : list string) : Auction :=
  mkAuction (source a) (url a) (adresse a) (code_postal a) (ville a)
    (department a) (type_bien a) (surface a) (nb_pieces a) (nb_chambres a)
    (etage a) (description a) (occupation a) v (documents a) (date_vente a)
    (heure_vente a) (dates_visite a) (mise_a_prix a) (tribunal a)
    (avocat_nom a) (avocat_cabinet a) (avocat_adresse a)
    (avocat_telephone a) (avocat_email a) (pv_url a).

Definition set_documents (a : Auction) (v : list document) : Auction :=
  mkAuction (source a) (url a) (adresse a) (code_postal a) (ville a)
    (department a) (type_bien a) (surface a) (nb_pieces a) (nb_chambres a)
    (etage a) (description a) (occupation a) (photos a) v (date_vente a)
    (heure_vente a) (dates_visite a) (mise_a_prix a) (tribunal a)
    (avocat_nom a) (avocat_cabinet a) (avocat_adresse a)
    (avocat_telephone a) (avocat_email a) (pv_url a).

Definition set_date_vente (a : Auction) (v : option Z) : Auction :=
  mkAuction (source a) (url a) (adresse a) (code_postal a) (ville a)
    (department a) (type_bien a) (surface a) (nb_pieces a) (nb_chambres a)
    (etage a) (description a) (occupation a) (photos a) (documents a) v
    (heure_vente a) (dates_visite a) (mise_a_prix a) (tribunal a)
    (avocat_nom a) (avocat_cabinet a) (avocat_adresse a)
    (avocat_telephone a) (avocat_email a) (pv_url a).

Definition set_heure_vente (a : Auction) (v : option string) : Auction :=
  mkAuction (source a) (url a) (adresse a) (code_postal a) (ville a)
    (department a) (type_bien a) (surface a) (nb_pieces a) (nb_chambres a)
    (etage a) (description a) (occupation a) (photos a) (documents a)
    (date_vente a) v (dates_visite a) (mise_a_prix a) (tribunal a)
    (avocat_nom a) (avocat_cabinet a) (avocat_adresse a)
    (avocat_telephone a) (avocat_email a) (pv_url a).

Definition set_dates_visite (a : Auction) (v : list Z) : Auction :=
  mkAuction (source a) (url a) (adresse a) (code_postal a) (ville a)
    (department a) (type_bien a) (surface a) (nb_pieces a) (nb_chambres a)
    (etage a) (description a) (occupation a) (photos a) (documents a)
    (date_vente a) (heure_vente a) v (mise_a_prix a) (tribunal a)
    (avocat_nom a) (avocat_cabinet a) (avocat_adresse a)
    (avocat_telephone a) (avocat_email a) (pv_url a).

Definition set_mise_a_prix (a : Auction) (v : option Q) : Auction :=
  mkAuction (source a) (url a) (adresse a) (code_postal a) (ville a)
    (department a) (type_bien a) (surface a) (nb_pieces a) (nb_chambres a)
    (etage a) (description a) (occupation a) (photos a) (documents a)
    (date_vente a) (heure_vente a) (dates_visite a) v (tribunal a)
    (avocat_nom a) (avocat_cabinet a) (avocat_adresse a)
    (avocat_telephone a) (avocat_email a) (pv_url a).

Definition set_tribunal (a : Auction) (v : string) : Auction :=
  mkAuction (source a) (url a) (adresse a) (code_postal a) (ville a)
    (department a) (type_bien a) (surface a) (nb_pieces a) (nb_chambres a)
    (etage a) (description a) (occupation a) (photos a) (documents a)
    (date_vente a) (heure_vente a) (dates_visite a) (mise_a_prix a) v
    (avocat_nom a) (avocat_cabinet a) (avocat_adresse a)
    (avocat_telephone a) (avocat_email a) (pv_url a).

Definition set_avocat_nom (a : Auction) (v : option string) : Auction :=
  mkAuction (source a) (url a) (adresse a) (code_postal a) (ville a)
    (department a) (type_bien a) (surface a) (nb_pieces a) (nb_chambres a)
    (etage a) (description a) (occupation a) (photos a) (documents a)
    (date_vente a) (heure_vente a) (dates_visite a) (mise_a_prix a)
    (tribunal a) v (avocat_cabinet a) (avocat_adresse a)
    (avocat_telephone a) (avocat_email a) (pv_url a).

Definition set_avocat_cabinet (a : Auction) (v : option string) : Auction :=
  mkAuction (source a) (url a) (adresse a) (code_postal a) (ville a)
    (department a) (type_bien a) (surface a) (nb_pieces a) (nb_chambres a)
    (etage a) (description a) (occupation a) (photos a) (documents a)
    (date_vente a) (heure_vente a) (dates_visite a) (mise_a_prix a)
    (tribunal a) (avocat_nom a) v (avocat_adresse a) (avocat_telephone a)
    (avocat_email a) (pv_url a).

Definition set_avocat_adresse (a : Auction) (v : option string) : Auction :=
  mkAuction (source a) (url a) (adresse a) (code_postal a) (ville a)
    (department a) (type_bien a) (surface a) (nb_pieces a) (nb_chambres a)
    (etage a) (description a) (occupation a) (photos a) (documents a)
    (date_vente a) (heure_vente a) (dates_visite a) (mise_a_prix a)
    (tribunal a) (avocat_nom a) (avocat_cabinet a) v (avocat_telephone a)
    (avocat_email a) (pv_url a).

Definition set_avocat_telephone (a : Auction) (v : option string) : Auction :=
  mkAuction (source a) (url a) (adresse a) (code_postal a) (ville a)
    (department a) (type_bien a) (surface a) (nb_pieces a) (nb_chambres a)
    (etage a) (description a) (occupation a) (photos a) (documents a)
    (date_vente a) (heure_vente a) (dates_visite a) (mise_a_prix a)
    (tribunal a) (avocat_nom a) (avocat_cabinet a) (avocat_adresse a) v
    (avocat_email a) (pv_url a).

Definition set_avocat_email (a : Auction) (v : option string) : Auction :=
  mkAuction (source a) (url a) (adresse a) (code_postal a) (ville a)
    (department a) (type_bien a) (surface a) (nb_pieces a) (nb_chambres a)
    (etage a) (description a) (occupation a) (photos a) (documents a)
    (date_vente a) (heure_vente a) (dates_visite a) (mise_a_prix a)
    (tribunal a) (avocat_nom a) (avocat_cabinet a) (avocat_adresse a)
    (avocat_telephone a) v (pv_url a).

Definition set_pv_url (a : Auction) (v : option string) : Auction :=
  mkAuction (source a) (url a) (adresse a) (code_postal a) (ville a)
    (department a) (type_bien a) (surface a) (nb_pieces a) (nb_chambres a)
    (etage a) (description a) (occupation a) (photos a) (documents a)
    (date_vente a) (heure_vente a) (dates_visite a) (mise_a_prix a)
    (tribunal a) (avocat_nom a) (avocat_cabinet a) (avocat_adresse a)
    (avocat_telephone a) (avocat_email a) v.

(** [Auction()]: the dataclass defaults. *)
Definition default_auction : Auction :=
  {| source := EmptyString; url := EmptyString; adresse := EmptyString;
     code_postal := EmptyString; ville := EmptyString;
     department := EmptyString; type_bien := Some AUTRE;
     surface := None; nb_pieces := None; nb_chambres := None; etage := None;
     description := EmptyString; occupation := EmptyString;
     photos := []; documents := [];
     date_vente := None; heure_vente := None; dates_visite := [];
     mise_a_prix := None; tribunal := EmptyString;
     avocat_nom := None; avocat_cabinet := None; avocat_adresse := None;
     avocat_telephone := None; avocat_email := None; pv_url := None |}.

(** The values that [getattr] yields on an [Auction]. *)
Inductive value :=
| VNone
| VStr (s : string)
| VFloat (x : Q)
| VInt (n : Z)
| VDate (d : Z)
| VType (t : PropertyType)
| VPhotos (l : list string)
| VDocuments (l : list document).

Definition of_str (s : string) : value := VStr s.

Definition of_opt {A} (inj : A -> value) (x : option A) : value :=
  match x with
  | Some a => inj a
  | None => VNone
  end.

(** [getattr(auction, field, None)]. *)
Definition getattr (a : Auction) (field : string) : value :=
  if String.eqb field "adresse" then VStr (adresse a)
  else if String.eqb field "code_postal" then VStr (code_postal a)
  else if String.eqb field "ville" then VStr (ville a)
  else if String.eqb field "department" then VStr (department a)
  else if String.eqb field "type_bien" then of_opt VType (type_bien a)
  else if String.eqb field "surface" then of_opt VFloat (surface a)
  else if String.eqb field "nb_pieces" then of_opt VInt (nb_pieces a)
  else if String.eqb field "nb_chambres" then of_opt VInt (nb_chambres a)
  else if String.eqb field "etage" then of_opt VInt (etage a)
  else if String.eqb field "description" then VStr (description a)
  else if String.eqb field "occupation" then VStr (occupation a)
  else if String.eqb field "mise_a_prix" then of_opt VFloat (mise_a_prix a)
  else if String.eqb field "date_vente" then of_opt VDate (date_vente a)
  else if String.eqb field "heure_vente" then of_opt VStr (heure_vente a)
  else if String.eqb field "tribunal" then VStr (tribunal a)
  else if String.eqb field "avocat_nom" then of_opt VStr (avocat_nom a)
  else if String.eqb field "avocat_cabinet" then
    of_opt VStr (avocat_cabinet a)
  else if String.eqb field "avocat_telephone" then
    of_opt VStr (avocat_telephone a)
  else if String.eqb field "avocat_email" then of_opt VStr (avocat_email a)
  else if String.eqb field "avocat_adresse" then
    of_opt VStr (avocat_adresse a)
  else if String.eqb field "pv_url" then of_opt VStr (pv_url a)
  else if String.eqb field "photos" then VPhotos (photos a)
  else if String.eqb field "documents" then VDocuments (documents a)
  else VNone.

(** [setattr(auction, field, v)] for a value [v] of the type that the
    dataclass declares for [field]; the merge only stores values read from
    the same field. *)
Definition setattr (a : Auction) (field : string) (v : value) : Auction :=
  match v with
  | VNone => a
  | VStr s =>
      if String.eqb field "adresse" then set_adresse a s
      else if String.eqb field "code_postal" then set_code_postal a s
      else if String.eqb field "ville" then set_ville a s
      else if String.eqb field "department" then set_department a s
      else if String.eqb field "description" then set_description a s
      else if String.eqb field "occupation" then set_occupation a s
      else if String.eqb field "heure_vente" then set_heure_vente a (Some s)
      else if String.eqb field "tribunal" then set_tribunal a s
      else if String.eqb field "avocat_nom" then set_avocat_nom a (Some s)
      else if String.eqb field "avocat_cabinet" then
        set_avocat_cabinet a (Some s)
      else if String.eqb field "avocat_telephone" then
        set_avocat_telephone a (Some s)
      else if String.eqb field "avocat_email" then
        set_avocat_email a (Some s)
      else if String.eqb field "avocat_adresse" then
        set_avocat_adresse a (Some s)
      else if String.eqb field "pv_url" then set_pv_url a (Some s)
      else a
  | VFloat x =>
      if String.eqb field "surface" then set_surface a (Some x)
      else if String.eqb field "mise_a_prix" then set_mise_a_prix a (Some x)
      else a
  | VInt n =>
      if String.eqb field "nb_pieces" then set_nb_pieces a (Some n)
      else if String.eqb field "nb_chambres" then set_nb_chambres a (Some n)
      else if String.eqb field "etage" then set_etage a (Some n)
      else a
  | VDate d =>
      if String.eqb field "date_vente" then set_date_vente a (Some d) else a
  | VType t =>
      if String.eqb field "type_bien" then set_type_bien a (Some t) else a
  | VPhotos l => if String.eqb field "photos" then set_photos a l else a
  | VDocuments l =>
      if String.eqb field "documents" then set_documents a l else a
  end.

(** [bool(v)]. *)
Definition truthy (v : value) : bool :=
  match v with
  | VNone => false
  | VStr s => Py.truthy_str s
  | VFloat x => negb (Qeq_bool x 0)
  | VInt n => negb (n =? 0)%Z
  | VDate _ => true
  | VType _ => true
  | VPhotos l => match l with [] => false | _ => true end
  | VDocuments l => match l with [] => false | _ => true end
  end.

Fixpoint list_eqb {A} (eqb : A -> A -> bool) (l1 l2 : list A) : bool :=
  match l1, l2 with
  | [], [] => true
  | x :: r1, y :: r2 => eqb x y && list_eqb eqb r1 r2
  | _, _ => false
  end.

(** [d1 == d2] on dicts: the same keys with the same values, in any
    order. *)
Definition document_eqb (d1 d2 : document) : bool :=
  (length d1 =? length d2)%nat
  && forallb (fun kv =>
                match PyStr.lookup (fst kv) d2 with
                | Some v => String.eqb (snd kv) v
                | None => false
                end) d1.

(** [v1 == v2]. *)
Definition value_eqb (v1 v2 : value) : bool :=
  match v1, v2 with
  | VNone, VNone => true
  | VStr a, VStr b => String.eqb a b
  | VFloat a, VFloat b => Qeq_bool a b
  | VInt a, VInt b => (a =? b)%Z
  | VFloat a, VInt b => Qeq_bool a (inject_Z b)
  | VInt a, VFloat b => Qeq_bool (inject_Z a) b
  | VDate a, VDate b => (a =? b)%Z
  | VType a, VType b => PropertyType_eqb a b
  | VPhotos a, VPhotos b => list_eqb String.eqb a b
  | VDocuments a, VDocuments b => list_eqb document_eqb a b
  | VPhotos [], VDocuments [] | VDocuments [], VPhotos [] => true
  | _, _ => false
  end.

(** [ValidationResult]. *)
Record ValidationResult := mkValidationResult {
  merged_auction : Auction;
  sources_matched : list string;
  fields_from_source : list (string * string);
  confidence : Q;
  validation_notes : list string
}.

(** [CrossValidator.POSTAL_CODES]. *)
Definition POSTAL_CODES : list (string * string) :=
  [ ("paris", "75001"); ("paris 1er", "75001"); ("paris 2eme", "75002");
    ("paris 3eme", "75003"); ("paris 4eme", "75004");
    ("paris 5eme", "75005"); ("paris 6eme", "75006");
    ("paris 7eme", "75007"); ("paris 8eme", "75008");
    ("paris 9eme", "75009"); ("paris 10eme", "75010");
    ("paris 11eme", "75011"); ("paris 12eme", "75012");
    ("paris 13eme", "75013"); ("paris 14eme", "75014");
    ("paris 15eme", "75015"); ("paris 16eme", "75016");
    ("paris 17eme", "75017"); ("paris 18eme", "75018");
    ("paris 19eme", "75019"); ("paris 20eme", "75020");
    ("boulogne-billancourt", "92100"); ("nanterre", "92000");
    ("courbevoie", "92400"); ("colombes", "92700");
    ("asnieres-sur-seine", "92600"); ("rueil-malmaison", "92500");
    ("levallois-perret", "92300"); ("issy-les-moulineaux", "92130");
    ("neuilly-sur-seine", "92200"); ("antony", "92160");
    ("clamart", "92140"); ("montrouge", "92120"); ("meudon", "92190");
    ("suresnes", "92150"); ("puteaux", "92800");
    ("gennevilliers", "92230"); ("clichy", "92110"); ("malakoff", "92240");
    ("vanves", "92170"); ("chatillon", "92320"); ("bagneux", "92220");
    ("fontenay-aux-roses", "92260"); ("le plessis-robinson", "92350");
    ("sceaux", "92330"); ("bourg-la-reine", "92340");
    ("chatenay-malabry", "92290"); ("saint-denis", "93200");
    ("montreuil", "93100"); ("aubervilliers", "93300");
    ("aulnay-sous-bois", "93600"); ("drancy", "93700");
    ("noisy-le-grand", "93160"); ("pantin", "93500"); ("bondy", "93140");
    ("epinay-sur-seine", "93800"); ("sevran", "93270");
    ("le blanc-mesnil", "93150"); ("bobigny", "93000");
    ("saint-ouen", "93400"); ("rosny-sous-bois", "93110");
    ("livry-gargan", "93190"); ("la courneuve", "93120");
    ("bagnolet", "93170"); ("le pre-saint-gervais", "93310");
    ("les lilas", "93260"); ("romainville", "93230");
    ("noisy-le-sec", "93130"); ("villepinte", "93420");
    ("tremblay-en-france", "93290"); ("stains", "93240");
    ("creteil", "94000"); ("vitry-sur-seine", "94400");
    ("saint-maur-des-fosses", "94100"); ("champigny-sur-marne", "94500");
    ("ivry-sur-seine", "94200"); ("maisons-alfort", "94700");
    ("fontenay-sous-bois", "94120"); ("villejuif", "94800");
    ("vincennes", "94300"); ("alfortville", "94140");
    ("choisy-le-roi", "94600"); ("le kremlin-bicetre", "94270");
    ("cachan", "94230"); ("charenton-le-pont", "94220");
    ("nogent-sur-marne", "94130"); ("joinville-le-pont", "94340");
    ("saint-mande", "94160"); ("thiais", "94320"); ("orly", "94310");
    ("gentilly", "94250"); ("arcueil", "94110"); ("fresnes", "94260");
    ("le perreux-sur-marne", "94170"); ("bry-sur-marne", "94360");
    ("sucy-en-brie", "94370") ].

(** [CITIES_BY_POSTAL = {v: k for k, v in POSTAL_CODES.items()}]. *)
Definition CITIES_BY_POSTAL : list (string * string) :=
  map (fun kv => (snd kv, fst kv)) POSTAL_CODES.

(** The table [replacements] of [_normalize_text], written with code points:
    accented letters to their base letter, hyphen and apostrophe to a
    space. *)
Definition replacements : list (ascii * ascii) :=
  [ ("233", "e"); ("232", "e"); ("234", "e"); ("235", "e");
    ("224", "a"); ("226", "a"); ("228", "a");
    ("249", "u"); ("251", "u"); ("252", "u");
    ("244", "o"); ("246", "o");
    ("238", "i"); ("239", "i");
    ("231", "c");
    ("-", " "); ("'", " ") ]%char.

(** [CrossValidator._normalize_text]. *)
Definition _normalize_text (text : string) : string :=
  if negb (Py.truthy_str text) then EmptyString
  else
    let text := PyStr.strip (PyStr.lower text) in
    let text := PyStr.sub_spaces false text in
    fold_left (fun t r => PyStr.replace_char (fst r) (snd r) t)
              replacements text.

(** A raised [ZeroDivisionError] is [None]; [x <- e ;; k] stops at it. *)
Notation "x <- e ;; k" :=
  (match e with Some x => k | None => None end)
  (at level 61, e at next level, right associativity).

Definition Qlt_bool (x y : Q) : bool := negb (Qle_bool y x).

Definition fields_to_merge : list string :=
  [ "adresse"; "code_postal"; "ville"; "department";
    "type_bien"; "surface"; "nb_pieces"; "nb_chambres"; "etage";
    "description"; "occupation";
    "mise_a_prix"; "date_vente"; "heure_vente"; "tribunal";
    "avocat_nom"; "avocat_cabinet"; "avocat_telephone"; "avocat_email";
    "avocat_adresse";
    "pv_url"; "photos"; "documents" ].

(** [field_name in [...]]. *)
Definition field_in (field_name : string) (names : list string) : bool :=
  existsb (String.eqb field_name) names.

(** The deduplication loop of the list branch of [_pick_best_value]. *)
Fixpoint unique_by {A} (key : A -> string) (seen : list string)
  (items : list A) : list A :=
  match items with
  | [] => []
  | item :: rest =>
      if existsb (String.eqb (key item)) seen then unique_by key seen rest
      else item :: unique_by key (key item :: seen) rest
  end.

(** [sorted(set(dates))]. *)
Fixpoint insert_date (d : Z) (l : list Z) : list Z :=
  match l with
  | [] => [d]
  | x :: r =>
      if (d <? x)%Z then d :: l
      else if (d =? x)%Z then l
      else x :: insert_date d r
  end.

Definition sorted_set (dates : list Z) : list Z :=
  fold_right insert_date [] dates.

(** [key in d]. *)
Definition is_some {A} (x : option A) : bool :=
  match x with
  | Some _ => true
  | None => false
  end.

(** [l.append(x)]. *)
Definition append {A} (l : list A) (x : A) : list A := (l ++ [x])%list.

(** [a or b] on strings. *)
Definition str_or (a b : string) : string :=
  if Py.truthy_str a then a else b.

Section Validator.

(** [SequenceMatcher(None, a, b).ratio()] from [difflib]. *)
Variable ratio : string -> string -> Q.

(** [str(v)] for a value that is not a string, and [str(d)] for a
    document. *)
Variable repr : value -> string.
Variable repr_document : document -> string.

(** [str(v)]. *)
Definition py_str (v : value) : string :=
  match v with
  | VStr s => s
  | _ => repr v
  end.

(** [CrossValidator._similarity]. *)
Definition _similarity (a b : string) : Q :=
  if negb (Py.truthy_str a) || negb (Py.truthy_str b) then 0
  else ratio (_normalize_text a) (_normalize_text b).

(** The blocks of [_match_auctions]; each takes and returns the pair
    [(score, weights)]. *)

(** "Same date de vente (strong indicator)". *)
Definition date_signal (auction1 auction2 : Auction) (acc : Q * Q) : Q * Q :=
  match date_vente auction1, date_vente auction2 with
  | Some d1, Some d2 =>
      (if (d1 =? d2)%Z then fst acc + (3 # 10) else fst acc,
       snd acc + (3 # 10))
  | _, _ => acc
  end.

(** "Same tribunal". *)
Definition tribunal_signal (auction1 auction2 : Auction) (acc : Q * Q)
  : Q * Q :=
  if Py.truthy_str (tribunal auction1) && Py.truthy_str (tribunal auction2)
  then
    (if Qlt_bool (7 # 10) (_similarity (tribunal auction1) (tribunal auction2))
     then fst acc + (15 # 100) else fst acc,
     snd acc + (15 # 100))
  else acc.

(** The test of a numeric block on two true values: the division raises
    when their mean is zero. *)
Definition relative_signal (x1 x2 limit weight : Q) (acc : Q * Q)
  : option (Q * Q) :=
  let diff := Qabs (x1 - x2) in
  let avg := (x1 + x2) / 2 in
  if Qeq_bool avg 0 then None
  else
    Some (if Qlt_bool (diff / avg) limit then fst acc + weight else fst acc,
          snd acc + weight).

(** "Similar price (within 10%)". *)
Definition price_signal (auction1 auction2 : Auction) (acc : Q * Q)
  : option (Q * Q) :=
  if Py.truthy_float (mise_a_prix auction1)
     && Py.truthy_float (mise_a_prix auction2)
  then
    match mise_a_prix auction1, mise_a_prix auction2 with
    | Some p1, Some p2 => relative_signal p1 p2 (1 # 10) (2 # 10) acc
    | _, _ => Some acc
    end
  else Some acc.

(** "Same city". *)
Definition ville_signal (auction1 auction2 : Auction) (acc : Q * Q) : Q * Q :=
  if Py.truthy_str (ville auction1) && Py.truthy_str (ville auction2) then
    (if Qlt_bool (8 # 10) (_similarity (ville auction1) (ville auction2))
     then fst acc + (15 # 100) else fst acc,
     snd acc + (15 # 100))
  else acc.

(** "Same property type". *)
Definition type_signal (auction1 auction2 : Auction) (acc : Q * Q) : Q * Q :=
  match type_bien auction1, type_bien auction2 with
  | Some t1, Some t2 =>
      (if PropertyType_eqb t1 t2 then fst acc + (1 # 10) else fst acc,
       snd acc + (1 # 10))
  | _, _ => acc
  end.

(** "Similar surface (within 5%)". *)
Definition surface_signal (auction1 auction2 : Auction) (acc : Q * Q)
  : option (Q * Q) :=
  if Py.truthy_float (surface auction1) && Py.truthy_float (surface auction2)
  then
    match surface auction1, surface auction2 with
    | Some s1, Some s2 => relative_signal s1 s2 (5 # 100) (1 # 10) acc
    | _, _ => Some acc
    end
  else Some acc.

(** [CrossValidator._match_auctions]. *)
Definition _match_auctions (auction1 auction2 : Auction) : option Q :=
  let acc := (0, 0) in
  let acc := date_signal auction1 auction2 acc in
  let acc := tribunal_signal auction1 auction2 acc in
  acc <- price_signal auction1 auction2 acc ;;
  let acc := ville_signal auction1 auction2 acc in
  let acc := type_signal auction1 auction2 acc in
  acc <- surface_signal auction1 auction2 acc ;;
  Some (if Qlt_bool 0 (snd acc) then fst acc / snd acc else 0).

(** [CrossValidator._pick_best_value]; the result is the pair
    [(value, source_name)].  The attributes hold values of their declared
    types: strings in the text and city branches, two lists of the same
    kind in the list branch. *)
Definition _pick_best_value (val1 val2 : value) (source1 source2 : string)
  (field_name : string) : value * string :=
  if negb (truthy val1) && negb (truthy val2) then (VNone, EmptyString)
  else if truthy val1 && negb (truthy val2) then (val1, source1)
  else if truthy val2 && negb (truthy val1) then (val2, source2)
  else if field_in field_name ["adresse"; "description"; "avocat_adresse"]
  then
    if (String.length (py_str val2) <? String.length (py_str val1))%nat
    then (val1, source1)
    else (val2, source2)
  else if field_in field_name ["code_postal"] then
    let v1_valid := PyStr.match_five_digits (py_str val1) in
    let v2_valid := PyStr.match_five_digits (py_str val2) in
    if v1_valid && negb v2_valid then (val1, source1)
    else if v2_valid && negb v1_valid then (val2, source2)
    else (val1, source1)
  else if field_in field_name ["ville"] then
    let v1_known :=
      is_some (PyStr.lookup (_normalize_text (py_str val1)) POSTAL_CODES) in
    let v2_known :=
      is_some (PyStr.lookup (_normalize_text (py_str val2)) POSTAL_CODES) in
    if v1_known && negb v2_known then (val1, source1)
    else if v2_known && negb v1_known then (val2, source2)
    else if (String.length (py_str val2) <? String.length (py_str val1))%nat
    then (val1, source1)
    else if (String.length (py_str val1) <? String.length (py_str val2))%nat
    then (val2, source2)
    else (val2, source2)
  else if field_in field_name
            ["surface"; "nb_pieces"; "nb_chambres"; "mise_a_prix"] then
    if truthy val1 && (negb (truthy val2) || value_eqb val2 (VInt 0))
    then (val1, source1)
    else if truthy val2 && (negb (truthy val1) || value_eqb val1 (VInt 0))
    then (val2, source2)
    else (val1, source1)
  else if field_in field_name ["photos"; "documents"] then
    let unique :=
      match val1, val2 with
      | VPhotos l1, VPhotos l2 =>
          VPhotos (unique_by (fun s => s) [] (l1 ++ l2)%list)
      | VDocuments l1, VDocuments l2 =>
          VDocuments (unique_by repr_document [] (l1 ++ l2)%list)
      | _, _ => val1
      end in
    (unique, source1 ++ "+" ++ source2)
  else (val1, source1).

(** The four blocks of [_enrich_from_postal], each on the auction as
    updated so far and the list [changes] so far. *)

(** "If we have postal code but no city". *)
Definition infer_ville (st : Auction * list string) : Auction * list string :=
  let (auction, changes) := st in
  if Py.truthy_str (code_postal auction) && negb (Py.truthy_str (ville auction))
  then
    match PyStr.lookup (code_postal auction) CITIES_BY_POSTAL with
    | Some city =>
        if Py.truthy_str city then
          let auction := set_ville auction (PyStr.title city) in
          (auction,
           append changes
             ("ville inferred from postal code: " ++ ville auction))
        else (auction, changes)
    | None => (auction, changes)
    end
  else (auction, changes).

(** "If we have city but no postal code". *)
Definition infer_code_postal (st : Auction * list string)
  : Auction * list string :=
  let (auction, changes) := st in
  if Py.truthy_str (ville auction) && negb (Py.truthy_str (code_postal auction))
  then
    let city_norm := _normalize_text (ville auction) in
    match PyStr.match_marseille city_norm with
    | Some group =>
        let district := PyStr.int_of_digits 0 group in
        let auction :=
          set_code_postal auction ("130" ++ PyStr.format_02d district) in
        (auction,
         append changes
           ("postal code inferred from Marseille district: "
            ++ code_postal auction))
    | None =>
        match PyStr.lookup city_norm POSTAL_CODES with
        | Some cp =>
            let auction := set_code_postal auction cp in
            (auction,
             append changes
               ("postal code inferred from city: " ++ code_postal auction))
        | None => (auction, changes)
        end
    end
  else (auction, changes).

(** "Validate city matches postal code - CORRECT if mismatch". *)
Definition correct_ville (st : Auction * list string) : Auction * list string :=
  let (auction, changes) := st in
  if Py.truthy_str (code_postal auction) && Py.truthy_str (ville auction)
  then
    match PyStr.lookup (code_postal auction) CITIES_BY_POSTAL with
    | Some expected_city =>
        if Py.truthy_str expected_city then
          let ville_norm := _normalize_text (ville auction) in
          let expected_norm := _normalize_text expected_city in
          if negb (String.eqb ville_norm expected_norm)
             && Qlt_bool (_similarity ville_norm expected_norm) (6 # 10)
          then
            let old_ville := ville auction in
            let auction := set_ville auction (PyStr.title expected_city) in
            (auction,
             append changes
               ("ville corrected from '" ++ old_ville ++ "' to '"
                ++ ville auction ++ "' (based on postal code "
                ++ code_postal auction ++ ")"))
          else (auction, changes)
        else (auction, changes)
    | None => (auction, changes)
    end
  else (auction, changes).

(** "Infer department from postal code". *)
Definition infer_department (st : Auction * list string)
  : Auction * list string :=
  let (auction, changes) := st in
  if Py.truthy_str (code_postal auction)
     && negb (Py.truthy_str (department auction))
  then
    let auction :=
      set_department auction (PyStr.take 2 (code_postal auction)) in
    (auction, append changes ("department inferred: " ++ department auction))
  else (auction, changes).

(** [CrossValidator._enrich_from_postal]: the auction after the in-place
    updates, and the returned list of changes. *)
Definition _enrich_from_postal (auction : Auction) : Auction * list string :=
  infer_department
    (correct_ville (infer_code_postal (infer_ville (auction, [])))).

(** The state of the field loop of [merge_auctions]:
    [merged], [fields_from], [notes]. *)
Definition merge_state : Type :=
  Auction * list (string * string) * list string.

(** [fields_from[field] = best_source]. *)
Definition dict_set (d : list (string * string)) (k v : string)
  : list (string * string) := append d (k, v).

(** The body of the loop [for field in fields_to_merge]. *)
Definition merge_field (auction1 auction2 : Auction) (source1 source2 : string)
  (st : merge_state) (field : string) : merge_state :=
  let '(merged, fields_from, notes) := st in
  let val1 := getattr auction1 field in
  let val2 := getattr auction2 field in
  let (best_val, best_source) :=
    _pick_best_value val1 val2 source1 source2 field in
  match best_val with
  | VNone => (merged, fields_from, notes)
  | _ =>
      let merged := setattr merged field best_val in
      if Py.truthy_str best_source then
        let fields_from := dict_set fields_from field best_source in
        if negb (value_eqb val1 val2) && truthy val1 && truthy val2 then
          (merged, fields_from,
           append notes
             (field ++ ": picked '" ++ py_str best_val ++ "' from "
              ++ best_source ++ " over '"
              ++ py_str (if String.eqb best_source source2 then val1
                         else val2)
              ++ "'"))
        else (merged, fields_from, notes)
      else (merged, fields_from, notes)
  end.

(** The record [merged] of [merge_auctions] just before the enrichment, with
    the provenance map and the notes of the field loop. *)
Definition merge_fields (auction1 auction2 : Auction) : merge_state :=
  let source1 := str_or (source auction1) "source1" in
  let source2 := str_or (source auction2) "source2" in
  let merged := default_auction in
  let merged := set_source merged (source1 ++ "+" ++ source2) in
  let merged := set_url merged (str_or (url auction1) (url auction2)) in
  let '(merged, fields_from, notes) :=
    fold_left (merge_field auction1 auction2 source1 source2)
              fields_to_merge (merged, [], []) in
  let all_dates := (dates_visite auction1 ++ dates_visite auction2)%list in
  let merged := set_dates_visite merged (sorted_set all_dates) in
  let fields_from :=
    match dates_visite auction1, dates_visite auction2 with
    | _ :: _, _ :: _ =>
        dict_set fields_from "dates_visite" (source1 ++ "+" ++ source2)
    | _, _ => fields_from
    end in
  (merged, fields_from, notes).

(** [sum(1 for f in fields if cond(f))]. *)
Definition count_fields (cond : string -> bool) (fields : list string) : Q :=
  inject_Z (Z.of_nat (length (filter cond fields))).

(** [CrossValidator.merge_auctions]. *)
Definition merge_auctions (auction1 auction2 : Auction) : ValidationResult :=
  let source1 := str_or (source auction1) "source1" in
  let source2 := str_or (source auction2) "source2" in
  let '(merged, fields_from, notes) := merge_fields auction1 auction2 in
  let (merged, enrichment_notes) := _enrich_from_postal merged in
  let notes := (notes ++ enrichment_notes)%list in
  let agreement_count :=
    count_fields
      (fun f => truthy (getattr auction1 f) && truthy (getattr auction2 f)
                && value_eqb (getattr auction1 f) (getattr auction2 f))
      fields_to_merge in
  let total_fields :=
    count_fields (fun f => truthy (getattr merged f)) fields_to_merge in
  let confidence :=
    if Qlt_bool 0 total_fields then agreement_count / total_fields
    else 1 # 2 in
  {| merged_auction := merged;
     sources_matched := [source1; source2];
     fields_from_source := fields_from;
     confidence := confidence;
     validation_notes := notes |}.

(** One match of [find_matches]: [(a1, a2, score)], with the positions of
    [a1] and [a2] in their lists, which stand for the identities [id(a1)]
    and [id(a2)] (each list holds distinct objects). *)
Record match_found := mkMatch {
  index1 : nat; matched1 : Auction;
  index2 : nat; matched2 : Auction;
  match_score : Q
}.

(** The inner loop of [find_matches]: [best] is [(best_idx, best_match)]. *)
Fixpoint best_candidate (a1 : Auction) (threshold : Q) (used_indices : list nat)
  (idx : nat) (auctions_source2 : list Auction)
  (best : option (nat * Auction)) (best_score : Q)
  : option (option (nat * Auction) * Q) :=
  match auctions_source2 with
  | [] => Some (best, best_score)
  | a2 :: rest =>
      if existsb (Nat.eqb idx) used_indices then
        best_candidate a1 threshold used_indices (S idx) rest best best_score
      else
        score <- _match_auctions a1 a2 ;;
        if Qlt_bool best_score score && Qle_bool threshold score then
          best_candidate a1 threshold used_indices (S idx) rest
                         (Some (idx, a2)) score
        else
          best_candidate a1 threshold used_indices (S idx) rest
                         best best_score
  end.

(** The outer loop of [find_matches], from position [i1] of the first
    list. *)
Fixpoint find_matches_from (i1 : nat) (auctions_source1 auctions_source2 : list Auction)
  (threshold : Q) (used_indices : list nat) : option (list match_found) :=
  match auctions_source1 with
  | [] => Some []
  | a1 :: rest =>
      found <- best_candidate a1 threshold used_indices 0
                              auctions_source2 None 0 ;;
      match fst found with
      | Some (best_idx, best_match) =>
          matches <- find_matches_from (S i1) rest auctions_source2 threshold
                                       (best_idx :: used_indices) ;;
          Some (mkMatch i1 a1 best_idx best_match (snd found) :: matches)
      | None =>
          find_matches_from (S i1) rest auctions_source2 threshold
                            used_indices
      end
  end.

(** [CrossValidator.find_matches]. *)
Definition find_matches (auctions_source1 auctions_source2 : list Auction)
  (threshold : Q) : option (list match_found) :=
  find_matches_from 0 auctions_source1 auctions_source2 threshold [].

(** The auctions of a list whose position is not in [matched]. *)
Fixpoint unmatched_from (i : nat) (auctions : list Auction) (matched : list nat)
  : list Auction :=
  match auctions with
  | [] => []
  | a :: rest =>
      if existsb (Nat.eqb i) matched then unmatched_from (S i) rest matched
      else a :: unmatched_from (S i) rest matched
  end.

(** [CrossValidator.validate_and_merge_all]: the returned list. *)
Definition validate_and_merge_all (auctions_source1 auctions_source2 : list Auction)
  (threshold : Q) : option (list Auction) :=
  matches <- find_matches auctions_source1 auctions_source2 threshold ;;
  let results :=
    map (fun m => merged_auction (merge_auctions (matched1 m) (matched2 m)))
        matches in
  let matched_from_s1 := map index1 matches in
  let matched_from_s2 := map index2 matches in
  let results :=
    (results
     ++ map (fun a => fst (_enrich_from_postal a))
            (unmatched_from 0 auctions_source1 matched_from_s1))%list in
  let results :=
    (results
     ++ map (fun a => fst (_enrich_from_postal a))
            (unmatched_from 0 auctions_source2 matched_from_s2))%list in
  Some results.

(** [cross_validate], with the default threshold. *)
Definition cross_validate (licitor_auctions encheres_auctions : list Auction)
  : option (list Auction) :=
  validate_and_merge_all licitor_auctions encheres_auctions (1 # 2).

End Validator.

End CrossValidator.
(** ** [cross_validator.py]: the pipeline on objects

    [validate_and_merge_all] tells the matched listings from the others by
    [id(a)], the identity of the object.  A list of listings is modelled
    here as a list of references: each carries the identity of the object
    and the values of its attributes when the pipeline starts.  One object
    may occur more than once in a list, or in both lists.  The enrichment
    of an unmatched listing is done in place; it writes the same values
    however often it runs on an object, so the record returned for the
    object holds the values of one enrichment. *)

Module CrossValidatorObjects.

Import CrossValidator.

Record Ref := mkRef {
  object_id : nat;
  object : Auction
}.

(** [id(l[i])]. *)
Definition id_at (l : list Ref) (i : nat) : nat :=
  match nth_error l i with
  | Some r => object_id r
  | None => 0%nat
  end.

(** [[a for a in l if id(a) not in matched]]. *)
Definition not_matched (matched : list nat) (l : list Ref) : list Ref :=
  filter (fun r => negb (existsb (Nat.eqb (object_id r)) matched)) l.

Section Validator.

Variable ratio : string -> string -> Q.
Variable repr : value -> string.
Variable repr_document : document -> string.

(** [CrossValidator.validate_and_merge_all]: the returned list. *)
Definition validate_and_merge_all (auctions_source1 auctions_source2 : list Ref)
  (threshold : Q) : option (list Auction) :=
  matches <- find_matches ratio (map object auctions_source1)
                          (map object auctions_source2) threshold ;;
  let results :=
    map (fun m =>
           merged_auction (merge_auctions ratio repr repr_document
                                          (matched1 m) (matched2 m)))
        matches in
  let matched_from_s1 :=
    map (fun m => id_at auctions_source1 (index1 m)) matches in
  let matched_from_s2 :=
    map (fun m => id_at auctions_source2 (index2 m)) matches in
  let results :=
    (results
     ++ map (fun r => fst (_enrich_from_postal ratio (object r)))
            (not_matched matched_from_s1 auctions_source1))%list in
  let results :=
    (results
     ++ map (fun r => fst (_enrich_from_postal ratio (object r)))
            (not_matched matched_from_s2 auctions_source2))%list in
  Some results.

End Validator.

End CrossValidatorObjects.

From Stdlib Require Import Qround Lqa.

(** ** [price_sources/dvf_source.py]: [DVFPriceSource.get_price_estimate] *)

Module DVFPriceSource.

Import PriceSources.

Local Open Scope string_scope.

(** [round(x, 0)] on a float: the nearest integer, a tie going to the even
    one. *)
Definition round0 (x : Q) : Q :=
  let f := Qfloor x in
  let r := x - inject_Z f in
  if Qlt_le_dec r (1 # 2) then inject_Z f
  else if Qlt_le_dec (1 # 2) r then inject_Z (f + 1)
  else if Z.even f then inject_Z f
  else inject_Z (f + 1).

(** [str(n)] for a length. *)
Definition str_nat (n : nat) : string :=
  NilZero.string_of_uint (Nat.to_uint n).

Definition SOURCE_URL : string := "https://app.dvf.etalab.gouv.fr/".

(** The properties [source_type] and [source_name]. *)
Definition source_type : SourceType := DVF.
Definition source_name : string := "DVF (Transactions officielles)".

Definition type_mapping : list (string * string) :=
  [ ("appartement", "Appartement");
    ("maison", "Maison");
    ("local_commercial", "Local");
    ("parking", "D" ++ String "233"%char "pendance");
    ("terrain", "Terrain") ].

(** [[t.date_mutation for t in transactions if t.date_mutation]]. *)
Fixpoint mutation_dates (transactions : list DVFSource.DVFTransaction)
  : list Z :=
  match transactions with
  | [] => []
  | t :: rest =>
      match DVFSource.date_mutation t with
      | Some d => d :: mutation_dates rest
      | None => mutation_dates rest
      end
  end.

(** [min(dates)] on a non-empty list. *)
Definition min_date (d : Z) (rest : list Z) : Z := fold_left Z.min rest d.

Section Source.

(** [self._client.find_comparable_sales(code_postal=..., surface=...,
    type_local=..., tolerance_percent=..., months=..., limit=...)];
    [None] when the call raises. *)
Variable find_comparable_sales :
  string -> Q -> string -> Q -> Z -> Z ->
  option (list DVFSource.DVFTransaction).

(** [date.today()], as a day ordinal. *)
Variable today : Z.

(** [DVFPriceSource.get_price_estimate]. *)
Definition get_price_estimate (code_postal ville type_bien : string)
  (surface : option Q) : option PriceEstimate :=
  if negb (Py.truthy_str code_postal) then None
  else
    let type_local :=
      match PyStr.lookup (PyStr.lower type_bien) type_mapping with
      | Some t => t
      | None => "Appartement"
      end in
    let surface_ref :=
      match surface with
      | Some s => if Py.truthy_float surface then s else 60
      | None => 60
      end in
    let tolerance := 30 # 100 in
    match find_comparable_sales code_postal surface_ref type_local
                                (tolerance * 100) 24 50 with
    | None => None
    | Some [] => None
    | Some transactions =>
        let valid_prices := DVFSource.valid_prices transactions in
        if (length valid_prices <? DVFSource.MIN_COMPARABLES)%nat then
          Some {| PriceSources.source_type := source_type;
                  PriceSources.source_name := source_name;
                  prix_m2 := None;
                  prix_total := None;
                  nb_data_points := Z.of_nat (length valid_prices);
                  date_range_days := 0;
                  geographic_match := EmptyString;
                  source_url := Some SOURCE_URL;
                  notes :=
                    "Donn" ++ String "233"%char "es insuffisantes ("
                    ++ str_nat (length valid_prices) ++ " transactions)" |}
        else
          let median_price :=
            DVFSource.median_price (DVFSource.sort valid_prices) in
          let date_range :=
            match mutation_dates transactions with
            | d :: rest => (today - min_date d rest)%Z
            | [] => 730%Z
            end in
          Some {| PriceSources.source_type := source_type;
                  PriceSources.source_name := source_name;
                  prix_m2 := Some (round0 median_price);
                  prix_total :=
                    if Py.truthy_float surface
                    then Some (round0 (median_price * surface_ref))
                    else None;
                  nb_data_points := Z.of_nat (length valid_prices);
                  date_range_days := date_range;
                  geographic_match := "commune";
                  source_url := Some SOURCE_URL;
                  notes :=
                    "M" ++ String "233"%char "diane de "
                    ++ str_nat (length valid_prices)
                    ++ " transactions sur 24 mois" |}
    end.

End Source.

End DVFPriceSource.

From Stdlib Require Import Qpower.

(** ** Floating-point arithmetic

    A Python [float] is an IEEE 754 binary64 number.  A finite float is
    modelled here by the rational number it denotes, and every arithmetic
    operation returns the exact result rounded to the nearest float, a tie
    going to the float with the even significand.  Overflow and subnormal
    results (magnitudes from 2^1024 or below 2^-1022) are outside the
    model. *)

Module Binary64.

(** The position of the leading bit of a non-zero [x]: the [e] with
    [2^e <= |x| < 2^(e+1)]. *)
Definition exponent (x : Q) : Z :=
  let k := (Z.log2 (Z.abs (Qnum x)) - Z.log2 (Zpos (Qden x)))%Z in
  if Qle_bool (2 ^ k) (Qabs x) then k else (k - 1)%Z.

(** The float nearest to [x]: [x] is scaled to a significand of 53 bits,
    which is rounded to the nearest integer, ties to even. *)
Definition round (x : Q) : Q :=
  if Qeq_bool x 0 then 0
  else
    let ulp := 2 ^ (exponent x - 52) in
    DVFPriceSource.round0 (x / ulp) * ulp.

(** [x + y], [x - y], [x * y] and [x / y] on floats ([y] non-zero). *)
Definition add (x y : Q) : Q := round (x + y).
Definition sub (x y : Q) : Q := round (x - y).
Definition mul (x y : Q) : Q := round (x * y).
Definition div (x y : Q) : Q := round (x / y).

(** [sum(xs)] on floats, as CPython computes it up to version 3.11: the
    start value is the integer [0], so the first addition returns the first
    float unchanged, and the others are float additions from left to
    right. *)
Definition sum (xs : list Q) : Q :=
  match xs with
  | [] => 0
  | x :: rest => fold_left add rest x
  end.

(** The unit roundoff [2^-53]: the relative error of one rounding is at most
    this. *)
Definition unit_roundoff : Q := 1 # 9007199254740992.

(** [x ^ n]. *)
Fixpoint power (x : Q) (n : nat) : Q :=
  match n with
  | O => 1
  | S k => x * power x k
  end.

End Binary64.

(** ** [price_sources/base.py], lines 106-129, on floats *)

Module CombinerBinary64.

Import PriceSources.

(** The fields of [MultiSourceEstimate] that [add_estimate] and lines
    112-129 of [_recalculate] read and write.  The breakdown by source type
    and the reliability (lines 131-181) are computed from them afterwards
    and do not feed back. *)
Record PriceRange := mkPriceRange {
  estimates : list PriceEstimate;
  prix_m2_combined : option Q;
  prix_m2_min : option Q;
  prix_m2_max : option Q
}.

(** The dataclass defaults. *)
Definition empty : PriceRange :=
  {| estimates := [];
     prix_m2_combined := None;
     prix_m2_min := None;
     prix_m2_max := None |}.

Section Combiner.

(** The built-in [sum] on a list of floats.  [Binary64.sum] is the one of
    CPython up to version 3.11; later versions add with a compensation
    term. *)
Variable sum : list Q -> Q.

(** Lines 119-126.  The confidence scores are floats with whole values, and
    [len(prices)] is converted to a float without rounding. *)
Definition combined_price (valid : list PriceEstimate) : Q :=
  let prices := map price valid in
  let weights := map confidence_score valid in
  if Qlt_le_dec 0 (sum weights) then
    Binary64.div
      (sum (map (fun pw => Binary64.mul (fst pw) (snd pw))
                (combine prices weights)))
      (sum weights)
  else
    Binary64.div (sum prices) (Py.len prices).

(** Lines 112-129 of [MultiSourceEstimate._recalculate]. *)
Definition _recalculate (m : PriceRange) : PriceRange :=
  let valid := valid_estimates (estimates m) in
  match valid with
  | [] => m
  | _ :: _ =>
      let prices := map price valid in
      {| estimates := estimates m;
         prix_m2_combined := Some (combined_price valid);
         prix_m2_min := Py.min_list prices;
         prix_m2_max := Py.max_list prices |}
  end.

(** [MultiSourceEstimate.add_estimate]. *)
Definition add_estimate (m : PriceRange) (e : PriceEstimate) : PriceRange :=
  if Py.truthy_float (PriceSources.prix_m2 e) then
    _recalculate
      {| estimates := estimates m ++ [e];
         prix_m2_combined := prix_m2_combined m;
         prix_m2_min := prix_m2_min m;
         prix_m2_max := prix_m2_max m |}
  else m.

(** A sequence of [add_estimate] calls on a fresh [MultiSourceEstimate()]. *)
Definition add_all (es : list PriceEstimate) : PriceRange :=
  fold_left add_estimate es empty.

End Combiner.

End CombinerBinary64.
(** ** [analysis/multi_source_analyzer.py] *)

Module MultiSourceAnalyzer.

Import PriceSources.

Local Open Scope string_scope.

(** [DetailedPriceAnalysis], without [analyzed_at]. *)
Record DetailedPriceAnalysis := mkDetailedPriceAnalysis {
  code_postal : string;
  ville : string;
  type_bien : string;
  surface : option Q;
  estimate : MultiSourceEstimate;
  prix_m2_recommended : option Q;
  prix_total_estimated : option Q;
  mise_a_prix : option Q;
  decote_vs_market : option Q;
  reliability : ReliabilityLevel;
  reliability_score : Q;
  analysis_notes : list string;
  warnings : list string
}.

(** What a call of [source.get_price_estimate] does: it returns an optional
    estimate, or raises an exception [e], kept as [str(e)]. *)
Inductive outcome :=
| Returned (estimate : option PriceEstimate)
| Raised (message : string).

(** The interface [PriceSource], as [analyze] uses it. *)
Record PriceSource := mkPriceSource {
  source_name : string;
  get_price_estimate : string -> string -> string -> option Q -> outcome
}.

(** [MultiSourceAnalyzer]: the list [self._sources]. *)
Record MultiSourceAnalyzer := mkMultiSourceAnalyzer {
  _sources : list PriceSource
}.

Definition set_estimate (a : DetailedPriceAnalysis) (v : MultiSourceEstimate)
  : DetailedPriceAnalysis :=
  mkDetailedPriceAnalysis (code_postal a) (ville a) (type_bien a) (surface a)
    v (prix_m2_recommended a) (prix_total_estimated a) (mise_a_prix a)
    (decote_vs_market a) (reliability a) (reliability_score a)
    (analysis_notes a) (warnings a).

Definition set_prix_m2_recommended (a : DetailedPriceAnalysis) (v : option Q)
  : DetailedPriceAnalysis :=
  mkDetailedPriceAnalysis (code_postal a) (ville a) (type_bien a) (surface a)
    (estimate a) v (prix_total_estimated a) (mise_a_prix a)
    (decote_vs_market a) (reliability a) (reliability_score a)
    (analysis_notes a) (warnings a).

Definition set_prix_total_estimated (a : DetailedPriceAnalysis) (v : option Q)
  : DetailedPriceAnalysis :=
  mkDetailedPriceAnalysis (code_postal a) (ville a) (type_bien a) (surface a)
    (estimate a) (prix_m2_recommended a) v (mise_a_prix a)
    (decote_vs_market a) (reliability a) (reliability_score a)
    (analysis_notes a) (warnings a).

Definition set_decote_vs_market (a : DetailedPriceAnalysis) (v : option Q)
  : DetailedPriceAnalysis :=
  mkDetailedPriceAnalysis (code_postal a) (ville a) (type_bien a) (surface a)
    (estimate a) (prix_m2_recommended a) (prix_total_estimated a)
    (mise_a_prix a) v (reliability a) (reliability_score a)
    (analysis_notes a) (warnings a).

Definition set_reliability (a : DetailedPriceAnalysis) (v : ReliabilityLevel)
  : DetailedPriceAnalysis :=
  mkDetailedPriceAnalysis (code_postal a) (ville a) (type_bien a) (surface a)
    (estimate a) (prix_m2_recommended a) (prix_total_estimated a)
    (mise_a_prix a) (decote_vs_market a) v (reliability_score a)
    (analysis_notes a) (warnings a).

Definition set_reliability_score (a : DetailedPriceAnalysis) (v : Q)
  : DetailedPriceAnalysis :=
  mkDetailedPriceAnalysis (code_postal a) (ville a) (type_bien a) (surface a)
    (estimate a) (prix_m2_recommended a) (prix_total_estimated a)
    (mise_a_prix a) (decote_vs_market a) (reliability a) v
    (analysis_notes a) (warnings a).

(** [analysis.analysis_notes.append(s)] and [analysis.warnings.append(s)]. *)
Definition add_note (a : DetailedPriceAnalysis) (s : string)
  : DetailedPriceAnalysis :=
  mkDetailedPriceAnalysis (code_postal a) (ville a) (type_bien a) (surface a)
    (estimate a) (prix_m2_recommended a) (prix_total_estimated a)
    (mise_a_prix a) (decote_vs_market a) (reliability a)
    (reliability_score a) (analysis_notes a ++ [s])%list (warnings a).

Definition add_warning (a : DetailedPriceAnalysis) (s : string)
  : DetailedPriceAnalysis :=
  mkDetailedPriceAnalysis (code_postal a) (ville a) (type_bien a) (surface a)
    (estimate a) (prix_m2_recommended a) (prix_total_estimated a)
    (mise_a_prix a) (decote_vs_market a) (reliability a)
    (reliability_score a) (analysis_notes a) (warnings a ++ [s])%list.

(** [DetailedPriceAnalysis(code_postal=..., ville=..., type_bien=...,
    surface=..., mise_a_prix=...)]. *)
Definition new_analysis (code_postal ville type_bien : string)
  (surface mise_a_prix : option Q) : DetailedPriceAnalysis :=
  {| code_postal := code_postal;
     ville := ville;
     type_bien := type_bien;
     surface := surface;
     estimate := PriceSources.empty;
     prix_m2_recommended := None;
     prix_total_estimated := None;
     mise_a_prix := mise_a_prix;
     decote_vs_market := None;
     reliability := INSUFFICIENT;
     reliability_score := 0;
     analysis_notes := [];
     warnings := [] |}.

(** The fixed texts of the warnings. *)
Definition no_source_warning : string :=
  "Aucune source de donn" ++ String "233"%char "es disponible".

Definition low_reliability_warning : string :=
  "Fiabilit" ++ String "233"%char
    " faible - peu de donn" ++ String "233"%char
    "es ou sources en d" ++ String "233"%char "saccord".

Definition insufficient_warning : string :=
  "Donn" ++ String "233"%char "es insuffisantes pour une estimation fiable".

Definition ReliabilityLevel_eqb (a b : ReliabilityLevel) : bool :=
  match a, b with
  | HIGH, HIGH | MEDIUM, MEDIUM | LOW, LOW | INSUFFICIENT, INSUFFICIENT =>
      true
  | _, _ => false
  end.

Section Analyzer.

(** The float operation [x ** 0.5]. *)
Variable pow_half : Q -> Q.

(** The formats [f"{x:,.0f}"] and [f"{x:.0f}"] of a float, [str(n)] of an
    integer, and the one-character string of the euro sign, whose code point
    is above 255. *)
Variable format_thousands : Q -> string.
Variable format_0f : Q -> string.
Variable str_int : Z -> string.
Variable euro : string.

(** The body of the loop [for source in self._sources] of [analyze]. *)
Definition collect (code_postal ville type_bien : string) (surface : option Q)
  (analysis : DetailedPriceAnalysis) (source : PriceSource)
  : DetailedPriceAnalysis :=
  match get_price_estimate source code_postal ville type_bien surface with
  | Returned (Some estimate) =>
      match prix_m2 estimate with
      | Some p =>
          if Py.truthy_float (prix_m2 estimate) then
            let analysis :=
              set_estimate analysis
                (add_estimate pow_half (MultiSourceAnalyzer.estimate analysis)
                              estimate) in
            add_note analysis
              (source_name source ++ ": " ++ format_thousands p ++ " "
               ++ euro ++ "/m" ++ String "178"%char " ("
               ++ str_int (nb_data_points estimate) ++ " donn"
               ++ String "233"%char "es, confiance: "
               ++ format_0f (confidence_score estimate) ++ "%)")
          else
            add_note analysis
              (source_name source ++ ": Donn" ++ String "233"%char
               "es insuffisantes")
      | None =>
          add_note analysis
            (source_name source ++ ": Donn" ++ String "233"%char
             "es insuffisantes")
      end
  | Returned None =>
      add_note analysis
        (source_name source ++ ": Donn" ++ String "233"%char
         "es insuffisantes")
  | Raised message =>
      add_warning analysis
        ("Erreur " ++ source_name source ++ ": " ++ message)
  end.

(** The notes "about source agreement" of [_generate_recommendation];
    formatting a null bound raises [TypeError], which is [None]. *)
Definition agreement_notes (analysis : DetailedPriceAnalysis)
  : option DetailedPriceAnalysis :=
  let estimate := MultiSourceAnalyzer.estimate analysis in
  if (2 <=? length (estimates estimate))%nat then
    if Qle_bool 80 (sources_agreement estimate) then
      Some (add_note analysis
              ("Sources en accord ("
               ++ format_0f (sources_agreement estimate) ++ "%)"))
    else if Qle_bool 50 (sources_agreement estimate) then
      Some (add_note analysis
              ("Accord mod" ++ String "233"%char "r"
               ++ String "233"%char " entre sources ("
               ++ format_0f (sources_agreement estimate) ++ "%)"))
    else
      match prix_m2_min estimate, prix_m2_max estimate with
      | Some lo, Some hi =>
          Some (add_warning analysis
                  ("D" ++ String "233"%char "saccord entre sources ("
                   ++ format_0f (sources_agreement estimate) ++ "%) - "
                   ++ "plage: " ++ format_thousands lo ++ " - "
                   ++ format_thousands hi ++ " " ++ euro ++ "/m"
                   ++ String "178"%char EmptyString))
      | _, _ => None
      end
  else Some analysis.

(** "Reliability warnings" of [_generate_recommendation]. *)
Definition reliability_warnings (analysis : DetailedPriceAnalysis)
  : DetailedPriceAnalysis :=
  if ReliabilityLevel_eqb (reliability analysis) LOW then
    add_warning analysis low_reliability_warning
  else if ReliabilityLevel_eqb (reliability analysis) INSUFFICIENT then
    add_warning analysis insufficient_warning
  else analysis.

(** [MultiSourceAnalyzer._generate_recommendation]. *)
Definition _generate_recommendation (analysis : DetailedPriceAnalysis)
  : option DetailedPriceAnalysis :=
  let estimate := MultiSourceAnalyzer.estimate analysis in
  match estimates estimate with
  | [] => Some (add_warning analysis no_source_warning)
  | _ :: _ =>
      let analysis :=
        match prix_m2_combined estimate with
        | Some combined =>
            if Py.truthy_float (prix_m2_combined estimate) then
              let analysis :=
                set_prix_m2_recommended analysis
                  (Some (DVFPriceSource.round0 combined)) in
              match surface analysis with
              | Some s =>
                  if Py.truthy_float (surface analysis) then
                    set_prix_total_estimated analysis
                      (Some (DVFPriceSource.round0
                               (DVFPriceSource.round0 combined * s)))
                  else analysis
              | None => analysis
              end
            else analysis
        | None => analysis
        end in
      match agreement_notes analysis with
      | Some analysis => Some (reliability_warnings analysis)
      | None => None
      end
  end.

(** "Compare with auction price" of [analyze]; the division raises
    [ZeroDivisionError] on a zero market value, which is [None]. *)
Definition compare_with_auction (mise_a_prix surface : option Q)
  (analysis : DetailedPriceAnalysis) : option DetailedPriceAnalysis :=
  if Py.truthy_float mise_a_prix
     && Py.truthy_float (prix_m2_recommended analysis)
     && Py.truthy_float surface
  then
    match mise_a_prix, prix_m2_recommended analysis, surface with
    | Some m, Some recommended, Some s =>
        let market_value := recommended * s in
        if Qeq_bool market_value 0 then None
        else
          Some (set_decote_vs_market analysis
                  (Some ((market_value - m) / market_value * 100)))
    | _, _, _ => Some analysis
    end
  else Some analysis.

(** [MultiSourceAnalyzer.analyze]; [None] when an exception leaves it. *)
Definition analyze (self : MultiSourceAnalyzer)
  (code_postal ville type_bien : string) (surface mise_a_prix : option Q)
  : option DetailedPriceAnalysis :=
  let analysis :=
    new_analysis code_postal ville type_bien surface mise_a_prix in
  let analysis :=
    fold_left (collect code_postal ville type_bien surface)
              (_sources self) analysis in
  match _generate_recommendation analysis with
  | Some analysis =>
      match compare_with_auction mise_a_prix surface analysis with
      | Some analysis =>
          let analysis :=
            set_reliability analysis
              (PriceSources.reliability
                 (MultiSourceAnalyzer.estimate analysis)) in
          let analysis :=
            set_reliability_score analysis
              (PriceSources.reliability_score
                 (MultiSourceAnalyzer.estimate analysis)) in
          Some analysis
      | None => None
      end
  | None => None
  end.

End Analyzer.

End MultiSourceAnalyzer.

(** ** [analysis/dvf_client.py]: search and comparable sales *)

Module DVFSearchParams.

(** [DVFSearchParams]. *)
Record DVFSearchParams := mkDVFSearchParams {
  code_postal : option string;
  commune : option string;
  department : option string;
  type_local : option string;
  date_min : option Z;
  date_max : option Z;
  prix_min : option Q;
  prix_max : option Q;
  surface_min : option Q;
  surface_max : option Q
}.

End DVFSearchParams.

Module DVFClient.

Local Open Scope string_scope.

(** [DVFTransaction] ([storage/models.py]) with the fields that the search
    reads; dates are day ordinals. *)
Record DVFTransaction := mkDVFTransaction {
  date_mutation : option Z;
  valeur_fonciere : Q;
  code_postal : string;
  commune : string;
  type_local : string;
  surface_reelle : option Q;
  prix_m2 : option Q
}.

(** The same transaction as [DVFPriceSource] reads it. *)
Definition as_priced (t : DVFTransaction) : DVFSource.DVFTransaction :=
  DVFSource.mkDVFTransaction (date_mutation t) (valeur_fonciere t)
    (surface_reelle t) (prix_m2 t).

(** [DEPARTMENTS] ([config/settings.py]). *)
Definition DEPARTMENTS : list string := ["75"; "92"; "93"; "94"].

(** [date.min], as a day ordinal. *)
Definition date_min_ordinal : Z := 1.

(** [a in b] on strings. *)
Fixpoint contains (a b : string) : bool :=
  if String.prefix a b then true
  else
    match b with
    | EmptyString => false
    | String _ r => contains a r
    end.

(** Truth value of an [Optional[str]]. *)
Definition truthy_opt_str (s : option string) : bool :=
  match s with
  | Some s => Py.truthy_str s
  | None => false
  end.

Definition Qlt_bool (x y : Q) : bool := negb (Qle_bool y x).

(** [DVFClient._matches_criteria]. *)
Definition _matches_criteria (t : DVFTransaction)
  (params : DVFSearchParams.DVFSearchParams) : bool :=
  if match DVFSearchParams.code_postal params with
     | Some cp => Py.truthy_str cp && negb (String.eqb (code_postal t) cp)
     | None => false
     end
  then false
  else if match DVFSearchParams.commune params with
          | Some c =>
              Py.truthy_str c
              && negb (contains (PyStr.lower c) (PyStr.lower (commune t)))
          | None => false
          end
  then false
  else if match DVFSearchParams.type_local params with
          | Some ty =>
              Py.truthy_str ty
              && negb (contains (PyStr.lower ty)
                                (PyStr.lower (type_local t)))
          | None => false
          end
  then false
  else if match DVFSearchParams.date_min params, date_mutation t with
          | Some lo, Some d => (d <? lo)%Z
          | _, _ => false
          end
  then false
  else if match DVFSearchParams.date_max params, date_mutation t with
          | Some hi, Some d => (hi <? d)%Z
          | _, _ => false
          end
  then false
  else if match DVFSearchParams.prix_min params with
          | Some lo =>
              Py.truthy_float (Some lo) && Qlt_bool (valeur_fonciere t) lo
          | None => false
          end
  then false
  else if match DVFSearchParams.prix_max params with
          | Some hi =>
              Py.truthy_float (Some hi) && Qlt_bool hi (valeur_fonciere t)
          | None => false
          end
  then false
  else if match DVFSearchParams.surface_min params, surface_reelle t with
          | Some lo, Some s =>
              Py.truthy_float (Some lo) && Py.truthy_float (Some s)
              && Qlt_bool s lo
          | _, _ => false
          end
  then false
  else if match DVFSearchParams.surface_max params, surface_reelle t with
          | Some hi, Some s =>
              Py.truthy_float (Some hi) && Py.truthy_float (Some s)
              && Qlt_bool hi s
          | _, _ => false
          end
  then false
  else true.

(** [transactions.sort(key=lambda t: t.date_mutation or date.min,
    reverse=True)]: descending, and stable. *)
Definition sort_key (t : DVFTransaction) : Z :=
  match date_mutation t with
  | Some d => d
  | None => date_min_ordinal
  end.

Fixpoint insert (x : DVFTransaction) (l : list DVFTransaction)
  : list DVFTransaction :=
  match l with
  | [] => [x]
  | y :: r =>
      if (sort_key y <=? sort_key x)%Z then x :: l else y :: insert x r
  end.

Definition sort (l : list DVFTransaction) : list DVFTransaction :=
  fold_right insert [] l.

(** [l[:limit]]. *)
Definition slice_to {A} (limit : Z) (l : list A) : list A :=
  if (limit <? 0)%Z then firstn (Z.to_nat (Z.of_nat (length l) + limit)) l
  else firstn (Z.to_nat limit) l.

Section Client.

(** [self.load_data(department)]: the transactions of the files of a
    department. *)
Variable load_data : string -> list DVFTransaction.

(** [date.today()], as a day ordinal. *)
Variable today : Z.

(** [DVFClient.search]. *)
Definition search (params : DVFSearchParams.DVFSearchParams)
  : list DVFTransaction :=
  let all_data :=
    match DVFSearchParams.department params with
    | Some dept =>
        if Py.truthy_str dept then load_data dept
        else
          match DVFSearchParams.code_postal params with
          | Some cp =>
              if Py.truthy_str cp then load_data (PyStr.take 2 cp)
              else flat_map load_data DEPARTMENTS
          | None => flat_map load_data DEPARTMENTS
          end
    | None =>
        match DVFSearchParams.code_postal params with
        | Some cp =>
            if Py.truthy_str cp then load_data (PyStr.take 2 cp)
            else flat_map load_data DEPARTMENTS
        | None => flat_map load_data DEPARTMENTS
        end
    end in
  filter (fun t => _matches_criteria t params) all_data.

(** [DVFClient.find_comparable_sales].  The two surface bounds are float
    computations, rounded at each operation. *)
Definition find_comparable_sales (code_postal : string) (surface : Q)
  (type_local : string) (tolerance_percent : Q) (months limit : Z)
  : list DVFTransaction :=
  let date_min := (today - months * 30)%Z in
  let surface_min :=
    Binary64.mul surface
                 (Binary64.sub 1 (Binary64.div tolerance_percent 100)) in
  let surface_max :=
    Binary64.mul surface
                 (Binary64.add 1 (Binary64.div tolerance_percent 100)) in
  let params :=
    {| DVFSearchParams.code_postal := Some code_postal;
       DVFSearchParams.commune := None;
       DVFSearchParams.department := None;
       DVFSearchParams.type_local := Some type_local;
       DVFSearchParams.date_min := Some date_min;
       DVFSearchParams.date_max := None;
       DVFSearchParams.prix_min := None;
       DVFSearchParams.prix_max := None;
       DVFSearchParams.surface_min := Some surface_min;
       DVFSearchParams.surface_max := Some surface_max |} in
  let transactions := search params in
  slice_to limit (sort transactions).

End Client.

End DVFClient.

(** * Properties of the price sources *)

Section ConfidenceScore.

Import PriceSources.

(** Field updates used to vary one input of the score at a time. *)
Definition with_nb_data_points (e : PriceEstimate) (n : Z) : PriceEstimate :=
  {| source_type := source_type e; source_name := source_name e;
     prix_m2 := prix_m2 e; prix_total := prix_total e;
     nb_data_points := n; date_range_days := date_range_days e;
     geographic_match := geographic_match e;
     source_url := source_url e; notes := notes e |}.

Definition with_date_range_days (e : PriceEstimate) (d : Z) : PriceEstimate :=
  {| source_type := source_type e; source_name := source_name e;
     prix_m2 := prix_m2 e; prix_total := prix_total e;
     nb_data_points := nb_data_points e; date_range_days := d;
     geographic_match := geographic_match e;
     source_url := source_url e; notes := notes e |}.

Definition with_geographic_match (e : PriceEstimate) (g : string)
  : PriceEstimate :=
  {| source_type := source_type e; source_name := source_name e;
     prix_m2 := prix_m2 e; prix_total := prix_total e;
     nb_data_points := nb_data_points e;
     date_range_days := date_range_days e;
     geographic_match := g;
     source_url := source_url e; notes := notes e |}.

(** Splits every threshold test of [confidence_score] and closes the
    resulting numeric goals. *)
Ltac score_cases :=
  unfold confidence_score; cbn [nb_data_points date_range_days geographic_match
    with_nb_data_points with_date_range_days with_geographic_match];
  repeat match goal with
  | |- context [String.eqb (String ?c ?s) ?b] =>
      let v := eval vm_compute in (String.eqb (String c s) b) in
      change (String.eqb (String c s) b) with v; cbv iota
  | |- context [Z.leb ?a ?b] => destruct (Z.leb_spec a b)
  | |- context [String.eqb ?a ?b] => destruct (String.eqb a b)
  end;
  try lia;
  repeat split; try (unfold Qle; cbn; lia).

Lemma confidence_score_range (e : PriceEstimate) :
  0 <= confidence_score e <= 100.
Proof. score_cases. Qed.

Lemma confidence_score_mono_samples (e : PriceEstimate) (n1 n2 : Z) :
  (n1 <= n2)%Z ->
  confidence_score (with_nb_data_points e n1)
  <= confidence_score (with_nb_data_points e n2).
Proof. intros H. score_cases. Qed.

Lemma confidence_score_mono_age (e : PriceEstimate) (d1 d2 : Z) :
  (d1 <= d2)%Z ->
  confidence_score (with_date_range_days e d2)
  <= confidence_score (with_date_range_days e d1).
Proof. intros H. score_cases. Qed.

Lemma confidence_score_precision (e : PriceEstimate) :
  confidence_score (with_geographic_match e "department")
  <= confidence_score (with_geographic_match e "commune")
  /\ confidence_score (with_geographic_match e "commune")
     <= confidence_score (with_geographic_match e "exact").
Proof. score_cases. Qed.

(** C6.  The confidence score lies in [0,100]; with the other two inputs
    fixed it does not decrease when the sample count grows, it does not
    decrease when the data gets younger, and precision "exact" scores at
    least "commune", which scores at least "department". *)
Theorem confidence_score_bounded_monotone
  (e : PriceEstimate) (n1 n2 d1 d2 : Z)
  (Hn : (n1 <= n2)%Z) (Hd : (d1 <= d2)%Z) :
  0 <= confidence_score e <= 100
  /\ confidence_score (with_nb_data_points e n1)
     <= confidence_score (with_nb_data_points e n2)
  /\ confidence_score (with_date_range_days e d2)
     <= confidence_score (with_date_range_days e d1)
  /\ confidence_score (with_geographic_match e "department")
     <= confidence_score (with_geographic_match e "commune")
  /\ confidence_score (with_geographic_match e "commune")
     <= confidence_score (with_geographic_match e "exact").
Proof.
  split; [apply confidence_score_range|].
  split; [apply confidence_score_mono_samples; exact Hn|].
  split; [apply confidence_score_mono_age; exact Hd|].
  apply confidence_score_precision.
Qed.

End ConfidenceScore.

(** ** Sums, minima and maxima of float lists *)

Section FloatLists.

Lemma fold_left_Qplus_acc (l : list Q) (a : Q) :
  fold_left Qplus l a == a + fold_right Qplus 0 l.
Proof.
  revert a. induction l as [|x l IH]; intros a; cbn.
  - ring.
  - rewrite IH. ring.
Qed.

Lemma sum_cons (x : Q) (l : list Q) : Py.sum (x :: l) == x + Py.sum l.
Proof.
  unfold Py.sum. cbn. rewrite !fold_left_Qplus_acc. ring.
Qed.

Lemma sum_nil : Py.sum [] == 0.
Proof. reflexivity. Qed.

Lemma sum_app (l1 l2 : list Q) : Py.sum (l1 ++ l2) == Py.sum l1 + Py.sum l2.
Proof.
  induction l1 as [|x l1 IH]; cbn [app].
  - rewrite sum_nil. ring.
  - rewrite !sum_cons, IH. ring.
Qed.

Lemma sum_nonneg (l : list Q) :
  Forall (fun x => 0 <= x) l -> 0 <= Py.sum l.
Proof.
  induction 1 as [|x l Hx _ IH].
  - rewrite sum_nil. apply Qle_refl.
  - rewrite sum_cons.
    setoid_replace 0 with (0 + 0) at 1 by ring.
    apply Qplus_le_compat; assumption.
Qed.

(** A sum of non-negative terms is zero exactly when every term is. *)
Lemma sum_nonneg_zero (l : list Q) :
  Forall (fun x => 0 <= x) l ->
  (Py.sum l == 0 <-> Forall (fun x => x == 0) l).
Proof.
  induction 1 as [|x l Hx Hl IH].
  - split; [constructor | reflexivity].
  - rewrite sum_cons. split.
    + intros H. pose proof (sum_nonneg l Hl) as Hs.
      assert (Hx0 : x == 0).
      { apply Qle_antisym; [|exact Hx].
        setoid_replace x with (0 - Py.sum l) by (rewrite <- H; ring).
        setoid_replace 0 with (0 - 0) at 2 by ring.
        apply Qplus_le_compat; [apply Qle_refl|].
        apply Qopp_le_compat. exact Hs. }
      constructor; [exact Hx0|].
      apply IH. rewrite Hx0 in H. rewrite <- H. ring.
    + intros H. inversion H as [|? ? H1 H2]; subst.
      apply IH in H2. rewrite H1, H2. ring.
Qed.

Lemma len_cons {A} (x : A) (l : list A) : Py.len (x :: l) == 1 + Py.len l.
Proof.
  unfold Py.len. cbn [length]. rewrite Nat2Z.inj_succ, <- Z.add_1_l.
  rewrite inject_Z_plus. reflexivity.
Qed.

Lemma len_pos {A} (x : A) (l : list A) : 0 < Py.len (x :: l).
Proof.
  unfold Py.len. cbn [length]. unfold Qlt. cbn. lia.
Qed.

(** [min(xs)] is a lower bound and [max(xs)] an upper bound of [xs]. *)
Lemma fold_min2_le (l : list Q) (a : Q) :
  fold_left Py.min2 l a <= a
  /\ Forall (fun x => fold_left Py.min2 l a <= x) l.
Proof.
  revert a. induction l as [|x l IH]; intros a; cbn [fold_left].
  - split; [apply Qle_refl | constructor].
  - destruct (IH (Py.min2 a x)) as [H1 H2].
    assert (Ha : Py.min2 a x <= a /\ Py.min2 a x <= x).
    { unfold Py.min2. destruct (Qlt_le_dec x a) as [Hlt|Hle].
      - split; [apply Qlt_le_weak; exact Hlt | apply Qle_refl].
      - split; [apply Qle_refl | exact Hle]. }
    destruct Ha as [Ha Hx]. split.
    + eapply Qle_trans; eassumption.
    + constructor; [eapply Qle_trans; eassumption | exact H2].
Qed.

Lemma fold_max2_ge (l : list Q) (a : Q) :
  a <= fold_left Py.max2 l a
  /\ Forall (fun x => x <= fold_left Py.max2 l a) l.
Proof.
  revert a. induction l as [|x l IH]; intros a; cbn [fold_left].
  - split; [apply Qle_refl | constructor].
  - destruct (IH (Py.max2 a x)) as [H1 H2].
    assert (Ha : a <= Py.max2 a x /\ x <= Py.max2 a x).
    { unfold Py.max2. destruct (Qlt_le_dec a x) as [Hlt|Hle].
      - split; [apply Qlt_le_weak; exact Hlt | apply Qle_refl].
      - split; [apply Qle_refl | exact Hle]. }
    destruct Ha as [Ha Hx]. split.
    + eapply Qle_trans; eassumption.
    + constructor; [eapply Qle_trans; eassumption | exact H2].
Qed.

Lemma min_list_lower (x : Q) (l : list Q) :
  exists lo, Py.min_list (x :: l) = Some lo
             /\ Forall (fun y => lo <= y) (x :: l).
Proof.
  eexists; split; [reflexivity|].
  destruct (fold_min2_le l x) as [H1 H2]. constructor; assumption.
Qed.

Lemma max_list_upper (x : Q) (l : list Q) :
  exists hi, Py.max_list (x :: l) = Some hi
             /\ Forall (fun y => y <= hi) (x :: l).
Proof.
  eexists; split; [reflexivity|].
  destruct (fold_max2_ge l x) as [H1 H2]. constructor; assumption.
Qed.

End FloatLists.

(** ** The combiner: [MultiSourceEstimate] *)

Section CombinerFacts.

Import PriceSources.

Variable pow_half : Q -> Q.

Lemma truthy_float_spec (x : option Q) :
  Py.truthy_float x = true <-> exists q, x = Some q /\ ~ q == 0.
Proof.
  destruct x as [q|]; cbn.
  - rewrite negb_true_iff. split.
    + intros H. exists q. split; [reflexivity|].
      intros Hq. apply Qeq_bool_iff in Hq. congruence.
    + intros (q' & Hq' & Hn). injection Hq' as <-.
      destruct (Qeq_bool q 0) eqn:E; [|reflexivity].
      apply Qeq_bool_iff in E. contradiction.
  - split; [discriminate | intros (q & Hq & _); discriminate].
Qed.

Lemma truthy_float_false (x : option Q) :
  Py.truthy_float x = false <->
  x = None \/ exists q, x = Some q /\ q == 0.
Proof.
  destruct x as [q|]; cbn.
  - rewrite negb_false_iff, Qeq_bool_iff. split.
    + intros H. right. exists q. split; [reflexivity | exact H].
    + intros [H|(q' & Hq' & H)]; [discriminate|].
      injection Hq' as <-. exact H.
  - split; [intros _; left; reflexivity | reflexivity].
Qed.

Lemma estimates_store_by_type (l : list PriceEstimate) (m : MultiSourceEstimate) :
  estimates (fold_left store_by_type l m) = estimates m
  /\ prix_m2_combined (fold_left store_by_type l m) = prix_m2_combined m
  /\ prix_m2_min (fold_left store_by_type l m) = prix_m2_min m
  /\ prix_m2_max (fold_left store_by_type l m) = prix_m2_max m.
Proof.
  revert m. induction l as [|e l IH]; intros m; cbn [fold_left].
  - repeat split.
  - destruct (IH (store_by_type m e)) as (H1 & H2 & H3 & H4).
    rewrite H1, H2, H3, H4.
    unfold store_by_type. destruct (source_type e); repeat split.
Qed.

Lemma calculate_reliability_fields (m : MultiSourceEstimate) :
  estimates (_calculate_reliability pow_half m) = estimates m
  /\ prix_m2_combined (_calculate_reliability pow_half m) = prix_m2_combined m
  /\ prix_m2_min (_calculate_reliability pow_half m) = prix_m2_min m
  /\ prix_m2_max (_calculate_reliability pow_half m) = prix_m2_max m.
Proof.
  unfold _calculate_reliability. destruct (estimates m) eqn:E; cbn; auto.
Qed.

(** The level stored by [_calculate_reliability] is the one its if-chain
    picks for the stored score and the number of estimates. *)
Lemma calculate_reliability_level (m : MultiSourceEstimate) :
  reliability (_calculate_reliability pow_half m)
  = level_of (reliability_score (_calculate_reliability pow_half m))
             (length (estimates (_calculate_reliability pow_half m))).
Proof.
  unfold _calculate_reliability. destruct (estimates m) eqn:E; cbn.
  - reflexivity.
  - reflexivity.
Qed.

Lemma recalculate_estimates (m : MultiSourceEstimate) :
  estimates (_recalculate pow_half m) = estimates m.
Proof.
  unfold _recalculate. destruct (valid_estimates (estimates m)); [reflexivity|].
  rewrite (proj1 (calculate_reliability_fields _)).
  rewrite (proj1 (estimates_store_by_type _ _)). reflexivity.
Qed.

Lemma add_estimate_estimates (m : MultiSourceEstimate) (e : PriceEstimate) :
  estimates (add_estimate pow_half m e)
  = if Py.truthy_float (prix_m2 e) then estimates m ++ [e] else estimates m.
Proof.
  unfold add_estimate. destruct (Py.truthy_float (prix_m2 e)); [|reflexivity].
  rewrite recalculate_estimates. reflexivity.
Qed.

Lemma valid_estimates_app (l1 l2 : list PriceEstimate) :
  valid_estimates (l1 ++ l2) = valid_estimates l1 ++ valid_estimates l2.
Proof. apply filter_app. Qed.

Lemma valid_estimates_idem (l : list PriceEstimate) :
  valid_estimates (valid_estimates l) = valid_estimates l.
Proof.
  unfold valid_estimates. induction l as [|e l IH]; cbn; [reflexivity|].
  destruct (Py.truthy_float (prix_m2 e)) eqn:E; cbn; [rewrite E, IH|]; auto.
Qed.

(** What a sequence of calls accumulates: the estimates with a true price,
    in call order. *)
Lemma fold_add_estimates (es : list PriceEstimate) (m : MultiSourceEstimate) :
  estimates (fold_left (add_estimate pow_half) es m)
  = estimates m ++ valid_estimates es.
Proof.
  revert m. induction es as [|e es IH]; intros m; cbn [fold_left].
  - cbn. rewrite app_nil_r. reflexivity.
  - rewrite IH, add_estimate_estimates. unfold valid_estimates. cbn [filter].
    destruct (Py.truthy_float (prix_m2 e)); [rewrite <- app_assoc|]; reflexivity.
Qed.

Lemma add_all_estimates (es : list PriceEstimate) :
  estimates (add_all pow_half es) = valid_estimates es.
Proof. unfold add_all. rewrite fold_add_estimates. reflexivity. Qed.

(** The state reached by a sequence of calls: untouched defaults while
    nothing was accumulated, otherwise the result of [_recalculate] on the
    accumulated list. *)
Definition recalculated (m : MultiSourceEstimate) : Prop :=
  exists m0,
    estimates m0 = estimates m
    /\ valid_estimates (estimates m0) <> []
    /\ m = _recalculate pow_half m0.

Lemma fold_add_state (es : list PriceEstimate) (m : MultiSourceEstimate) :
  (m = empty \/ recalculated m) ->
  let m' := fold_left (add_estimate pow_half) es m in
  m' = empty \/ recalculated m'.
Proof.
  revert m. induction es as [|e es IH]; intros m Hm; cbn [fold_left].
  - exact Hm.
  - apply IH. unfold add_estimate.
    destruct (Py.truthy_float (prix_m2 e)) eqn:E; [|exact Hm].
    right. eexists. split; [|split; [|reflexivity]].
    + rewrite recalculate_estimates. reflexivity.
    + cbn [estimates]. rewrite valid_estimates_app. unfold valid_estimates at 2.
      cbn [filter]. rewrite E. intros Habs.
      apply app_eq_nil in Habs. destruct Habs as [_ Habs]. discriminate.
Qed.

Lemma add_all_state (es : list PriceEstimate) :
  add_all pow_half es = empty \/ recalculated (add_all pow_half es).
Proof. apply fold_add_state. left. reflexivity. Qed.

End CombinerFacts.

Section Reliability.

Import PriceSources.

Variable pow_half : Q -> Q.

(** The if-chain of [_calculate_reliability], read as the four
    "iff ... otherwise" clauses of the specification. *)
Lemma level_of_spec (score : Q) (n : nat) :
  let high := 70 <= score /\ (2 <= n)%nat in
  (level_of score n = HIGH <-> high)
  /\ (level_of score n = MEDIUM <-> ~ high /\ 40 <= score)
  /\ (level_of score n = LOW <-> ~ high /\ ~ 40 <= score /\ 0 < score)
  /\ (level_of score n = INSUFFICIENT <->
      ~ high /\ ~ 40 <= score /\ ~ 0 < score).
Proof.
  cbn zeta. unfold level_of.
  destruct (Qle_bool 70 score) eqn:E70;
    [apply Qle_bool_iff in E70
    | assert (N70 : ~ 70 <= score) by (rewrite <- Qle_bool_iff; congruence)];
  (destruct (2 <=? n)%nat eqn:En;
    [apply Nat.leb_le in En | apply Nat.leb_gt in En]);
  cbn [andb];
  try (destruct (Qle_bool 40 score) eqn:E40;
    [apply Qle_bool_iff in E40
    | assert (N40 : ~ 40 <= score) by (rewrite <- Qle_bool_iff; congruence)]);
  try (destruct (Qlt_le_dec 0 score) as [P0|P0];
    [| apply Qle_not_lt in P0]);
  repeat split; intros; try discriminate; try tauto; try lia.
Qed.

Lemma add_all_level (es : list PriceEstimate) :
  reliability (add_all pow_half es)
  = level_of (reliability_score (add_all pow_half es))
             (length (estimates (add_all pow_half es))).
Proof.
  destruct (add_all_state pow_half es) as [H|(m0 & Hes & Hv & H)].
  - rewrite H. reflexivity.
  - rewrite H. unfold _recalculate.
    destruct (valid_estimates (estimates m0)) eqn:Ev; [contradiction|].
    apply calculate_reliability_level.
Qed.

(** A single very confident source: 20 samples, 100 days old, exact match. *)
Definition confident_estimate : PriceEstimate :=
  {| source_type := DVF; source_name := "DVF";
     prix_m2 := Some 3000; prix_total := None;
     nb_data_points := 20; date_range_days := 100;
     geographic_match := "exact";
     source_url := None; notes := "" |}.

Lemma single_confident_estimate_is_medium :
  length (estimates (add_all pow_half [confident_estimate])) = 1%nat
  /\ reliability_score (add_all pow_half [confident_estimate]) == 75
  /\ reliability (add_all pow_half [confident_estimate]) = MEDIUM.
Proof. repeat split. Qed.

(** C1.  After any sequence of [add_estimate] calls on a fresh
    [MultiSourceEstimate], the reliability level is [HIGH] iff the
    reliability score is at least 70 and at least two estimates were
    accumulated; otherwise [MEDIUM] iff the score is at least 40; otherwise
    [LOW] iff the score is positive; otherwise [INSUFFICIENT].  A single
    accumulated estimate is never [HIGH], and there is one whose score (75)
    clears 70 and whose level is [MEDIUM]. *)
Theorem reliability_level_gating (es : list PriceEstimate) :
  let m := add_all pow_half es in
  let score := reliability_score m in
  let n := length (estimates m) in
  let high := 70 <= score /\ (2 <= n)%nat in
  (reliability m = HIGH <-> high)
  /\ (reliability m = MEDIUM <-> ~ high /\ 40 <= score)
  /\ (reliability m = LOW <-> ~ high /\ ~ 40 <= score /\ 0 < score)
  /\ (reliability m = INSUFFICIENT <->
       ~ high /\ ~ 40 <= score /\ ~ 0 < score)
  /\ (n = 1%nat -> reliability m <> HIGH)
  /\ (exists e,
        let m1 := add_all pow_half [e] in
        length (estimates m1) = 1%nat
        /\ 70 <= reliability_score m1
        /\ reliability m1 = MEDIUM).
Proof.
  cbn zeta. rewrite add_all_level.
  pose proof (level_of_spec (reliability_score (add_all pow_half es))
                (length (estimates (add_all pow_half es)))) as H.
  cbn zeta in H. destruct H as (H1 & H2 & H3 & H4).
  repeat (split; [assumption|]). split.
  - intros Hn Hh. apply H1 in Hh. lia.
  - exists confident_estimate.
    destruct single_confident_estimate_is_medium as (A & B & C).
    repeat split; try assumption. rewrite B. unfold Qle; cbn; lia.
Qed.

End Reliability.

Section AddEstimate.

Import PriceSources.

Variable pow_half : Q -> Q.

Lemma recalculate_combined (m : MultiSourceEstimate) :
  valid_estimates (estimates m) <> [] ->
  prix_m2_combined (_recalculate pow_half m)
  = Some (combined_price (valid_estimates (estimates m)))
  /\ prix_m2_min (_recalculate pow_half m)
     = Py.min_list (map price (valid_estimates (estimates m)))
  /\ prix_m2_max (_recalculate pow_half m)
     = Py.max_list (map price (valid_estimates (estimates m))).
Proof.
  intros Hv. unfold _recalculate.
  destruct (valid_estimates (estimates m)) eqn:Ev; [contradiction|].
  destruct (calculate_reliability_fields pow_half
              (fold_left store_by_type (p :: l)
                 {| estimates := estimates m;
                    prix_m2_combined := Some (combined_price (p :: l));
                    prix_m2_min := Py.min_list (map price (p :: l));
                    prix_m2_max := Py.max_list (map price (p :: l));
                    reliability := reliability m;
                    reliability_score := reliability_score m;
                    sources_agreement := sources_agreement m;
                    dvf_estimate := dvf_estimate m;
                    listings_estimate := listings_estimate m;
                    commune_estimate := commune_estimate m;
                    analysis_notes := analysis_notes m |}))
    as (_ & H2 & H3 & H4).
  rewrite H2, H3, H4.
  match goal with
  | |- context [fold_left store_by_type ?l ?m1] =>
      destruct (estimates_store_by_type l m1) as (_ & K2 & K3 & K4)
  end.
  rewrite K2, K3, K4. repeat split.
Qed.

(** An estimate whose price is the number zero, not [None]. *)
Definition zero_price_estimate : PriceEstimate :=
  {| source_type := LISTINGS; source_name := "Annonces";
     prix_m2 := Some 0; prix_total := None;
     nb_data_points := 12; date_range_days := 1;
     geographic_match := "commune";
     source_url := None; notes := "" |}.

End AddEstimate.

(** C3, as stated, fails: an estimate whose [prix_m2] is [0.0] is non-null,
    yet [add_estimate] leaves the fresh combiner exactly as it was, with
    nothing accumulated. *)
Lemma zero_price_is_skipped :
  PriceSources.prix_m2 zero_price_estimate = Some 0
  /\ PriceSources.prix_m2 zero_price_estimate <> None
  /\ PriceSources.add_estimate (fun x => x) PriceSources.empty
       zero_price_estimate = PriceSources.empty
  /\ PriceSources.estimates
       (PriceSources.add_estimate (fun x => x) PriceSources.empty
          zero_price_estimate) = [].
Proof. repeat split. discriminate. Qed.

(** C3, amended.  [add_estimate] skips an estimate iff its price is null or
    zero (the test is [if estimate.prix_m2]): the call leaves the combiner
    unchanged exactly in that case, and an estimate with a non-null,
    non-zero price is appended to the accumulated list and enters the
    combined price. *)
Theorem add_estimate_skips_null_or_zero
  (pow_half : Q -> Q)
  (m : PriceSources.MultiSourceEstimate) (e : PriceSources.PriceEstimate) :
  let m' := PriceSources.add_estimate pow_half m e in
  let populated := exists q, PriceSources.prix_m2 e = Some q /\ ~ q == 0 in
  (m' = m <->
     PriceSources.prix_m2 e = None
     \/ exists q, PriceSources.prix_m2 e = Some q /\ q == 0)
  /\ (PriceSources.estimates m' = PriceSources.estimates m ++ [e]
      <-> populated)
  /\ (populated ->
      PriceSources.prix_m2_combined m'
      = Some (PriceSources.combined_price
                (PriceSources.valid_estimates (PriceSources.estimates m)
                 ++ [e]))).
Proof.
  cbn zeta.
  pose proof (add_estimate_estimates pow_half m e) as Hes.
  pose proof (truthy_float_spec (PriceSources.prix_m2 e)) as Ht.
  pose proof (truthy_float_false (PriceSources.prix_m2 e)) as Hf.
  assert (Hne : PriceSources.estimates m ++ [e] <> PriceSources.estimates m).
  { intros H. apply (f_equal (@length _)) in H.
    rewrite length_app in H. cbn in H. lia. }
  destruct (Py.truthy_float (PriceSources.prix_m2 e)) eqn:E.
  - assert (Hp : exists q, PriceSources.prix_m2 e = Some q /\ ~ q == 0)
      by (apply Ht; reflexivity).
    split; [|split].
    + split.
      * intros H. rewrite H in Hes. symmetry in Hes. contradiction.
      * intros H. apply Hf in H. discriminate.
    + split; [intros _; exact Hp | intros _; exact Hes].
    + intros _. unfold PriceSources.add_estimate. rewrite E.
      match goal with
      | |- context [PriceSources._recalculate _ ?m1] =>
          destruct (recalculate_combined pow_half m1) as (H & _)
      end.
      * cbn [PriceSources.estimates].
        rewrite valid_estimates_app. unfold PriceSources.valid_estimates at 2.
        cbn [filter]. rewrite E. intros Habs.
        apply app_eq_nil in Habs. destruct Habs as [_ Habs]. discriminate.
      * rewrite H. cbn [PriceSources.estimates].
        rewrite valid_estimates_app. unfold PriceSources.valid_estimates at 2.
        cbn [filter]. rewrite E. reflexivity.
  - assert (Hm : PriceSources.add_estimate pow_half m e = m)
      by (unfold PriceSources.add_estimate; rewrite E; reflexivity).
    split; [|split].
    + split; [intros _; apply Hf; reflexivity | intros _; exact Hm].
    + split.
      * intros H. rewrite Hes in H. symmetry in H. contradiction.
      * intros H. apply Ht in H. discriminate.
    + intros H. apply Ht in H. discriminate.
Qed.

(** ** Combined price: weighted average and range *)

Section CombinedPrice.

Import PriceSources.

Variable pow_half : Q -> Q.

(** The specification's formulas, written as right-to-left sums over the
    accumulated estimates. *)
Definition weighted_average (acc : list PriceEstimate) : Q :=
  fold_right (fun e s => price e * confidence_score e + s) 0 acc
  / fold_right (fun e s => confidence_score e + s) 0 acc.

Definition arithmetic_mean (acc : list PriceEstimate) : Q :=
  fold_right (fun e s => price e + s) 0 acc
  / inject_Z (Z.of_nat (length acc)).

Lemma sum_map_fold_right {A} (f : A -> Q) (l : list A) :
  Py.sum (map f l) == fold_right (fun e s => f e + s) 0 l.
Proof.
  induction l as [|x l IH]; cbn [map fold_right].
  - reflexivity.
  - rewrite sum_cons, IH. reflexivity.
Qed.

Lemma map_combine_mul {A} (f g : A -> Q) (l : list A) :
  map (fun pw => fst pw * snd pw) (combine (map f l) (map g l))
  = map (fun e => f e * g e) l.
Proof.
  induction l as [|x l IH]; cbn; [reflexivity|]. rewrite IH. reflexivity.
Qed.

Lemma confidence_scores_nonneg (l : list PriceEstimate) :
  Forall (fun x => 0 <= x) (map confidence_score l).
Proof.
  apply Forall_map, Forall_forall. intros e _.
  apply confidence_score_range.
Qed.

(** The two branches of [combined_price], by the weights. *)
Lemma combined_price_weighted (acc : list PriceEstimate) :
  (exists e, In e acc /\ ~ confidence_score e == 0) ->
  combined_price acc == weighted_average acc.
Proof.
  intros (e & He & Hne). unfold combined_price, weighted_average.
  destruct (Qlt_le_dec 0 (Py.sum (map confidence_score acc))) as [Hpos|Hle].
  - rewrite map_combine_mul, !sum_map_fold_right. reflexivity.
  - exfalso. apply Hne.
    assert (Hz : Py.sum (map confidence_score acc) == 0).
    { apply Qle_antisym; [exact Hle|].
      apply sum_nonneg, confidence_scores_nonneg. }
    apply sum_nonneg_zero in Hz; [|apply confidence_scores_nonneg].
    rewrite Forall_map, Forall_forall in Hz. apply Hz. exact He.
Qed.

Lemma combined_price_mean (acc : list PriceEstimate) :
  (forall e, In e acc -> confidence_score e == 0) ->
  combined_price acc == arithmetic_mean acc.
Proof.
  intros Hall. unfold combined_price, arithmetic_mean.
  destruct (Qlt_le_dec 0 (Py.sum (map confidence_score acc))) as [Hpos|Hle].
  - exfalso.
    assert (Hz : Py.sum (map confidence_score acc) == 0).
    { apply sum_nonneg_zero; [apply confidence_scores_nonneg|].
      rewrite Forall_map, Forall_forall. exact Hall. }
    rewrite Hz in Hpos. revert Hpos. apply Qlt_irrefl.
  - rewrite sum_map_fold_right. unfold Py.len.
    rewrite length_map. reflexivity.
Qed.

(** The combined values stored after a sequence of calls that accumulated
    something. *)
Lemma add_all_combined (es : list PriceEstimate) :
  estimates (add_all pow_half es) <> [] ->
  let acc := estimates (add_all pow_half es) in
  prix_m2_combined (add_all pow_half es) = Some (combined_price acc)
  /\ prix_m2_min (add_all pow_half es) = Py.min_list (map price acc)
  /\ prix_m2_max (add_all pow_half es) = Py.max_list (map price acc).
Proof.
  intros Hne. cbn zeta.
  destruct (add_all_state pow_half es) as [H|(m0 & Hes & Hv & H)].
  - rewrite H in Hne. contradiction.
  - destruct (recalculate_combined pow_half m0 Hv) as (H1 & H2 & H3).
    rewrite <- H in H1, H2, H3.
    assert (Hacc : valid_estimates (estimates m0)
                   = estimates (add_all pow_half es)).
    { rewrite Hes, add_all_estimates. apply valid_estimates_idem. }
    rewrite Hacc in H1, H2, H3. auto.
Qed.

(** C2.  Whenever a sequence of [add_estimate] calls has accumulated at
    least one estimate, the combined price is defined; it is the
    confidence-weighted average of the accumulated prices as soon as one
    accumulated estimate has a non-zero confidence score, and the plain
    arithmetic mean of the prices when every confidence score is zero. *)
Theorem combined_price_is_weighted_average (es : list PriceEstimate) :
  estimates (add_all pow_half es) <> [] ->
  let acc := estimates (add_all pow_half es) in
  exists c,
    prix_m2_combined (add_all pow_half es) = Some c
    /\ ((exists e, In e acc /\ ~ confidence_score e == 0) ->
        c == weighted_average acc)
    /\ ((forall e, In e acc -> confidence_score e == 0) ->
        c == arithmetic_mean acc).
Proof.
  intros Hne. cbn zeta.
  destruct (add_all_combined es Hne) as (H & _).
  eexists. split; [exact H|]. split.
  - apply combined_price_weighted.
  - apply combined_price_mean.
Qed.

End CombinedPrice.

Section CombinedRange.

Import PriceSources.

Variable pow_half : Q -> Q.

Lemma weighted_sum_lower (lo : Q) (acc : list PriceEstimate) :
  Forall (fun p => lo <= p) (map price acc) ->
  lo * Py.sum (map confidence_score acc)
  <= Py.sum (map (fun e => price e * confidence_score e) acc).
Proof.
  induction acc as [|e acc IH]; cbn [map]; intros H.
  - rewrite sum_nil. setoid_replace (lo * 0) with 0 by ring. apply Qle_refl.
  - inversion H as [|? ? He Hacc]; subst. rewrite !sum_cons.
    setoid_replace (lo * (confidence_score e + Py.sum (map confidence_score acc)))
      with (lo * confidence_score e + lo * Py.sum (map confidence_score acc))
      by ring.
    apply Qplus_le_compat; [|apply IH; exact Hacc].
    apply Qmult_le_compat_r; [exact He | apply confidence_score_range].
Qed.

Lemma weighted_sum_upper (hi : Q) (acc : list PriceEstimate) :
  Forall (fun p => p <= hi) (map price acc) ->
  Py.sum (map (fun e => price e * confidence_score e) acc)
  <= hi * Py.sum (map confidence_score acc).
Proof.
  induction acc as [|e acc IH]; cbn [map]; intros H.
  - rewrite sum_nil. setoid_replace (hi * 0) with 0 by ring. apply Qle_refl.
  - inversion H as [|? ? He Hacc]; subst. rewrite !sum_cons.
    setoid_replace (hi * (confidence_score e + Py.sum (map confidence_score acc)))
      with (hi * confidence_score e + hi * Py.sum (map confidence_score acc))
      by ring.
    apply Qplus_le_compat; [|apply IH; exact Hacc].
    apply Qmult_le_compat_r; [exact He | apply confidence_score_range].
Qed.

Lemma plain_sum_lower (lo : Q) (l : list Q) :
  Forall (fun p => lo <= p) l -> lo * Py.len l <= Py.sum l.
Proof.
  induction 1 as [|x l Hx _ IH].
  - rewrite sum_nil. unfold Py.len. cbn [length Z.of_nat].
    setoid_replace (lo * inject_Z 0) with 0 by (unfold inject_Z; ring).
    apply Qle_refl.
  - rewrite sum_cons, len_cons.
    setoid_replace (lo * (1 + Py.len l)) with (lo + lo * Py.len l) by ring.
    apply Qplus_le_compat; assumption.
Qed.

Lemma plain_sum_upper (hi : Q) (l : list Q) :
  Forall (fun p => p <= hi) l -> Py.sum l <= hi * Py.len l.
Proof.
  induction 1 as [|x l Hx _ IH].
  - rewrite sum_nil. unfold Py.len. cbn [length Z.of_nat].
    setoid_replace (hi * inject_Z 0) with 0 by (unfold inject_Z; ring).
    apply Qle_refl.
  - rewrite sum_cons, len_cons.
    setoid_replace (hi * (1 + Py.len l)) with (hi + hi * Py.len l) by ring.
    apply Qplus_le_compat; assumption.
Qed.

(** Any lower (upper) bound of the prices bounds the combined price. *)
Lemma combined_price_between (lo hi : Q) (e : PriceEstimate)
  (acc : list PriceEstimate) :
  Forall (fun p => lo <= p) (map price (e :: acc)) ->
  Forall (fun p => p <= hi) (map price (e :: acc)) ->
  lo <= combined_price (e :: acc) <= hi.
Proof.
  intros Hlo Hhi. unfold combined_price.
  destruct (Qlt_le_dec 0 (Py.sum (map confidence_score (e :: acc))))
    as [Hpos|Hle].
  - rewrite map_combine_mul. split.
    + apply Qle_shift_div_l; [exact Hpos|]. apply weighted_sum_lower, Hlo.
    + apply Qle_shift_div_r; [exact Hpos|]. apply weighted_sum_upper, Hhi.
  - assert (Hn : 0 < Py.len (map price (e :: acc))) by apply len_pos.
    split.
    + apply Qle_shift_div_l; [exact Hn|]. apply plain_sum_lower, Hlo.
    + apply Qle_shift_div_r; [exact Hn|]. apply plain_sum_upper, Hhi.
Qed.

End CombinedRange.

(** * The outlier filter and the median of the transaction adapter *)

Section Aggregation.

Import DVFSource.

(** The non-null prices of the transactions, in order: the samples. *)
Definition samples (transactions : list DVFTransaction) : list Q :=
  flat_map (fun t => match prix_m2 t with Some p => [p] | None => [] end)
           transactions.

(** [min_price <= x <= max_price]. *)
Definition in_band (x : Q) : bool :=
  Qle_bool MIN_PRICE_M2 x && Qle_bool x MAX_PRICE_M2.

(** The truth test of line 86 never removes a value of the band, since the
    lower bound is positive. *)
Lemma valid_prices_filter (ts : list DVFTransaction) :
  valid_prices ts = filter in_band (samples ts).
Proof.
  induction ts as [|t ts IH]; cbn [valid_prices samples flat_map];
    [reflexivity|].
  fold (samples ts). unfold keeps.
  destruct (prix_m2 t) as [p|]; cbn [app]; [|exact IH].
  cbn [filter]. unfold in_band at 1.
  destruct (Qle_bool MIN_PRICE_M2 p) eqn:Elo.
  - assert (Hnz : Qeq_bool p 0 = false).
    { destruct (Qeq_bool p 0) eqn:E; [|reflexivity].
      apply Qeq_bool_iff in E. apply Qle_bool_iff in Elo.
      rewrite E in Elo. unfold MIN_PRICE_M2, Qle in Elo. cbn in Elo. lia. }
    rewrite Hnz. cbn [negb andb].
    destruct (Qle_bool p MAX_PRICE_M2); rewrite IH; reflexivity.
  - rewrite andb_false_r. cbn [andb]. exact IH.
Qed.

Lemma Qle_bool_false (x y : Q) : Qle_bool x y = false -> y <= x.
Proof.
  intros H. apply Qlt_le_weak, Qnot_le_lt. rewrite <- Qle_bool_iff. congruence.
Qed.

Lemma insert_perm (x : Q) (l : list Q) : Permutation (insert x l) (x :: l).
Proof.
  induction l as [|y l IH]; cbn [insert]; [apply Permutation_refl|].
  destruct (Qle_bool x y); [apply Permutation_refl|].
  eapply perm_trans; [apply perm_skip, IH | apply perm_swap].
Qed.

Lemma sort_perm (l : list Q) : Permutation (sort l) l.
Proof.
  induction l as [|x l IH]; cbn; [constructor|].
  eapply perm_trans; [apply insert_perm | apply perm_skip, IH].
Qed.

Lemma insert_sorted (x : Q) (l : list Q) :
  Sorted Qle l -> Sorted Qle (insert x l).
Proof.
  induction 1 as [|y l Hs IH Hhd]; cbn [insert].
  - repeat constructor.
  - destruct (Qle_bool x y) eqn:E.
    + apply Qle_bool_iff in E. repeat constructor; assumption.
    + apply Qle_bool_false in E. constructor; [exact IH|].
      destruct l as [|z l]; cbn [insert].
      * constructor. exact E.
      * destruct (Qle_bool x z); constructor; [exact E|].
        inversion Hhd; assumption.
Qed.

Lemma sort_sorted (l : list Q) : Sorted Qle (sort l).
Proof.
  induction l as [|x l IH]; cbn; [constructor | apply insert_sorted, IH].
Qed.

Lemma sort_length (l : list Q) : length (sort l) = length l.
Proof. apply Permutation_length, sort_perm. Qed.

(** Middle element for an odd count, mean of the two middle elements for an
    even count. *)
Lemma median_price_spec (s : list Q) :
  let n := length s in
  (Nat.Odd n -> median_price s = nth ((n - 1) / 2) s 0)
  /\ (Nat.Even n ->
      median_price s = (nth (n / 2 - 1) s 0 + nth (n / 2) s 0) / 2).
Proof.
  cbn zeta. unfold median_price. split; intros H.
  - destruct H as [k Hk].
    assert (Hm : (length s mod 2 = 1)%nat).
    { rewrite Hk, Nat.add_comm, Nat.mul_comm, Nat.Div0.mod_add. reflexivity. }
    rewrite Hm. cbn [Nat.eqb]. f_equal. rewrite Hk.
    replace (2 * k + 1 - 1)%nat with (k * 2)%nat by lia.
    rewrite Nat.div_mul by lia.
    replace (2 * k + 1)%nat with (1 + k * 2)%nat by lia.
    rewrite Nat.div_add by lia. reflexivity.
  - destruct H as [k Hk].
    assert (Hm : (length s mod 2 = 0)%nat).
    { rewrite Hk, Nat.mul_comm. apply Nat.Div0.mod_mul. }
    rewrite Hm. reflexivity.
Qed.

(** The specification's example. *)
Definition example_samples : list Q := [100; 5000000; 2000; 2100; 2200].

Lemma aggregate_example :
  aggregate (map sample example_samples) = (Some 2100, 3%nat).
Proof. reflexivity. Qed.

(** C5.  The aggregation inlined in the transaction adapter keeps exactly
    the samples [x] with [500 <= x <= 15000]; with fewer than 3 survivors it
    returns no central value together with the surviving count; otherwise it
    returns the surviving count and the median of the survivors sorted in
    ascending order: the middle element for an odd count, the mean of the
    two middle elements for an even count.  On the samples
    [100, 5000000, 2000, 2100, 2200] it returns 2100 with count 3. *)
Theorem aggregate_filter_then_median (ts : list DVFTransaction) :
  let survivors := filter in_band (samples ts) in
  let n := length survivors in
  valid_prices ts = survivors
  /\ ((n < MIN_COMPARABLES)%nat -> aggregate ts = (None, n))
  /\ ((MIN_COMPARABLES <= n)%nat ->
      exists s,
        Sorted Qle s /\ Permutation s survivors
        /\ aggregate ts = (Some (median_price s), n)
        /\ (Nat.Odd n -> median_price s = nth ((n - 1) / 2) s 0)
        /\ (Nat.Even n ->
            median_price s = (nth (n / 2 - 1) s 0 + nth (n / 2) s 0) / 2))
  /\ aggregate (map sample example_samples) = (Some 2100, 3%nat).
Proof.
  cbn zeta. rewrite <- valid_prices_filter.
  split; [reflexivity|]. split; [|split; [|exact aggregate_example]].
  - intros Hn. unfold aggregate. apply Nat.ltb_lt in Hn. rewrite Hn.
    reflexivity.
  - intros Hn. exists (sort (valid_prices ts)).
    split; [apply sort_sorted|]. split; [apply sort_perm|].
    split.
    + unfold aggregate. apply Nat.ltb_ge in Hn. rewrite Hn. reflexivity.
    + pose proof (median_price_spec (sort (valid_prices ts))) as H.
      cbn zeta in H. rewrite sort_length in H. exact H.
Qed.

End Aggregation.

Section AggregationPermutation.

Import DVFSource.

(** Equality of central values: both absent, or numerically equal. *)
Definition same_central (a b : option Q) : Prop :=
  match a, b with
  | Some x, Some y => x == y
  | None, None => True
  | _, _ => False
  end.

Lemma Qle_bool_compat (x x' y y' : Q) :
  x == x' -> y == y' -> Qle_bool x y = Qle_bool x' y'.
Proof.
  intros Hx Hy.
  destruct (Qle_bool x y) eqn:E, (Qle_bool x' y') eqn:E'; try reflexivity.
  - apply Qle_bool_iff in E. rewrite Hx, Hy in E.
    apply Qle_bool_iff in E. congruence.
  - apply Qle_bool_iff in E'. rewrite <- Hx, <- Hy in E'.
    apply Qle_bool_iff in E'. congruence.
Qed.

Lemma Forall2_Qeq_refl (l : list Q) : Forall2 Qeq l l.
Proof. induction l; constructor; [reflexivity | assumption]. Qed.

Lemma Forall2_Qeq_trans (l1 l2 l3 : list Q) :
  Forall2 Qeq l1 l2 -> Forall2 Qeq l2 l3 -> Forall2 Qeq l1 l3.
Proof.
  intros H. revert l3. induction H as [|x y l1 l2 Hxy _ IH]; intros l3 H3.
  - exact H3.
  - inversion H3 as [|? z ? l3' Hyz H3']; subst.
    constructor; [rewrite Hxy; exact Hyz | apply IH; exact H3'].
Qed.

Lemma insert_Forall2 (x : Q) (l1 l2 : list Q) :
  Forall2 Qeq l1 l2 -> Forall2 Qeq (insert x l1) (insert x l2).
Proof.
  induction 1 as [|y1 y2 l1 l2 Hy Hl IH]; cbn [insert].
  - apply Forall2_Qeq_refl.
  - rewrite (Qle_bool_compat x x y1 y2 (Qeq_refl x) Hy).
    destruct (Qle_bool x y2); repeat constructor; assumption.
Qed.

(** Two insertions commute, up to the representation of equal numbers. *)
Lemma insert_insert (x y : Q) (l : list Q) :
  Forall2 Qeq (insert x (insert y l)) (insert y (insert x l)).
Proof.
  induction l as [|z l IH]; cbn [insert].
  - destruct (Qle_bool x y) eqn:Exy, (Qle_bool y x) eqn:Eyx.
    + apply Qle_bool_iff in Exy, Eyx.
      assert (x == y) by (apply Qle_antisym; assumption).
      repeat constructor; [assumption | symmetry; assumption].
    + apply Forall2_Qeq_refl.
    + apply Forall2_Qeq_refl.
    + apply Qle_bool_false in Exy, Eyx.
      assert (x == y) by (apply Qle_antisym; assumption).
      repeat constructor; [symmetry; assumption | assumption].
  - destruct (Qle_bool y z) eqn:Eyz, (Qle_bool x z) eqn:Exz; cbn [insert].
    + destruct (Qle_bool x y) eqn:Exy, (Qle_bool y x) eqn:Eyx;
        rewrite ?Exz, ?Eyz.
      * apply Qle_bool_iff in Exy, Eyx.
        assert (x == y) by (apply Qle_antisym; assumption).
        constructor; [assumption|]. constructor; [symmetry; assumption|].
        apply Forall2_Qeq_refl.
      * apply Forall2_Qeq_refl.
      * apply Forall2_Qeq_refl.
      * apply Qle_bool_false in Exy, Eyx.
        assert (x == y) by (apply Qle_antisym; assumption).
        constructor; [symmetry; assumption|]. constructor; [assumption|].
        apply Forall2_Qeq_refl.
    + (* y <= z < x *)
      assert (Exy : Qle_bool x y = false).
      { destruct (Qle_bool x y) eqn:E; [|reflexivity].
        apply Qle_bool_iff in E, Eyz.
        assert (Hxz : x <= z) by (eapply Qle_trans; eassumption).
        apply Qle_bool_iff in Hxz. congruence. }
      rewrite Exy, Exz, Eyz. apply Forall2_Qeq_refl.
    + (* x <= z < y *)
      assert (Eyx : Qle_bool y x = false).
      { destruct (Qle_bool y x) eqn:E; [|reflexivity].
        apply Qle_bool_iff in E, Exz.
        assert (Hyz : y <= z) by (eapply Qle_trans; eassumption).
        apply Qle_bool_iff in Hyz. congruence. }
      rewrite Eyx, Exz, Eyz. apply Forall2_Qeq_refl.
    + rewrite Exz, Eyz. constructor; [reflexivity | exact IH].
Qed.

Lemma sort_permutation (l1 l2 : list Q) :
  Permutation l1 l2 -> Forall2 Qeq (sort l1) (sort l2).
Proof.
  induction 1 as [|x l1 l2 _ IH|x y l|l1 l2 l3 _ IH1 _ IH2].
  - constructor.
  - cbn. apply insert_Forall2, IH.
  - cbn. apply insert_insert.
  - eapply Forall2_Qeq_trans; eassumption.
Qed.

Lemma nth_Forall2 (l1 l2 : list Q) (i : nat) :
  Forall2 Qeq l1 l2 -> nth i l1 0 == nth i l2 0.
Proof.
  intros H. revert i. induction H as [|x y l1 l2 Hxy _ IH]; intros i.
  - reflexivity.
  - destruct i; cbn; [exact Hxy | apply IH].
Qed.

Lemma median_price_Forall2 (l1 l2 : list Q) :
  Forall2 Qeq l1 l2 -> median_price l1 == median_price l2.
Proof.
  intros H. unfold median_price.
  rewrite (Forall2_length H).
  destruct (length l2 mod 2 =? 0)%nat.
  - rewrite (nth_Forall2 l1 l2 _ H), (nth_Forall2 l1 l2 (length l2 / 2) H).
    reflexivity.
  - apply nth_Forall2, H.
Qed.

Lemma valid_prices_permutation (ts1 ts2 : list DVFTransaction) :
  Permutation ts1 ts2 -> Permutation (valid_prices ts1) (valid_prices ts2).
Proof.
  induction 1 as [|t l1 l2 _ IH|t u l|l1 l2 l3 _ IH1 _ IH2].
  - constructor.
  - cbn [valid_prices].
    destruct (keeps t); [destruct (prix_m2 t)|]; auto using perm_skip.
  - cbn [valid_prices].
    destruct (keeps t), (keeps u), (prix_m2 t), (prix_m2 u);
      auto using perm_swap, Permutation_refl.
  - eapply perm_trans; eassumption.
Qed.

(** C8.  The aggregation does not depend on the order of the samples: on a
    list of transactions and on any permutation of it, the surviving count
    is the same and the central value is the same (both absent, or the same
    number). *)
Theorem aggregate_permutation_invariant (ts1 ts2 : list DVFTransaction) :
  Permutation ts1 ts2 ->
  snd (aggregate ts1) = snd (aggregate ts2)
  /\ same_central (fst (aggregate ts1)) (fst (aggregate ts2)).
Proof.
  intros H. apply valid_prices_permutation in H.
  unfold aggregate. rewrite (Permutation_length H).
  destruct (length (valid_prices ts2) <? MIN_COMPARABLES)%nat; cbn.
  - split; [reflexivity | exact I].
  - split; [reflexivity|].
    apply median_price_Forall2, sort_permutation, H.
Qed.

End AggregationPermutation.

(** ** Worked instances *)

(** A second source, from the commune statistics. *)
Definition commune_estimate_3400 : PriceSources.PriceEstimate :=
  {| PriceSources.source_type := PriceSources.COMMUNE_STATS;
     PriceSources.source_name := "Indicateurs communaux";
     PriceSources.prix_m2 := Some 3400;
     PriceSources.prix_total := None;
     PriceSources.nb_data_points := 7;
     PriceSources.date_range_days := 400;
     PriceSources.geographic_match := "commune";
     PriceSources.source_url := None;
     PriceSources.notes := "" |}.

Lemma confidence_score_bounded_monotone_witness :
  0 <= PriceSources.confidence_score confident_estimate <= 100
  /\ PriceSources.confidence_score (with_nb_data_points confident_estimate 4)
     <= PriceSources.confidence_score
          (with_nb_data_points confident_estimate 12)
  /\ PriceSources.confidence_score
       (with_date_range_days confident_estimate 400)
     <= PriceSources.confidence_score
          (with_date_range_days confident_estimate 200)
  /\ PriceSources.confidence_score
       (with_geographic_match confident_estimate "department")
     <= PriceSources.confidence_score
          (with_geographic_match confident_estimate "commune")
  /\ PriceSources.confidence_score
       (with_geographic_match confident_estimate "commune")
     <= PriceSources.confidence_score
          (with_geographic_match confident_estimate "exact").
Proof.
  apply (confidence_score_bounded_monotone confident_estimate 4 12 200 400);
    lia.
Defined.

Lemma combined_price_is_weighted_average_witness :
  exists c,
    PriceSources.prix_m2_combined
      (PriceSources.add_all (fun x => x)
         [confident_estimate; zero_price_estimate; commune_estimate_3400])
    = Some c
    /\ c == 9400 # 3.
Proof.
  destruct (combined_price_is_weighted_average (fun x => x)
              [confident_estimate; zero_price_estimate; commune_estimate_3400])
    as (c & Hc & Hw & _).
  - cbn. discriminate.
  - exists c. split; [exact Hc|].
    rewrite Hw.
    + vm_compute. reflexivity.
    + exists confident_estimate. split; [left; reflexivity|].
      cbn. discriminate.
Defined.

Lemma aggregate_permutation_invariant_witness :
  snd (DVFSource.aggregate (map DVFSource.sample [2200; 100; 2000; 2100]))
  = snd (DVFSource.aggregate (map DVFSource.sample [100; 2000; 2100; 2200]))
  /\ same_central
       (fst (DVFSource.aggregate
               (map DVFSource.sample [2200; 100; 2000; 2100])))
       (fst (DVFSource.aggregate
               (map DVFSource.sample [100; 2000; 2100; 2200]))).
Proof.
  apply aggregate_permutation_invariant. cbn [map].
  eapply perm_trans.
  - apply (Permutation_cons_append
             (map DVFSource.sample [100; 2000; 2100]) (DVFSource.sample 2200)).
  - apply Permutation_refl.
Defined.

(** * Properties of the cross-source validator *)

Local Open Scope string_scope.

Section PostalCodeRule.

Import CrossValidator.
Local Open Scope string_scope.

Variable ratio : string -> string -> Q.
Variable repr : value -> string.
Variable repr_document : document -> string.

Lemma truthy_str_true (s : string) :
  Py.truthy_str s = true <-> s <> EmptyString.
Proof.
  destruct s; cbn; split; intros H; congruence.
Qed.

(** The postal-code branch of [_pick_best_value] on two non-empty strings. *)
Lemma pick_code_postal (v1 v2 source1 source2 : string) :
  v1 <> EmptyString -> v2 <> EmptyString ->
  _pick_best_value repr repr_document (VStr v1) (VStr v2) source1 source2
                   "code_postal"
  = if negb (PyStr.match_five_digits v1) && PyStr.match_five_digits v2
    then (VStr v2, source2) else (VStr v1, source1).
Proof.
  intros H1 H2. apply truthy_str_true in H1, H2.
  unfold _pick_best_value. cbn [truthy py_str]. rewrite H1, H2.
  cbn [negb andb].
  change (field_in "code_postal" ["adresse"; "description"; "avocat_adresse"])
    with false.
  change (field_in "code_postal" ["code_postal"]) with true.
  cbv iota.
  destruct (PyStr.match_five_digits v1), (PyStr.match_five_digits v2);
    reflexivity.
Qed.

Lemma setattr_other_code_postal (a : Auction) (field : string) (v : value) :
  String.eqb field "code_postal" = false ->
  code_postal (setattr a field v) = code_postal a.
Proof.
  intros H. unfold setattr. destruct v; rewrite ?H;
    repeat match goal with
    | |- context [String.eqb field ?f] => destruct (String.eqb field f)
    end; reflexivity.
Qed.

Lemma lookup_append {A} (k k' : string) (v : A) (d : list (string * A)) :
  PyStr.lookup k (append d (k', v))
  = if String.eqb k k' then Some v else PyStr.lookup k d.
Proof.
  unfold append. induction d as [|[k0 v0] d IH]; cbn [app PyStr.lookup].
  - destruct (String.eqb k k'); reflexivity.
  - rewrite IH. destruct (String.eqb k k'); [reflexivity|].
    destruct (PyStr.lookup k d); reflexivity.
Qed.

(** A field other than the postal code leaves the merged postal code and its
    provenance entry alone. *)
Lemma merge_field_other (a1 a2 : Auction) (s1 s2 : string)
  (st : merge_state) (field : string) :
  String.eqb field "code_postal" = false ->
  let st' := merge_field repr repr_document a1 a2 s1 s2 st field in
  code_postal (fst (fst st')) = code_postal (fst (fst st))
  /\ PyStr.lookup "code_postal" (snd (fst st'))
     = PyStr.lookup "code_postal" (snd (fst st)).
Proof.
  intros H. assert (H' : String.eqb "code_postal" field = false)
    by (rewrite String.eqb_sym; exact H).
  destruct st as [[merged fields_from] notes]. cbn zeta.
  unfold merge_field.
  destruct (_pick_best_value repr repr_document (getattr a1 field)
              (getattr a2 field) s1 s2 field) as [bv bs].
  destruct bv; cbn [fst snd]; try (split; reflexivity);
    destruct (Py.truthy_str bs);
    try destruct (negb (value_eqb (getattr a1 field) (getattr a2 field))
                  && truthy (getattr a1 field) && truthy (getattr a2 field));
    cbn [fst snd]; unfold dict_set; rewrite ?lookup_append, ?H';
    (split; [apply setattr_other_code_postal; exact H | reflexivity]).
Qed.

Lemma merge_fold_other (a1 a2 : Auction) (s1 s2 : string)
  (fields : list string) (st : merge_state) :
  forallb (fun f => negb (String.eqb f "code_postal")) fields = true ->
  let st' := fold_left (merge_field repr repr_document a1 a2 s1 s2) fields st in
  code_postal (fst (fst st')) = code_postal (fst (fst st))
  /\ PyStr.lookup "code_postal" (snd (fst st'))
     = PyStr.lookup "code_postal" (snd (fst st)).
Proof.
  revert st. induction fields as [|f fields IH]; intros st H; cbn [fold_left].
  - split; reflexivity.
  - cbn [forallb] in H. apply andb_true_iff in H. destruct H as [Hf H].
    apply negb_true_iff in Hf.
    destruct (IH (merge_field repr repr_document a1 a2 s1 s2 st f) H)
      as [E1 E2].
    destruct (merge_field_other a1 a2 s1 s2 st f Hf) as [F1 F2].
    cbn zeta in *. split; congruence.
Qed.

(** The postal-code step of the field loop, both sides populated. *)
Lemma merge_field_code_postal (a1 a2 : Auction) (s1 s2 : string)
  (st : merge_state) :
  code_postal a1 <> EmptyString -> code_postal a2 <> EmptyString ->
  Py.truthy_str s1 = true -> Py.truthy_str s2 = true ->
  let st' := merge_field repr repr_document a1 a2 s1 s2 st "code_postal" in
  let b_wins :=
    negb (PyStr.match_five_digits (code_postal a1))
    && PyStr.match_five_digits (code_postal a2) in
  code_postal (fst (fst st'))
  = (if b_wins then code_postal a2 else code_postal a1)
  /\ PyStr.lookup "code_postal" (snd (fst st'))
     = Some (if b_wins then s2 else s1).
Proof.
  intros H1 H2 T1 T2. destruct st as [[merged fields_from] notes]. cbn zeta.
  unfold merge_field.
  change (getattr a1 "code_postal") with (VStr (code_postal a1)).
  change (getattr a2 "code_postal") with (VStr (code_postal a2)).
  rewrite (pick_code_postal _ _ s1 s2 H1 H2).
  destruct (negb (PyStr.match_five_digits (code_postal a1))
            && PyStr.match_five_digits (code_postal a2));
    rewrite ?T1, ?T2;
    match goal with
    | |- context [if ?c then _ else _] => destruct c
    end; cbn [fst snd]; unfold dict_set; rewrite lookup_append;
    split; reflexivity.
Qed.

(** The enrichment never rewrites a postal code that is present. *)
Lemma enrich_keeps_code_postal (a : Auction) :
  code_postal a <> EmptyString ->
  code_postal (fst (_enrich_from_postal ratio a)) = code_postal a.
Proof.
  intros H. apply truthy_str_true in H.
  unfold _enrich_from_postal.
  assert (S1 : forall st, code_postal (fst (infer_ville st)) = code_postal (fst st)).
  { intros [x c]. unfold infer_ville.
    repeat match goal with
    | |- context [if ?b then _ else _] => destruct b
    | |- context [match ?o with Some _ => _ | None => _ end] => destruct o
    end; reflexivity. }
  assert (S2 : forall st, Py.truthy_str (code_postal (fst st)) = true ->
                          infer_code_postal st = st).
  { intros [x c] Hx. cbn [fst] in Hx. unfold infer_code_postal.
    rewrite Hx, andb_false_r. reflexivity. }
  assert (S3 : forall st, code_postal (fst (correct_ville ratio st))
                          = code_postal (fst st)).
  { intros [x c]. unfold correct_ville.
    repeat match goal with
    | |- context [if ?b then _ else _] => destruct b
    | |- context [match ?o with Some _ => _ | None => _ end] => destruct o
    end; reflexivity. }
  assert (S4 : forall st, code_postal (fst (infer_department st))
                          = code_postal (fst st)).
  { intros [x c]. unfold infer_department.
    destruct (Py.truthy_str (code_postal x) && negb (Py.truthy_str (department x)));
      reflexivity. }
  rewrite S4, S3, S2, S1; [reflexivity|].
  rewrite S1. exact H.
Qed.

Lemma str_or_truthy (a : string) :
  Py.truthy_str (str_or a "source1") = true
  /\ Py.truthy_str (str_or a "source2") = true.
Proof.
  unfold str_or. destruct (Py.truthy_str a) eqn:E; auto.
Qed.

Lemma merge_fields_code_postal (a1 a2 : Auction) :
  code_postal a1 <> EmptyString -> code_postal a2 <> EmptyString ->
  let st := merge_fields repr repr_document a1 a2 in
  let b_wins :=
    negb (PyStr.match_five_digits (code_postal a1))
    && PyStr.match_five_digits (code_postal a2) in
  code_postal (fst (fst st))
  = (if b_wins then code_postal a2 else code_postal a1)
  /\ PyStr.lookup "code_postal" (snd (fst st))
     = Some (if b_wins then str_or (source a2) "source2"
             else str_or (source a1) "source1").
Proof.
  intros H1 H2. cbn zeta. unfold merge_fields.
  set (s1 := str_or (source a1) "source1").
  set (s2 := str_or (source a2) "source2").
  set (st0 := (set_url (set_source default_auction (s1 ++ "+" ++ s2))
                 (str_or (url a1) (url a2)), [], []) : merge_state).
  unfold fields_to_merge.
  match goal with
  | |- context [fold_left ?f (?x :: ?y :: ?l) ?s] =>
      change (fold_left f (x :: y :: l) s) with (fold_left f l (f (f s x) y))
  end.
  set (st1 := merge_field repr repr_document a1 a2 s1 s2 st0 "adresse").
  set (st2 := merge_field repr repr_document a1 a2 s1 s2 st1 "code_postal").
  match goal with
  | |- context [fold_left ?f ?l st2] =>
      pose proof (merge_fold_other a1 a2 s1 s2 l st2 eq_refl) as Hrest;
      set (st3 := fold_left f l st2) in *
  end.
  cbn zeta in Hrest. destruct Hrest as [R1 R2].
  pose proof (merge_field_code_postal a1 a2 s1 s2 st1 H1 H2
                (proj1 (str_or_truthy (source a1)))
                (proj2 (str_or_truthy (source a2)))) as Hcp.
  cbn zeta in Hcp. fold st2 in Hcp. destruct Hcp as [C1 C2].
  destruct st3 as [[merged fields_from] notes]. cbn [fst snd] in *.
  rewrite <- C1, <- C2, <- R1, <- R2.
  split; [reflexivity|].
  destruct (dates_visite a1), (dates_visite a2); try reflexivity.
  unfold dict_set. rewrite lookup_append. reflexivity.
Qed.

(** The postal-code rule with the pattern as the code applies it
    ([PyStr.match_five_digits]: five digits, then the end of the string or
    one final newline).  In [merge_auctions], when both auctions carry a
    postal code: if exactly one of the two matches the pattern, the merged
    record takes that one and the provenance map records its source; if both
    match or neither does, the merged record takes the value of the first
    auction, with the first source as provenance.  The same holds of the
    pair returned by [_pick_best_value]. *)
Lemma merge_code_postal_rule (a1 a2 : Auction) :
  code_postal a1 <> EmptyString -> code_postal a2 <> EmptyString ->
  let r := merge_auctions ratio repr repr_document a1 a2 in
  let source_a := str_or (source a1) "source1" in
  let source_b := str_or (source a2) "source2" in
  let valid_a := PyStr.match_five_digits (code_postal a1) in
  let valid_b := PyStr.match_five_digits (code_postal a2) in
  let picked :=
    _pick_best_value repr repr_document (VStr (code_postal a1))
                     (VStr (code_postal a2)) source_a source_b "code_postal" in
  let a_wins :=
    code_postal (merged_auction r) = code_postal a1
    /\ PyStr.lookup "code_postal" (fields_from_source r) = Some source_a
    /\ picked = (VStr (code_postal a1), source_a) in
  let b_wins :=
    code_postal (merged_auction r) = code_postal a2
    /\ PyStr.lookup "code_postal" (fields_from_source r) = Some source_b
    /\ picked = (VStr (code_postal a2), source_b) in
  (valid_a = true -> valid_b = false -> a_wins)
  /\ (valid_a = false -> valid_b = true -> b_wins)
  /\ (valid_a = valid_b -> a_wins).
Proof.
  intros H1 H2. cbn zeta.
  rewrite (pick_code_postal _ _ _ _ H1 H2).
  pose proof (merge_fields_code_postal a1 a2 H1 H2) as Hm. cbn zeta in Hm.
  unfold merge_auctions.
  destruct (merge_fields repr repr_document a1 a2)
    as [[merged fields_from] notes].
  cbn [fst snd] in Hm. destruct Hm as [M1 M2].
  assert (Hne : code_postal merged <> EmptyString).
  { rewrite M1. destruct (negb _ && _); assumption. }
  pose proof (enrich_keeps_code_postal merged Hne) as He.
  destruct (_enrich_from_postal ratio merged) as [merged' enrichment_notes].
  cbn [fst] in He. cbn [merged_auction fields_from_source].
  rewrite He, M1, M2.
  destruct (PyStr.match_five_digits (code_postal a1)),
           (PyStr.match_five_digits (code_postal a2));
    cbn [negb andb]; repeat split; intros; congruence.
Qed.

End PostalCodeRule.

(** Two listings of the same flat whose postal codes disagree. *)
Definition listing_bad_code_postal : CrossValidator.Auction :=
  CrossValidator.set_source
    (CrossValidator.set_code_postal CrossValidator.default_auction "750x1")
    "licitor".

Definition listing_good_code_postal : CrossValidator.Auction :=
  CrossValidator.set_source
    (CrossValidator.set_code_postal CrossValidator.default_auction "75015")
    "encheres_publiques".

(** Stand-ins for the library functions on the worked examples:
    [difflib]'s ratio is 1 on equal strings and 0 on strings without a
    common character, the only cases the examples reach. *)
Definition ratio_equal (a b : string) : Q :=
  if String.eqb a b then 1 else 0.

Definition repr_none (v : CrossValidator.value) : string := "None".

Definition repr_document_none (d : CrossValidator.document) : string :=
  "{}".

Lemma merge_code_postal_rule_witness :
  CrossValidator.code_postal
    (CrossValidator.merged_auction
       (CrossValidator.merge_auctions ratio_equal repr_none repr_document_none
          listing_bad_code_postal listing_good_code_postal)) = "75015"
  /\ PyStr.lookup "code_postal"
       (CrossValidator.fields_from_source
          (CrossValidator.merge_auctions ratio_equal repr_none
             repr_document_none
             listing_bad_code_postal listing_good_code_postal))
     = Some "encheres_publiques"
  /\ CrossValidator._pick_best_value repr_none repr_document_none
       (CrossValidator.VStr "750x1") (CrossValidator.VStr "75015")
       "licitor" "encheres_publiques" "code_postal"
     = (CrossValidator.VStr "75015", "encheres_publiques").
Proof.
  assert (H1 : CrossValidator.code_postal listing_bad_code_postal
               <> EmptyString) by (cbn; discriminate).
  assert (H2 : CrossValidator.code_postal listing_good_code_postal
               <> EmptyString) by (cbn; discriminate).
  exact (proj1 (proj2 (merge_code_postal_rule ratio_equal repr_none
                         repr_document_none listing_bad_code_postal
                         listing_good_code_postal H1 H2))
           eq_refl eq_refl).
Defined.

(** A postal code is strictly of five digits when it has exactly five
    characters and each is a digit. *)
Definition strict_five_digits (s : string) : bool :=
  match s with
  | String c1 (String c2 (String c3 (String c4 (String c5 EmptyString)))) =>
      PyStr.is_digit c1 && PyStr.is_digit c2 && PyStr.is_digit c3
      && PyStr.is_digit c4 && PyStr.is_digit c5
  | _ => false
  end.

(** The pattern of the code accepts every strict value, and beyond these
    only a strict value followed by one newline. *)
Lemma match_five_digits_strict (s : string) :
  PyStr.match_five_digits s = true <->
  strict_five_digits s = true
  \/ exists t, s = t ++ String "010"%char EmptyString
               /\ strict_five_digits t = true.
Proof.
  destruct s as [|c1 [|c2 [|c3 [|c4 [|c5 rest]]]]];
    try (cbn; split; [discriminate|];
         intros [H|(t & E & H)]; [discriminate|];
         destruct t as [|d1 [|d2 [|d3 [|d4 [|d5 [|d6 t]]]]]]; discriminate).
  cbn [PyStr.match_five_digits strict_five_digits].
  set (digits := PyStr.is_digit c1 && PyStr.is_digit c2 && PyStr.is_digit c3
                 && PyStr.is_digit c4 && PyStr.is_digit c5).
  destruct rest as [|c [|c' rest]].
  - rewrite andb_true_r. split; [intros H; left; exact H|].
    intros [H|(t & E & H)]; [exact H|].
    destruct t as [|d1 [|d2 [|d3 [|d4 [|d5 [|d6 t]]]]]]; discriminate.
  - split.
    + intros H. apply andb_true_iff in H. destruct H as [H1 H2].
      apply Nat.eqb_eq in H2. right.
      exists (String c1 (String c2 (String c3 (String c4
                (String c5 EmptyString))))).
      split; [|exact H1]. cbn. do 5 f_equal.
      apply (f_equal ascii_of_nat) in H2. unfold PyStr.code in H2.
      rewrite ascii_nat_embedding in H2. rewrite H2. reflexivity.
    + intros [H|(t & E & H)]; [destruct digits; discriminate|].
      destruct t as [|d1 [|d2 [|d3 [|d4 [|d5 [|d6 t]]]]]]; try discriminate.
      cbn in E. injection E as -> -> -> -> -> ->.
      cbn [strict_five_digits] in H. fold digits in H. rewrite H.
      reflexivity.
  - rewrite andb_false_r. split; [discriminate|].
    intros [H|(t & E & H)]; [destruct digits; discriminate|].
    destruct t as [|d1 [|d2 [|d3 [|d4 [|d5 [|d6 t]]]]]]; discriminate.
Qed.

(** The postal code of the first listing kept the newline that ended its
    line; the second source gives another postal code, of five digits. *)
Definition listing_newline_code_postal : CrossValidator.Auction :=
  CrossValidator.set_source
    (CrossValidator.set_code_postal CrossValidator.default_auction
       ("75015" ++ String "010"%char EmptyString))
    "licitor".

Definition listing_other_code_postal : CrossValidator.Auction :=
  CrossValidator.set_source
    (CrossValidator.set_code_postal CrossValidator.default_auction "92100")
    "encheres_publiques".

(** C9.  The code departs from the rule of the claim on a postal code that
    ends with a newline.  Of the two postal codes above only the second is
    strictly of five digits, so by the claim it wins, with the second source
    as provenance.  The pattern of the code accepts the first one as well,
    so the code finds both valid and keeps the first: [_pick_best_value]
    returns it with the first source, and so does [merge_auctions] in the
    merged record and in the provenance map. *)
Theorem merge_code_postal_trailing_newline :
  let code_a := "75015" ++ String "010"%char EmptyString in
  let r :=
    CrossValidator.merge_auctions ratio_equal repr_none repr_document_none
      listing_newline_code_postal listing_other_code_postal in
  strict_five_digits code_a = false
  /\ strict_five_digits "92100" = true
  /\ PyStr.match_five_digits code_a = true
  /\ PyStr.match_five_digits "92100" = true
  /\ CrossValidator._pick_best_value repr_none repr_document_none
       (CrossValidator.VStr code_a) (CrossValidator.VStr "92100")
       "licitor" "encheres_publiques" "code_postal"
     = (CrossValidator.VStr code_a, "licitor")
  /\ CrossValidator.code_postal (CrossValidator.merged_auction r) = code_a
  /\ PyStr.lookup "code_postal" (CrossValidator.fields_from_source r)
     = Some "licitor".
Proof.
  cbv zeta. repeat split; vm_compute; reflexivity.
Qed.

(** ** The match score *)

Section MatchScore.

Import CrossValidator.

Variable ratio : string -> string -> Q.

(** The six signals of the matcher and their weights. *)
Inductive Signal :=
  SaleDate | Court | StartingPrice | City | Kind | Surface.

Definition all_signals : list Signal :=
  [SaleDate; Court; StartingPrice; City; Kind; Surface].

Definition weight (s : Signal) : Q :=
  match s with
  | SaleDate => 3 # 10
  | Court => 15 # 100
  | StartingPrice => 2 # 10
  | City => 15 # 100
  | Kind => 1 # 10
  | Surface => 1 # 10
  end.

(** A signal is available when its field is populated on both sides:
    present, and for a string non-empty, for a number non-zero. *)
Definition available (a1 a2 : Auction) (s : Signal) : bool :=
  match s with
  | SaleDate => Py.truthy_obj (date_vente a1) && Py.truthy_obj (date_vente a2)
  | Court => Py.truthy_str (tribunal a1) && Py.truthy_str (tribunal a2)
  | StartingPrice =>
      Py.truthy_float (mise_a_prix a1) && Py.truthy_float (mise_a_prix a2)
  | City => Py.truthy_str (ville a1) && Py.truthy_str (ville a2)
  | Kind => Py.truthy_obj (type_bien a1) && Py.truthy_obj (type_bien a2)
  | Surface => Py.truthy_float (surface a1) && Py.truthy_float (surface a2)
  end.

(** The difference of two numbers relative to their mean. *)
Definition relative_difference (x y : Q) : Q := Qabs (x - y) / ((x + y) / 2).

Definition within (limit : Q) (x y : option Q) : bool :=
  match x, y with
  | Some a, Some b => Qlt_bool (relative_difference a b) limit
  | _, _ => false
  end.

Definition satisfied (a1 a2 : Auction) (s : Signal) : bool :=
  match s with
  | SaleDate =>
      match date_vente a1, date_vente a2 with
      | Some d1, Some d2 => (d1 =? d2)%Z
      | _, _ => false
      end
  | Court => Qlt_bool (7 # 10) (_similarity ratio (tribunal a1) (tribunal a2))
  | StartingPrice => within (1 # 10) (mise_a_prix a1) (mise_a_prix a2)
  | City => Qlt_bool (8 # 10) (_similarity ratio (ville a1) (ville a2))
  | Kind =>
      match type_bien a1, type_bien a2 with
      | Some t1, Some t2 => PropertyType_eqb t1 t2
      | _, _ => false
      end
  | Surface => within (5 # 100) (surface a1) (surface a2)
  end.

(** What one signal adds to the numerator and to the denominator. *)
Definition gained (a1 a2 : Auction) (s : Signal) : Q :=
  if available a1 a2 s && satisfied a1 a2 s then weight s else 0.

Definition counted (a1 a2 : Auction) (s : Signal) : Q :=
  if available a1 a2 s then weight s else 0.

Definition satisfied_weight (a1 a2 : Auction) : Q :=
  fold_right (fun s t => gained a1 a2 s + t) 0 all_signals.

Definition available_weight (a1 a2 : Auction) : Q :=
  fold_right (fun s t => counted a1 a2 s + t) 0 all_signals.

(** The mean of two populated values is zero: the relative difference
    divides by it. *)
Definition zero_mean (x y : option Q) : bool :=
  match x, y with
  | Some a, Some b => Qeq_bool ((a + b) / 2) 0
  | _, _ => false
  end.

Definition raises (a1 a2 : Auction) : bool :=
  (available a1 a2 StartingPrice && zero_mean (mise_a_prix a1) (mise_a_prix a2))
  || (available a1 a2 Surface && zero_mean (surface a1) (surface a2)).

(** One block in terms of the signal it evaluates. *)
Definition step (a1 a2 : Auction) (s : Signal) (acc : Q * Q) : Q * Q :=
  if available a1 a2 s then
    (if satisfied a1 a2 s then fst acc + weight s else fst acc,
     snd acc + weight s)
  else acc.

Lemma date_signal_step (a1 a2 : Auction) (acc : Q * Q) :
  date_signal a1 a2 acc = step a1 a2 SaleDate acc.
Proof.
  unfold date_signal, step, available, satisfied.
  destruct (date_vente a1), (date_vente a2); reflexivity.
Qed.

Lemma tribunal_signal_step (a1 a2 : Auction) (acc : Q * Q) :
  tribunal_signal ratio a1 a2 acc = step a1 a2 Court acc.
Proof. reflexivity. Qed.

Lemma ville_signal_step (a1 a2 : Auction) (acc : Q * Q) :
  ville_signal ratio a1 a2 acc = step a1 a2 City acc.
Proof. reflexivity. Qed.

Lemma type_signal_step (a1 a2 : Auction) (acc : Q * Q) :
  type_signal a1 a2 acc = step a1 a2 Kind acc.
Proof.
  unfold type_signal, step, available, satisfied.
  destruct (type_bien a1), (type_bien a2); reflexivity.
Qed.

Lemma numeric_signal_step (x y : option Q) (limit w : Q) (acc : Q * Q) :
  (if Py.truthy_float x && Py.truthy_float y then
     match x, y with
     | Some a, Some b => relative_signal a b limit w acc
     | _, _ => Some acc
     end
   else Some acc)
  = if Py.truthy_float x && Py.truthy_float y && zero_mean x y then None
    else Some (if Py.truthy_float x && Py.truthy_float y then
                 (if within limit x y then fst acc + w else fst acc,
                  snd acc + w)
               else acc).
Proof.
  destruct x as [a|], y as [b|]; cbn [Py.truthy_float andb zero_mean within];
    try reflexivity.
  - destruct (negb (Qeq_bool a 0) && negb (Qeq_bool b 0)); [|reflexivity].
    cbn [andb]. unfold relative_signal, relative_difference.
    destruct (Qeq_bool ((a + b) / 2) 0); reflexivity.
  - rewrite andb_false_r. reflexivity.
Qed.

Lemma price_signal_step (a1 a2 : Auction) (acc : Q * Q) :
  price_signal a1 a2 acc
  = if available a1 a2 StartingPrice
       && zero_mean (mise_a_prix a1) (mise_a_prix a2)
    then None else Some (step a1 a2 StartingPrice acc).
Proof. unfold price_signal. apply numeric_signal_step. Qed.

Lemma surface_signal_step (a1 a2 : Auction) (acc : Q * Q) :
  surface_signal a1 a2 acc
  = if available a1 a2 Surface && zero_mean (surface a1) (surface a2)
    then None else Some (step a1 a2 Surface acc).
Proof. unfold surface_signal. apply numeric_signal_step. Qed.

(** The score as the code computes it, when no division raises. *)
Definition final_score (acc : Q * Q) : Q :=
  if Qlt_bool 0 (snd acc) then fst acc / snd acc else 0.

Lemma match_auctions_steps (a1 a2 : Auction) :
  _match_auctions ratio a1 a2
  = if raises a1 a2 then None
    else Some (final_score
                 (fold_left (fun acc s => step a1 a2 s acc) all_signals (0, 0))).
Proof.
  unfold _match_auctions, raises. cbn [fold_left all_signals].
  rewrite date_signal_step, tribunal_signal_step, price_signal_step.
  destruct (available a1 a2 StartingPrice
            && zero_mean (mise_a_prix a1) (mise_a_prix a2)); [reflexivity|].
  rewrite ville_signal_step, type_signal_step, surface_signal_step.
  cbn [orb].
  destruct (available a1 a2 Surface && zero_mean (surface a1) (surface a2));
    reflexivity.
Qed.

Lemma weight_pos (s : Signal) : 0 < weight s.
Proof. destruct s; reflexivity. Qed.

Lemma gained_le_counted (a1 a2 : Auction) (s : Signal) :
  0 <= gained a1 a2 s /\ gained a1 a2 s <= counted a1 a2 s.
Proof.
  unfold gained, counted. pose proof (weight_pos s) as Hw.
  destruct (available a1 a2 s), (satisfied a1 a2 s); cbn [andb]; split;
    try apply Qle_refl; apply Qlt_le_weak; exact Hw.
Qed.

Lemma counted_nonneg (a1 a2 : Auction) (s : Signal) : 0 <= counted a1 a2 s.
Proof.
  destruct (gained_le_counted a1 a2 s) as [H1 H2].
  eapply Qle_trans; eassumption.
Qed.

(** The accumulator after the blocks of the signals [l]. *)
Lemma steps_sum (a1 a2 : Auction) (l : list Signal) (acc : Q * Q) :
  let r := fold_left (fun acc s => step a1 a2 s acc) l acc in
  fst r == fst acc + fold_right (fun s t => gained a1 a2 s + t) 0 l
  /\ snd r == snd acc + fold_right (fun s t => counted a1 a2 s + t) 0 l.
Proof.
  revert acc. induction l as [|s l IH]; intros acc; cbn [fold_left fold_right].
  - split; ring.
  - destruct (IH (step a1 a2 s acc)) as [H1 H2]. cbn zeta in *.
    rewrite H1, H2. unfold step, gained, counted.
    destruct (available a1 a2 s), (satisfied a1 a2 s); cbn [andb fst snd];
      split; ring.
Qed.

Lemma weights_ordered (a1 a2 : Auction) (l : list Signal) :
  0 <= fold_right (fun s t => gained a1 a2 s + t) 0 l
  /\ fold_right (fun s t => gained a1 a2 s + t) 0 l
     <= fold_right (fun s t => counted a1 a2 s + t) 0 l.
Proof.
  induction l as [|s l [IH1 IH2]]; cbn [fold_right].
  - split; apply Qle_refl.
  - destruct (gained_le_counted a1 a2 s) as [G1 G2]. split.
    + exact (Qplus_le_compat 0 _ 0 _ G1 IH1).
    + apply Qplus_le_compat; assumption.
Qed.

Lemma Qlt_bool_iff (x y : Q) : Qlt_bool x y = true <-> x < y.
Proof.
  unfold Qlt_bool. rewrite negb_true_iff. split.
  - intros H. apply Qnot_le_lt. rewrite <- Qle_bool_iff. congruence.
  - intros H. destruct (Qle_bool y x) eqn:E; [|reflexivity].
    apply Qle_bool_iff in E. exfalso. revert H. apply Qle_not_lt, E.
Qed.

(** The final division, on an accumulator known up to numeric equality. *)
Lemma final_score_spec (acc : Q * Q) (num den : Q) :
  fst acc == num -> snd acc == den -> 0 <= num -> num <= den ->
  (0 < den -> final_score acc == num / den)
  /\ (den == 0 -> final_score acc == 0)
  /\ 0 <= final_score acc <= 1.
Proof.
  intros Hn Hd H0 Hle. unfold final_score.
  destruct (Qlt_bool 0 (snd acc)) eqn:E.
  - apply Qlt_bool_iff in E. rewrite Hn, Hd. rewrite Hd in E.
    split; [reflexivity|]. split.
    + intros Hz. rewrite Hz in E. exfalso. revert E. apply Qlt_irrefl.
    + split.
      * apply Qle_shift_div_l; [exact E|].
        setoid_replace (0 * den) with 0 by ring. exact H0.
      * apply Qle_shift_div_r; [exact E|].
        setoid_replace (1 * den) with den by ring. exact Hle.
  - assert (Hnot : ~ 0 < den).
    { rewrite <- Hd, <- Qlt_bool_iff. congruence. }
    split; [intros H; contradiction|].
    split; [reflexivity|]. split; [apply Qle_refl|].
    unfold Qle; cbn; lia.
Qed.

(** The score of the code against the two sums of weights. *)
Lemma match_auctions_score (a1 a2 : Auction) :
  raises a1 a2 = false ->
  exists score,
    _match_auctions ratio a1 a2 = Some score
    /\ (0 < available_weight a1 a2 ->
        score == satisfied_weight a1 a2 / available_weight a1 a2)
    /\ (available_weight a1 a2 == 0 -> score == 0)
    /\ 0 <= score <= 1.
Proof.
  intros Hr. rewrite match_auctions_steps, Hr.
  eexists. split; [reflexivity|].
  destruct (steps_sum a1 a2 all_signals (0, 0)) as [H1 H2].
  cbn zeta in H1, H2. cbn [fst snd] in H1, H2.
  destruct (weights_ordered a1 a2 all_signals) as [W1 W2].
  apply final_score_spec.
  - rewrite H1. unfold satisfied_weight. ring.
  - rewrite H2. unfold available_weight. ring.
  - exact W1.
  - exact W2.
Qed.

(** Clearing the field of a signal on one listing. *)
Definition remove (s : Signal) (a : Auction) : Auction :=
  match s with
  | SaleDate => set_date_vente a None
  | Court => set_tribunal a EmptyString
  | StartingPrice => set_mise_a_prix a None
  | City => set_ville a EmptyString
  | Kind => set_type_bien a None
  | Surface => set_surface a None
  end.

Definition Signal_eqb (s t : Signal) : bool :=
  match s, t with
  | SaleDate, SaleDate | Court, Court | StartingPrice, StartingPrice
  | City, City | Kind, Kind | Surface, Surface => true
  | _, _ => false
  end.

Lemma gained_remove_left (a1 a2 : Auction) (s t : Signal) :
  gained (remove s a1) a2 t = if Signal_eqb s t then 0 else gained a1 a2 t.
Proof. destruct s, t; reflexivity. Qed.

Lemma counted_remove_left (a1 a2 : Auction) (s t : Signal) :
  counted (remove s a1) a2 t = if Signal_eqb s t then 0 else counted a1 a2 t.
Proof. destruct s, t; reflexivity. Qed.

Lemma gained_remove_right (a1 a2 : Auction) (s t : Signal) :
  gained a1 (remove s a2) t = if Signal_eqb s t then 0 else gained a1 a2 t.
Proof.
  destruct s, t; try reflexivity; unfold gained, available, remove; cbn;
    rewrite ?andb_false_r; reflexivity.
Qed.

Lemma counted_remove_right (a1 a2 : Auction) (s t : Signal) :
  counted a1 (remove s a2) t = if Signal_eqb s t then 0 else counted a1 a2 t.
Proof.
  destruct s, t; try reflexivity; unfold counted, available, remove; cbn;
    rewrite ?andb_false_r; reflexivity.
Qed.

Lemma raises_remove (a1 a2 : Auction) (s : Signal) :
  raises a1 a2 = false ->
  raises (remove s a1) a2 = false /\ raises a1 (remove s a2) = false.
Proof.
  intros H. unfold raises, available in *.
  apply orb_false_iff in H. destruct H as [H1 H2].
  destruct s; cbn; rewrite ?andb_false_r; cbn; rewrite ?H1, ?H2;
    split; reflexivity.
Qed.

Lemma weights_remove (a1 a2 : Auction) (s : Signal) :
  (satisfied_weight (remove s a1) a2 == satisfied_weight a1 a2 - gained a1 a2 s
   /\ available_weight (remove s a1) a2
      == available_weight a1 a2 - counted a1 a2 s)
  /\ (satisfied_weight a1 (remove s a2)
      == satisfied_weight a1 a2 - gained a1 a2 s
      /\ available_weight a1 (remove s a2)
         == available_weight a1 a2 - counted a1 a2 s).
Proof.
  unfold satisfied_weight, available_weight. cbn [fold_right all_signals].
  rewrite !gained_remove_left, !counted_remove_left,
          !gained_remove_right, !counted_remove_right.
  destruct s; cbn [Signal_eqb]; repeat split; ring.
Qed.

(** [score] is the quotient [num / den], and 0 when [den] is zero. *)
Definition quotient_or_zero (num den score : Q) : Prop :=
  (0 < den -> score == num / den) /\ (den == 0 -> score == 0).

(** ** The score as the claim words it *)

(** Two numbers differ by less than the share [limit] of their mean. *)
Definition differ_by_less (limit : Q) (x y : option Q) : bool :=
  match x, y with
  | Some a, Some b => Qlt_bool (Qabs (a - b)) (limit * ((a + b) / 2))
  | _, _ => false
  end.

(** When a signal holds: equal sale dates, court names more than 0.7
    similar, starting prices differing by less than 10% of their mean, city
    names more than 0.8 similar, equal property types, surfaces differing by
    less than 5% of their mean. *)
Definition signal_holds (a1 a2 : Auction) (s : Signal) : bool :=
  match s with
  | SaleDate =>
      match date_vente a1, date_vente a2 with
      | Some d1, Some d2 => (d1 =? d2)%Z
      | _, _ => false
      end
  | Court => Qlt_bool (7 # 10) (_similarity ratio (tribunal a1) (tribunal a2))
  | StartingPrice => differ_by_less (1 # 10) (mise_a_prix a1) (mise_a_prix a2)
  | City => Qlt_bool (8 # 10) (_similarity ratio (ville a1) (ville a2))
  | Kind =>
      match type_bien a1, type_bien a2 with
      | Some t1, Some t2 => PropertyType_eqb t1 t2
      | _, _ => false
      end
  | Surface => differ_by_less (5 # 100) (surface a1) (surface a2)
  end.

(** The weight a signal brings to the numerator, and the numerator. *)
Definition earned (a1 a2 : Auction) (s : Signal) : Q :=
  if available a1 a2 s && signal_holds a1 a2 s then weight s else 0.

Definition earned_weight (a1 a2 : Auction) : Q :=
  fold_right (fun s t => earned a1 a2 s + t) 0 all_signals.

(** A starting price or a surface that is not negative. *)
Definition not_negative (x : option Q) : Prop :=
  match x with
  | Some q => 0 <= q
  | None => True
  end.

Definition plausible (a : Auction) : Prop :=
  not_negative (mise_a_prix a) /\ not_negative (surface a).

(** On two populated values that are not negative the mean is positive, so
    the division of the code returns, and its test on the quotient is the
    comparison with the share of the mean. *)
Lemma populated_pair (limit : Q) (x y : option Q) :
  not_negative x -> not_negative y ->
  Py.truthy_float x && Py.truthy_float y = true ->
  zero_mean x y = false /\ within limit x y = differ_by_less limit x y.
Proof.
  intros Hx Hy T. apply andb_true_iff in T. destruct T as [Tx Ty].
  destruct x as [a|]; [|discriminate]. destruct y as [b|]; [|discriminate].
  cbn [not_negative Py.truthy_float] in *.
  apply negb_true_iff in Tx, Ty.
  assert (Ha : 0 < a).
  { apply Qle_lteq in Hx. destruct Hx as [H|H]; [exact H|].
    symmetry in H. apply Qeq_bool_iff in H. congruence. }
  assert (Hb : 0 < b).
  { apply Qle_lteq in Hy. destruct Hy as [H|H]; [exact H|].
    symmetry in H. apply Qeq_bool_iff in H. congruence. }
  assert (Hm : 0 < (a + b) / 2).
  { apply Qlt_shift_div_l; [reflexivity|].
    setoid_replace (0 * 2) with (0 + 0) by ring.
    apply Qplus_lt_le_compat; [exact Ha | apply Qlt_le_weak; exact Hb]. }
  cbn [zero_mean within differ_by_less]. split.
  - destruct (Qeq_bool ((a + b) / 2) 0) eqn:E; [|reflexivity].
    apply Qeq_bool_iff in E. rewrite E in Hm.
    exfalso. revert Hm. apply Qlt_irrefl.
  - unfold relative_difference.
    destruct (Qlt_bool (Qabs (a - b) / ((a + b) / 2)) limit) eqn:E1;
      destruct (Qlt_bool (Qabs (a - b)) (limit * ((a + b) / 2))) eqn:E2;
      try reflexivity; exfalso.
    + apply Qlt_bool_iff in E1.
      assert (H : Qabs (a - b) < limit * ((a + b) / 2)).
      { destruct (Qlt_le_dec (Qabs (a - b)) (limit * ((a + b) / 2)))
          as [L|L]; [exact L|]. exfalso.
        apply (Qle_shift_div_l _ _ _ Hm) in L.
        revert E1. apply Qle_not_lt. exact L. }
      apply Qlt_bool_iff in H. congruence.
    + apply Qlt_bool_iff in E2.
      apply (Qlt_shift_div_r _ _ _ Hm) in E2.
      apply Qlt_bool_iff in E2. congruence.
Qed.

Lemma plausible_returns (a1 a2 : Auction) :
  plausible a1 -> plausible a2 -> raises a1 a2 = false.
Proof.
  intros [P1 S1] [P2 S2]. unfold raises, available.
  apply orb_false_iff. split.
  - destruct (Py.truthy_float (mise_a_prix a1)
              && Py.truthy_float (mise_a_prix a2)) eqn:T; [|reflexivity].
    cbn [andb]. apply (populated_pair 0 _ _ P1 P2 T).
  - destruct (Py.truthy_float (surface a1)
              && Py.truthy_float (surface a2)) eqn:T; [|reflexivity].
    cbn [andb]. apply (populated_pair 0 _ _ S1 S2 T).
Qed.

Lemma earned_gained (a1 a2 : Auction) (s : Signal) :
  plausible a1 -> plausible a2 -> gained a1 a2 s = earned a1 a2 s.
Proof.
  intros [P1 S1] [P2 S2]. unfold gained, earned.
  destruct (available a1 a2 s) eqn:A; [|reflexivity]. cbn [andb].
  destruct s; try reflexivity; cbn [satisfied signal_holds];
    unfold available in A.
  - rewrite (proj2 (populated_pair (1 # 10) _ _ P1 P2 A)). reflexivity.
  - rewrite (proj2 (populated_pair (5 # 100) _ _ S1 S2 A)). reflexivity.
Qed.

Lemma earned_weight_gained (a1 a2 : Auction) :
  plausible a1 -> plausible a2 ->
  satisfied_weight a1 a2 = earned_weight a1 a2.
Proof.
  intros H1 H2. unfold satisfied_weight, earned_weight.
  induction all_signals as [|s l IH]; cbn [fold_right]; [reflexivity|].
  rewrite IH, (earned_gained a1 a2 s H1 H2). reflexivity.
Qed.

Lemma plausible_remove (a : Auction) (s : Signal) :
  plausible a -> plausible (remove s a).
Proof.
  intros [P S]. destruct s; split; cbn; try assumption; exact I.
Qed.

(** C7, amended.  For two listings whose starting prices and surfaces are
    not negative: a signal is available when its field is populated on both
    sides (present, non-empty, non-zero); [_match_auctions] returns the sum
    of the weights of the available signals that hold divided by the sum of
    the weights of the available signals (0 when none is available); the
    score lies in [0,1]; and clearing the field of a signal on either side
    removes the weight of that signal from the denominator, and from the
    numerator when it held, with no other change. *)
Theorem match_score_weighted_ratio (a1 a2 : Auction) :
  plausible a1 -> plausible a2 ->
  let num := earned_weight a1 a2 in
  let den := available_weight a1 a2 in
  exists score,
    _match_auctions ratio a1 a2 = Some score
    /\ quotient_or_zero num den score
    /\ 0 <= score <= 1
    /\ forall s,
         (exists score1,
            _match_auctions ratio (remove s a1) a2 = Some score1
            /\ quotient_or_zero (num - earned a1 a2 s)
                                (den - counted a1 a2 s) score1)
         /\ (exists score2,
               _match_auctions ratio a1 (remove s a2) = Some score2
               /\ quotient_or_zero (num - earned a1 a2 s)
                                   (den - counted a1 a2 s) score2).
Proof.
  intros H1 H2. cbn zeta.
  pose proof (plausible_returns a1 a2 H1 H2) as Hr.
  rewrite <- (earned_weight_gained a1 a2 H1 H2).
  destruct (match_auctions_score a1 a2 Hr) as (score & E & Hq & Hz & Hb).
  exists score. split; [exact E|]. split; [split; assumption|].
  split; [exact Hb|]. intros s.
  rewrite <- (earned_gained a1 a2 s H1 H2).
  destruct (raises_remove a1 a2 s Hr) as [R1 R2].
  destruct (weights_remove a1 a2 s) as [[N1 D1] [N2 D2]].
  split.
  - destruct (match_auctions_score (remove s a1) a2 R1)
      as (score1 & E1 & Hq1 & Hz1 & _).
    exists score1. split; [exact E1|]. unfold quotient_or_zero.
    rewrite <- N1, <- D1. split; assumption.
  - destruct (match_auctions_score a1 (remove s a2) R2)
      as (score2 & E2 & Hq2 & Hz2 & _).
    exists score2. split; [exact E2|]. unfold quotient_or_zero.
    rewrite <- N2, <- D2. split; assumption.
Qed.

(** The reading of the claim as stated: a signal counts as soon as its
    field is non-null on both sides. *)
Definition non_null (a1 a2 : Auction) (s : Signal) : bool :=
  match s with
  | SaleDate => Py.truthy_obj (date_vente a1) && Py.truthy_obj (date_vente a2)
  | Court => Py.truthy_str (tribunal a1) && Py.truthy_str (tribunal a2)
  | StartingPrice =>
      Py.truthy_obj (mise_a_prix a1) && Py.truthy_obj (mise_a_prix a2)
  | City => Py.truthy_str (ville a1) && Py.truthy_str (ville a2)
  | Kind => Py.truthy_obj (type_bien a1) && Py.truthy_obj (type_bien a2)
  | Surface => Py.truthy_obj (surface a1) && Py.truthy_obj (surface a2)
  end.

Definition stated_score (a1 a2 : Auction) : Q :=
  fold_right (fun s t => (if non_null a1 a2 s && signal_holds a1 a2 s
                          then weight s else 0) + t) 0 all_signals
  / fold_right (fun s t => (if non_null a1 a2 s then weight s else 0) + t)
               0 all_signals.

End MatchScore.

(** Two listings of one sale; the first source reports the surface as the
    number zero. *)
Definition listing_zero_surface : CrossValidator.Auction :=
  CrossValidator.set_surface
    (CrossValidator.set_date_vente CrossValidator.default_auction
       (Some 739000%Z))
    (Some 0).

Definition listing_with_surface : CrossValidator.Auction :=
  CrossValidator.set_surface
    (CrossValidator.set_date_vente CrossValidator.default_auction
       (Some 739000%Z))
    (Some 50).

(** C7, as stated, fails: both surfaces are non-null (0 and 50) and differ by
    more than 5%, so the stated score is (0.3 + 0.1) / (0.3 + 0.1 + 0.1),
    but the code leaves the surface signal out and returns 1. *)
Lemma zero_surface_is_not_counted :
  CrossValidator.surface listing_zero_surface = Some 0
  /\ CrossValidator.surface listing_with_surface = Some 50
  /\ stated_score ratio_equal listing_zero_surface listing_with_surface
     == 4 # 5
  /\ exists score,
       CrossValidator._match_auctions ratio_equal
         listing_zero_surface listing_with_surface = Some score
       /\ score == 1
       /\ ~ score
            == stated_score ratio_equal listing_zero_surface
                 listing_with_surface.
Proof.
  split; [reflexivity|]. split; [reflexivity|]. split; [reflexivity|].
  eexists. split; [reflexivity|]. split; [reflexivity|].
  vm_compute. discriminate.
Qed.

Lemma match_score_weighted_ratio_witness :
  exists score,
    CrossValidator._match_auctions ratio_equal
      listing_zero_surface listing_with_surface = Some score
    /\ quotient_or_zero
         (earned_weight ratio_equal listing_zero_surface listing_with_surface)
         (available_weight listing_zero_surface listing_with_surface) score
    /\ 0 <= score <= 1.
Proof.
  assert (H1 : plausible listing_zero_surface)
    by (split; cbn; [exact I | discriminate]).
  assert (H2 : plausible listing_with_surface)
    by (split; cbn; [exact I | discriminate]).
  destruct (match_score_weighted_ratio ratio_equal listing_zero_surface
              listing_with_surface H1 H2) as (score & E & Q & B & _).
  exists score. split; [exact E|]. split; [exact Q | exact B].
Defined.

(** Two starting prices of mean zero: the division raises. *)
Lemma match_auctions_can_raise :
  CrossValidator._match_auctions ratio_equal
    (CrossValidator.set_mise_a_prix CrossValidator.default_auction
       (Some 100))
    (CrossValidator.set_mise_a_prix CrossValidator.default_auction
       (Some (-100)))
  = None.
Proof. reflexivity. Qed.

(** ** Geo-enrichment and its notes *)

Section Enrichment.

Import CrossValidator.

Variable ratio : string -> string -> Q.
Variable repr : value -> string.
Variable repr_document : document -> string.

(** [x'] is [x] up to city, postal code and department, and each of these
    three that differs is the subject of a note of [added]. *)
Definition reported (x x' : Auction) (added : list string) : Prop :=
  x' = set_department
         (set_ville (set_code_postal x (code_postal x')) (ville x'))
         (department x')
  /\ (ville x' <> ville x ->
      exists n, In n added /\ String.prefix "ville " n = true)
  /\ (code_postal x' <> code_postal x ->
      exists n, In n added /\ String.prefix "postal code inferred" n = true)
  /\ (department x' <> department x ->
      exists n, In n added /\ String.prefix "department inferred" n = true)
  /\ (added = [] -> x' = x).

Lemma reported_refl (x : Auction) : reported x x [].
Proof.
  unfold reported. repeat split; try (intros H; exfalso; apply H; reflexivity).
  destruct x; reflexivity.
Qed.

Lemma reported_trans (x y z : Auction) (l1 l2 : list string) :
  reported x y l1 -> reported y z l2 -> reported x z (l1 ++ l2)%list.
Proof.
  intros (E1 & V1 & P1 & D1 & N1) (E2 & V2 & P2 & D2 & N2).
  unfold reported. split; [|split; [|split; [|split]]].
  - rewrite E2. rewrite E1 at 1. destruct x; reflexivity.
  - intros H. destruct (string_dec (ville y) (ville x)) as [Eq|Ne].
    + destruct V2 as (n & Hn & Hp); [congruence|].
      exists n. split; [apply in_or_app; right; exact Hn | exact Hp].
    + destruct (V1 Ne) as (n & Hn & Hp).
      exists n. split; [apply in_or_app; left; exact Hn | exact Hp].
  - intros H. destruct (string_dec (code_postal y) (code_postal x)) as [Eq|Ne].
    + destruct P2 as (n & Hn & Hp); [congruence|].
      exists n. split; [apply in_or_app; right; exact Hn | exact Hp].
    + destruct (P1 Ne) as (n & Hn & Hp).
      exists n. split; [apply in_or_app; left; exact Hn | exact Hp].
  - intros H. destruct (string_dec (department y) (department x)) as [Eq|Ne].
    + destruct D2 as (n & Hn & Hp); [congruence|].
      exists n. split; [apply in_or_app; right; exact Hn | exact Hp].
    + destruct (D1 Ne) as (n & Hn & Hp).
      exists n. split; [apply in_or_app; left; exact Hn | exact Hp].
  - intros H. apply app_eq_nil in H. destruct H as [H1 H2].
    rewrite (N2 H2). apply N1, H1.
Qed.

(** A block either leaves its state alone or updates one of the three
    fields and appends the note about it. *)
Definition block_reports (f : Auction * list string -> Auction * list string)
  : Prop :=
  forall x c, exists added,
    snd (f (x, c)) = (c ++ added)%list /\ reported x (fst (f (x, c))) added.

Ltac unchanged :=
  exists []; split; [cbn [snd]; rewrite app_nil_r; reflexivity
                    | cbn [fst]; apply reported_refl].

Ltac same_record :=
  match goal with
  | x : Auction |- _ => destruct x; reflexivity
  end.

Ltac changed :=
  eexists [_]; split; [reflexivity|];
  unfold reported; cbn [fst];
  split; [same_record | ];
  repeat split; intros;
  try (eexists; split; [left; reflexivity | reflexivity]);
  try discriminate; try (exfalso; auto; fail).

Lemma infer_ville_reports : block_reports infer_ville.
Proof.
  intros x c. unfold infer_ville.
  destruct (Py.truthy_str (code_postal x) && negb (Py.truthy_str (ville x)));
    [|unchanged].
  destruct (PyStr.lookup (code_postal x) CITIES_BY_POSTAL) as [city|];
    [|unchanged].
  destruct (Py.truthy_str city); [|unchanged].
  changed.
Qed.

Lemma infer_code_postal_reports : block_reports infer_code_postal.
Proof.
  intros x c. unfold infer_code_postal.
  destruct (Py.truthy_str (ville x) && negb (Py.truthy_str (code_postal x)));
    [|unchanged].
  cbv zeta.
  destruct (PyStr.match_marseille (_normalize_text (ville x))) as [group|].
  - changed.
  - destruct (PyStr.lookup (_normalize_text (ville x)) POSTAL_CODES) as [cp|];
      [changed | unchanged].
Qed.

Lemma correct_ville_reports : block_reports (correct_ville ratio).
Proof.
  intros x c. unfold correct_ville.
  destruct (Py.truthy_str (code_postal x) && Py.truthy_str (ville x));
    [|unchanged].
  destruct (PyStr.lookup (code_postal x) CITIES_BY_POSTAL) as [expected|];
    [|unchanged].
  destruct (Py.truthy_str expected); [|unchanged].
  cbv zeta.
  match goal with
  | |- context [if ?b then _ else _] => destruct b
  end; [changed | unchanged].
Qed.

Lemma infer_department_reports : block_reports infer_department.
Proof.
  intros x c. unfold infer_department.
  destruct (Py.truthy_str (code_postal x)
            && negb (Py.truthy_str (department x)));
    [changed | unchanged].
Qed.

Lemma block_reports_compose
  (f g : Auction * list string -> Auction * list string) :
  block_reports f -> block_reports g -> block_reports (fun st => g (f st)).
Proof.
  intros Hf Hg x c.
  destruct (Hf x c) as (l1 & S1 & R1).
  destruct (f (x, c)) as [y c1] eqn:Ef. cbn [fst snd] in S1, R1. subst c1.
  destruct (Hg y (c ++ l1)%list) as (l2 & S2 & R2).
  exists (l1 ++ l2)%list. split.
  - rewrite S2. symmetry. apply app_assoc.
  - eapply reported_trans; eassumption.
Qed.

(** Whatever [_enrich_from_postal] modifies, it reports. *)
Lemma enrich_reports (a : Auction) :
  reported a (fst (_enrich_from_postal ratio a))
           (snd (_enrich_from_postal ratio a)).
Proof.
  pose proof (block_reports_compose _ _
                (block_reports_compose _ _
                   (block_reports_compose _ _
                      infer_ville_reports infer_code_postal_reports)
                   correct_ville_reports)
                infer_department_reports a []) as (added & S & R).
  unfold _enrich_from_postal. cbn beta in S, R. rewrite S. exact R.
Qed.

(** [merge_auctions] enriches the record built by the field loop and puts
    the returned changes at the end of the notes. *)
Lemma merge_appends_enrichment (a1 a2 : Auction) :
  let pre := fst (fst (merge_fields repr repr_document a1 a2)) in
  let notes := snd (merge_fields repr repr_document a1 a2) in
  merged_auction (merge_auctions ratio repr repr_document a1 a2)
  = fst (_enrich_from_postal ratio pre)
  /\ validation_notes (merge_auctions ratio repr repr_document a1 a2)
     = (notes ++ snd (_enrich_from_postal ratio pre))%list.
Proof.
  cbn zeta. unfold merge_auctions.
  destruct (merge_fields repr repr_document a1 a2) as [[pre ff] notes].
  cbn [fst snd].
  destruct (_enrich_from_postal ratio pre) as [merged enrichment_notes].
  split; reflexivity.
Qed.

End Enrichment.

(** ** The reconcile pipeline *)

Section Pipeline.

Import CrossValidator.

Variable ratio : string -> string -> Q.
Variable repr : value -> string.
Variable repr_document : document -> string.

(** No pair of the two batches makes the matcher divide by zero. *)
Definition never_raises (s1 s2 : list Auction) : Prop :=
  forall a1 a2, In a1 s1 -> In a2 s2 -> raises a1 a2 = false.

Lemma match_auctions_returns (a1 a2 : Auction) :
  raises a1 a2 = false -> exists score, _match_auctions ratio a1 a2 = Some score.
Proof.
  intros H. rewrite match_auctions_steps, H. eexists. reflexivity.
Qed.

(** The inner loop returns, and its best candidate comes from the list. *)
Lemma best_candidate_total (a1 : Auction) (threshold : Q) (used : list nat)
  (all : list Auction) (s2 : list Auction) :
  (forall a2, In a2 s2 -> raises a1 a2 = false) ->
  incl s2 all ->
  forall idx best best_score,
    (forall i b, best = Some (i, b) -> In b all) ->
    exists found score,
      best_candidate ratio a1 threshold used idx s2 best best_score
      = Some (found, score)
      /\ (forall i b, found = Some (i, b) -> In b all).
Proof.
  induction s2 as [|a2 s2 IH]; intros Hr Hincl idx best best_score Hb;
    cbn [best_candidate].
  - exists best, best_score. split; [reflexivity | exact Hb].
  - assert (Hr' : forall a, In a s2 -> raises a1 a = false)
      by (intros a Ha; apply Hr; right; exact Ha).
    assert (Hincl' : incl s2 all)
      by (intros a Ha; apply Hincl; right; exact Ha).
    destruct (existsb (Nat.eqb idx) used); [apply IH; assumption|].
    destruct (match_auctions_returns a1 a2 (Hr a2 (or_introl eq_refl)))
      as (score & E).
    rewrite E.
    destruct (Qlt_bool best_score score && Qle_bool threshold score).
    + apply IH; try assumption.
      intros i b Eb. injection Eb as _ <-. apply Hincl. left. reflexivity.
    + apply IH; assumption.
Qed.

(** The outer loop returns, and pairs an auction of the first list with an
    auction of the second. *)
Lemma find_matches_from_total (all1 s2 : list Auction) (threshold : Q)
  (s1 : list Auction) :
  never_raises s1 s2 -> incl s1 all1 ->
  forall i1 used,
    exists matches,
      find_matches_from ratio i1 s1 s2 threshold used = Some matches
      /\ Forall (fun m => In (matched1 m) all1 /\ In (matched2 m) s2) matches.
Proof.
  induction s1 as [|a1 s1 IH]; intros Hr Hincl i1 used;
    cbn [find_matches_from].
  - exists []. split; [reflexivity | constructor].
  - assert (Hr' : never_raises s1 s2)
      by (intros x y Hx Hy; apply Hr; [right; exact Hx | exact Hy]).
    assert (Hincl' : incl s1 all1)
      by (intros a Ha; apply Hincl; right; exact Ha).
    destruct (best_candidate_total a1 threshold used s2 s2
                (fun a2 Ha => Hr a1 a2 (or_introl eq_refl) Ha)
                (incl_refl s2) 0%nat None 0)
      as (found & score & E & Hin); [discriminate|].
    rewrite E. cbn [fst snd].
    destruct found as [[best_idx best_match]|].
    + destruct (IH Hr' Hincl' (S i1) (best_idx :: used)) as (ms & Em & Fm).
      rewrite Em. eexists. split; [reflexivity|].
      constructor; [|exact Fm]. cbn [matched1 matched2]. split.
      * apply Hincl. left. reflexivity.
      * eapply Hin. reflexivity.
    + apply IH; assumption.
Qed.

Lemma unmatched_from_incl (matched : list nat) (l : list Auction) (i : nat) :
  incl (unmatched_from i l matched) l.
Proof.
  revert i. induction l as [|a l IH]; intros i; cbn [unmatched_from].
  - apply incl_refl.
  - destruct (existsb (Nat.eqb i) matched).
    + apply incl_tl, IH.
    + apply incl_cons; [left; reflexivity | apply incl_tl, IH].
Qed.

(** A record of the output: a merged pair, or an unmatched listing after
    enrichment. *)
Definition output_record (s1 s2 : list Auction) (x : Auction) : Prop :=
  (exists a1 a2,
     In a1 s1 /\ In a2 s2
     /\ x = merged_auction (merge_auctions ratio repr repr_document a1 a2))
  \/ (exists a,
        (In a s1 \/ In a s2) /\ x = fst (_enrich_from_postal ratio a)).

Lemma validate_and_merge_all_records (s1 s2 : list Auction) (threshold : Q) :
  never_raises s1 s2 ->
  exists out,
    validate_and_merge_all ratio repr repr_document s1 s2 threshold = Some out
    /\ Forall (output_record s1 s2) out.
Proof.
  intros Hr. unfold validate_and_merge_all, find_matches.
  destruct (find_matches_from_total s1 s2 threshold s1 Hr (incl_refl s1)
              0%nat [])
    as (ms & E & F).
  rewrite E. eexists. split; [reflexivity|].
  apply Forall_app. split; [apply Forall_app; split|].
  - apply Forall_map. eapply Forall_impl; [|exact F].
    intros m [H1 H2]. left. exists (matched1 m), (matched2 m). auto.
  - apply Forall_map, Forall_forall. intros a Ha. right. exists a.
    split; [left; eapply unmatched_from_incl; exact Ha | reflexivity].
  - apply Forall_map, Forall_forall. intros a Ha. right. exists a.
    split; [right; eapply unmatched_from_incl; exact Ha | reflexivity].
Qed.

End Pipeline.

(** C4, amended.  Every correction or inference of the geo-enrichment pass
    is reported in the list of changes that [_enrich_from_postal] returns:
    it modifies nothing but the city, the postal code and the department,
    each modified field has a note, and an empty list means an untouched
    record.  [merge_auctions] runs the pass on the merged record and appends
    the returned changes to the notes of its [ValidationResult].
    [validate_and_merge_all], when no pair of listings makes the matcher
    divide by zero, returns the list of records only: each one is the
    merged record of a pair or an unmatched listing after enrichment. *)
Theorem geo_enrichment_is_reported
  (ratio : string -> string -> Q)
  (repr : CrossValidator.value -> string)
  (repr_document : CrossValidator.document -> string)
  (s1 s2 : list CrossValidator.Auction) (threshold : Q) :
  never_raises s1 s2 ->
  (forall a,
     reported a (fst (CrossValidator._enrich_from_postal ratio a))
              (snd (CrossValidator._enrich_from_postal ratio a)))
  /\ (forall a1 a2,
        let pre :=
          fst (fst (CrossValidator.merge_fields repr repr_document a1 a2)) in
        let notes :=
          snd (CrossValidator.merge_fields repr repr_document a1 a2) in
        let r := CrossValidator.merge_auctions ratio repr repr_document a1 a2 in
        CrossValidator.merged_auction r
        = fst (CrossValidator._enrich_from_postal ratio pre)
        /\ CrossValidator.validation_notes r
           = (notes ++ snd (CrossValidator._enrich_from_postal ratio pre))%list)
  /\ exists out,
       CrossValidator.validate_and_merge_all ratio repr repr_document
         s1 s2 threshold = Some out
       /\ Forall (output_record ratio repr repr_document s1 s2) out.
Proof.
  intros Hr. split; [|split].
  - apply enrich_reports.
  - apply merge_appends_enrichment.
  - apply validate_and_merge_all_records, Hr.
Qed.

(** A listing with a postal code and no city, and the same listing as the
    enrichment leaves it. *)
Definition listing_without_city : CrossValidator.Auction :=
  CrossValidator.set_date_vente
    (CrossValidator.set_source
       (CrossValidator.set_code_postal CrossValidator.default_auction "75015")
       "licitor")
    (Some 739000%Z).

Definition listing_with_city : CrossValidator.Auction :=
  CrossValidator.set_department
    (CrossValidator.set_ville listing_without_city "Paris 15Eme") "75".

(** The same sale on the second source, without any location. *)
Definition listing_second_source : CrossValidator.Auction :=
  CrossValidator.set_date_vente
    (CrossValidator.set_source CrossValidator.default_auction
       "encheres_publiques")
    (Some 739000%Z).

Lemma geo_enrichment_is_reported_witness :
  exists out,
    CrossValidator.validate_and_merge_all ratio_equal repr_none
      repr_document_none [listing_without_city] [listing_second_source]
      (1 # 2) = Some out
    /\ Forall (output_record ratio_equal repr_none repr_document_none
                 [listing_without_city] [listing_second_source]) out.
Proof.
  apply (geo_enrichment_is_reported ratio_equal repr_none repr_document_none
           [listing_without_city] [listing_second_source] (1 # 2)).
  intros a1 a2 [<-|[]] [<-|[]]. reflexivity.
Defined.

(** C4, as stated, fails.  Unmatched: the run on [listing_without_city]
    infers the city and the department (two changes), the run on
    [listing_with_city] changes nothing, and both runs return the same
    list.  Matched: the same holds when each of them is merged with
    [listing_second_source].  The output therefore carries no trace of the
    changes made. *)
Lemma enrichment_notes_not_in_output :
  snd (CrossValidator._enrich_from_postal ratio_equal listing_without_city)
  = ["ville inferred from postal code: Paris 15Eme";
     "department inferred: 75"]
  /\ snd (CrossValidator._enrich_from_postal ratio_equal listing_with_city)
     = []
  /\ CrossValidator.validate_and_merge_all ratio_equal repr_none
       repr_document_none [listing_without_city] [] (1 # 2)
     = Some [listing_with_city]
  /\ CrossValidator.validate_and_merge_all ratio_equal repr_none
       repr_document_none [listing_with_city] [] (1 # 2)
     = Some [listing_with_city]
  /\ CrossValidator.validation_notes
       (CrossValidator.merge_auctions ratio_equal repr_none
          repr_document_none listing_without_city listing_second_source)
     = ["ville inferred from postal code: Paris 15Eme";
        "department inferred: 75"]
  /\ CrossValidator.validation_notes
       (CrossValidator.merge_auctions ratio_equal repr_none
          repr_document_none listing_with_city listing_second_source)
     = []
  /\ CrossValidator.validate_and_merge_all ratio_equal repr_none
       repr_document_none [listing_without_city] [listing_second_source]
       (1 # 2)
     = CrossValidator.validate_and_merge_all ratio_equal repr_none
         repr_document_none [listing_with_city] [listing_second_source]
         (1 # 2)
  /\ exists merged,
       CrossValidator.validate_and_merge_all ratio_equal repr_none
         repr_document_none [listing_without_city] [listing_second_source]
         (1 # 2)
       = Some [merged].
Proof.
  repeat split. eexists. reflexivity.
Qed.

(** * Further properties of the combiner *)

Section CombinerState.

Import PriceSources.

Variable pow_half : Q -> Q.

Lemma agreement_of_nonneg (prices : list Q) :
  0 <= agreement_of pow_half prices.
Proof.
  unfold agreement_of. destruct (2 <=? length prices)%nat.
  - destruct (Qlt_le_dec 0 (Py.sum prices / Py.len prices)).
    + unfold Py.max2.
      match goal with
      | |- context [Qlt_le_dec 0 ?x] => destruct (Qlt_le_dec 0 x) as [H|H]
      end; [apply Qlt_le_weak; exact H | apply Qle_refl].
    + apply Qle_refl.
  - unfold Qle; cbn; lia.
Qed.

Lemma average_confidence_range (e : PriceEstimate) (l : list PriceEstimate) :
  0 <= Py.sum (map confidence_score (e :: l)) / Py.len (e :: l) <= 100.
Proof.
  pose proof (len_pos e l) as Hn. split.
  - apply Qle_shift_div_l; [exact Hn|].
    setoid_replace (0 * Py.len (e :: l)) with 0 by ring.
    apply sum_nonneg, confidence_scores_nonneg.
  - apply Qle_shift_div_r; [exact Hn|].
    replace (Py.len (e :: l)) with (Py.len (map confidence_score (e :: l)))
      by (unfold Py.len; rewrite length_map; reflexivity).
    apply plain_sum_upper, Forall_map, Forall_forall. intros x _.
    apply confidence_score_range.
Qed.

Lemma source_bonus_range (n : nat) :
  10 <= inject_Z (Z.min 20 (Z.of_nat (S n) * 10))
  /\ inject_Z (Z.min 20 (Z.of_nat (S n) * 10)) <= 20.
Proof.
  split.
  - change 10 with (inject_Z 10). rewrite <- Zle_Qle. lia.
  - change 20 with (inject_Z 20). rewrite <- Zle_Qle. lia.
Qed.

(** The score stored by [_calculate_reliability] on a non-empty list. *)
Lemma calculate_reliability_score (m : MultiSourceEstimate) :
  estimates m <> [] ->
  10 <= reliability_score (_calculate_reliability pow_half m) <= 100.
Proof.
  intros Hne. unfold _calculate_reliability.
  destruct (estimates m) as [|e l] eqn:E; [contradiction|].
  cbn [reliability_score].
  destruct (average_confidence_range e l) as [A1 A2].
  destruct (source_bonus_range (length l)) as [B1 B2].
  pose proof (agreement_of_nonneg
                (map price (valid_estimates (e :: l)))) as C1.
  cbn [length] in *.
  set (avg := Py.sum (map confidence_score (e :: l)) / Py.len (e :: l)) in *.
  set (bonus := inject_Z (Z.min 20 (Z.of_nat (S (length l)) * 10))) in *.
  set (agr := agreement_of pow_half (map price (valid_estimates (e :: l)))) in *.
  assert (Hs : 10 <= avg * (1 # 2) + bonus + agr * (3 # 10)).
  { setoid_replace 10 with (0 * (1 # 2) + 10 + 0 * (3 # 10)) by ring.
    repeat apply Qplus_le_compat; try assumption;
      apply Qmult_le_compat_r; try assumption; unfold Qle; cbn; lia. }
  unfold Py.min2.
  destruct (Qlt_le_dec (avg * (1 # 2) + bonus + agr * (3 # 10)) 100) as [H|H].
  - split; [exact Hs | apply Qlt_le_weak; exact H].
  - split; [unfold Qle; cbn; lia | apply Qle_refl].
Qed.

(** X1.  After any sequence of [add_estimate] calls, the reliability is
    [INSUFFICIENT] exactly when nothing was accumulated; as soon as one
    estimate is accumulated the reliability score lies between 10 and 100,
    whatever the prices are. *)
Theorem insufficient_iff_nothing_accumulated (es : list PriceEstimate) :
  let m := add_all pow_half es in
  (reliability m = INSUFFICIENT <-> estimates m = [])
  /\ (estimates m <> [] -> 10 <= reliability_score m <= 100)
  /\ (estimates m = [] -> reliability_score m == 0).
Proof.
  cbn zeta.
  destruct (add_all_state pow_half es) as [H|(m0 & Hes & Hv & H)].
  - rewrite H. cbn. repeat split; intros; try reflexivity; try contradiction.
  - assert (Hne : estimates (add_all pow_half es) <> []).
    { rewrite <- Hes. intros E. rewrite E in Hv. apply Hv. reflexivity. }
    assert (Hs : 10 <= reliability_score (add_all pow_half es) <= 100).
    { rewrite H at 1 2. unfold _recalculate.
      destruct (valid_estimates (estimates m0)) eqn:Ev; [contradiction|].
      apply calculate_reliability_score.
      rewrite (proj1 (estimates_store_by_type _ _)). cbn [estimates].
      rewrite Hes. exact Hne. }
    split; [|split].
    + split; [|intros E; contradiction].
      intros Hi. exfalso. rewrite add_all_level in Hi.
      destruct (level_of_spec pow_half (reliability_score (add_all pow_half es))
                  (length (estimates (add_all pow_half es))))
        as (_ & _ & _ & L4).
      apply L4 in Hi. destruct Hi as (_ & _ & Hpos). apply Hpos.
      eapply Qlt_le_trans; [|exact (proj1 Hs)]. reflexivity.
    + intros _. exact Hs.
    + intros E. contradiction.
Qed.

Definition SourceType_eqb (a b : SourceType) : bool :=
  match a, b with
  | DVF, DVF | COMMUNE_STATS, COMMUNE_STATS
  | LISTINGS, LISTINGS | NOTAIRES, NOTAIRES => true
  | _, _ => false
  end.

(** The price of the last estimate of type [t] in [l], or [d] when there is
    none. *)
Definition last_price (t : SourceType) (l : list PriceEstimate)
  (d : option Q) : option Q :=
  fold_left (fun acc e => if SourceType_eqb (source_type e) t
                          then prix_m2 e else acc) l d.

Lemma last_price_app (t : SourceType) (l1 l2 : list PriceEstimate)
  (d : option Q) :
  last_price t (l1 ++ l2) d = last_price t l2 (last_price t l1 d).
Proof. apply fold_left_app. Qed.

Lemma last_price_again (t : SourceType) (l : list PriceEstimate)
  (d : option Q) :
  last_price t l (last_price t l d) = last_price t l d.
Proof.
  induction l as [|x l IH] using rev_ind; [reflexivity|].
  rewrite !last_price_app.
  assert (One : forall y, last_price t [x] y
                          = if SourceType_eqb (source_type x) t
                            then prix_m2 x else y) by reflexivity.
  rewrite !One.
  destruct (SourceType_eqb (source_type x) t); [reflexivity | exact IH].
Qed.

Lemma store_by_type_fold (l : list PriceEstimate) (m : MultiSourceEstimate) :
  fold_left store_by_type l m
  = mkMultiSourceEstimate (estimates m) (prix_m2_combined m) (prix_m2_min m)
      (prix_m2_max m) (reliability m) (reliability_score m)
      (sources_agreement m)
      (last_price DVF l (dvf_estimate m))
      (last_price LISTINGS l (listings_estimate m))
      (last_price COMMUNE_STATS l (commune_estimate m))
      (analysis_notes m).
Proof.
  revert m. induction l as [|e l IH]; intros m.
  - destruct m; reflexivity.
  - cbn [fold_left]. rewrite IH. unfold last_price. cbn [fold_left].
    unfold store_by_type.
    destruct (source_type e); cbn; reflexivity.
Qed.

(** A fresh combiner holding the estimates [l]. *)
Definition holding (l : list PriceEstimate) : MultiSourceEstimate :=
  mkMultiSourceEstimate l None None None INSUFFICIENT 0 0 None None None [].

(** What [_recalculate] stores, given the list and the previous breakdown. *)
Definition recomputed (l : list PriceEstimate) (d1 d2 d3 : option Q)
  (notes : list string) : MultiSourceEstimate :=
  let valid := valid_estimates l in
  let prices := map price valid in
  let agreement := agreement_of pow_half prices in
  let score :=
    Py.min2 100
      (Py.sum (map confidence_score l) / Py.len l * (1 # 2)
       + inject_Z (Z.min 20 (Z.of_nat (length l) * 10))
       + agreement * (3 # 10)) in
  mkMultiSourceEstimate l (Some (combined_price valid))
    (Py.min_list prices) (Py.max_list prices)
    (level_of score (length l)) score agreement
    (last_price DVF valid d1) (last_price LISTINGS valid d2)
    (last_price COMMUNE_STATS valid d3) notes.

Lemma recalculate_recomputed (m : MultiSourceEstimate) :
  valid_estimates (estimates m) <> [] ->
  _recalculate pow_half m
  = recomputed (estimates m) (dvf_estimate m) (listings_estimate m)
               (commune_estimate m) (analysis_notes m).
Proof.
  intros Hv. unfold _recalculate.
  destruct (valid_estimates (estimates m)) as [|v valid] eqn:Ev;
    [contradiction|].
  rewrite store_by_type_fold. cbn [estimates prix_m2_combined prix_m2_min
    prix_m2_max reliability reliability_score sources_agreement dvf_estimate
    listings_estimate commune_estimate analysis_notes].
  unfold _calculate_reliability. cbn [estimates prix_m2_combined prix_m2_min
    prix_m2_max reliability reliability_score sources_agreement dvf_estimate
    listings_estimate commune_estimate analysis_notes].
  unfold recomputed. rewrite Ev.
  destruct (estimates m) as [|e l] eqn:E; [discriminate|].
  reflexivity.
Qed.

Lemma recomputed_fields (l : list PriceEstimate) (d1 d2 d3 : option Q)
  (notes : list string) :
  estimates (recomputed l d1 d2 d3 notes) = l
  /\ dvf_estimate (recomputed l d1 d2 d3 notes)
     = last_price DVF (valid_estimates l) d1
  /\ listings_estimate (recomputed l d1 d2 d3 notes)
     = last_price LISTINGS (valid_estimates l) d2
  /\ commune_estimate (recomputed l d1 d2 d3 notes)
     = last_price COMMUNE_STATS (valid_estimates l) d3
  /\ analysis_notes (recomputed l d1 d2 d3 notes) = notes.
Proof. repeat split. Qed.

Lemma recomputed_after (l : list PriceEstimate) (e : PriceEstimate) :
  valid_estimates l = l ->
  recomputed (l ++ [e]) (last_price DVF l None) (last_price LISTINGS l None)
             (last_price COMMUNE_STATS l None) []
  = recomputed (l ++ [e]) None None None [].
Proof.
  intros Hl. unfold recomputed. rewrite valid_estimates_app, Hl.
  rewrite !last_price_app, !last_price_again. reflexivity.
Qed.

(** The state after a sequence of calls, in closed form. *)
Lemma add_all_recomputed (es : list PriceEstimate) :
  (valid_estimates es = [] /\ add_all pow_half es = empty)
  \/ (valid_estimates es <> []
      /\ add_all pow_half es
         = recomputed (valid_estimates es) None None None []).
Proof.
  induction es as [|e es IH] using rev_ind.
  - left. split; reflexivity.
  - unfold add_all. rewrite fold_left_app. cbn [fold_left].
    fold (add_all pow_half es). rewrite valid_estimates_app.
    assert (Ve : valid_estimates [e]
                 = if Py.truthy_float (prix_m2 e) then [e] else [])
      by reflexivity.
    rewrite Ve. unfold add_estimate.
    destruct (Py.truthy_float (prix_m2 e)) eqn:T.
    + right. split.
      { intros H. apply app_eq_nil in H. destruct H; discriminate. }
      rewrite recalculate_recomputed.
      * cbn [estimates dvf_estimate listings_estimate commune_estimate
             analysis_notes].
        destruct IH as [[Hv He]|[Hv He]]; rewrite He.
        { rewrite Hv. reflexivity. }
        { destruct (recomputed_fields (valid_estimates es) None None None [])
            as (F1 & F2 & F3 & F4 & F5).
          rewrite F1, F2, F3, F4, F5, valid_estimates_idem.
          apply recomputed_after, valid_estimates_idem. }
      * cbn [estimates].
        rewrite add_all_estimates, valid_estimates_app, valid_estimates_idem.
        intros H. apply app_eq_nil in H. destruct H as [_ H].
        unfold valid_estimates in H. cbn [filter] in H. rewrite T in H.
        discriminate.
    + rewrite app_nil_r. exact IH.
Qed.

(** X2.  The state reached by any sequence of [add_estimate] calls is the
    one a single [_recalculate] computes on a fresh combiner that holds the
    accumulated estimates (those with a non-null, non-zero price, in call
    order): nothing else of the call history is retained, and skipped calls
    leave no trace. *)
Theorem add_all_is_one_recalculation (es : list PriceEstimate) :
  estimates (add_all pow_half es) = valid_estimates es
  /\ add_all pow_half es
     = _recalculate pow_half (holding (valid_estimates es))
  /\ add_all pow_half es = add_all pow_half (valid_estimates es).
Proof.
  assert (One : forall l,
             add_all pow_half l
             = _recalculate pow_half (holding (valid_estimates l))).
  { intros l. destruct (add_all_recomputed l) as [[Hv He]|[Hv He]].
    - rewrite He, Hv. reflexivity.
    - rewrite He, recalculate_recomputed.
      + reflexivity.
      + cbn [holding estimates]. rewrite valid_estimates_idem. exact Hv. }
  split; [apply add_all_estimates|]. split; [apply One|].
  rewrite One, (One (valid_estimates es)), valid_estimates_idem.
  reflexivity.
Qed.

(** X3.  The per-type breakdown after any sequence of calls: each of
    [dvf_estimate], [listings_estimate] and [commune_estimate] is the price
    of the last accumulated estimate of its type, and is null when no
    estimate of that type was accumulated. *)
Theorem breakdown_is_last_seen (es : list PriceEstimate) :
  dvf_estimate (add_all pow_half es)
  = last_price DVF (valid_estimates es) None
  /\ listings_estimate (add_all pow_half es)
     = last_price LISTINGS (valid_estimates es) None
  /\ commune_estimate (add_all pow_half es)
     = last_price COMMUNE_STATS (valid_estimates es) None.
Proof.
  destruct (add_all_recomputed es) as [[Hv He]|[Hv He]]; rewrite He.
  - rewrite Hv. repeat split.
  - destruct (recomputed_fields (valid_estimates es) None None None [])
      as (_ & F2 & F3 & F4 & _).
    rewrite F2, F3, F4, valid_estimates_idem. repeat split.
Qed.

Lemma combined_price_single (e : PriceEstimate) :
  combined_price [e] == price e.
Proof.
  unfold combined_price. cbn [map combine].
  destruct (Qlt_le_dec 0 (Py.sum [confidence_score e])) as [H|H].
  - rewrite !sum_cons, !sum_nil in *. cbn [fst snd].
    field. intros Hz. rewrite Hz in H.
    setoid_replace (0 + 0) with 0 in H by ring.
    revert H. apply Qlt_irrefl.
  - rewrite sum_cons, sum_nil. unfold Py.len. cbn. field.
Qed.

Lemma single_score (e : PriceEstimate) :
  reliability_score (recomputed [e] None None None [])
  == confidence_score e * (1 # 2) + 25.
Proof.
  unfold recomputed. cbn [reliability_score length].
  assert (Ha : agreement_of pow_half (map price (valid_estimates [e])) = 50).
  { unfold agreement_of.
    assert (Hl : (length (map price (valid_estimates [e])) <= 1)%nat).
    { unfold valid_estimates. cbn.
      destruct (Py.truthy_float (prix_m2 e)); cbn; lia. }
    destruct (2 <=? length (map price (valid_estimates [e])))%nat eqn:E;
      [apply Nat.leb_le in E; lia | reflexivity]. }
  rewrite Ha.
  set (s := Py.sum (map confidence_score [e]) / Py.len [e] * (1 # 2)
            + inject_Z (Z.min 20 (Z.of_nat 1 * 10)) + 50 * (3 # 10)).
  assert (Hs : s == confidence_score e * (1 # 2) + 25).
  { unfold s. cbn [map]. rewrite sum_cons, sum_nil.
    unfold Py.len. cbn. field. }
  unfold Py.min2. destruct (Qlt_le_dec s 100) as [H|H]; [exact Hs|].
  exfalso. rewrite Hs in H.
  destruct (confidence_score_range e) as [_ Hc].
  apply (Qle_not_lt _ _ H).
  apply Qle_lt_trans with (100 * (1 # 2) + 25).
  - apply Qplus_le_compat; [|apply Qle_refl].
    apply Qmult_le_compat_r; [exact Hc | unfold Qle; cbn; lia].
  - reflexivity.
Qed.

(** X4.  When exactly one estimate has been accumulated, the agreement is
    50, the combined price is defined, the minimum and the maximum are both
    the price of that estimate, the reliability score is half its confidence
    plus 25, and the level is [MEDIUM] when the confidence is at least 30
    and [LOW] otherwise. *)
Theorem single_estimate_summary (es : list PriceEstimate) (e : PriceEstimate) :
  valid_estimates es = [e] ->
  let m := add_all pow_half es in
  sources_agreement m = 50
  /\ prix_m2_combined m <> None
  /\ prix_m2_min m = Some (price e)
  /\ prix_m2_max m = Some (price e)
  /\ reliability_score m == confidence_score e * (1 # 2) + 25
  /\ reliability m
     = if Qle_bool 30 (confidence_score e) then MEDIUM else LOW.
Proof.
  intros Hv. cbn zeta.
  destruct (add_all_recomputed es) as [[Hn _]|[_ He]];
    [rewrite Hv in Hn; discriminate|].
  rewrite Hv in He.
  assert (Hvalid : valid_estimates [e] = [e]).
  { rewrite <- Hv. apply valid_estimates_idem. }
  pose proof (single_score e) as Hs.
  rewrite add_all_level. rewrite He.
  split; [|split; [|split; [|split; [|split]]]].
  - unfold recomputed. cbn [sources_agreement]. rewrite Hvalid. reflexivity.
  - unfold recomputed. cbn [prix_m2_combined]. rewrite Hvalid. discriminate.
  - unfold recomputed. cbn [prix_m2_min]. rewrite Hvalid. reflexivity.
  - unfold recomputed. cbn [prix_m2_max]. rewrite Hvalid. reflexivity.
  - exact Hs.
  - destruct (recomputed_fields [e] None None None []) as (F1 & _).
    rewrite F1. cbn [length].
    set (score := reliability_score (recomputed [e] None None None [])) in *.
    unfold level_of. rewrite andb_false_r.
    assert (H40 : Qle_bool 40 score = Qle_bool 30 (confidence_score e)).
    { destruct (Qle_bool 40 score) eqn:A, (Qle_bool 30 (confidence_score e)) eqn:B;
        try reflexivity; exfalso.
      - apply Qle_bool_iff in A. rewrite Hs in A.
        assert (~ 30 <= confidence_score e)
          by (rewrite <- Qle_bool_iff; congruence).
        apply H. unfold Qle in *. cbn in *. lia.
      - apply Qle_bool_iff in B.
        assert (~ 40 <= score) by (rewrite <- Qle_bool_iff; congruence).
        apply H. rewrite Hs. unfold Qle in *. cbn in *. lia. }
    rewrite H40. destruct (Qle_bool 30 (confidence_score e)); [reflexivity|].
    destruct (Qlt_le_dec 0 score) as [P|P]; [reflexivity|].
    exfalso. rewrite Hs in P.
    destruct (confidence_score_range e) as [Hc _].
    unfold Qle in *. cbn in *. lia.
Qed.

Lemma fold_min2_in (l : list Q) (a : Q) : In (fold_left Py.min2 l a) (a :: l).
Proof.
  revert a. induction l as [|x l IH]; intros a; cbn [fold_left].
  - left. reflexivity.
  - destruct (IH (Py.min2 a x)) as [H|H].
    + rewrite <- H. unfold Py.min2.
      destruct (Qlt_le_dec x a); [right; left | left]; reflexivity.
    + right. right. exact H.
Qed.

Lemma fold_max2_in (l : list Q) (a : Q) : In (fold_left Py.max2 l a) (a :: l).
Proof.
  revert a. induction l as [|x l IH]; intros a; cbn [fold_left].
  - left. reflexivity.
  - destruct (IH (Py.max2 a x)) as [H|H].
    + rewrite <- H. unfold Py.max2.
      destruct (Qlt_le_dec a x); [right; left | left]; reflexivity.
    + right. right. exact H.
Qed.

(** X5.  After any sequence of calls that accumulated something,
    [prix_m2_min] and [prix_m2_max] are prices of accumulated estimates, and
    every accumulated price lies between them. *)
Theorem price_range_is_attained (es : list PriceEstimate) :
  estimates (add_all pow_half es) <> [] ->
  let prices := map price (estimates (add_all pow_half es)) in
  exists lo hi,
    prix_m2_min (add_all pow_half es) = Some lo
    /\ prix_m2_max (add_all pow_half es) = Some hi
    /\ In lo prices /\ In hi prices
    /\ Forall (fun p => lo <= p <= hi) prices.
Proof.
  intros Hne. cbn zeta.
  destruct (add_all_combined pow_half es Hne) as (_ & Hmin & Hmax).
  cbn zeta in *.
  destruct (estimates (add_all pow_half es)) as [|e acc]; [contradiction|].
  cbn [map] in *. rewrite Hmin, Hmax.
  exists (fold_left Py.min2 (map price acc) (price e)),
         (fold_left Py.max2 (map price acc) (price e)).
  split; [reflexivity|]. split; [reflexivity|].
  split; [apply fold_min2_in|]. split; [apply fold_max2_in|].
  destruct (fold_min2_le (map price acc) (price e)) as [L1 L2].
  destruct (fold_max2_ge (map price acc) (price e)) as [U1 U2].
  constructor; [split; assumption|].
  rewrite Forall_forall in *. intros p Hp. split; auto.
Qed.

End CombinerState.

Lemma single_estimate_summary_witness :
  PriceSources.sources_agreement
    (PriceSources.add_all (fun x => x)
       [zero_price_estimate; commune_estimate_3400]) = 50
  /\ PriceSources.prix_m2_min
       (PriceSources.add_all (fun x => x)
          [zero_price_estimate; commune_estimate_3400]) = Some 3400
  /\ PriceSources.reliability
       (PriceSources.add_all (fun x => x)
          [zero_price_estimate; commune_estimate_3400])
     = PriceSources.MEDIUM.
Proof.
  destruct (single_estimate_summary (fun x => x)
              [zero_price_estimate; commune_estimate_3400]
              commune_estimate_3400 eq_refl)
    as (A & _ & B & _ & _ & C).
  repeat split; assumption.
Defined.

Lemma price_range_is_attained_witness :
  exists lo hi,
    PriceSources.prix_m2_min
      (PriceSources.add_all (fun x => x)
         [confident_estimate; commune_estimate_3400]) = Some lo
    /\ PriceSources.prix_m2_max
         (PriceSources.add_all (fun x => x)
            [confident_estimate; commune_estimate_3400]) = Some hi
    /\ In lo [3000; 3400] /\ In hi [3000; 3400]
    /\ Forall (fun p => lo <= p <= hi) [3000; 3400].
Proof.
  apply (price_range_is_attained (fun x => x)
           [confident_estimate; commune_estimate_3400]).
  cbn. discriminate.
Defined.

(** * Further properties of the cross-source validator *)

Section Matching.

Import CrossValidator.

Variable ratio : string -> string -> Q.
Variable repr : value -> string.
Variable repr_document : document -> string.

(** What the inner loop of [find_matches] holds as its best candidate for
    [a1]: nothing yet, with the initial score 0, or an unused auction of the
    second list with its position and its score, which clears the
    threshold and is positive. *)
Definition best_so_far (a1 : Auction) (threshold : Q) (used : list nat)
  (s2 : list Auction) (best : option (nat * Auction)) (score : Q) : Prop :=
  match best with
  | None => score = 0
  | Some (i, a2) =>
      nth_error s2 i = Some a2 /\ ~ In i used
      /\ _match_auctions ratio a1 a2 = Some score
      /\ threshold <= score /\ 0 < score
  end.

Lemma best_so_far_positive (a1 : Auction) (threshold : Q) (used : list nat)
  (s2 : list Auction) (best : option (nat * Auction)) (score : Q) :
  best_so_far a1 threshold used s2 best score -> 0 <= score.
Proof.
  destruct best as [[i a2]|]; cbn.
  - intros (_ & _ & _ & _ & H). apply Qlt_le_weak, H.
  - intros ->. apply Qle_refl.
Qed.

Lemma best_candidate_keeps (a1 : Auction) (threshold : Q) (used : list nat)
  (pre rest : list Auction) :
  forall best best_score found score,
    best_so_far a1 threshold used (pre ++ rest) best best_score ->
    best_candidate ratio a1 threshold used (length pre) rest best best_score
    = Some (found, score) ->
    best_so_far a1 threshold used (pre ++ rest) found score.
Proof.
  revert pre. induction rest as [|a2 rest IH]; intros pre best best_score
    found score Hb E; cbn [best_candidate] in E.
  - injection E as <- <-. exact Hb.
  - assert (Hshift : (pre ++ a2 :: rest = (pre ++ [a2]) ++ rest)%list)
      by (rewrite <- app_assoc; reflexivity).
    assert (Hlen : length (pre ++ [a2]) = S (length pre))
      by (rewrite length_app; cbn; lia).
    rewrite Hshift in *.
    destruct (existsb (Nat.eqb (length pre)) used) eqn:U.
    + rewrite <- Hlen in E. eapply IH; eassumption.
    + destruct (_match_auctions ratio a1 a2) as [sc|] eqn:M; [|discriminate].
      destruct (Qlt_bool best_score sc && Qle_bool threshold sc) eqn:C.
      * rewrite <- Hlen in E. eapply IH; [|exact E].
        apply andb_true_iff in C. destruct C as [C1 C2].
        apply Qlt_bool_iff in C1. apply Qle_bool_iff in C2.
        cbn. split; [|split; [|split; [|split]]].
        -- rewrite <- app_assoc. rewrite nth_error_app2 by lia.
           rewrite Nat.sub_diag. reflexivity.
        -- intros Hin.
           assert (existsb (Nat.eqb (length pre)) used = true).
           { apply existsb_exists. exists (length pre).
             split; [exact Hin | apply Nat.eqb_refl]. }
           congruence.
        -- exact M.
        -- exact C2.
        -- eapply Qle_lt_trans; [|exact C1].
           eapply best_so_far_positive. exact Hb.
      * rewrite <- Hlen in E. eapply IH; eassumption.
Qed.

(** The facts about one returned match. *)
Definition sound_match (s1 s2 : list Auction) (threshold : Q)
  (m : match_found) : Prop :=
  nth_error s1 (index1 m) = Some (matched1 m)
  /\ nth_error s2 (index2 m) = Some (matched2 m)
  /\ _match_auctions ratio (matched1 m) (matched2 m) = Some (match_score m)
  /\ threshold <= match_score m
  /\ 0 < match_score m.

Lemma find_matches_from_sound (s2 : list Auction) (threshold : Q)
  (pre rest : list Auction) :
  forall used matches,
    find_matches_from ratio (length pre) rest s2 threshold used
    = Some matches ->
    Forall (sound_match (pre ++ rest) s2 threshold) matches
    /\ Forall (fun m => (length pre <= index1 m)%nat
                        /\ ~ In (index2 m) used) matches
    /\ StronglySorted lt (map index1 matches)
    /\ NoDup (map index2 matches).
Proof.
  revert pre. induction rest as [|a1 rest IH]; intros pre used matches E;
    cbn [find_matches_from] in E.
  - injection E as <-. repeat split; constructor.
  - assert (Hshift : (pre ++ a1 :: rest = (pre ++ [a1]) ++ rest)%list)
      by (rewrite <- app_assoc; reflexivity).
    assert (Hlen : length (pre ++ [a1]) = S (length pre))
      by (rewrite length_app; cbn; lia).
    destruct (best_candidate ratio a1 threshold used 0 s2 None 0)
      as [[found score]|] eqn:B; [|discriminate].
    pose proof (best_candidate_keeps a1 threshold used [] s2 None 0
                  found score eq_refl B) as Hf.
    cbn [app fst snd] in *.
    destruct found as [[best_idx best_match]|].
    + destruct (find_matches_from ratio (S (length pre)) rest s2 threshold
                  (best_idx :: used)) as [ms|] eqn:R; [|discriminate].
      injection E as <-.
      rewrite <- Hlen in R. apply IH in R.
      destruct R as (S1 & S2 & S3 & S4). rewrite <- Hshift in S1.
      destruct Hf as (N2 & Nu & M & T & P).
      split; [|split; [|split]].
      * constructor; [|exact S1].
        unfold sound_match. cbn [index1 index2 matched1 matched2 match_score].
        rewrite nth_error_app2 by lia. rewrite Nat.sub_diag.
        repeat split; assumption.
      * constructor.
        -- cbn. split; [lia | exact Nu].
        -- eapply Forall_impl; [|exact S2]. cbn. intros m [A B'].
           split; [lia | intros Hin; apply B'; right; exact Hin].
      * cbn [map index1]. constructor; [exact S3|].
        apply Forall_map. eapply Forall_impl; [|exact S2].
        cbn. intros m [A _]. lia.
      * cbn [map index2]. constructor; [|exact S4].
        intros Hin. apply in_map_iff in Hin. destruct Hin as (m & Em & Hm).
        rewrite Forall_forall in S2. destruct (S2 m Hm) as [_ Hn].
        apply Hn. left. symmetry. exact Em.
    + rewrite <- Hlen in E. apply IH in E.
      destruct E as (S1 & S2 & S3 & S4). rewrite <- Hshift in S1.
      split; [exact S1|]. split; [|split; assumption].
      eapply Forall_impl; [|exact S2]. cbn. intros m [A B']. split; [lia|exact B'].
Qed.

Lemma unmatched_from_count (matched : list nat) (l : list Auction) (i : nat) :
  (length (unmatched_from i l matched)
   + length (filter (fun k => existsb (Nat.eqb k) matched) (seq i (length l)))
   = length l)%nat.
Proof.
  revert i. induction l as [|a l IH]; intros i; cbn [unmatched_from length seq filter].
  - reflexivity.
  - specialize (IH (S i)).
    destruct (existsb (Nat.eqb i) matched); cbn [length]; lia.
Qed.

Lemma unmatched_from_length (matched : list nat) (l : list Auction) :
  NoDup matched ->
  (forall k, In k matched -> (k < length l)%nat) ->
  (length (unmatched_from 0 l matched) + length matched = length l)%nat.
Proof.
  intros Hnd Hr.
  etransitivity; [|apply (unmatched_from_count matched l 0%nat)].
  f_equal. symmetry. apply Permutation_length, NoDup_Permutation.
  - apply NoDup_filter, seq_NoDup.
  - exact Hnd.
  - intros x. rewrite filter_In, in_seq, existsb_exists. split.
    + intros (_ & k & Hk & E). apply Nat.eqb_eq in E. subst. exact Hk.
    + intros Hx. split; [specialize (Hr x Hx); lia|].
      exists x. split; [exact Hx | apply Nat.eqb_refl].
Qed.

(** X6.  When no pair of listings makes the matcher divide by zero,
    [find_matches] returns, and its result is a one-to-one pairing: every
    match pairs the listing at [index1] of the first list with the listing
    at [index2] of the second, its score is the match score of the two,
    clears the threshold and is positive; the positions in the first list
    are strictly increasing and no position of the second list is used
    twice, so there are at most as many matches as listings on either
    side. *)
Theorem find_matches_one_to_one (s1 s2 : list Auction) (threshold : Q) :
  never_raises s1 s2 ->
  exists matches,
    find_matches ratio s1 s2 threshold = Some matches
    /\ Forall (sound_match s1 s2 threshold) matches
    /\ StronglySorted lt (map index1 matches)
    /\ NoDup (map index2 matches)
    /\ (length matches <= length s1)%nat
    /\ (length matches <= length s2)%nat.
Proof.
  intros Hr.
  destruct (find_matches_from_total ratio s1 s2 threshold s1 Hr
              (incl_refl s1) 0%nat []) as (ms & E & _).
  exists ms. split; [exact E|].
  destruct (find_matches_from_sound s2 threshold [] s1 [] ms E)
    as (S1 & _ & S3 & S4).
  cbn [app] in S1.
  split; [exact S1|]. split; [exact S3|]. split; [exact S4|].
  assert (B1 : forall k, In k (map index1 ms) -> (k < length s1)%nat).
  { intros k Hk. apply in_map_iff in Hk. destruct Hk as (m & <- & Hm).
    rewrite Forall_forall in S1. destruct (S1 m Hm) as (N1 & _).
    apply nth_error_Some. congruence. }
  assert (B2 : forall k, In k (map index2 ms) -> (k < length s2)%nat).
  { intros k Hk. apply in_map_iff in Hk. destruct Hk as (m & <- & Hm).
    rewrite Forall_forall in S1. destruct (S1 m Hm) as (_ & N2 & _).
    apply nth_error_Some. congruence. }
  assert (D1 : NoDup (map index1 ms)).
  { apply StronglySorted_Sorted in S3. clear - S3.
    induction S3 as [|x l Hs IH Hhd]; constructor; [|exact IH].
    intros Hin.
    assert (Ht : StronglySorted lt (x :: l)).
    { apply Sorted_StronglySorted; [intros a b c; apply Nat.lt_trans|].
      constructor; assumption. }
    inversion Ht as [|? ? _ Hall]; subst.
    rewrite Forall_forall in Hall. specialize (Hall x Hin). lia. }
  pose proof (unmatched_from_length (map index1 ms) s1 D1 B1) as L1.
  pose proof (unmatched_from_length (map index2 ms) s2 S4 B2) as L2.
  rewrite length_map in L1, L2. split; lia.
Qed.

(** With distinct objects, telling the matched listings by identity is
    telling them by position. *)
Lemma not_matched_positions (l : list CrossValidatorObjects.Ref)
  (matched : list nat) :
  NoDup (map CrossValidatorObjects.object_id l) ->
  (forall k, In k matched -> (k < length l)%nat) ->
  map CrossValidatorObjects.object
      (CrossValidatorObjects.not_matched
         (map (CrossValidatorObjects.id_at l) matched) l)
  = unmatched_from 0 (map CrossValidatorObjects.object l) matched.
Proof.
  intros Hnd Hr.
  set (ids := map (CrossValidatorObjects.id_at l) matched).
  assert (G : forall rest pre,
             l = (pre ++ rest)%list ->
             map CrossValidatorObjects.object
                 (CrossValidatorObjects.not_matched ids rest)
             = unmatched_from (length pre)
                 (map CrossValidatorObjects.object rest) matched).
  { induction rest as [|r rest IH]; intros pre E; [reflexivity|].
    cbn [CrossValidatorObjects.not_matched filter map unmatched_from].
    assert (Hshift : l = ((pre ++ [r]) ++ rest)%list)
      by (rewrite <- app_assoc; exact E).
    assert (Hlen : length (pre ++ [r]) = S (length pre))
      by (rewrite length_app; cbn; lia).
    specialize (IH (pre ++ [r])%list Hshift). rewrite Hlen in IH.
    assert (Hnth : nth_error l (length pre) = Some r).
    { rewrite E, nth_error_app2 by lia. rewrite Nat.sub_diag. reflexivity. }
    assert (Hb : existsb (Nat.eqb (CrossValidatorObjects.object_id r)) ids
                 = existsb (Nat.eqb (length pre)) matched).
    { apply eq_true_iff_eq. rewrite !existsb_exists. split.
      - intros (x & Hx & Ex). apply Nat.eqb_eq in Ex. subst x.
        unfold ids in Hx. apply in_map_iff in Hx.
        destruct Hx as (m & Em & Hm). exists m. split; [exact Hm|].
        apply Nat.eqb_eq.
        pose proof (Hr m Hm) as Lm.
        unfold CrossValidatorObjects.id_at in Em.
        destruct (nth_error l m) as [r'|] eqn:Nm;
          [|apply nth_error_None in Nm; lia].
        rewrite NoDup_nth_error in Hnd. symmetry. apply Hnd.
        + rewrite length_map. exact Lm.
        + rewrite !nth_error_map, Nm, Hnth. cbn. f_equal. exact Em.
      - intros (m & Hm & Em). apply Nat.eqb_eq in Em. subst m.
        exists (CrossValidatorObjects.object_id r). split.
        + unfold ids. apply in_map_iff. exists (length pre).
          split; [|exact Hm].
          unfold CrossValidatorObjects.id_at. rewrite Hnth. reflexivity.
        + apply Nat.eqb_refl. }
    rewrite Hb. fold (CrossValidatorObjects.not_matched ids rest).
    destruct (existsb (Nat.eqb (length pre)) matched); cbn [negb map];
      rewrite IH; reflexivity. }
  apply (G l []). reflexivity.
Qed.

(** X7.  When the objects of each list are distinct and no pair of listings
    makes the matcher divide by zero, [validate_and_merge_all] returns one
    record per match and one per unmatched listing of either list: the
    number of records plus the number of matches is the number of listings
    received; and telling the matched listings by identity then gives the
    same records as telling them by position. *)
Theorem validate_and_merge_all_count
  (s1 s2 : list CrossValidatorObjects.Ref) (threshold : Q) :
  never_raises (map CrossValidatorObjects.object s1)
               (map CrossValidatorObjects.object s2) ->
  NoDup (map CrossValidatorObjects.object_id s1) ->
  NoDup (map CrossValidatorObjects.object_id s2) ->
  exists out matches,
    CrossValidatorObjects.validate_and_merge_all ratio repr repr_document
      s1 s2 threshold = Some out
    /\ find_matches ratio (map CrossValidatorObjects.object s1)
                    (map CrossValidatorObjects.object s2) threshold
       = Some matches
    /\ validate_and_merge_all ratio repr repr_document
         (map CrossValidatorObjects.object s1)
         (map CrossValidatorObjects.object s2) threshold = Some out
    /\ (length out + length matches = length s1 + length s2)%nat.
Proof.
  intros Hr N1 N2.
  set (v1 := map CrossValidatorObjects.object s1) in *.
  set (v2 := map CrossValidatorObjects.object s2) in *.
  destruct (find_matches_from_total ratio v1 v2 threshold v1 Hr
              (incl_refl v1) 0%nat []) as (ms & E & _).
  destruct (find_matches_from_sound v2 threshold [] v1 [] ms E)
    as (S1 & _ & S3 & S4).
  cbn [app] in S1.
  assert (B1 : forall k, In k (map index1 ms) -> (k < length v1)%nat).
  { intros k Hk. apply in_map_iff in Hk. destruct Hk as (m & <- & Hm).
    rewrite Forall_forall in S1. destruct (S1 m Hm) as (M1 & _).
    apply nth_error_Some. congruence. }
  assert (B2 : forall k, In k (map index2 ms) -> (k < length v2)%nat).
  { intros k Hk. apply in_map_iff in Hk. destruct Hk as (m & <- & Hm).
    rewrite Forall_forall in S1. destruct (S1 m Hm) as (_ & M2 & _).
    apply nth_error_Some. congruence. }
  assert (D1 : NoDup (map index1 ms)).
  { apply StronglySorted_Sorted in S3. clear - S3.
    induction S3 as [|x l Hs IH Hhd]; constructor; [|exact IH].
    intros Hin.
    assert (Ht : StronglySorted lt (x :: l)).
    { apply Sorted_StronglySorted; [intros a b c; apply Nat.lt_trans|].
      constructor; assumption. }
    inversion Ht as [|? ? _ Hall]; subst.
    rewrite Forall_forall in Hall. specialize (Hall x Hin). lia. }
  pose proof (unmatched_from_length (map index1 ms) v1 D1 B1) as L1.
  pose proof (unmatched_from_length (map index2 ms) v2 S4 B2) as L2.
  assert (P1 : map CrossValidatorObjects.object
                   (CrossValidatorObjects.not_matched
                      (map (fun m => CrossValidatorObjects.id_at s1 (index1 m))
                           ms) s1)
               = unmatched_from 0 v1 (map index1 ms)).
  { rewrite <- (map_map index1 (CrossValidatorObjects.id_at s1)).
    apply not_matched_positions; [exact N1|].
    intros k Hk. specialize (B1 k Hk). unfold v1 in B1.
    rewrite length_map in B1. exact B1. }
  assert (P2 : map CrossValidatorObjects.object
                   (CrossValidatorObjects.not_matched
                      (map (fun m => CrossValidatorObjects.id_at s2 (index2 m))
                           ms) s2)
               = unmatched_from 0 v2 (map index2 ms)).
  { rewrite <- (map_map index2 (CrossValidatorObjects.id_at s2)).
    apply not_matched_positions; [exact N2|].
    intros k Hk. specialize (B2 k Hk). unfold v2 in B2.
    rewrite length_map in B2. exact B2. }
  unfold CrossValidatorObjects.validate_and_merge_all,
         validate_and_merge_all, find_matches.
  fold v1 v2. rewrite E.
  eexists. exists ms. split; [reflexivity|]. split; [reflexivity|].
  split.
  - f_equal. rewrite <- P1, <- P2, !map_map. reflexivity.
  - rewrite !length_app, !length_map.
    rewrite <- (length_map CrossValidatorObjects.object
                  (CrossValidatorObjects.not_matched _ s1)), P1.
    rewrite <- (length_map CrossValidatorObjects.object
                  (CrossValidatorObjects.not_matched _ s2)), P2.
    assert (Lv1 : length v1 = length s1) by apply length_map.
    assert (Lv2 : length v2 = length s2) by apply length_map.
    rewrite length_map in L1, L2. lia.
Qed.

End Matching.

Lemma find_matches_one_to_one_witness :
  exists matches,
    CrossValidator.find_matches ratio_equal
      [listing_without_city; listing_with_city] [listing_second_source]
      (1 # 2) = Some matches
    /\ Forall (sound_match ratio_equal
                 [listing_without_city; listing_with_city]
                 [listing_second_source] (1 # 2)) matches
    /\ StronglySorted lt (map CrossValidator.index1 matches)
    /\ NoDup (map CrossValidator.index2 matches)
    /\ (List.length matches <= 2)%nat
    /\ (List.length matches <= 1)%nat.
Proof.
  apply (find_matches_one_to_one ratio_equal
           [listing_without_city; listing_with_city]
           [listing_second_source] (1 # 2)).
  intros a1 a2 [<-|[<-|[]]] [<-|[]]; reflexivity.
Defined.

(** Three distinct listing objects in two batches. *)
Definition first_batch : list CrossValidatorObjects.Ref :=
  [CrossValidatorObjects.mkRef 1 listing_without_city;
   CrossValidatorObjects.mkRef 2 listing_with_city].

Definition second_batch : list CrossValidatorObjects.Ref :=
  [CrossValidatorObjects.mkRef 3 listing_second_source].

Lemma validate_and_merge_all_count_witness :
  exists out matches,
    CrossValidatorObjects.validate_and_merge_all ratio_equal repr_none
      repr_document_none first_batch second_batch (1 # 2) = Some out
    /\ CrossValidator.find_matches ratio_equal
         [listing_without_city; listing_with_city] [listing_second_source]
         (1 # 2) = Some matches
    /\ CrossValidator.validate_and_merge_all ratio_equal repr_none
         repr_document_none [listing_without_city; listing_with_city]
         [listing_second_source] (1 # 2) = Some out
    /\ (List.length out + List.length matches = 2 + 1)%nat.
Proof.
  apply (validate_and_merge_all_count ratio_equal repr_none
           repr_document_none first_batch second_batch (1 # 2)).
  - intros a1 a2 [<-|[<-|[]]] [<-|[]]; reflexivity.
  - repeat constructor; cbn; intuition lia.
  - repeat constructor; cbn; intuition lia.
Defined.

(** The same listing object twice in the first batch: the first occurrence
    is matched, and the second one, although unmatched, is left out with
    it.  One record is returned for three listings and one match. *)
Lemma same_object_twice_is_left_out :
  exists out matches,
    CrossValidatorObjects.validate_and_merge_all ratio_equal repr_none
      repr_document_none
      [CrossValidatorObjects.mkRef 1 listing_with_city;
       CrossValidatorObjects.mkRef 1 listing_with_city]
      second_batch (1 # 2) = Some out
    /\ CrossValidator.find_matches ratio_equal
         [listing_with_city; listing_with_city] [listing_second_source]
         (1 # 2) = Some matches
    /\ List.length out = 1%nat
    /\ List.length matches = 1%nat.
Proof.
  eexists. eexists. split; [vm_compute; reflexivity|].
  split; [vm_compute; reflexivity|]. split; reflexivity.
Qed.

Section EnrichmentStability.

Import CrossValidator.

Variable ratio : string -> string -> Q.

(** The city names of the reference table: non-empty, still non-empty once
    title-cased, and normalised to the same text before and after
    title-casing. *)
Definition table_city (city : string) : bool :=
  Py.truthy_str city && Py.truthy_str (PyStr.title city)
  && String.eqb (_normalize_text (PyStr.title city)) (_normalize_text city).

Lemma lookup_In {A} (k : string) (d : list (string * A)) (v : A) :
  PyStr.lookup k d = Some v -> In (k, v) d.
Proof.
  induction d as [|[k' v'] d IH]; cbn [PyStr.lookup]; [discriminate|].
  destruct (PyStr.lookup k d) as [w|].
  - intros E. right. apply IH. exact E.
  - destruct (String.eqb_spec k k'); [|discriminate].
    intros E. injection E as <-. subst. left. reflexivity.
Qed.

Lemma cities_by_postal_checked :
  forallb (fun kv =>
             table_city (snd kv)
             && negb (String.prefix "130" (fst kv))
             && Py.truthy_str (fst kv))
          CITIES_BY_POSTAL = true.
Proof. vm_compute. reflexivity. Qed.

Lemma cities_by_postal_city (cp city : string) :
  PyStr.lookup cp CITIES_BY_POSTAL = Some city ->
  table_city city = true /\ String.prefix "130" cp = false.
Proof.
  intros H. apply lookup_In in H.
  pose proof cities_by_postal_checked as F.
  rewrite forallb_forall in F. specialize (F _ H). cbn [fst snd] in F.
  apply andb_true_iff in F. destruct F as [F _].
  apply andb_true_iff in F. destruct F as [F1 F2].
  apply negb_true_iff in F2. auto.
Qed.

Lemma postal_codes_checked :
  forallb (fun kv => Py.truthy_str (snd kv)) POSTAL_CODES = true.
Proof. vm_compute. reflexivity. Qed.

Lemma postal_codes_code (city cp : string) :
  PyStr.lookup city POSTAL_CODES = Some cp -> Py.truthy_str cp = true.
Proof.
  intros H. apply lookup_In in H.
  pose proof postal_codes_checked as F.
  rewrite forallb_forall in F. exact (F _ H).
Qed.

Lemma marseille_code_unknown (s : string) :
  PyStr.lookup ("130" ++ s) CITIES_BY_POSTAL = None.
Proof.
  destruct (PyStr.lookup ("130" ++ s) CITIES_BY_POSTAL) as [city|] eqn:E;
    [|reflexivity].
  apply cities_by_postal_city in E. destruct E as [_ E].
  cbn in E. destruct s; discriminate.
Qed.

(** When each block of [_enrich_from_postal] acts. *)
Definition ville_inferred (x : Auction) : option string :=
  if Py.truthy_str (code_postal x) && negb (Py.truthy_str (ville x)) then
    match PyStr.lookup (code_postal x) CITIES_BY_POSTAL with
    | Some city => if Py.truthy_str city then Some (PyStr.title city) else None
    | None => None
    end
  else None.

Definition code_postal_inferred (x : Auction) : option string :=
  if Py.truthy_str (ville x) && negb (Py.truthy_str (code_postal x)) then
    match PyStr.match_marseille (_normalize_text (ville x)) with
    | Some group =>
        Some ("130" ++ PyStr.format_02d (PyStr.int_of_digits 0 group))
    | None => PyStr.lookup (_normalize_text (ville x)) POSTAL_CODES
    end
  else None.

Definition ville_corrected (x : Auction) : option string :=
  if Py.truthy_str (code_postal x) && Py.truthy_str (ville x) then
    match PyStr.lookup (code_postal x) CITIES_BY_POSTAL with
    | Some expected =>
        if Py.truthy_str expected
           && negb (String.eqb (_normalize_text (ville x))
                               (_normalize_text expected))
           && Qlt_bool (_similarity ratio (_normalize_text (ville x))
                                    (_normalize_text expected)) (6 # 10)
        then Some (PyStr.title expected) else None
    | None => None
    end
  else None.

Definition department_inferred (x : Auction) : option string :=
  if Py.truthy_str (code_postal x) && negb (Py.truthy_str (department x))
  then Some (PyStr.take 2 (code_postal x)) else None.

Lemma infer_ville_acts (x : Auction) (c : list string) :
  fst (infer_ville (x, c))
  = match ville_inferred x with Some v => set_ville x v | None => x end
  /\ (ville_inferred x = None -> infer_ville (x, c) = (x, c)).
Proof.
  unfold infer_ville, ville_inferred.
  destruct (Py.truthy_str (code_postal x) && negb (Py.truthy_str (ville x)));
    [|split; reflexivity].
  destruct (PyStr.lookup (code_postal x) CITIES_BY_POSTAL) as [city|];
    [|split; reflexivity].
  destruct (Py.truthy_str city); split; try reflexivity; discriminate.
Qed.

Lemma infer_code_postal_acts (x : Auction) (c : list string) :
  fst (infer_code_postal (x, c))
  = match code_postal_inferred x with
    | Some cp => set_code_postal x cp
    | None => x
    end
  /\ (code_postal_inferred x = None -> infer_code_postal (x, c) = (x, c)).
Proof.
  unfold infer_code_postal, code_postal_inferred.
  destruct (Py.truthy_str (ville x) && negb (Py.truthy_str (code_postal x)));
    [|split; reflexivity].
  cbv zeta.
  destruct (PyStr.match_marseille (_normalize_text (ville x))) as [group|].
  - split; [reflexivity | discriminate].
  - destruct (PyStr.lookup (_normalize_text (ville x)) POSTAL_CODES) as [cp|];
      split; try reflexivity; discriminate.
Qed.

Lemma correct_ville_acts (x : Auction) (c : list string) :
  fst (correct_ville ratio (x, c))
  = match ville_corrected x with Some v => set_ville x v | None => x end
  /\ (ville_corrected x = None -> correct_ville ratio (x, c) = (x, c)).
Proof.
  unfold correct_ville, ville_corrected.
  destruct (Py.truthy_str (code_postal x) && Py.truthy_str (ville x));
    [|split; reflexivity].
  destruct (PyStr.lookup (code_postal x) CITIES_BY_POSTAL) as [expected|];
    [|split; reflexivity].
  destruct (Py.truthy_str expected); [|split; reflexivity].
  cbv zeta. cbn [andb].
  match goal with
  | |- context [if ?b then (_, _) else _] => destruct b
  end; split; try reflexivity; discriminate.
Qed.

Lemma infer_department_acts (x : Auction) (c : list string) :
  fst (infer_department (x, c))
  = match department_inferred x with
    | Some d => set_department x d
    | None => x
    end
  /\ (department_inferred x = None -> infer_department (x, c) = (x, c)).
Proof.
  unfold infer_department, department_inferred.
  destruct (Py.truthy_str (code_postal x)
            && negb (Py.truthy_str (department x)));
    split; try reflexivity; discriminate.
Qed.

Lemma take_two_truthy (s : string) :
  Py.truthy_str s = true -> Py.truthy_str (PyStr.take 2 s) = true.
Proof. destruct s; [discriminate | reflexivity]. Qed.

Lemma ville_inferred_some (x : Auction) (v : string) :
  ville_inferred x = Some v ->
  Py.truthy_str v = true /\ Py.truthy_str (code_postal x) = true
  /\ ville x = EmptyString
  /\ exists city, PyStr.lookup (code_postal x) CITIES_BY_POSTAL = Some city
                  /\ v = PyStr.title city.
Proof.
  unfold ville_inferred.
  destruct (Py.truthy_str (code_postal x)) eqn:Tc; [|discriminate].
  destruct (ville x) eqn:Ev; [|discriminate]. cbn [Py.truthy_str negb andb].
  destruct (PyStr.lookup (code_postal x) CITIES_BY_POSTAL) as [city|] eqn:L;
    [|discriminate].
  destruct (Py.truthy_str city); [|discriminate].
  intros E. injection E as <-.
  destruct (cities_by_postal_city _ _ L) as [T _].
  unfold table_city in T. apply andb_true_iff in T. destruct T as [T _].
  apply andb_true_iff in T. destruct T as [_ T].
  repeat split; try assumption. exists city. split; reflexivity.
Qed.

Lemma code_postal_inferred_some (x : Auction) (cp : string) :
  code_postal_inferred x = Some cp ->
  Py.truthy_str cp = true /\ Py.truthy_str (ville x) = true
  /\ code_postal x = EmptyString
  /\ PyStr.lookup cp CITIES_BY_POSTAL = None
     \/ Py.truthy_str cp = true /\ Py.truthy_str (ville x) = true
        /\ code_postal x = EmptyString
        /\ PyStr.lookup (_normalize_text (ville x)) POSTAL_CODES = Some cp.
Proof.
  unfold code_postal_inferred.
  destruct (Py.truthy_str (ville x)) eqn:Tv; [|discriminate].
  destruct (code_postal x) eqn:Ec; [|discriminate].
  cbn [Py.truthy_str negb andb].
  destruct (PyStr.match_marseille (_normalize_text (ville x))) as [group|].
  - intros E. injection E as <-. left.
    repeat split; try reflexivity; apply marseille_code_unknown.
  - intros E. right. repeat split; try reflexivity; try assumption.
    eapply postal_codes_code. exact E.
Qed.

Lemma ville_corrected_some (x : Auction) (v : string) :
  ville_corrected x = Some v ->
  Py.truthy_str v = true /\ Py.truthy_str (code_postal x) = true
  /\ Py.truthy_str (ville x) = true
  /\ exists expected,
       PyStr.lookup (code_postal x) CITIES_BY_POSTAL = Some expected
       /\ v = PyStr.title expected
       /\ _normalize_text v = _normalize_text expected.
Proof.
  unfold ville_corrected.
  destruct (Py.truthy_str (code_postal x)) eqn:Tc; [|discriminate].
  destruct (Py.truthy_str (ville x)) eqn:Tv; [|discriminate].
  cbn [andb].
  destruct (PyStr.lookup (code_postal x) CITIES_BY_POSTAL) as [expected|] eqn:L;
    [|discriminate].
  match goal with
  | |- (if ?b then _ else _) = _ -> _ => destruct b
  end; [|discriminate].
  intros E. injection E as <-.
  destruct (cities_by_postal_city _ _ L) as [T _].
  unfold table_city in T. apply andb_true_iff in T. destruct T as [T N].
  apply andb_true_iff in T. destruct T as [_ T].
  apply String.eqb_eq in N.
  repeat split; try assumption. exists expected. repeat split. exact N.
Qed.

Lemma department_inferred_some (x : Auction) (d : string) :
  department_inferred x = Some d ->
  Py.truthy_str d = true /\ Py.truthy_str (code_postal x) = true
  /\ department x = EmptyString /\ d = PyStr.take 2 (code_postal x).
Proof.
  unfold department_inferred.
  destruct (Py.truthy_str (code_postal x)) eqn:Tc; [|discriminate].
  destruct (department x) eqn:Ed; [|discriminate].
  cbn [Py.truthy_str negb andb]. intros E. injection E as <-.
  repeat split. apply take_two_truthy, Tc.
Qed.

(** The record after the four blocks. *)
Definition after_ville (x : Auction) : Auction :=
  match ville_inferred x with Some v => set_ville x v | None => x end.

Definition after_code_postal (x : Auction) : Auction :=
  match code_postal_inferred x with
  | Some cp => set_code_postal x cp
  | None => x
  end.

Definition after_correction (x : Auction) : Auction :=
  match ville_corrected x with Some v => set_ville x v | None => x end.

Definition after_department (x : Auction) : Auction :=
  match department_inferred x with
  | Some d => set_department x d
  | None => x
  end.

Lemma enrich_result (a : Auction) :
  fst (_enrich_from_postal ratio a)
  = after_department
      (after_correction (after_code_postal (after_ville a))).
Proof.
  unfold _enrich_from_postal.
  destruct (infer_ville (a, [])) as [x1 c1] eqn:E1.
  pose proof (proj1 (infer_ville_acts a [])) as H1.
  rewrite E1 in H1. cbn [fst] in H1.
  destruct (infer_code_postal (x1, c1)) as [x2 c2] eqn:E2.
  pose proof (proj1 (infer_code_postal_acts x1 c1)) as H2.
  rewrite E2 in H2. cbn [fst] in H2.
  destruct (correct_ville ratio (x2, c2)) as [x3 c3] eqn:E3.
  pose proof (proj1 (correct_ville_acts x2 c2)) as H3.
  rewrite E3 in H3. cbn [fst] in H3.
  rewrite (proj1 (infer_department_acts x3 c3)).
  subst. reflexivity.
Qed.

(** Nothing is left to do on an enriched record. *)
Lemma enriched_is_settled (a : Auction) :
  let x := fst (_enrich_from_postal ratio a) in
  ville_inferred x = None /\ code_postal_inferred x = None
  /\ ville_corrected x = None /\ department_inferred x = None.
Proof.
  cbn zeta. rewrite enrich_result.
  set (x1 := after_ville a).
  assert (A1 : ville_inferred x1 = None).
  { unfold x1, after_ville. destruct (ville_inferred a) as [v|] eqn:E;
      [|exact E].
    apply ville_inferred_some in E. destruct E as (Tv & _).
    unfold ville_inferred. cbn [code_postal ville department set_ville
        set_code_postal set_department]. rewrite Tv, andb_false_r. reflexivity. }
  set (x2 := after_code_postal x1).
  assert (A2 : ville_inferred x2 = None /\ code_postal_inferred x2 = None).
  { unfold x2, after_code_postal.
    destruct (code_postal_inferred x1) as [cp|] eqn:E; [|split; assumption].
    assert (Hcp : Py.truthy_str cp = true /\ Py.truthy_str (ville x1) = true).
    { apply code_postal_inferred_some in E.
      destruct E as [(T1 & T2 & _)|(T1 & T2 & _)]; split; assumption. }
    destruct Hcp as [Tc Tv]. split.
    - unfold ville_inferred. cbn [code_postal ville department set_ville
        set_code_postal set_department]. rewrite Tv, andb_false_r. reflexivity.
    - unfold code_postal_inferred. cbn [code_postal ville department set_ville
        set_code_postal set_department]. rewrite Tc, andb_false_r. reflexivity. }
  destruct A2 as [A21 A22].
  set (x3 := after_correction x2).
  assert (A3 : ville_inferred x3 = None /\ code_postal_inferred x3 = None
               /\ ville_corrected x3 = None).
  { unfold x3, after_correction.
    destruct (ville_corrected x2) as [v|] eqn:E;
      [|repeat split; assumption].
    apply ville_corrected_some in E.
    destruct E as (Tv & Tc & _ & expected & L & _ & N).
    split; [|split].
    - unfold ville_inferred. cbn [code_postal ville department set_ville
        set_code_postal set_department]. rewrite Tv, andb_false_r. reflexivity.
    - unfold code_postal_inferred. cbn [code_postal ville department set_ville
        set_code_postal set_department]. rewrite Tc, andb_false_r. reflexivity.
    - unfold ville_corrected. cbn [code_postal ville department set_ville
        set_code_postal set_department]. rewrite Tc, Tv, L. cbn [andb].
      rewrite N, String.eqb_refl. cbn [negb andb].
      rewrite andb_false_r. reflexivity. }
  destruct A3 as (A31 & A32 & A33).
  unfold after_department.
  destruct (department_inferred x3) as [d|] eqn:E;
    [|repeat split; assumption].
  apply department_inferred_some in E. destruct E as (Td & _).
  repeat split; try assumption.
  unfold department_inferred. cbn [code_postal ville department set_ville
        set_code_postal set_department]. rewrite Td, andb_false_r. reflexivity.
Qed.

(** X8.  Enrichment is idempotent: applied to a record that it has already
    enriched, [_enrich_from_postal] changes nothing and returns no change
    note. *)
Theorem enrichment_is_idempotent (a : Auction) :
  _enrich_from_postal ratio (fst (_enrich_from_postal ratio a))
  = (fst (_enrich_from_postal ratio a), []).
Proof.
  destruct (enriched_is_settled a) as (S1 & S2 & S3 & S4). cbn zeta in *.
  set (x := fst (_enrich_from_postal ratio a)) in *.
  unfold _enrich_from_postal.
  rewrite (proj2 (infer_ville_acts x []) S1).
  rewrite (proj2 (infer_code_postal_acts x []) S2).
  rewrite (proj2 (correct_ville_acts x []) S3).
  rewrite (proj2 (infer_department_acts x []) S4).
  reflexivity.
Qed.

Lemma truthy_str_false (s : string) :
  Py.truthy_str s = false <-> s = EmptyString.
Proof. destruct s; cbn; split; congruence. Qed.

Ltac projections :=
  cbn [code_postal ville department set_ville set_code_postal set_department]
    in *.

(** X9.  What enrichment leaves alone: a postal code or a department that
    is present is never rewritten, a city that is present is never
    emptied, a record that leaves with a postal code also has a
    department, and the city is only ever replaced by the title-cased
    table name of the postal code that the record leaves with. *)
Theorem enrichment_preserves_populated (a : Auction) :
  let a' := fst (_enrich_from_postal ratio a) in
  (code_postal a <> EmptyString -> code_postal a' = code_postal a)
  /\ (department a <> EmptyString -> department a' = department a)
  /\ (ville a <> EmptyString -> ville a' <> EmptyString)
  /\ (code_postal a' <> EmptyString -> department a' <> EmptyString)
  /\ (ville a' <> ville a ->
      exists city,
        PyStr.lookup (code_postal a') CITIES_BY_POSTAL = Some city
        /\ ville a' = PyStr.title city).
Proof.
  cbn zeta. rewrite enrich_result.
  set (x1 := after_ville a).
  assert (P1 : code_postal x1 = code_postal a
               /\ department x1 = department a
               /\ (ville x1 = ville a
                   \/ ville a = EmptyString
                      /\ Py.truthy_str (code_postal a) = true
                      /\ exists city,
                           PyStr.lookup (code_postal a) CITIES_BY_POSTAL
                           = Some city /\ ville x1 = PyStr.title city)).
  { unfold x1, after_ville. destruct (ville_inferred a) as [v|] eqn:E.
    - apply ville_inferred_some in E.
      destruct E as (_ & Tc & Ev & city & L & ->). projections.
      repeat split. right. repeat split; try assumption.
      exists city. split; [exact L | reflexivity].
    - repeat split. left. reflexivity. }
  destruct P1 as (C1 & D1 & V1).
  set (x2 := after_code_postal x1).
  assert (P2 : ville x2 = ville x1 /\ department x2 = department x1
               /\ (code_postal x2 = code_postal x1
                   \/ code_postal x1 = EmptyString
                      /\ Py.truthy_str (ville x1) = true)).
  { unfold x2, after_code_postal.
    destruct (code_postal_inferred x1) as [cp|] eqn:E.
    - projections. repeat split. right.
      apply code_postal_inferred_some in E.
      destruct E as [(_ & T & Ec & _)|(_ & T & Ec & _)]; split; assumption.
    - repeat split. left. reflexivity. }
  destruct P2 as (V2 & D2 & C2).
  set (x3 := after_correction x2).
  assert (P3 : code_postal x3 = code_postal x2
               /\ department x3 = department x2
               /\ (ville x3 = ville x2
                   \/ Py.truthy_str (ville x3) = true
                      /\ exists city,
                           PyStr.lookup (code_postal x2) CITIES_BY_POSTAL
                           = Some city /\ ville x3 = PyStr.title city)).
  { unfold x3, after_correction.
    destruct (ville_corrected x2) as [v|] eqn:E.
    - apply ville_corrected_some in E.
      destruct E as (Tv & _ & _ & expected & L & -> & _). projections.
      repeat split. right. split; [exact Tv|].
      exists expected. split; [exact L | reflexivity].
    - repeat split. left. reflexivity. }
  destruct P3 as (C3 & D3 & V3).
  assert (P4 : code_postal (after_department x3) = code_postal x3
               /\ ville (after_department x3) = ville x3
               /\ (department x3 <> EmptyString ->
                   department (after_department x3) = department x3)
               /\ (code_postal x3 <> EmptyString ->
                   department (after_department x3) <> EmptyString)).
  { unfold after_department, department_inferred.
    destruct (Py.truthy_str (code_postal x3)) eqn:Tc;
      destruct (Py.truthy_str (department x3)) eqn:Td;
      cbn [andb negb]; projections; repeat split; intros H.
    - apply truthy_str_true. exact Td.
    - apply truthy_str_false in Td. contradiction.
    - apply truthy_str_true, take_two_truthy, Tc.
    - apply truthy_str_false in Tc. contradiction.
    - apply truthy_str_false in Tc. contradiction. }
  destruct P4 as (C4 & V4 & D4 & D4').
  split; [|split; [|split; [|split]]].
  - intros H. rewrite C4, C3. destruct C2 as [C2|[C2 _]]; congruence.
  - intros H. rewrite D4; congruence.
  - intros H. rewrite V4.
    destruct V3 as [V3|[T _]]; [|apply truthy_str_true; exact T].
    rewrite V3, V2.
    destruct V1 as [V1|(E & _)]; congruence.
  - intros H. apply D4'. congruence.
  - intros H. rewrite V4, C4, C3 in *.
    destruct V3 as [V3|(_ & city & L & E)];
      [|exists city; split; assumption].
    destruct V1 as [V1|(_ & Tc & city & L & E)]; [congruence|].
    exists city. split; [|congruence].
    destruct C2 as [C2|[C2 _]]; [congruence|].
    rewrite C1 in C2. rewrite C2 in Tc. discriminate.
Qed.

End EnrichmentStability.

Section NormalizedText.

Import CrossValidator.

(** Every character of [s] satisfies [p]. *)
Fixpoint forall_chars (p : ascii -> bool) (s : string) : bool :=
  match s with
  | EmptyString => true
  | String c r => p c && forall_chars p r
  end.

(** A character that [_normalize_text] can leave: not an upper-case letter
    and none of the characters that its table replaces (accented letters,
    hyphen, apostrophe). *)
Definition normal_char (c : ascii) : bool :=
  negb (PyStr.is_upper c)
  && negb (existsb (Ascii.eqb c) (map fst replacements)).

Definition has_hyphen (s : string) : bool :=
  negb (forall_chars (fun c => negb (Ascii.eqb c "-")) s).

(** All the replacements of [_normalize_text] on one character. *)
Definition replace_all (c : ascii) : ascii :=
  fold_left (fun d r => if Ascii.eqb d (fst r) then snd r else d)
            replacements c.

Lemma forall_chars_impl (p q : ascii -> bool) (s : string) :
  (forall c, p c = true -> q c = true) ->
  forall_chars p s = true -> forall_chars q s = true.
Proof.
  intros H. induction s as [|c r IH]; cbn; [reflexivity|].
  rewrite !andb_true_iff. intros [A B]. split; auto.
Qed.

Lemma forall_chars_map (p : ascii -> bool) (f : ascii -> ascii) (s : string) :
  forall_chars p (PyStr.map_chars f s)
  = forall_chars (fun c => p (f c)) s.
Proof.
  induction s as [|c r IH]; cbn; [reflexivity|]. rewrite IH. reflexivity.
Qed.

Lemma forall_chars_lstrip (p : ascii -> bool) (s : string) :
  forall_chars p s = true -> forall_chars p (PyStr.lstrip s) = true.
Proof.
  induction s as [|c r IH]; cbn [PyStr.lstrip]; [reflexivity|].
  destruct (PyStr.is_space c); [|auto].
  cbn. rewrite andb_true_iff. intros [_ H]. auto.
Qed.

Lemma forall_chars_rstrip (p : ascii -> bool) (s : string) :
  forall_chars p s = true -> forall_chars p (PyStr.rstrip s) = true.
Proof.
  induction s as [|c r IH]; cbn [PyStr.rstrip]; [reflexivity|].
  cbn [forall_chars]. rewrite andb_true_iff. intros [A B].
  specialize (IH B). destruct (PyStr.rstrip r).
  - destruct (PyStr.is_space c); cbn; [reflexivity|].
    rewrite A. reflexivity.
  - cbn [forall_chars] in *. rewrite A, IH. reflexivity.
Qed.

Lemma forall_chars_sub_spaces (p : ascii -> bool) (s : string) (b : bool) :
  p " "%char = true ->
  forall_chars p s = true -> forall_chars p (PyStr.sub_spaces b s) = true.
Proof.
  intros Hsp. revert b. induction s as [|c r IH]; intros b;
    cbn [PyStr.sub_spaces]; [reflexivity|].
  cbn [forall_chars]. rewrite andb_true_iff. intros [A B].
  destruct (PyStr.is_space c).
  - destruct b; cbn [forall_chars]; rewrite ?Hsp; cbn [andb]; apply IH, B.
  - cbn [forall_chars]. rewrite A. cbn [andb]. apply IH, B.
Qed.

Lemma replacements_fold (rs : list (ascii * ascii)) (s : string) :
  fold_left (fun t r => PyStr.replace_char (fst r) (snd r) t) rs s
  = PyStr.map_chars
      (fun c => fold_left (fun d r => if Ascii.eqb d (fst r) then snd r else d)
                          rs c) s.
Proof.
  revert s. induction rs as [|r rs IH]; intros s; cbn [fold_left].
  - induction s as [|c t IHs]; cbn; [reflexivity|]. rewrite <- IHs.
    reflexivity.
  - rewrite IH. unfold PyStr.replace_char.
    induction s as [|c t IHs]; cbn; [reflexivity|]. rewrite IHs.
    reflexivity.
Qed.

(** The character-level facts, checked on the 256 characters. *)
Lemma all_characters_checked :
  forallb (fun n =>
             let c := ascii_of_nat n in
             negb (PyStr.is_upper (PyStr.lower_char c))
             && implb (negb (PyStr.is_upper c)) (normal_char (replace_all c)))
          (seq 0 256) = true.
Proof. vm_compute. reflexivity. Qed.

Lemma character_checked (c : ascii) :
  PyStr.is_upper (PyStr.lower_char c) = false
  /\ (PyStr.is_upper c = false -> normal_char (replace_all c) = true).
Proof.
  pose proof all_characters_checked as F. rewrite forallb_forall in F.
  specialize (F (nat_of_ascii c)).
  rewrite ascii_nat_embedding in F. cbn zeta in F.
  assert (Hin : In (nat_of_ascii c) (seq 0 256)).
  { apply in_seq. pose proof (nat_ascii_bounded c). lia. }
  specialize (F Hin). apply andb_true_iff in F. destruct F as [F1 F2].
  apply negb_true_iff in F1. split; [exact F1|].
  intros H. rewrite H in F2. exact F2.
Qed.

(** X10.  The text returned by [_normalize_text] contains no upper-case
    letter and none of the characters of its replacement table, in
    particular no hyphen and no apostrophe.  Hence no text is normalised to
    a key of the reference table that contains a hyphen: the lookup of a
    normalised city name can only find the keys written without one. *)
Theorem normalized_text_has_no_hyphen (text : string) :
  forall_chars normal_char (_normalize_text text) = true
  /\ has_hyphen (_normalize_text text) = false
  /\ (forall key, has_hyphen key = true -> _normalize_text text <> key)
  /\ (forall cp,
        PyStr.lookup (_normalize_text text) POSTAL_CODES = Some cp ->
        In (_normalize_text text, cp)
           (filter (fun kv => negb (has_hyphen (fst kv))) POSTAL_CODES)).
Proof.
  assert (N : forall_chars normal_char (_normalize_text text) = true).
  { unfold _normalize_text.
    destruct (negb (Py.truthy_str text)); [reflexivity|].
    rewrite replacements_fold, forall_chars_map. fold replace_all.
    apply forall_chars_impl with (p := fun c => negb (PyStr.is_upper c)).
    - intros c Hc. apply negb_true_iff in Hc.
      apply (proj2 (character_checked c)), Hc.
    - apply forall_chars_sub_spaces; [reflexivity|].
      unfold PyStr.strip. apply forall_chars_rstrip, forall_chars_lstrip.
      unfold PyStr.lower. rewrite forall_chars_map.
      induction text as [|c r IH]; cbn; [reflexivity|].
      rewrite (proj1 (character_checked c)), IH. reflexivity. }
  assert (H : has_hyphen (_normalize_text text) = false).
  { unfold has_hyphen. apply negb_false_iff.
    eapply forall_chars_impl; [|exact N].
    intros c Hc. unfold normal_char in Hc.
    apply andb_true_iff in Hc. destruct Hc as [_ Hc].
    apply negb_true_iff in Hc.
    destruct (Ascii.eqb c "-") eqn:E; [|reflexivity].
    apply Ascii.eqb_eq in E. subst c. discriminate. }
  split; [exact N|]. split; [exact H|]. split.
  - intros key Hk E. rewrite E in H. congruence.
  - intros cp L. apply filter_In. split.
    + apply lookup_In, L.
    + cbn [fst]. rewrite H. reflexivity.
Qed.

End NormalizedText.

Section MatchScoreRange.

Import CrossValidator.

Variable ratio : string -> string -> Q.
Variable repr : value -> string.
Variable repr_document : document -> string.

(** What every block of [_match_auctions] keeps of the pair
    [(score, weights)]. *)
Definition score_within_weights (acc : Q * Q) : Prop :=
  0 <= fst acc /\ fst acc <= snd acc.

Lemma block_keeps_score (acc : Q * Q) (w : Q) (b : bool) :
  0 <= w -> score_within_weights acc ->
  score_within_weights (if b then fst acc + w else fst acc, snd acc + w).
Proof.
  intros Hw [H0 H1]. unfold score_within_weights. cbn [fst snd].
  destruct b; split.
  - rewrite <- (Qplus_0_r 0). apply Qplus_le_compat; assumption.
  - apply Qplus_le_compat; [assumption | apply Qle_refl].
  - exact H0.
  - rewrite <- (Qplus_0_r (fst acc)). apply Qplus_le_compat; assumption.
Qed.

Lemma relative_signal_keeps (x1 x2 limit w : Q) (acc acc' : Q * Q) :
  0 <= w -> score_within_weights acc ->
  relative_signal x1 x2 limit w acc = Some acc' ->
  score_within_weights acc'.
Proof.
  intros Hw Ha. unfold relative_signal.
  destruct (Qeq_bool ((x1 + x2) / 2) 0); [discriminate|].
  intros E. injection E as <-. apply block_keeps_score; assumption.
Qed.

Lemma match_auctions_blocks (a1 a2 : Auction) (score : Q) :
  _match_auctions ratio a1 a2 = Some score ->
  exists acc,
    score_within_weights acc
    /\ score = (if Qlt_bool 0 (snd acc) then fst acc / snd acc else 0).
Proof.
  unfold _match_auctions.
  assert (H0 : score_within_weights (0, 0))
    by (split; apply Qle_refl).
  assert (H1 : score_within_weights (date_signal a1 a2 (0, 0))).
  { unfold date_signal.
    destruct (date_vente a1), (date_vente a2); try exact H0.
    apply block_keeps_score; [discriminate | exact H0]. }
  set (acc1 := date_signal a1 a2 (0, 0)) in *.
  assert (H2 : score_within_weights (tribunal_signal ratio a1 a2 acc1)).
  { unfold tribunal_signal.
    destruct (Py.truthy_str (tribunal a1) && Py.truthy_str (tribunal a2));
      [|exact H1].
    apply block_keeps_score; [discriminate | exact H1]. }
  set (acc2 := tribunal_signal ratio a1 a2 acc1) in *.
  destruct (price_signal a1 a2 acc2) as [acc3|] eqn:E3; [|discriminate].
  assert (H3 : score_within_weights acc3).
  { unfold price_signal in E3.
    destruct (Py.truthy_float (mise_a_prix a1)
              && Py.truthy_float (mise_a_prix a2)).
    - destruct (mise_a_prix a1), (mise_a_prix a2);
        try (injection E3 as <-; exact H2).
      eapply relative_signal_keeps; [|exact H2|exact E3]. discriminate.
    - injection E3 as <-. exact H2. }
  assert (H4 : score_within_weights (ville_signal ratio a1 a2 acc3)).
  { unfold ville_signal.
    destruct (Py.truthy_str (ville a1) && Py.truthy_str (ville a2));
      [|exact H3].
    apply block_keeps_score; [discriminate | exact H3]. }
  set (acc4 := ville_signal ratio a1 a2 acc3) in *.
  assert (H5 : score_within_weights (type_signal a1 a2 acc4)).
  { unfold type_signal.
    destruct (type_bien a1), (type_bien a2); try exact H4.
    apply block_keeps_score; [discriminate | exact H4]. }
  set (acc5 := type_signal a1 a2 acc4) in *.
  destruct (surface_signal a1 a2 acc5) as [acc6|] eqn:E6; [|discriminate].
  assert (H6 : score_within_weights acc6).
  { unfold surface_signal in E6.
    destruct (Py.truthy_float (surface a1) && Py.truthy_float (surface a2)).
    - destruct (surface a1), (surface a2);
        try (injection E6 as <-; exact H5).
      eapply relative_signal_keeps; [|exact H5|exact E6]. discriminate.
    - injection E6 as <-. exact H5. }
  intros E. injection E as <-. exists acc6. split; [exact H6|reflexivity].
Qed.

(** X11.  A match score that [_match_auctions] returns lies between 0
    and 1. *)
Theorem match_score_range (a1 a2 : Auction) (score : Q) :
  _match_auctions ratio a1 a2 = Some score -> 0 <= score <= 1.
Proof.
  intros E. apply match_auctions_blocks in E.
  destruct E as (acc & [H0 H1] & ->).
  destruct (Qlt_bool 0 (snd acc)) eqn:P.
  - apply Qlt_bool_iff in P. split.
    + apply Qle_shift_div_l; [exact P|]. rewrite Qmult_0_l. exact H0.
    + apply Qle_shift_div_r; [exact P|]. rewrite Qmult_1_l. exact H1.
  - split; discriminate.
Qed.

Lemma unmatched_from_nil (l : list Auction) (i : nat) :
  unmatched_from i l [] = l.
Proof.
  revert i. induction l as [|a l IH]; intros i; cbn; [reflexivity|].
  rewrite IH. reflexivity.
Qed.

(** X12.  With a threshold above 1 nothing is matched: when no pair of
    listings makes the matcher divide by zero, [validate_and_merge_all]
    returns every listing of the first list and then every listing of the
    second, each one enriched and none merged. *)
Theorem threshold_above_one_merges_nothing (s1 s2 : list Auction)
  (threshold : Q) :
  1 < threshold ->
  never_raises s1 s2 ->
  find_matches ratio s1 s2 threshold = Some []
  /\ validate_and_merge_all ratio repr repr_document s1 s2 threshold
     = Some (map (fun a => fst (_enrich_from_postal ratio a)) s1
             ++ map (fun a => fst (_enrich_from_postal ratio a)) s2)%list.
Proof.
  intros Ht Hr.
  destruct (find_matches_from_total ratio s1 s2 threshold s1 Hr
              (incl_refl s1) 0%nat []) as (ms & E & _).
  destruct (find_matches_from_sound ratio s2 threshold [] s1 [] ms E)
    as (S1 & _).
  assert (N : ms = []).
  { destruct ms as [|m ms]; [reflexivity|]. exfalso.
    inversion S1 as [|? ? (_ & _ & M & T & _) _]; subst.
    apply match_auctions_blocks in M.
    destruct M as (acc & [H0 H1] & Es).
    assert (Hs : match_score m <= 1).
    { rewrite Es. destruct (Qlt_bool 0 (snd acc)) eqn:P.
      - apply Qlt_bool_iff in P.
        apply Qle_shift_div_r; [exact P|]. rewrite Qmult_1_l. exact H1.
      - discriminate. }
    apply (Qlt_irrefl 1).
    eapply Qlt_le_trans; [exact Ht|]. eapply Qle_trans; eassumption. }
  subst ms. unfold validate_and_merge_all, find_matches. rewrite E.
  split; [reflexivity|].
  cbn [map app]. rewrite !unmatched_from_nil. reflexivity.
Qed.

End MatchScoreRange.

Lemma match_score_range_witness :
  exists score,
    CrossValidator._match_auctions ratio_equal listing_zero_surface
      listing_with_surface = Some score
    /\ 0 <= score <= 1.
Proof.
  eexists. split; [reflexivity|].
  apply (match_score_range ratio_equal listing_zero_surface
           listing_with_surface).
  reflexivity.
Defined.

Lemma threshold_above_one_merges_nothing_witness :
  CrossValidator.find_matches ratio_equal
    [listing_without_city] [listing_second_source] (3 # 2) = Some []
  /\ CrossValidator.validate_and_merge_all ratio_equal repr_none
       repr_document_none [listing_without_city] [listing_second_source]
       (3 # 2)
     = Some (map (fun a =>
                    fst (CrossValidator._enrich_from_postal ratio_equal a))
                 [listing_without_city]
             ++ map (fun a =>
                       fst (CrossValidator._enrich_from_postal ratio_equal a))
                    [listing_second_source])%list.
Proof.
  apply (threshold_above_one_merges_nothing ratio_equal repr_none
           repr_document_none [listing_without_city]
           [listing_second_source] (3 # 2)).
  - reflexivity.
  - intros a1 a2 [<-|[]] [<-|[]]. reflexivity.
Defined.

Section MergedRecord.

Import CrossValidator.

Variable ratio : string -> string -> Q.
Variable repr : value -> string.
Variable repr_document : document -> string.

Ltac each_field H :=
  unfold fields_to_merge in H; cbn [In] in H;
  repeat (destruct H as [H|H]; [subst|]); try contradiction.

Lemma truthy_not_zero (v : value) :
  truthy v = true -> value_eqb v (VInt 0) = false.
Proof.
  destruct v as [| | | | | |l|l]; cbn; try reflexivity;
    try (destruct l; reflexivity);
    intros H; apply negb_true_iff in H; exact H.
Qed.

Lemma unique_by_truthy {A} (key : A -> string) (l : list A) :
  l <> [] -> unique_by key [] l <> [].
Proof. destruct l; [congruence|]. cbn. discriminate. Qed.

(** The outcomes of [_pick_best_value]. *)
Lemma pick_cases (v1 v2 : value) (s1 s2 f : string) :
  let r := _pick_best_value repr repr_document v1 v2 s1 s2 f in
  (truthy v1 = false /\ truthy v2 = false /\ r = (VNone, EmptyString))
  \/ (truthy (fst r) = true
      /\ (truthy v1 = true /\ r = (v1, s1)
          \/ truthy v2 = true /\ r = (v2, s2)
          \/ snd r = s1 ++ "+" ++ s2
             /\ (fst r = v1 /\ truthy v1 = true
                 \/ (exists l1 l2 l, v1 = VPhotos l1 /\ v2 = VPhotos l2
                                     /\ fst r = VPhotos l)
                 \/ (exists l1 l2 l, v1 = VDocuments l1 /\ v2 = VDocuments l2
                                     /\ fst r = VDocuments l)))).
Proof.
  cbn zeta. unfold _pick_best_value.
  destruct (truthy v1) eqn:T1, (truthy v2) eqn:T2; cbn [negb andb orb].
  - right.
    repeat match goal with
    | |- context [if field_in f ?l then _ else _] => destruct (field_in f l)
    | |- context [if ?b then (_, _) else _] => destruct b
    end; cbn [fst snd]; rewrite ?T1, ?T2;
    try (split; [reflexivity|]; left; split; reflexivity);
    try (split; [reflexivity|]; right; left; split; reflexivity).
    destruct v1 as [| | | | | |l1|l1], v2 as [| | | | | |l2|l2];
      try (split; [exact T1|]; right; right; split; [reflexivity|];
           left; split; reflexivity).
    + split.
      * destruct l1; [discriminate|]. reflexivity.
      * right; right. split; [reflexivity|]. right; left.
        do 3 eexists. repeat split.
    + split.
      * destruct l1; [discriminate|]. reflexivity.
      * right; right. split; [reflexivity|]. right; right.
        do 3 eexists. repeat split.
  - right. split; [exact T1|]. left. split; reflexivity.
  - right. split; [exact T2|]. right; left. split; reflexivity.
  - left. repeat split.
Qed.

(** X13.  The rules of [_pick_best_value] that hold for every field: with
    no populated value the result is null with an empty source; with one
    populated value that value wins with its source; with two populated
    values the result is populated, and outside the text, postal code, city
    and list fields the first value always wins (for the numeric fields the
    test for a zero second value never succeeds).  The result is null only
    when both values are unpopulated. *)
Theorem pick_best_value_rules (v1 v2 : value) (s1 s2 f : string) :
  let r := _pick_best_value repr repr_document v1 v2 s1 s2 f in
  (truthy v1 = false -> truthy v2 = false -> r = (VNone, EmptyString))
  /\ (truthy v1 = true -> truthy v2 = false -> r = (v1, s1))
  /\ (truthy v1 = false -> truthy v2 = true -> r = (v2, s2))
  /\ (truthy v1 = true -> truthy v2 = true ->
      field_in f ["adresse"; "description"; "avocat_adresse"; "code_postal";
                  "ville"; "photos"; "documents"] = false ->
      r = (v1, s1))
  /\ (truthy v1 || truthy v2 = truthy (fst r))
  /\ (fst r = VNone <-> truthy v1 = false /\ truthy v2 = false).
Proof.
  cbn zeta.
  assert (B : truthy v1 || truthy v2
              = truthy (fst (_pick_best_value repr repr_document v1 v2
                               s1 s2 f))).
  { destruct (pick_cases v1 v2 s1 s2 f) as [(T1 & T2 & ->)|(T & C)].
    - rewrite T1, T2. reflexivity.
    - cbn zeta in T. rewrite T.
      destruct C as [[T1 _]|[[T2 _]|[_ [[_ T1]|[(l1 & l2 & l & -> & -> & E)|
                                               (l1 & l2 & l & -> & -> & E)]]]]];
        rewrite ?T1, ?T2, ?orb_true_r; try reflexivity.
      + rewrite E in T. cbn in *. destruct l1; [|reflexivity].
        destruct l2; [|reflexivity].
        unfold _pick_best_value in T. cbn in T.
        repeat match type of T with
        | context [if ?b then _ else _] => destruct b
        end; discriminate.
      + rewrite E in T. cbn in *. destruct l1; [|reflexivity].
        destruct l2; [|reflexivity].
        unfold _pick_best_value in T. cbn in T.
        repeat match type of T with
        | context [if ?b then _ else _] => destruct b
        end; discriminate. }
  split; [|split; [|split; [|split; [|split]]]].
  - intros T1 T2. unfold _pick_best_value. rewrite T1, T2. reflexivity.
  - intros T1 T2. unfold _pick_best_value. rewrite T1, T2. reflexivity.
  - intros T1 T2. unfold _pick_best_value. rewrite T1, T2. reflexivity.
  - intros T1 T2 F. unfold _pick_best_value. rewrite T1, T2.
    cbn [negb andb orb].
    rewrite (truthy_not_zero v1 T1), (truthy_not_zero v2 T2).
    unfold field_in in *. cbn [existsb] in *.
    repeat match type of F with
    | (_ || _) = false => apply orb_false_iff in F; destruct F as [? F]
    end.
    repeat match goal with
    | H : String.eqb f _ = false |- _ => rewrite H; clear H
    end.
    cbn [orb].
    repeat match goal with
    | |- context [if ?b then _ else _] => destruct b
    end; reflexivity.
  - exact B.
  - split.
    + intros E. rewrite E in B. cbn in B. apply orb_false_iff in B. exact B.
    + intros [T1 T2]. unfold _pick_best_value. rewrite T1, T2. reflexivity.
Qed.

(** Reading a merged field after another field was written. *)
Lemma getattr_setattr_other (m : Auction) (f g : string) (v : value) :
  In f fields_to_merge -> g <> f ->
  getattr (setattr m g v) f = getattr m f.
Proof.
  intros H N. each_field H; unfold setattr; destruct v;
    repeat match goal with
    | |- context [String.eqb g ?x] =>
        destruct (String.eqb_spec g x); [subst g|]
    end; try reflexivity; exfalso; apply N; reflexivity.
Qed.

Ltac option_fields :=
  repeat match goal with
  | |- context [match ?o with Some _ => _ | None => _ end] => destruct o
  | H : context [match ?o with Some _ => _ | None => _ end] |- _ =>
      destruct o
  end.

(** A value read from a field can be written back to that field. *)
Lemma getattr_stored (a m : Auction) (f : string) :
  In f fields_to_merge ->
  getattr a f = VNone \/ getattr (setattr m f (getattr a f)) f = getattr a f.
Proof.
  intros H. destruct a, m.
  each_field H; lazy; option_fields; auto.
Qed.

Lemma photos_stored (a m : Auction) (f : string) (l l' : list string) :
  In f fields_to_merge -> getattr a f = VPhotos l ->
  getattr (setattr m f (VPhotos l')) f = VPhotos l'.
Proof.
  intros H E. destruct a, m.
  each_field H; try reflexivity; lazy in E; option_fields; discriminate.
Qed.

Lemma documents_stored (a m : Auction) (f : string) (l l' : list document) :
  In f fields_to_merge -> getattr a f = VDocuments l ->
  getattr (setattr m f (VDocuments l')) f = VDocuments l'.
Proof.
  intros H E. destruct a, m.
  each_field H; try reflexivity; lazy in E; option_fields; discriminate.
Qed.

(** One step of the field loop of [merge_auctions]. *)
Lemma merge_field_none (a1 a2 : Auction) (s1 s2 : string) (st : merge_state)
  (f bs : string) :
  _pick_best_value repr repr_document (getattr a1 f) (getattr a2 f) s1 s2 f
  = (VNone, bs) ->
  merge_field repr repr_document a1 a2 s1 s2 st f = st.
Proof.
  intros E. destruct st as [[m ff] n]. unfold merge_field. rewrite E.
  reflexivity.
Qed.

Lemma merge_field_picked (a1 a2 : Auction) (s1 s2 : string) (st : merge_state)
  (f : string) (bv : value) (bs : string) :
  _pick_best_value repr repr_document (getattr a1 f) (getattr a2 f) s1 s2 f
  = (bv, bs) ->
  bv <> VNone -> Py.truthy_str bs = true ->
  let st' := merge_field repr repr_document a1 a2 s1 s2 st f in
  fst (fst st') = setattr (fst (fst st)) f bv
  /\ snd (fst st') = dict_set (snd (fst st)) f bs.
Proof.
  intros E N T. destruct st as [[m ff] n]. cbn zeta. unfold merge_field.
  rewrite E. destruct bv; try congruence; rewrite T;
    match goal with
    | |- context [if ?c then _ else _] => destruct c
    end; split; reflexivity.
Qed.

Lemma append_truthy (a b : string) :
  Py.truthy_str a = true -> Py.truthy_str (a ++ b) = true.
Proof. destruct a; [discriminate | reflexivity]. Qed.

(** What the step for [f] leaves in the merged record and in the
    provenance map. *)
Lemma merge_field_own (a1 a2 : Auction) (s1 s2 : string) (st : merge_state)
  (f : string) :
  In f fields_to_merge ->
  Py.truthy_str s1 = true -> Py.truthy_str s2 = true ->
  let r := _pick_best_value repr repr_document (getattr a1 f) (getattr a2 f)
                            s1 s2 f in
  let st' := merge_field repr repr_document a1 a2 s1 s2 st f in
  (fst r = VNone -> st' = st)
  /\ (fst r <> VNone ->
      getattr (fst (fst st')) f = fst r
      /\ PyStr.lookup f (snd (fst st')) = Some (snd r)).
Proof.
  intros H T1 T2. cbn zeta.
  destruct (_pick_best_value repr repr_document (getattr a1 f) (getattr a2 f)
              s1 s2 f) as [bv bs] eqn:E.
  cbn [fst snd]. split.
  - intros ->. eapply merge_field_none. exact E.
  - intros N.
    pose proof (pick_cases (getattr a1 f) (getattr a2 f) s1 s2 f) as C.
    cbn zeta in C. rewrite E in C. cbn [fst snd] in C.
    destruct C as [(_ & _ & C)|(T & C)]; [congruence|].
    assert (Tb : Py.truthy_str bs = true).
    { destruct C as [[_ C]|[[_ C]|[C _]]];
        [congruence | congruence | rewrite C; apply append_truthy, T1]. }
    destruct (merge_field_picked a1 a2 s1 s2 st f bv bs E N Tb) as [M F].
    cbn zeta in M, F. rewrite M, F. split.
    + destruct C as [[_ C]|[[_ C]|[_ [[C _]|[C|C]]]]].
      * injection C as Cv _. subst bv.
        destruct (getattr_stored a1 (fst (fst st)) f H); congruence.
      * injection C as Cv _. subst bv.
        destruct (getattr_stored a2 (fst (fst st)) f H); congruence.
      * subst bv.
        destruct (getattr_stored a1 (fst (fst st)) f H); congruence.
      * destruct C as (l1 & l2 & l & E1 & _ & ->).
        eapply photos_stored; eassumption.
      * destruct C as (l1 & l2 & l & E1 & _ & ->).
        eapply documents_stored; eassumption.
    + unfold dict_set. rewrite lookup_append, String.eqb_refl. reflexivity.
Qed.

Lemma merge_field_frame (a1 a2 : Auction) (s1 s2 : string) (st : merge_state)
  (f g : string) :
  In f fields_to_merge -> g <> f ->
  let st' := merge_field repr repr_document a1 a2 s1 s2 st g in
  getattr (fst (fst st')) f = getattr (fst (fst st)) f
  /\ PyStr.lookup f (snd (fst st')) = PyStr.lookup f (snd (fst st)).
Proof.
  intros H N.
  assert (N' : String.eqb f g = false)
    by (apply String.eqb_neq; congruence).
  destruct st as [[m ff] n]. cbn zeta. unfold merge_field.
  destruct (_pick_best_value repr repr_document (getattr a1 g) (getattr a2 g)
              s1 s2 g) as [bv bs].
  destruct bv; [split; reflexivity|..];
    destruct (Py.truthy_str bs);
    try match goal with
    | |- context [if ?c then _ else _] => destruct c
    end;
    cbn [fst snd]; unfold dict_set; rewrite ?lookup_append, ?N';
    (split; [apply getattr_setattr_other; assumption | reflexivity]).
Qed.

Lemma merge_fold_frame (a1 a2 : Auction) (s1 s2 : string)
  (fields : list string) (st : merge_state) (f : string) :
  In f fields_to_merge -> ~ In f fields ->
  let st' :=
    fold_left (merge_field repr repr_document a1 a2 s1 s2) fields st in
  getattr (fst (fst st')) f = getattr (fst (fst st)) f
  /\ PyStr.lookup f (snd (fst st')) = PyStr.lookup f (snd (fst st)).
Proof.
  intros H. revert st.
  induction fields as [|g fields IH]; intros st N; cbn [fold_left].
  - split; reflexivity.
  - assert (Ng : g <> f) by (intros ->; apply N; left; reflexivity).
    assert (Nr : ~ In f fields) by (intros I; apply N; right; exact I).
    destruct (IH (merge_field repr repr_document a1 a2 s1 s2 st g) Nr)
      as [E1 E2].
    destruct (merge_field_frame a1 a2 s1 s2 st f g H Ng) as [F1 F2].
    cbn zeta in *. split; congruence.
Qed.

Lemma fields_to_merge_nodup : NoDup fields_to_merge.
Proof.
  unfold fields_to_merge.
  repeat (constructor;
          [cbn [In]; intros H;
           repeat (destruct H as [H|H]; [discriminate|]); exact H|]).
  constructor.
Qed.

Lemma getattr_unmerged (m : Auction) (f s : string) (d : list Z) :
  getattr (set_source m s) f = getattr m f
  /\ getattr (set_url m s) f = getattr m f
  /\ getattr (set_dates_visite m d) f = getattr m f.
Proof. destruct m. repeat split; reflexivity. Qed.

Lemma not_dates_visite (f : string) :
  In f fields_to_merge -> String.eqb f "dates_visite" = false.
Proof. intros H. each_field H; reflexivity. Qed.

(** The record and the provenance map at the end of the field loop, for one
    merged field. *)
Lemma merge_fields_field (a1 a2 : Auction) (f : string) :
  In f fields_to_merge ->
  let r :=
    _pick_best_value repr repr_document (getattr a1 f) (getattr a2 f)
      (str_or (source a1) "source1") (str_or (source a2) "source2") f in
  let st := merge_fields repr repr_document a1 a2 in
  (fst r = VNone ->
   getattr (fst (fst st)) f = getattr default_auction f
   /\ PyStr.lookup f (snd (fst st)) = None)
  /\ (fst r <> VNone ->
      getattr (fst (fst st)) f = fst r
      /\ PyStr.lookup f (snd (fst st)) = Some (snd r)).
Proof.
  intros H. cbn zeta.
  set (s1 := str_or (source a1) "source1").
  set (s2 := str_or (source a2) "source2").
  set (r := _pick_best_value repr repr_document (getattr a1 f) (getattr a2 f)
              s1 s2 f).
  remember (merge_fields repr repr_document a1 a2) as st eqn:Est.
  unfold merge_fields in Est. fold s1 s2 in Est.
  destruct (in_split f fields_to_merge H) as (pre & post & EF).
  pose proof fields_to_merge_nodup as ND. rewrite EF in ND.
  apply NoDup_remove_2 in ND.
  assert (N1 : ~ In f pre) by (intros I; apply ND, in_or_app; left; exact I).
  assert (N2 : ~ In f post)
    by (intros I; apply ND, in_or_app; right; exact I).
  rewrite EF, fold_left_app in Est. cbn [fold_left] in Est.
  set (m0 := set_url (set_source default_auction (s1 ++ "+" ++ s2))
               (str_or (url a1) (url a2))) in Est.
  set (stp := fold_left (merge_field repr repr_document a1 a2 s1 s2) pre
                        (m0, [], [])) in Est.
  destruct (merge_fold_frame a1 a2 s1 s2 pre (m0, [], []) f H N1)
    as [P1 P2].
  cbn zeta in P1, P2. fold stp in P1, P2. cbn [fst snd] in P1, P2.
  pose proof (eq_trans P1
                (eq_trans
                   (proj1 (proj2 (getattr_unmerged
                                    (set_source default_auction
                                       (s1 ++ "+" ++ s2))
                                    f (str_or (url a1) (url a2)) [])))
                   (proj1 (getattr_unmerged default_auction f
                             (s1 ++ "+" ++ s2) [])))) as P1'.
  cbn [PyStr.lookup] in P2.
  destruct (merge_field_own a1 a2 s1 s2 stp f H
              (proj1 (str_or_truthy (source a1)))
              (proj2 (str_or_truthy (source a2)))) as [O1 O2].
  cbn zeta in O1, O2. fold s1 s2 r in O1, O2.
  set (stf := merge_field repr repr_document a1 a2 s1 s2 stp f) in *.
  destruct (merge_fold_frame a1 a2 s1 s2 post stf f H N2) as [Q1 Q2].
  cbn zeta in Q1, Q2.
  destruct (fold_left (merge_field repr repr_document a1 a2 s1 s2) post stf)
    as [[m ff] n].
  subst st. cbn [fst snd] in *.
  pose proof (proj2 (proj2 (getattr_unmerged m f EmptyString
                              (sorted_set
                                 (dates_visite a1 ++ dates_visite a2)))))
    as D1.
  assert (D2 : PyStr.lookup f
                 match dates_visite a1 with
                 | [] => ff
                 | _ :: _ =>
                     match dates_visite a2 with
                     | [] => ff
                     | _ :: _ =>
                         dict_set ff "dates_visite" (s1 ++ "+" ++ s2)
                     end
                 end = PyStr.lookup f ff).
  { destruct (dates_visite a1), (dates_visite a2); try reflexivity.
    unfold dict_set. rewrite lookup_append, (not_dates_visite f H).
    reflexivity. }
  split.
  - intros E. specialize (O1 E). rewrite O1 in Q1, Q2. split.
    + exact (eq_trans D1 (eq_trans Q1 P1')).
    + exact (eq_trans D2 (eq_trans Q2 P2)).
  - intros E. destruct (O2 E) as [O3 O4]. split.
    + exact (eq_trans D1 (eq_trans Q1 O3)).
    + exact (eq_trans D2 (eq_trans Q2 O4)).
Qed.

(** Reading a merged field after one of the three writes of the
    enrichment. *)
Lemma getattr_set_geo (x : Auction) (v f : string) :
  In f fields_to_merge ->
  getattr (set_ville x v) f
  = (if String.eqb f "ville" then VStr v else getattr x f)
  /\ getattr (set_code_postal x v) f
     = (if String.eqb f "code_postal" then VStr v else getattr x f)
  /\ getattr (set_department x v) f
     = (if String.eqb f "department" then VStr v else getattr x f).
Proof.
  intros H. destruct x. each_field H; repeat split; reflexivity.
Qed.

Definition geo_fields : list string := ["code_postal"; "ville"; "department"].

(** What one write of the enrichment keeps of a merged field. *)
Definition field_kept (f : string) (x x' : Auction) : Prop :=
  (field_in f geo_fields = false -> getattr x' f = getattr x f)
  /\ (truthy (getattr x f) = true -> truthy (getattr x' f) = true).

Lemma field_kept_refl (f : string) (x : Auction) : field_kept f x x.
Proof. split; auto. Qed.

Lemma field_kept_trans (f : string) (x y z : Auction) :
  field_kept f x y -> field_kept f y z -> field_kept f x z.
Proof.
  intros [A1 A2] [B1 B2]. split.
  - intros G. rewrite (B1 G). exact (A1 G).
  - intros T. exact (B2 (A2 T)).
Qed.

Lemma field_kept_set (f : string) (x : Auction) (v : string) :
  In f fields_to_merge -> Py.truthy_str v = true ->
  field_kept f x (set_ville x v)
  /\ field_kept f x (set_code_postal x v)
  /\ field_kept f x (set_department x v).
Proof.
  intros H T. destruct (getattr_set_geo x v f H) as (E1 & E2 & E3).
  unfold field_kept, field_in, geo_fields. cbn [existsb].
  rewrite E1, E2, E3.
  destruct (String.eqb f "ville"), (String.eqb f "code_postal"),
           (String.eqb f "department");
    cbn [orb truthy]; repeat split; auto; discriminate.
Qed.

Lemma enrich_keeps_field (a : Auction) (f : string) :
  In f fields_to_merge ->
  field_kept f a (fst (_enrich_from_postal ratio a)).
Proof.
  intros H. rewrite enrich_result.
  assert (S1 : forall x, field_kept f x (after_ville x)).
  { intros x. unfold after_ville.
    destruct (ville_inferred x) as [v|] eqn:E; [|apply field_kept_refl].
    apply ville_inferred_some in E. destruct E as (T & _).
    apply (field_kept_set f x v H T). }
  assert (S2 : forall x, field_kept f x (after_code_postal x)).
  { intros x. unfold after_code_postal.
    destruct (code_postal_inferred x) as [v|] eqn:E; [|apply field_kept_refl].
    apply code_postal_inferred_some in E.
    destruct E as [(T & _)|(T & _)]; apply (field_kept_set f x v H T). }
  assert (S3 : forall x, field_kept f x (after_correction ratio x)).
  { intros x. unfold after_correction.
    destruct (ville_corrected ratio x) as [v|] eqn:E;
      [|apply field_kept_refl].
    apply ville_corrected_some in E. destruct E as (T & _).
    apply (field_kept_set f x v H T). }
  assert (S4 : forall x, field_kept f x (after_department x)).
  { intros x. unfold after_department.
    destruct (department_inferred x) as [v|] eqn:E; [|apply field_kept_refl].
    apply department_inferred_some in E. destruct E as (T & _).
    apply (field_kept_set f x v H T). }
  eapply field_kept_trans; [|apply S4].
  eapply field_kept_trans; [|apply S3].
  eapply field_kept_trans; [|apply S2].
  apply S1.
Qed.

(** The parts of the result of [merge_auctions]. *)
Lemma merge_auctions_parts (a1 a2 : Auction) :
  let st := merge_fields repr repr_document a1 a2 in
  let r := merge_auctions ratio repr repr_document a1 a2 in
  let agreement :=
    count_fields
      (fun f => truthy (getattr a1 f) && truthy (getattr a2 f)
                && value_eqb (getattr a1 f) (getattr a2 f))
      fields_to_merge in
  let total :=
    count_fields (fun f => truthy (getattr (merged_auction r) f))
                 fields_to_merge in
  merged_auction r = fst (_enrich_from_postal ratio (fst (fst st)))
  /\ fields_from_source r = snd (fst st)
  /\ confidence r
     = (if Qlt_bool 0 total then agreement / total else 1 # 2).
Proof.
  cbn zeta. unfold merge_auctions.
  destruct (merge_fields repr repr_document a1 a2) as [[pre ff] notes].
  cbn [fst snd].
  destruct (_enrich_from_postal ratio pre) as [merged enrichment_notes].
  repeat split.
Qed.

(** X14.  Where each merged field comes from.  For every field of the
    merge list: when neither listing has a populated value, the provenance
    map has no entry for it; otherwise the entry is the source returned by
    [_pick_best_value] and the merged field is populated.  Outside the
    three fields that the enrichment may write (postal code, city,
    department), the merged field is the value returned by
    [_pick_best_value], or the default of a new [Auction] when neither
    listing has a populated value. *)
Theorem merged_field_origin (a1 a2 : Auction) (f : string) :
  In f fields_to_merge ->
  let r := merge_auctions ratio repr repr_document a1 a2 in
  let v1 := getattr a1 f in
  let v2 := getattr a2 f in
  let picked :=
    _pick_best_value repr repr_document v1 v2
      (str_or (source a1) "source1") (str_or (source a2) "source2") f in
  PyStr.lookup f (fields_from_source r)
  = (if truthy v1 || truthy v2 then Some (snd picked) else None)
  /\ (truthy v1 || truthy v2 = true ->
      truthy (getattr (merged_auction r) f) = true)
  /\ (field_in f geo_fields = false ->
      getattr (merged_auction r) f
      = (if truthy v1 || truthy v2 then fst picked
         else getattr default_auction f)).
Proof.
  intros H. cbn zeta.
  destruct (merge_auctions_parts a1 a2) as (M & F & _). cbn zeta in M, F.
  rewrite M, F.
  destruct (merge_fields_field a1 a2 f H) as [N1 N2]. cbn zeta in N1, N2.
  destruct (enrich_keeps_field
              (fst (fst (merge_fields repr repr_document a1 a2))) f H)
    as [K1 K2].
  pose proof (pick_cases (getattr a1 f) (getattr a2 f)
                (str_or (source a1) "source1") (str_or (source a2) "source2")
                f) as C.
  cbn zeta in C.
  destruct C as [(T1 & T2 & C)|(T & C)].
  - rewrite T1, T2. cbn [orb]. rewrite C in N1. cbn [fst] in N1.
    destruct (N1 eq_refl) as [G L].
    split; [exact L|]. split; [discriminate|].
    intros Hg. rewrite (K1 Hg). exact G.
  - assert (Ne : fst (_pick_best_value repr repr_document (getattr a1 f)
                        (getattr a2 f) (str_or (source a1) "source1")
                        (str_or (source a2) "source2") f) <> VNone).
    { intros E. rewrite E in T. discriminate. }
    destruct (N2 Ne) as [G L].
    assert (B : truthy (getattr a1 f) || truthy (getattr a2 f) = true).
    { destruct C as [[T1 _]|[[T2 _]|[_ [[_ T1]|[C|C]]]]];
        rewrite ?T1, ?T2, ?orb_true_r; try reflexivity.
      - destruct C as (l1 & l2 & l & E1 & E2 & E).
        rewrite E1, E2 in *. cbn [truthy].
        destruct l1; [|reflexivity]. destruct l2; [|reflexivity].
        exfalso. apply Ne. reflexivity.
      - destruct C as (l1 & l2 & l & E1 & E2 & E).
        rewrite E1, E2 in *. cbn [truthy].
        destruct l1; [|reflexivity]. destruct l2; [|reflexivity].
        exfalso. apply Ne. reflexivity. }
    rewrite B. split; [exact L|]. split.
    + intros _. apply K2. rewrite G. exact T.
    + intros Hg. rewrite (K1 Hg). exact G.
Qed.

Lemma filter_length_le {A} (p q : A -> bool) (l : list A) :
  (forall x, In x l -> p x = true -> q x = true) ->
  (length (filter p l) <= length (filter q l))%nat.
Proof.
  induction l as [|x l IH]; intros H; cbn [filter]; [lia|].
  assert (IH' := IH (fun y Hy => H y (or_intror Hy))).
  destruct (p x) eqn:P.
  - rewrite (H x (or_introl eq_refl) P). cbn [length]. lia.
  - destruct (q x); cbn [length]; lia.
Qed.

Lemma filter_length_pos {A} (p : A -> bool) (l : list A) (x : A) :
  In x l -> p x = true -> (1 <= length (filter p l))%nat.
Proof.
  intros H P. assert (I : In x (filter p l)) by (apply filter_In; auto).
  destruct (filter p l); [contradiction | cbn; lia].
Qed.

(** X15.  The confidence of a merge is the share of populated merged
    fields on which the two listings agree: the merged record always has a
    populated field (its property type at least), so the division is
    always the one that is taken, never the fallback 0.5, and the
    confidence lies between 0 and 1. *)
Theorem merge_confidence_range (a1 a2 : Auction) :
  let r := merge_auctions ratio repr repr_document a1 a2 in
  let agreement :=
    count_fields
      (fun f => truthy (getattr a1 f) && truthy (getattr a2 f)
                && value_eqb (getattr a1 f) (getattr a2 f))
      fields_to_merge in
  let total :=
    count_fields (fun f => truthy (getattr (merged_auction r) f))
                 fields_to_merge in
  1 <= total
  /\ agreement <= total
  /\ confidence r = agreement / total
  /\ 0 <= confidence r <= 1.
Proof.
  cbn zeta.
  destruct (merge_auctions_parts a1 a2) as (M & _ & C). cbn zeta in M, C.
  set (r := merge_auctions ratio repr repr_document a1 a2) in *.
  set (p := fun f => truthy (getattr a1 f) && truthy (getattr a2 f)
                     && value_eqb (getattr a1 f) (getattr a2 f)) in *.
  set (q := fun f => truthy (getattr (merged_auction r) f)) in *.
  assert (Populated : forall f, In f fields_to_merge ->
            truthy (getattr a1 f) = true -> q f = true).
  { intros f H T. unfold q. rewrite M.
    apply (enrich_keeps_field _ f H).
    destruct (merge_fields_field a1 a2 f H) as [_ N2]. cbn zeta in N2.
    pose proof (pick_cases (getattr a1 f) (getattr a2 f)
                  (str_or (source a1) "source1")
                  (str_or (source a2) "source2") f) as K.
    cbn zeta in K. destruct K as [(T1 & _)|(Tp & _)]; [congruence|].
    assert (Ne : fst (_pick_best_value repr repr_document (getattr a1 f)
                        (getattr a2 f) (str_or (source a1) "source1")
                        (str_or (source a2) "source2") f) <> VNone).
    { intros E. rewrite E in Tp. discriminate. }
    destruct (N2 Ne) as [G _]. rewrite G. exact Tp. }
  assert (Ty : q "type_bien" = true).
  { assert (H : In "type_bien" fields_to_merge)
      by (unfold fields_to_merge; cbn [In]; tauto).
    unfold q. rewrite M. apply (enrich_keeps_field _ _ H).
    destruct (merge_fields_field a1 a2 "type_bien" H) as [N1 N2].
    cbn zeta in N1, N2.
    pose proof (pick_cases (getattr a1 "type_bien") (getattr a2 "type_bien")
                  (str_or (source a1) "source1")
                  (str_or (source a2) "source2") "type_bien") as K.
    cbn zeta in K. destruct K as [(_ & _ & K)|(Tp & _)].
    - rewrite K in N1. destruct (N1 eq_refl) as [G _]. rewrite G.
      reflexivity.
    - assert (Ne : fst (_pick_best_value repr repr_document
                          (getattr a1 "type_bien") (getattr a2 "type_bien")
                          (str_or (source a1) "source1")
                          (str_or (source a2) "source2") "type_bien")
                   <> VNone).
      { intros E. rewrite E in Tp. discriminate. }
      destruct (N2 Ne) as [G _]. rewrite G. exact Tp. }
  assert (L1 : (1 <= length (filter q fields_to_merge))%nat).
  { apply (filter_length_pos q fields_to_merge "type_bien");
      [unfold fields_to_merge; cbn [In]; tauto | exact Ty]. }
  assert (L2 : (length (filter p fields_to_merge)
                <= length (filter q fields_to_merge))%nat).
  { apply filter_length_le. intros f H P. apply Populated; [exact H|].
    unfold p in P. apply andb_true_iff in P. destruct P as [P _].
    apply andb_true_iff in P. destruct P as [P _]. exact P. }
  unfold count_fields in *.
  set (np := length (filter p fields_to_merge)) in *.
  set (nq := length (filter q fields_to_merge)) in *.
  assert (Q1 : 1 <= inject_Z (Z.of_nat nq)).
  { change 1 with (inject_Z 1). rewrite <- Zle_Qle. lia. }
  assert (Q2 : inject_Z (Z.of_nat np) <= inject_Z (Z.of_nat nq)).
  { rewrite <- Zle_Qle. lia. }
  assert (Q0 : 0 <= inject_Z (Z.of_nat np)).
  { change 0 with (inject_Z 0). rewrite <- Zle_Qle. lia. }
  assert (Qp : 0 < inject_Z (Z.of_nat nq)).
  { eapply Qlt_le_trans; [|exact Q1]. reflexivity. }
  assert (Cf : confidence r
               = inject_Z (Z.of_nat np) / inject_Z (Z.of_nat nq)).
  { rewrite C. rewrite (proj2 (Qlt_bool_iff _ _) Qp). reflexivity. }
  split; [exact Q1|]. split; [exact Q2|]. split; [exact Cf|].
  rewrite Cf. split.
  - apply Qle_shift_div_l; [exact Qp|]. rewrite Qmult_0_l. exact Q0.
  - apply Qle_shift_div_r; [exact Qp|]. rewrite Qmult_1_l. exact Q2.
Qed.

End MergedRecord.

Lemma merged_field_origin_witness :
  PyStr.lookup "surface"
    (CrossValidator.fields_from_source
       (CrossValidator.merge_auctions ratio_equal repr_none
          repr_document_none listing_with_surface listing_zero_surface))
  = Some "source1"
  /\ CrossValidator.getattr
       (CrossValidator.merged_auction
          (CrossValidator.merge_auctions ratio_equal repr_none
             repr_document_none listing_with_surface listing_zero_surface))
       "surface"
     = CrossValidator.VFloat 50.
Proof.
  destruct (merged_field_origin ratio_equal repr_none repr_document_none
              listing_with_surface listing_zero_surface "surface")
    as (A & _ & B).
  - unfold CrossValidator.fields_to_merge. cbn [In]. tauto.
  - split; [exact A | apply B; reflexivity].
Defined.

(** * Properties of the DVF source and of the multi-source analyzer *)

Section DVFEstimate.

Import PriceSources.
Import DVFPriceSource.

Variable find_comparable_sales :
  string -> Q -> string -> Q -> Z -> Z ->
  option (list DVFSource.DVFTransaction).
Variable today : Z.

Lemma round0_integer (x : Q) :
  round0 x = inject_Z (Qfloor x) \/ round0 x = inject_Z (Qfloor x + 1).
Proof.
  unfold round0.
  destruct (Qlt_le_dec (x - inject_Z (Qfloor x)) (1 # 2)); [left; reflexivity|].
  destruct (Qlt_le_dec (1 # 2) (x - inject_Z (Qfloor x)));
    [right; reflexivity|].
  destruct (Z.even (Qfloor x)); [left | right]; reflexivity.
Qed.

Lemma round0_ge (a : Z) (x : Q) : inject_Z a <= x -> inject_Z a <= round0 x.
Proof.
  intros H. apply Qfloor_resp_le in H. rewrite Qfloor_Z in H.
  destruct (round0_integer x) as [E|E]; rewrite E, <- Zle_Qle; lia.
Qed.

Lemma round0_le (b : Z) (x : Q) : x <= inject_Z b -> round0 x <= inject_Z b.
Proof.
  intros H. pose proof (Qfloor_resp_le _ _ H) as F. rewrite Qfloor_Z in F.
  unfold round0.
  destruct (Qlt_le_dec (x - inject_Z (Qfloor x)) (1 # 2)) as [L|L];
    [rewrite <- Zle_Qle; exact F|].
  assert (U : (Qfloor x + 1 <= b)%Z).
  { destruct (Z_lt_le_dec (Qfloor x) b) as [C|C]; [lia|]. exfalso.
    assert (E : Qfloor x = b) by lia.
    rewrite E in L.
    assert (K : inject_Z b + (1 # 2) <= x).
    { apply Qplus_le_l with (z := - inject_Z b).
      setoid_replace (inject_Z b + (1 # 2) + - inject_Z b) with (1 # 2)
        by ring.
      exact L. }
    apply (Qlt_irrefl (inject_Z b)).
    eapply Qlt_le_trans; [|exact H].
    eapply Qlt_le_trans; [|exact K].
    rewrite <- (Qplus_0_r (inject_Z b)) at 1.
    apply Qplus_lt_r. reflexivity. }
  destruct (Qlt_le_dec (1 # 2) (x - inject_Z (Qfloor x)));
    [rewrite <- Zle_Qle; exact U|].
  destruct (Z.even (Qfloor x)); rewrite <- Zle_Qle; [exact F | exact U].
Qed.

Lemma round0_inject (z : Z) : round0 (inject_Z z) = inject_Z z.
Proof.
  unfold round0. rewrite Qfloor_Z.
  destruct (Qlt_le_dec (inject_Z z - inject_Z z) (1 # 2)) as [L|L];
    [reflexivity|].
  exfalso. lra.
Qed.

Lemma round0_comp (x y : Q) : x == y -> round0 x = round0 y.
Proof.
  intros H. unfold round0. rewrite (Qfloor_comp x y H).
  destruct (Qlt_le_dec (x - inject_Z (Qfloor y)) (1 # 2)),
           (Qlt_le_dec (y - inject_Z (Qfloor y)) (1 # 2));
    try reflexivity; try (exfalso; lra).
  destruct (Qlt_le_dec (1 # 2) (x - inject_Z (Qfloor y))),
           (Qlt_le_dec (1 # 2) (y - inject_Z (Qfloor y)));
    try reflexivity; exfalso; lra.
Qed.

Lemma round0_close (x : Q) : Qabs (round0 x - x) <= 1 # 2.
Proof.
  pose proof (Qfloor_le x) as L. pose proof (Qlt_floor x) as U.
  rewrite inject_Z_plus in U. change (inject_Z 1) with 1 in U.
  apply Qabs_Qle_condition. unfold round0.
  destruct (Qlt_le_dec (x - inject_Z (Qfloor x)) (1 # 2)); [lra|].
  destruct (Qlt_le_dec (1 # 2) (x - inject_Z (Qfloor x)));
    [rewrite inject_Z_plus; change (inject_Z 1) with 1; lra|].
  destruct (Z.even (Qfloor x)); rewrite ?inject_Z_plus;
    change (inject_Z 1) with 1; lra.
Qed.

Lemma median_price_between (s : list Q) (lo hi : Q) :
  s <> [] -> Forall (fun p => lo <= p <= hi) s ->
  lo <= DVFSource.median_price s <= hi.
Proof.
  intros Hne Hall.
  assert (Hn : (0 < length s)%nat) by (destruct s; [congruence | cbn; lia]).
  assert (Hnth : forall i, (i < length s)%nat -> lo <= nth i s 0 <= hi).
  { intros i Hi. rewrite Forall_forall in Hall. apply Hall, nth_In, Hi. }
  assert (H2 : (length s / 2 < length s)%nat)
    by (apply Nat.div_lt; lia).
  unfold DVFSource.median_price.
  destruct (length s mod 2 =? 0)%nat.
  - destruct (Hnth (length s / 2 - 1)%nat ltac:(lia)) as [A1 A2].
    destruct (Hnth (length s / 2)%nat H2) as [B1 B2].
    split.
    + apply Qle_shift_div_l; [reflexivity|].
      setoid_replace (lo * 2) with (lo + lo) by ring.
      apply Qplus_le_compat; assumption.
    + apply Qle_shift_div_r; [reflexivity|].
      setoid_replace (hi * 2) with (hi + hi) by ring.
      apply Qplus_le_compat; assumption.
  - apply Hnth, H2.
Qed.

Lemma valid_prices_in_band (ts : list DVFSource.DVFTransaction) :
  Forall (fun p => 500 <= p <= 15000) (DVFSource.valid_prices ts).
Proof.
  rewrite valid_prices_filter. apply Forall_forall. intros p Hp.
  apply filter_In in Hp. destruct Hp as [_ Hp]. unfold in_band in Hp.
  apply andb_true_iff in Hp. destruct Hp as [A B].
  apply Qle_bool_iff in A, B. split; assumption.
Qed.

(** The two forms of an estimate that the DVF source returns. *)
Lemma dvf_estimate_shape (code_postal ville type_bien : string)
  (surface : option Q) (e : PriceEstimate) :
  get_price_estimate find_comparable_sales today code_postal ville type_bien
                     surface = Some e ->
  exists transactions,
    transactions <> []
    /\ code_postal <> EmptyString
    /\ PriceSources.source_type e = DVF
    /\ nb_data_points e
       = Z.of_nat (length (DVFSource.valid_prices transactions))
    /\ ((length (DVFSource.valid_prices transactions) < 3)%nat
        /\ prix_m2 e = None
        \/ (3 <= length (DVFSource.valid_prices transactions))%nat
           /\ prix_m2 e
              = Some (round0 (DVFSource.median_price
                                (DVFSource.sort
                                   (DVFSource.valid_prices transactions))))
           /\ geographic_match e = "commune").
Proof.
  unfold get_price_estimate.
  destruct (Py.truthy_str code_postal) eqn:Tc; [|discriminate].
  cbn [negb]. cbv zeta.
  match goal with
  | |- context [find_comparable_sales ?a ?b ?c ?d ?e ?f] =>
      destruct (find_comparable_sales a b c d e f) as [ts|]; [|discriminate]
  end.
  destruct ts as [|t ts]; [discriminate|].
  set (l := t :: ts). set (valid := DVFSource.valid_prices l).
  intros E. exists l.
  split; [discriminate|].
  split; [apply truthy_str_true; exact Tc|].
  destruct (length valid <? DVFSource.MIN_COMPARABLES)%nat eqn:N;
    injection E as <-;
    cbn [PriceSources.source_type nb_data_points prix_m2 geographic_match];
    (split; [reflexivity|]); (split; [reflexivity|]).
  - left. apply Nat.ltb_lt in N. split; [exact N | reflexivity].
  - right. apply Nat.ltb_ge in N. split; [exact N|]. split; reflexivity.
Qed.




(** The rounded median of three or more prices of the band is a whole
    number of the band. *)
Lemma rounded_median_in_band (ts : list DVFSource.DVFTransaction) :
  (3 <= length (DVFSource.valid_prices ts))%nat ->
  exists z,
    round0 (DVFSource.median_price
              (DVFSource.sort (DVFSource.valid_prices ts)))
    = inject_Z z
    /\ (500 <= z <= 15000)%Z.
Proof.
  intros N. set (valid := DVFSource.valid_prices ts) in *.
  assert (Hband : 500 <= DVFSource.median_price (DVFSource.sort valid)
                  <= 15000).
  { apply median_price_between.
    - intros En. apply (f_equal (@length Q)) in En.
      rewrite sort_length in En.
      change (@length Q []) with 0%nat in En. lia.
    - eapply Permutation_Forall;
        [apply Permutation_sym, sort_perm | apply valid_prices_in_band]. }
  destruct Hband as [B1 B2].
  pose proof (round0_ge 500 _ B1) as R1.
  pose proof (round0_le 15000 _ B2) as R2.
  destruct (round0_integer
              (DVFSource.median_price (DVFSource.sort valid))) as [I|I];
    rewrite I in *; eexists; (split; [reflexivity|]);
    rewrite <- !Zle_Qle in *; lia.
Qed.

Lemma whole_price_truthy (z : Z) :
  (500 <= z)%Z -> Py.truthy_float (Some (inject_Z z)) = true.
Proof.
  intros H. cbn [Py.truthy_float]. apply negb_true_iff.
  destruct (Qeq_bool (inject_Z z) 0) eqn:Z0; [|reflexivity].
  apply Qeq_bool_iff in Z0. unfold Qeq in Z0. cbn in Z0. lia.
Qed.

Lemma commune_confidence (e : PriceEstimate) :
  (3 <= nb_data_points e)%Z -> geographic_match e = "commune" ->
  30 <= confidence_score e.
Proof.
  intros N G. unfold confidence_score. rewrite G.
  change (String.eqb "commune" "exact") with false.
  change (String.eqb "commune" "commune") with true.
  cbv iota.
  repeat match goal with
  | |- context [if (?a <=? ?b)%Z then _ else _] =>
      destruct (Z.leb_spec a b)
  end; try lia; unfold Qle; cbn; lia.
Qed.

(** An estimate of the DVF source has no price, or a whole price that
    [add_estimate] accepts and a confidence of 30 or more. *)
Lemma dvf_estimate_priced (code_postal ville type_bien : string)
  (surface : option Q) (e : PriceEstimate) :
  get_price_estimate find_comparable_sales today code_postal ville type_bien
                     surface = Some e ->
  prix_m2 e = None
  \/ exists z, prix_m2 e = Some (inject_Z z)
               /\ Py.truthy_float (prix_m2 e) = true
               /\ 30 <= confidence_score e.
Proof.
  intros G.
  destruct (dvf_estimate_shape _ _ _ _ _ G)
    as (ts & _ & _ & _ & Hnb & [[_ P]|(L & P & M)]); [left; exact P|].
  right. destruct (rounded_median_in_band ts L) as (z & Hz & Hb).
  exists z. rewrite P, Hz. split; [reflexivity|].
  split; [apply whole_price_truthy; lia|].
  apply commune_confidence; [lia | exact M].
Qed.


End DVFEstimate.

Section Analysis.

Import PriceSources.
Import MultiSourceAnalyzer.

Variable pow_half : Q -> Q.
Variable format_thousands : Q -> string.
Variable format_0f : Q -> string.
Variable str_int : Z -> string.
Variable euro : string.

(** The estimates that the sources return, in the order of the sources, and
    the warnings left by the sources that raise. *)
Definition returned_estimates (sources : list PriceSource)
  (code_postal ville type_bien : string) (surface : option Q)
  : list PriceEstimate :=
  flat_map (fun source =>
              match get_price_estimate source code_postal ville type_bien
                                       surface with
              | Returned (Some e) => [e]
              | _ => []
              end) sources.

Definition error_warnings (sources : list PriceSource)
  (code_postal ville type_bien : string) (surface : option Q)
  : list string :=
  flat_map (fun source =>
              match get_price_estimate source code_postal ville type_bien
                                       surface with
              | Raised message =>
                  ["Erreur " ++ source_name source ++ ": " ++ message]
              | _ => []
              end) sources.

(** The fields of an analysis that the loop over the sources leaves
    alone. *)
Definition same_result (a a' : DetailedPriceAnalysis) : Prop :=
  surface a' = surface a
  /\ mise_a_prix a' = mise_a_prix a
  /\ prix_m2_recommended a' = prix_m2_recommended a
  /\ prix_total_estimated a' = prix_total_estimated a
  /\ decote_vs_market a' = decote_vs_market a
  /\ reliability a' = reliability a
  /\ reliability_score a' = reliability_score a.

Lemma same_result_refl (a : DetailedPriceAnalysis) : same_result a a.
Proof. repeat split. Qed.

Lemma same_result_trans (a b c : DetailedPriceAnalysis) :
  same_result a b -> same_result b c -> same_result a c.
Proof.
  unfold same_result. intros (A1 & A2 & A3 & A4 & A5 & A6 & A7)
    (B1 & B2 & B3 & B4 & B5 & B6 & B7).
  repeat split; congruence.
Qed.

Lemma collect_step (code_postal ville type_bien : string) (surface : option Q)
  (a : DetailedPriceAnalysis) (source : PriceSource) :
  let a' := collect pow_half format_thousands format_0f str_int euro
                    code_postal ville type_bien surface a source in
  estimate a'
  = fold_left (add_estimate pow_half)
              (returned_estimates [source] code_postal ville type_bien
                                  surface)
              (estimate a)
  /\ warnings a'
     = (warnings a
        ++ error_warnings [source] code_postal ville type_bien surface)%list
  /\ same_result a a'
  /\ (length (analysis_notes a') + length (warnings a')
      = S (length (analysis_notes a) + length (warnings a)))%nat.
Proof.
  cbn zeta. unfold collect, returned_estimates, error_warnings.
  cbn [flat_map].
  destruct (get_price_estimate source code_postal ville type_bien surface)
    as [[e|]|message]; cbn [app fold_left].
  - destruct (prix_m2 e) as [p|] eqn:P.
    + destruct (Py.truthy_float (Some p)) eqn:T.
      * cbn [estimate warnings analysis_notes add_note set_estimate].
        rewrite app_nil_r, length_app. cbn [length].
        repeat split. lia.
      * cbn [estimate warnings analysis_notes add_note].
        unfold add_estimate. rewrite P, T.
        rewrite app_nil_r, length_app. cbn [length].
        repeat split. lia.
    + cbn [estimate warnings analysis_notes add_note].
      unfold add_estimate. rewrite P. cbn [Py.truthy_float].
      rewrite app_nil_r, length_app. cbn [length].
      repeat split. lia.
  - cbn [estimate warnings analysis_notes add_note].
    rewrite app_nil_r, length_app. cbn [length].
    repeat split. lia.
  - cbn [estimate warnings analysis_notes add_warning].
    rewrite length_app. cbn [length].
    repeat split. lia.
Qed.

Lemma collect_all (code_postal ville type_bien : string) (surface : option Q)
  (sources : list PriceSource) (a : DetailedPriceAnalysis) :
  let a' :=
    fold_left (collect pow_half format_thousands format_0f str_int euro
                       code_postal ville type_bien surface) sources a in
  estimate a'
  = fold_left (add_estimate pow_half)
              (returned_estimates sources code_postal ville type_bien
                                  surface)
              (estimate a)
  /\ warnings a'
     = (warnings a
        ++ error_warnings sources code_postal ville type_bien surface)%list
  /\ same_result a a'
  /\ (length (analysis_notes a') + length (warnings a')
      = length sources + (length (analysis_notes a) + length (warnings a)))%nat.
Proof.
  revert a. induction sources as [|source sources IH]; intros a.
  - cbn. rewrite app_nil_r. repeat split.
  - cbn [fold_left].
    destruct (collect_step code_postal ville type_bien surface a source)
      as (S1 & S2 & S3 & S4).
    cbn zeta in S1, S2, S3, S4.
    destruct (IH (collect pow_half format_thousands format_0f str_int euro
                          code_postal ville type_bien surface a source))
      as (I1 & I2 & I3 & I4).
    cbn zeta in I1, I2, I3, I4.
    assert (R : returned_estimates (source :: sources) code_postal ville
                  type_bien surface
                = (returned_estimates [source] code_postal ville type_bien
                     surface
                   ++ returned_estimates sources code_postal ville type_bien
                        surface)%list).
    { unfold returned_estimates. cbn [flat_map]. rewrite app_nil_r.
      reflexivity. }
    assert (W : error_warnings (source :: sources) code_postal ville
                  type_bien surface
                = (error_warnings [source] code_postal ville type_bien
                     surface
                   ++ error_warnings sources code_postal ville type_bien
                        surface)%list).
    { unfold error_warnings. cbn [flat_map]. rewrite app_nil_r.
      reflexivity. }
    cbn zeta. rewrite I4, S4, I1, I2, S1, S2, R, W.
    rewrite fold_left_app, <- app_assoc. cbn [length].
    split; [reflexivity|]. split; [reflexivity|].
    split; [eapply same_result_trans; eassumption | lia].
Qed.

Lemma error_warnings_head (sources : list PriceSource)
  (code_postal ville type_bien : string) (surface : option Q) :
  Forall (fun w => PyStr.take 1 w = "E")
         (error_warnings sources code_postal ville type_bien surface).
Proof.
  apply Forall_forall. intros w H. unfold error_warnings in H.
  apply in_flat_map in H. destruct H as (source & _ & H).
  destruct (get_price_estimate source code_postal ville type_bien surface);
    [contradiction|].
  destruct H as [<-|[]]. reflexivity.
Qed.

(** The first two characters of the disagreement warning. *)
Definition disagreement_head : string := "D" ++ String "233"%char EmptyString.

(** The notes about the agreement of the sources are always produced when
    the bounds of the price range are set. *)
Lemma agreement_notes_returns (a : DetailedPriceAnalysis) :
  (estimates (estimate a) <> [] ->
   exists lo hi, prix_m2_min (estimate a) = Some lo
                 /\ prix_m2_max (estimate a) = Some hi) ->
  exists a' ws,
    agreement_notes format_thousands format_0f euro a = Some a'
    /\ estimate a' = estimate a
    /\ same_result a a'
    /\ warnings a' = (warnings a ++ ws)%list
    /\ Forall (fun w => PyStr.take 2 w = disagreement_head) ws.
Proof.
  intros Hr. unfold agreement_notes.
  destruct (2 <=? length (estimates (estimate a)))%nat eqn:N.
  - assert (Hne : estimates (estimate a) <> []).
    { apply Nat.leb_le in N. intros E. rewrite E in N. cbn in N. lia. }
    destruct (Hr Hne) as (lo & hi & Hlo & Hhi).
    destruct (Qle_bool 80 (sources_agreement (estimate a))).
    + eexists. exists []. split; [reflexivity|].
      cbn [estimate warnings add_note]. rewrite app_nil_r.
      repeat split. constructor.
    + destruct (Qle_bool 50 (sources_agreement (estimate a))).
      * eexists. exists []. split; [reflexivity|].
        cbn [estimate warnings add_note]. rewrite app_nil_r.
        repeat split. constructor.
      * rewrite Hlo, Hhi. eexists. eexists. split; [reflexivity|].
        cbn [estimate warnings add_warning].
        split; [reflexivity|]. split; [repeat split|].
        split; [reflexivity|].
        constructor; [reflexivity | constructor].
  - exists a, []. rewrite app_nil_r. repeat split. constructor.
Qed.

(** The price that [_generate_recommendation] recommends for a combiner. *)
Definition recommended (m : MultiSourceEstimate) : option Q :=
  match estimates m, prix_m2_combined m with
  | _ :: _, Some combined =>
      if Py.truthy_float (prix_m2_combined m)
      then Some (DVFPriceSource.round0 combined)
      else None
  | _, _ => None
  end.

Lemma generate_recommendation_returns (a : DetailedPriceAnalysis) :
  reliability a = INSUFFICIENT ->
  prix_m2_recommended a = None ->
  (estimates (estimate a) <> [] ->
   exists lo hi, prix_m2_min (estimate a) = Some lo
                 /\ prix_m2_max (estimate a) = Some hi) ->
  exists a' ws,
    _generate_recommendation format_thousands format_0f euro a = Some a'
    /\ estimate a' = estimate a
    /\ surface a' = surface a
    /\ mise_a_prix a' = mise_a_prix a
    /\ decote_vs_market a' = decote_vs_market a
    /\ reliability a' = reliability a
    /\ reliability_score a' = reliability_score a
    /\ prix_m2_recommended a' = recommended (estimate a)
    /\ warnings a'
       = (warnings a ++ ws
          ++ [match estimates (estimate a) with
              | [] => no_source_warning
              | _ :: _ => insufficient_warning
              end])%list
    /\ Forall (fun w => PyStr.take 2 w = disagreement_head) ws.
Proof.
  intros Hrel Hrec Hr. unfold _generate_recommendation, recommended.
  destruct (estimates (estimate a)) as [|e es] eqn:E.
  - eexists. exists []. split; [reflexivity|].
    cbn [estimate surface mise_a_prix decote_vs_market reliability
         reliability_score prix_m2_recommended warnings add_warning app].
    repeat split; try assumption. constructor.
  - cbv zeta.
    set (a1 :=
           match prix_m2_combined (estimate a) with
           | Some combined =>
               if Py.truthy_float (prix_m2_combined (estimate a)) then
                 match surface a with
                 | Some s =>
                     if Py.truthy_float (surface a) then
                       set_prix_total_estimated
                         (set_prix_m2_recommended a
                            (Some (DVFPriceSource.round0 combined)))
                         (Some (DVFPriceSource.round0
                                  (DVFPriceSource.round0 combined * s)))
                     else set_prix_m2_recommended a
                            (Some (DVFPriceSource.round0 combined))
                 | None => set_prix_m2_recommended a
                             (Some (DVFPriceSource.round0 combined))
                 end
               else a
           | None => a
           end).
    assert (A1 : estimate a1 = estimate a /\ surface a1 = surface a
                 /\ mise_a_prix a1 = mise_a_prix a
                 /\ decote_vs_market a1 = decote_vs_market a
                 /\ reliability a1 = reliability a
                 /\ reliability_score a1 = reliability_score a
                 /\ warnings a1 = warnings a
                 /\ prix_m2_recommended a1
                    = match prix_m2_combined (estimate a) with
                      | Some combined =>
                          if Py.truthy_float (prix_m2_combined (estimate a))
                          then Some (DVFPriceSource.round0 combined)
                          else None
                      | None => None
                      end).
    { unfold a1. clear a1 Hr E Hrel. destruct a as [? ? ? sf m ? ? ? ? ? ? ? ?].
      cbn [estimate surface mise_a_prix decote_vs_market reliability
           reliability_score warnings prix_m2_recommended] in *.
      destruct (prix_m2_combined m) as [c|]; [|repeat split; assumption].
      destruct (Py.truthy_float (Some c)); [|repeat split; assumption].
      destruct sf as [s|]; [|repeat split].
      destruct (Py.truthy_float (Some s)); repeat split. }
    destruct A1 as (B1 & B2 & B3 & B4 & B5 & B6 & B7 & B8).
    assert (Hr1 : estimates (estimate a1) <> [] ->
                  exists lo hi, prix_m2_min (estimate a1) = Some lo
                                /\ prix_m2_max (estimate a1) = Some hi).
    { rewrite B1. intros _. apply Hr. discriminate. }
    destruct (agreement_notes_returns a1 Hr1)
      as (a2 & ws & G & G1 & (C1 & C2 & C3 & C4 & C5 & C6 & C7) & G3 & G4).
    match goal with
    | |- context [agreement_notes _ _ _ ?t] => change t with a1
    end.
    rewrite G.
    exists (reliability_warnings a2), ws.
    split; [reflexivity|].
    assert (W : reliability_warnings a2 = add_warning a2 insufficient_warning).
    { unfold reliability_warnings. rewrite C6, B5, Hrel. reflexivity. }
    rewrite W.
    cbn [estimate surface mise_a_prix decote_vs_market reliability
         reliability_score prix_m2_recommended warnings add_warning].
    rewrite G1, B1, C1, B2, C2, B3, C5, B4, C6, B5, C7, B6, C3, B8, G3, B7.
    rewrite <- app_assoc.
    repeat split. exact G4.
Qed.

(** The discount that [analyze] computes from a starting price, a
    recommended price and a surface. *)
Definition discount (mise_a_prix recommended_price surface : option Q)
  : option Q :=
  match mise_a_prix, recommended_price, surface with
  | Some m, Some r, Some s =>
      if Py.truthy_float mise_a_prix && Py.truthy_float recommended_price
         && Py.truthy_float surface
      then Some ((r * s - m) / (r * s) * 100)
      else None
  | _, _, _ => None
  end.

Lemma truthy_float_some (x : option Q) :
  Py.truthy_float x = true -> exists q, x = Some q /\ ~ q == 0.
Proof.
  destruct x as [q|]; [|discriminate]. cbn. intros H.
  exists q. split; [reflexivity|].
  apply negb_true_iff in H. intros E. apply Qeq_bool_iff in E. congruence.
Qed.

(** The comparison with the starting price never divides by zero. *)
Lemma compare_with_auction_returns (m s : option Q)
  (a : DetailedPriceAnalysis) :
  decote_vs_market a = None ->
  exists a',
    compare_with_auction m s a = Some a'
    /\ estimate a' = estimate a
    /\ warnings a' = warnings a
    /\ prix_m2_recommended a' = prix_m2_recommended a
    /\ decote_vs_market a' = discount m (prix_m2_recommended a) s.
Proof.
  intros Hd. unfold compare_with_auction, discount.
  destruct (Py.truthy_float m) eqn:Tm.
  - destruct (Py.truthy_float (prix_m2_recommended a)) eqn:Tr.
    + destruct (Py.truthy_float s) eqn:Ts.
      * destruct (truthy_float_some _ Tm) as (mv & -> & _).
        destruct (truthy_float_some _ Tr) as (r & Er & Nr). rewrite Er.
        destruct (truthy_float_some _ Ts) as (sv & -> & Ns).
        cbn [andb].
        destruct (Qeq_bool (r * sv) 0) eqn:Z0.
        -- exfalso. apply Qeq_bool_iff in Z0.
           apply Qmult_integral in Z0. tauto.
        -- eexists. split; [reflexivity|]. repeat split. exact Er.
      * cbn [andb]. exists a. rewrite Hd.
        destruct m, (prix_m2_recommended a), s; repeat split.
    + cbn [andb]. exists a. rewrite Hd.
      destruct m, (prix_m2_recommended a), s; repeat split.
  - cbn [andb]. exists a. rewrite Hd.
    destruct m, (prix_m2_recommended a), s; repeat split.
Qed.

(** The result of [analyze], field by field. *)
Lemma analyze_result (self : MultiSourceAnalyzer)
  (code_postal ville type_bien : string) (surface mise_a_prix : option Q) :
  let combiner :=
    add_all pow_half
      (returned_estimates (_sources self) code_postal ville type_bien
                          surface) in
  exists a ws,
    analyze pow_half format_thousands format_0f str_int euro self
            code_postal ville type_bien surface mise_a_prix = Some a
    /\ estimate a = combiner
    /\ reliability a = PriceSources.reliability combiner
    /\ reliability_score a = PriceSources.reliability_score combiner
    /\ prix_m2_recommended a = recommended combiner
    /\ decote_vs_market a
       = discount mise_a_prix (recommended combiner) surface
    /\ warnings a
       = (error_warnings (_sources self) code_postal ville type_bien surface
          ++ ws
          ++ [match estimates combiner with
              | [] => no_source_warning
              | _ :: _ => insufficient_warning
              end])%list
    /\ Forall (fun w => PyStr.take 2 w = disagreement_head) ws.
Proof.
  cbn zeta. unfold analyze.
  set (a0 := new_analysis code_postal ville type_bien surface mise_a_prix).
  destruct (collect_all code_postal ville type_bien surface (_sources self)
              a0) as (C1 & C2 & (D1 & D2 & D3 & D4 & D5 & D6 & D7) & _).
  cbn zeta in *.
  set (a1 := fold_left
               (collect pow_half format_thousands format_0f str_int euro
                        code_postal ville type_bien surface)
               (_sources self) a0) in *.
  change (estimate a0) with PriceSources.empty in C1.
  fold (add_all pow_half
          (returned_estimates (_sources self) code_postal ville type_bien
                              surface)) in C1.
  set (combiner := add_all pow_half
                     (returned_estimates (_sources self) code_postal ville
                                         type_bien surface)) in *.
  change (warnings a0) with (@nil string) in C2. cbn [app] in C2.
  assert (Hr : estimates (estimate a1) <> [] ->
               exists lo hi, prix_m2_min (estimate a1) = Some lo
                             /\ prix_m2_max (estimate a1) = Some hi).
  { rewrite C1. intros Hne.
    destruct (add_all_combined pow_half _ Hne) as (_ & Hmin & Hmax).
    cbn zeta in Hmin, Hmax. fold combiner in Hmin, Hmax, Hne.
    rewrite Hmin, Hmax.
    destruct (estimates combiner) as [|e l]; [contradiction|].
    cbn [map Py.min_list Py.max_list]. eauto. }
  destruct (generate_recommendation_returns a1 D6 D3 Hr)
    as (a2 & ws & G & G1 & G2 & G3 & G4 & G5 & G6 & G7 & G8 & G9).
  rewrite G.
  assert (Hd : decote_vs_market a2 = None) by (rewrite G4; exact D5).
  destruct (compare_with_auction_returns mise_a_prix surface a2 Hd)
    as (a3 & K & K1 & K2 & K3 & K4).
  rewrite K. eexists. exists ws. split; [reflexivity|].
  cbn [estimate reliability reliability_score prix_m2_recommended
       decote_vs_market warnings set_reliability set_reliability_score].
  rewrite K1, K2, K3, K4, G1, G7, G8, C1, C2.
  repeat split. exact G9.
Qed.

(** X17.  [analyze] always returns, whatever the sources return and whether
    or not they raise: its combiner is the one reached by calling
    [add_estimate], in the order of the sources, on the estimates that the
    sources return, and the reliability level and score of the analysis are
    those of that combiner. *)
Theorem analyze_always_returns (self : MultiSourceAnalyzer)
  (code_postal ville type_bien : string) (surface mise_a_prix : option Q) :
  exists a,
    analyze pow_half format_thousands format_0f str_int euro self
            code_postal ville type_bien surface mise_a_prix = Some a
    /\ estimate a
       = add_all pow_half
           (returned_estimates (_sources self) code_postal ville type_bien
                               surface)
    /\ reliability a = PriceSources.reliability (estimate a)
    /\ reliability_score a = PriceSources.reliability_score (estimate a).
Proof.
  destruct (analyze_result self code_postal ville type_bien surface
              mise_a_prix) as (a & ws & A & A1 & A2 & A3 & _).
  cbn zeta in *. exists a. rewrite A1. repeat split; assumption.
Qed.

Lemma take_app_head (n : nat) (w : string) (l1 l2 : list string) (p : string) :
  Forall (fun x => PyStr.take n x = p) l1 ->
  In w (l1 ++ l2)%list -> PyStr.take n w = p \/ In w l2.
Proof.
  intros F H. apply in_app_or in H. destruct H as [H|H]; [left|right; exact H].
  rewrite Forall_forall in F. exact (F w H).
Qed.

(** X18.  The reliability warning of an analysis does not follow its
    reliability level: [_generate_recommendation] reads the level of the
    analysis before [analyze] sets it.  So the warnings of an analysis never
    contain the low-reliability warning, they contain the
    insufficient-data warning exactly when at least one estimate was
    accumulated, and the no-source warning exactly when none was. *)
Theorem reliability_warning_is_stale (self : MultiSourceAnalyzer)
  (code_postal ville type_bien : string) (surface mise_a_prix : option Q) :
  exists a,
    analyze pow_half format_thousands format_0f str_int euro self
            code_postal ville type_bien surface mise_a_prix = Some a
    /\ ~ In low_reliability_warning (warnings a)
    /\ (In insufficient_warning (warnings a)
        <-> estimates (estimate a) <> [])
    /\ (In no_source_warning (warnings a)
        <-> estimates (estimate a) = []).
Proof.
  destruct (analyze_result self code_postal ville type_bien surface
              mise_a_prix) as (a & ws & A & A1 & _ & _ & _ & _ & W & F).
  cbn zeta in *. exists a. split; [exact A|].
  rewrite A1, W.
  pose proof (error_warnings_head (_sources self) code_postal ville type_bien
                surface) as E.
  set (errors := error_warnings (_sources self) code_postal ville type_bien
                                surface) in *.
  set (combiner := add_all pow_half
                     (returned_estimates (_sources self) code_postal ville
                                         type_bien surface)) in *.
  assert (Cases : forall w,
            In w (errors ++ ws
                  ++ [match estimates combiner with
                      | [] => no_source_warning
                      | _ :: _ => insufficient_warning
                      end])%list ->
            PyStr.take 1 w = "E" \/ PyStr.take 2 w = disagreement_head
            \/ w = match estimates combiner with
                   | [] => no_source_warning
                   | _ :: _ => insufficient_warning
                   end).
  { intros w H. destruct (take_app_head 1 w _ _ _ E H) as [H1|H1];
      [left; exact H1|].
    destruct (take_app_head 2 w _ _ _ F H1) as [H2|H2];
      [right; left; exact H2|].
    destruct H2 as [<-|[]]. right; right. reflexivity. }
  split; [|split].
  - intros H. destruct (Cases _ H) as [C|[C|C]]; try discriminate.
    destruct (estimates combiner); discriminate.
  - split.
    + intros H. destruct (Cases _ H) as [C|[C|C]]; try discriminate.
      destruct (estimates combiner); [discriminate | discriminate].
    + intros H. apply in_or_app. right. apply in_or_app. right.
      destruct (estimates combiner); [contradiction | left; reflexivity].
  - split.
    + intros H. destruct (Cases _ H) as [C|[C|C]]; try discriminate.
      destruct (estimates combiner); [reflexivity | discriminate].
    + intros ->. apply in_or_app. right. apply in_or_app. right.
      left. reflexivity.
Qed.

(** X19.  The figures of an analysis.  The recommended price is set exactly
    when something was accumulated and the combined price is not zero; it
    is then a whole number within 0.5 of the combined price.  The discount
    is set exactly when the starting price, the recommended price and the
    surface are all populated; it is then
    [(market - mise_a_prix) / market * 100] for the market value
    [recommended price * surface], and for a positive market value it is
    positive exactly when the starting price is below the market value. *)
Theorem analysis_figures (self : MultiSourceAnalyzer)
  (code_postal ville type_bien : string) (surface mise_a_prix : option Q) :
  exists a,
    analyze pow_half format_thousands format_0f str_int euro self
            code_postal ville type_bien surface mise_a_prix = Some a
    /\ (prix_m2_recommended a <> None
        <-> estimates (estimate a) <> []
            /\ Py.truthy_float (prix_m2_combined (estimate a)) = true)
    /\ (forall r, prix_m2_recommended a = Some r ->
        exists c z, prix_m2_combined (estimate a) = Some c
                    /\ r = inject_Z z /\ Qabs (r - c) <= 1 # 2)
    /\ (decote_vs_market a <> None
        <-> Py.truthy_float mise_a_prix = true
            /\ Py.truthy_float (prix_m2_recommended a) = true
            /\ Py.truthy_float surface = true)
    /\ (forall d, decote_vs_market a = Some d ->
        exists m r s,
          mise_a_prix = Some m /\ prix_m2_recommended a = Some r
          /\ surface = Some s
          /\ d = (r * s - m) / (r * s) * 100
          /\ (0 < r * s -> (0 < d <-> m < r * s))).
Proof.
  destruct (analyze_result self code_postal ville type_bien surface
              mise_a_prix) as (a & ws & A & A1 & _ & _ & R & D & _).
  cbn zeta in *. exists a. split; [exact A|].
  rewrite <- A1 in R, D. rewrite <- R in D.
  split; [|split; [|split]].
  - rewrite R. unfold recommended.
    destruct (estimates (estimate a)) as [|e l].
    + split; [congruence | intros [H _]; congruence].
    + destruct (prix_m2_combined (estimate a)) as [c|].
      * destruct (Py.truthy_float (Some c)); split; try congruence.
        -- intros _. split; [discriminate | reflexivity].
        -- intros [_ H]. discriminate.
      * split; [congruence | intros [_ H]; discriminate].
  - intros r Hr. rewrite R in Hr. unfold recommended in Hr.
    destruct (estimates (estimate a)) as [|e l]; [discriminate|].
    destruct (prix_m2_combined (estimate a)) as [c|]; [|discriminate].
    destruct (Py.truthy_float (Some c)); [|discriminate].
    injection Hr as <-.
    destruct (round0_integer c) as [I|I]; eexists; eexists;
      (split; [reflexivity|]); (split; [exact I | apply round0_close]).
  - rewrite D. unfold discount.
    destruct mise_a_prix as [m|], (prix_m2_recommended a) as [r|],
             surface as [s|]; cbn [Py.truthy_float];
      try (split; [congruence | intros (H1 & H2 & H3); discriminate]).
    destruct (negb (Qeq_bool m 0)), (negb (Qeq_bool r 0)),
             (negb (Qeq_bool s 0)); cbn [andb];
      split; try congruence; try (intros (H1 & H2 & H3); discriminate).
    intros _. repeat split.
  - intros d Hd. rewrite D in Hd. unfold discount in Hd.
    destruct mise_a_prix as [m|]; [|discriminate].
    destruct (prix_m2_recommended a) as [r|]; [|discriminate].
    destruct surface as [s|]; [|discriminate].
    destruct (Py.truthy_float (Some m) && Py.truthy_float (Some r)
              && Py.truthy_float (Some s)); [|discriminate].
    injection Hd as <-. exists m, r, s.
    repeat split; try reflexivity.
    + intros Hd. set (M := r * s) in *.
      assert (E : (M - m) / M * M == M - m) by (field; lra).
      destruct (Qlt_le_dec m M) as [L|L]; [exact L|]. exfalso.
      assert (K : (M - m) / M * M <= 0) by (rewrite E; lra).
      assert (P : 0 < (M - m) / M) by lra.
      pose proof (Qmult_lt_0_compat _ _ P H) as Q0. lra.
    + intros L. set (M := r * s) in *.
      assert (P : 0 < (M - m) / M).
      { apply Qlt_shift_div_l; [exact H | lra]. }
      lra.
Qed.

End Analysis.

Section DVFOnly.

Import PriceSources.
Import MultiSourceAnalyzer.

Variable pow_half : Q -> Q.
Variable format_thousands : Q -> string.
Variable format_0f : Q -> string.
Variable str_int : Z -> string.
Variable euro : string.
Variable find_comparable_sales :
  string -> Q -> string -> Q -> Z -> Z ->
  option (list DVFSource.DVFTransaction).
Variable today : Z.

(** The DVF source as the analyzer holds it: [DVFPriceSource(dvf_client)],
    whose [get_price_estimate] catches the exceptions of the client. *)
Definition dvf_source : PriceSource :=
  {| source_name := DVFPriceSource.source_name;
     get_price_estimate :=
       fun code_postal ville type_bien surface =>
         Returned (DVFPriceSource.get_price_estimate find_comparable_sales
                     today code_postal ville type_bien surface) |}.

(** A combiner that holds one estimate of confidence 30 or more. *)
Lemma single_estimate_level (e : PriceEstimate) :
  Py.truthy_float (prix_m2 e) = true ->
  30 <= confidence_score e ->
  let m := add_all pow_half [e] in
  estimates m = [e]
  /\ PriceSources.reliability m = MEDIUM
  /\ exists c, prix_m2_combined m = Some c /\ c == price e.
Proof.
  intros T C. cbn zeta.
  assert (V : valid_estimates [e] = [e]).
  { unfold valid_estimates. cbn [filter]. rewrite T. reflexivity. }
  destruct (add_all_recomputed pow_half [e]) as [[Hn _]|[_ He]];
    [rewrite V in Hn; discriminate|].
  rewrite V in He.
  pose proof (single_score pow_half e) as Hs.
  split; [rewrite He; reflexivity|]. split.
  - rewrite add_all_level, He.
    destruct (recomputed_fields pow_half [e] None None None []) as (F1 & _).
    rewrite F1. cbn [length].
    unfold level_of. rewrite andb_false_r.
    assert (H40 : Qle_bool 40 (PriceSources.reliability_score
                                 (recomputed pow_half [e] None None None []))
                  = true).
    { apply Qle_bool_iff. rewrite Hs. lra. }
    rewrite H40. reflexivity.
  - rewrite He. unfold recomputed. cbn [prix_m2_combined]. rewrite V.
    eexists. split; [reflexivity | apply combined_price_single].
Qed.

(** X20.  An analysis that relies on the DVF source alone is never rated
    high or low: it is rated medium, and recommends the price of the DVF
    estimate unchanged, when the source returns a price; it is rated
    insufficient, without a recommended price, when the source returns
    nothing or an estimate without a price. *)
Theorem dvf_only_analysis (code_postal ville type_bien : string)
  (surface mise_a_prix : option Q) :
  exists a,
    analyze pow_half format_thousands format_0f str_int euro
            (mkMultiSourceAnalyzer [dvf_source])
            code_postal ville type_bien surface mise_a_prix = Some a
    /\ match DVFPriceSource.get_price_estimate find_comparable_sales today
               code_postal ville type_bien surface with
       | Some e =>
           match prix_m2 e with
           | Some p =>
               estimates (estimate a) = [e]
               /\ reliability a = MEDIUM
               /\ prix_m2_recommended a = Some p
           | None =>
               estimates (estimate a) = []
               /\ reliability a = INSUFFICIENT
               /\ prix_m2_recommended a = None
           end
       | None =>
           estimates (estimate a) = []
           /\ reliability a = INSUFFICIENT
           /\ prix_m2_recommended a = None
       end.
Proof.
  destruct (analyze_result pow_half format_thousands format_0f str_int euro
              (mkMultiSourceAnalyzer [dvf_source]) code_postal ville
              type_bien surface mise_a_prix)
    as (a & ws & A & A1 & A2 & _ & R & _).
  cbn zeta in *. exists a. split; [exact A|].
  rewrite A1, A2, R.
  unfold returned_estimates. cbn [_sources flat_map dvf_source
                                  get_price_estimate].
  destruct (DVFPriceSource.get_price_estimate find_comparable_sales today
              code_postal ville type_bien surface) as [e|] eqn:G;
    [|repeat split].
  cbn [app].
  destruct (dvf_estimate_priced find_comparable_sales today code_postal
              ville type_bien surface e G) as [P|(z & P & T & C)].
  - rewrite P. unfold add_all, add_estimate. cbn [fold_left]. rewrite P.
    repeat split.
  - rewrite P.
    destruct (single_estimate_level e T C) as (E & L & c & Hc & Ec).
    cbn zeta in *. rewrite E, L.
    split; [reflexivity|]. split; [reflexivity|].
    unfold recommended. rewrite E, Hc.
    assert (Ez : c == inject_Z z).
    { rewrite Ec. unfold price. rewrite P. reflexivity. }
    assert (Tc : Py.truthy_float (Some c) = true).
    { rewrite P in T. cbn [Py.truthy_float] in *.
      apply negb_true_iff. apply negb_true_iff in T.
      destruct (Qeq_bool c 0) eqn:Z0; [|reflexivity].
      apply Qeq_bool_iff in Z0. rewrite Ez in Z0.
      apply Qeq_bool_iff in Z0. congruence. }
    rewrite Tc, (round0_comp c (inject_Z z) Ez), round0_inject. reflexivity.
Qed.

End DVFOnly.




(** Two sources that agree on 3000 with many recent sales: the analysis is
    rated high, and still carries the insufficient-data warning. *)
Definition agreeing_estimate (t : PriceSources.SourceType)
  : PriceSources.PriceEstimate :=
  {| PriceSources.source_type := t;
     PriceSources.source_name := "source";
     PriceSources.prix_m2 := Some 3000;
     PriceSources.prix_total := None;
     PriceSources.nb_data_points := 20;
     PriceSources.date_range_days := 100;
     PriceSources.geographic_match := "commune";
     PriceSources.source_url := None;
     PriceSources.notes := EmptyString |}.

Definition agreeing_source (t : PriceSources.SourceType)
  : MultiSourceAnalyzer.PriceSource :=
  {| MultiSourceAnalyzer.source_name := "source";
     MultiSourceAnalyzer.get_price_estimate :=
       fun _ _ _ _ =>
         MultiSourceAnalyzer.Returned (Some (agreeing_estimate t)) |}.

Lemma reliable_analysis_still_warns :
  exists a,
    MultiSourceAnalyzer.analyze (fun x => x) (fun _ => EmptyString)
      (fun _ => EmptyString) (fun _ => EmptyString) EmptyString
      (MultiSourceAnalyzer.mkMultiSourceAnalyzer
         [agreeing_source PriceSources.DVF;
          agreeing_source PriceSources.LISTINGS])
      "75015" "Paris" "appartement" (Some 50) (Some 100000) = Some a
    /\ MultiSourceAnalyzer.reliability a = PriceSources.HIGH
    /\ MultiSourceAnalyzer.warnings a
       = [MultiSourceAnalyzer.insufficient_warning].
Proof.
  eexists. split; [vm_compute; reflexivity|]. split; reflexivity.
Qed.

(** * Properties of the DVF client *)

Section ComparableSales.

Import DVFClient.

Variable load_data : string -> list DVFTransaction.
Variable today : Z.

(** The order of the returned sales: most recent first. *)
Definition newer_first (a b : DVFTransaction) : Prop :=
  (sort_key b <= sort_key a)%Z.

Lemma sales_insert_perm (x : DVFTransaction) (l : list DVFTransaction) :
  Permutation (insert x l) (x :: l).
Proof.
  induction l as [|y r IH]; cbn [insert]; [reflexivity|].
  destruct (sort_key y <=? sort_key x)%Z; [reflexivity|].
  rewrite IH. apply perm_swap.
Qed.

Lemma sales_sort_perm (l : list DVFTransaction) : Permutation (sort l) l.
Proof.
  induction l as [|x l IH]; cbn [sort fold_right]; [reflexivity|].
  fold (sort l). rewrite sales_insert_perm, IH. reflexivity.
Qed.

Lemma sales_insert_sorted (x : DVFTransaction) (l : list DVFTransaction) :
  StronglySorted newer_first l -> StronglySorted newer_first (insert x l).
Proof.
  induction l as [|y r IH]; intros H; cbn [insert].
  - repeat constructor.
  - inversion H as [|? ? Hr Hy]; subst.
    destruct (Z.leb_spec (sort_key y) (sort_key x)) as [L|L].
    + constructor; [exact H|]. constructor; [exact L|].
      eapply Forall_impl; [|exact Hy]. unfold newer_first. intros z Hz. lia.
    + constructor; [apply IH; exact Hr|].
      eapply Permutation_Forall;
        [apply Permutation_sym, sales_insert_perm|].
      constructor; [unfold newer_first; lia | exact Hy].
Qed.

Lemma sales_sort_sorted (l : list DVFTransaction) :
  StronglySorted newer_first (sort l).
Proof.
  induction l as [|x l IH]; cbn [sort fold_right]; [constructor|].
  apply sales_insert_sorted, IH.
Qed.

Lemma slice_to_prefix {A} (limit : Z) (l : list A) :
  exists rest, l = (slice_to limit l ++ rest)%list.
Proof.
  unfold slice_to. destruct (limit <? 0)%Z; eexists; symmetry;
    apply firstn_skipn.
Qed.

Lemma slice_to_length {A} (limit : Z) (l : list A) :
  (0 <= limit)%Z ->
  (length (slice_to limit l) <= Z.to_nat limit)%nat
  /\ ((Z.of_nat (length l) <= limit)%Z -> slice_to limit l = l).
Proof.
  intros H. unfold slice_to.
  destruct (Z.ltb_spec limit 0); [lia|]. split.
  - rewrite length_firstn. lia.
  - intros Hl. apply firstn_all2. lia.
Qed.

Lemma prefix_sorted (l1 l2 : list DVFTransaction) :
  StronglySorted newer_first (l1 ++ l2) -> StronglySorted newer_first l1.
Proof.
  induction l1 as [|x l1 IH]; cbn [app]; intros H; [constructor|].
  inversion H as [|? ? Hr Hx]; subst. constructor; [apply IH, Hr|].
  apply Forall_app in Hx. apply Hx.
Qed.

(** What [find_comparable_sales] asks of a transaction.  The surface bounds
    are the floats that the function computes, and a bound equal to zero is
    not applied. *)
Definition comparable (code_postal : string) (surface : Q)
  (type_local : string) (tolerance_percent : Q) (months : Z)
  (t : DVFTransaction) : Prop :=
  let surface_min :=
    Binary64.mul surface
                 (Binary64.sub 1 (Binary64.div tolerance_percent 100)) in
  let surface_max :=
    Binary64.mul surface
                 (Binary64.add 1 (Binary64.div tolerance_percent 100)) in
  (code_postal <> EmptyString -> DVFClient.code_postal t = code_postal)
  /\ (type_local <> EmptyString ->
      contains (PyStr.lower type_local) (PyStr.lower (DVFClient.type_local t))
      = true)
  /\ (forall d, date_mutation t = Some d -> (today - months * 30 <= d)%Z)
  /\ (forall s, surface_reelle t = Some s -> ~ s == 0 ->
      (~ surface_min == 0 -> surface_min <= s)
      /\ (~ surface_max == 0 -> s <= surface_max)).

(** The search parameters that [find_comparable_sales] builds. *)
Definition sales_params (code_postal : string) (surface : Q)
  (type_local : string) (tolerance_percent : Q) (months : Z)
  : DVFSearchParams.DVFSearchParams :=
  {| DVFSearchParams.code_postal := Some code_postal;
     DVFSearchParams.commune := None;
     DVFSearchParams.department := None;
     DVFSearchParams.type_local := Some type_local;
     DVFSearchParams.date_min := Some (today - months * 30)%Z;
     DVFSearchParams.date_max := None;
     DVFSearchParams.prix_min := None;
     DVFSearchParams.prix_max := None;
     DVFSearchParams.surface_min :=
       Some (Binary64.mul surface
               (Binary64.sub 1 (Binary64.div tolerance_percent 100)));
     DVFSearchParams.surface_max :=
       Some (Binary64.mul surface
               (Binary64.add 1 (Binary64.div tolerance_percent 100))) |}.

Lemma truthy_float_iff (q : Q) :
  Py.truthy_float (Some q) = true <-> ~ q == 0.
Proof.
  cbn. rewrite negb_true_iff. split.
  - intros H E. apply Qeq_bool_iff in E. congruence.
  - intros H. destruct (Qeq_bool q 0) eqn:E; [|reflexivity].
    apply Qeq_bool_iff in E. contradiction.
Qed.

Lemma sales_Qlt_bool_false (x y : Q) :
  DVFClient.Qlt_bool x y = false <-> y <= x.
Proof.
  unfold DVFClient.Qlt_bool. rewrite negb_false_iff. apply Qle_bool_iff.
Qed.

Lemma bound_check (lo s : Q) (flip : bool) :
  (Py.truthy_float (Some lo) && Py.truthy_float (Some s)
   && (if flip then DVFClient.Qlt_bool lo s else DVFClient.Qlt_bool s lo))
  = false
  <-> (~ s == 0 -> ~ lo == 0 -> if flip then s <= lo else lo <= s).
Proof.
  rewrite !andb_false_iff, <- !not_true_iff_false, !truthy_float_iff.
  rewrite not_true_iff_false.
  destruct flip; rewrite sales_Qlt_bool_false.
  - split.
    + intros [[H|H]|H] Hs Hl; try contradiction. exact H.
    + intros H. destruct (Qeq_dec lo 0) as [E|E]; [left; left; tauto|].
      destruct (Qeq_dec s 0) as [E'|E']; [left; right; tauto|].
      right. apply H; assumption.
  - split.
    + intros [[H|H]|H] Hs Hl; try contradiction. exact H.
    + intros H. destruct (Qeq_dec lo 0) as [E|E]; [left; left; tauto|].
      destruct (Qeq_dec s 0) as [E'|E']; [left; right; tauto|].
      right. apply H; assumption.
Qed.

Lemma matches_comparable (code_postal : string) (surface : Q)
  (type_local : string) (tolerance_percent : Q) (months : Z)
  (t : DVFTransaction) :
  _matches_criteria t (sales_params code_postal surface type_local
                                    tolerance_percent months) = true
  <-> comparable code_postal surface type_local tolerance_percent months t.
Proof.
  unfold _matches_criteria, sales_params, comparable.
  cbn [DVFSearchParams.code_postal DVFSearchParams.commune
       DVFSearchParams.type_local DVFSearchParams.date_min
       DVFSearchParams.date_max DVFSearchParams.prix_min
       DVFSearchParams.prix_max DVFSearchParams.surface_min
       DVFSearchParams.surface_max].
  set (lo := Binary64.mul surface
               (Binary64.sub 1 (Binary64.div tolerance_percent 100))).
  set (hi := Binary64.mul surface
               (Binary64.add 1 (Binary64.div tolerance_percent 100))).
  assert (C1 : Py.truthy_str code_postal
               && negb (String.eqb (DVFClient.code_postal t) code_postal)
               = false
               <-> (code_postal <> EmptyString ->
                    DVFClient.code_postal t = code_postal)).
  { rewrite andb_false_iff, negb_false_iff, String.eqb_eq.
    rewrite <- not_true_iff_false, truthy_str_true. split.
    - intros [H|H] N; [contradiction | exact H].
    - intros H. destruct code_postal; [left; tauto | right; apply H].
      discriminate. }
  assert (C2 : Py.truthy_str type_local
               && negb (contains (PyStr.lower type_local)
                                 (PyStr.lower (DVFClient.type_local t)))
               = false
               <-> (type_local <> EmptyString ->
                    contains (PyStr.lower type_local)
                             (PyStr.lower (DVFClient.type_local t)) = true)).
  { rewrite andb_false_iff, negb_false_iff.
    rewrite <- not_true_iff_false, truthy_str_true. split.
    - intros [H|H] N; [contradiction | exact H].
    - intros H. destruct type_local; [left; tauto | right; apply H].
      discriminate. }
  assert (C3 : match date_mutation t with
               | Some d => (d <? today - months * 30)%Z
               | None => false
               end = false
               <-> (forall d, date_mutation t = Some d ->
                    (today - months * 30 <= d)%Z)).
  { destruct (date_mutation t) as [d|].
    - rewrite Z.ltb_ge. split.
      + intros H d' E. injection E as <-. exact H.
      + intros H. apply H. reflexivity.
    - split; [intros _ d E; discriminate | reflexivity]. }
  assert (C4 : match surface_reelle t with
               | Some s =>
                   Py.truthy_float (Some lo) && Py.truthy_float (Some s)
                   && DVFClient.Qlt_bool s lo
               | None => false
               end = false
               /\ match surface_reelle t with
                  | Some s =>
                      Py.truthy_float (Some hi) && Py.truthy_float (Some s)
                      && DVFClient.Qlt_bool hi s
                  | None => false
                  end = false
               <-> (forall s, surface_reelle t = Some s -> ~ s == 0 ->
                    (~ lo == 0 -> lo <= s) /\ (~ hi == 0 -> s <= hi))).
  { destruct (surface_reelle t) as [s|].
    - rewrite (bound_check lo s false), (bound_check hi s true). split.
      + intros [H1 H2] s' E Hs. injection E as <-. split; auto.
      + intros H. split; intros Hs Hl; apply (H s eq_refl Hs); exact Hl.
    - split; [intros _ s E; discriminate | split; reflexivity]. }
  rewrite <- C1, <- C2, <- C3, <- C4.
  destruct (Py.truthy_str code_postal
            && negb (String.eqb (DVFClient.code_postal t) code_postal));
    [split; [discriminate | intros (H & _); discriminate]|].
  destruct (Py.truthy_str type_local
            && negb (contains (PyStr.lower type_local)
                              (PyStr.lower (DVFClient.type_local t))));
    [split; [discriminate | intros (_ & H & _); discriminate]|].
  destruct (match date_mutation t with
            | Some d => (d <? today - months * 30)%Z
            | None => false
            end);
    [split; [discriminate | intros (_ & _ & H & _); discriminate]|].
  destruct (match surface_reelle t with
            | Some s =>
                Py.truthy_float (Some lo) && Py.truthy_float (Some s)
                && DVFClient.Qlt_bool s lo
            | None => false
            end);
    [split; [discriminate | intros (_ & _ & _ & H & _); discriminate]|].
  destruct (match surface_reelle t with
            | Some s =>
                Py.truthy_float (Some hi) && Py.truthy_float (Some s)
                && DVFClient.Qlt_bool hi s
            | None => false
            end);
    [split; [discriminate | intros (_ & _ & _ & _ & H); discriminate]|].
  split; [intros _; repeat split | reflexivity].
Qed.

(** The transactions that the search reads for a postal code. *)
Definition loaded (code_postal : string) : list DVFTransaction :=
  if Py.truthy_str code_postal then load_data (PyStr.take 2 code_postal)
  else flat_map load_data DEPARTMENTS.

Lemma search_sales (code_postal : string) (surface : Q)
  (type_local : string) (tolerance_percent : Q) (months : Z) :
  search load_data (sales_params code_postal surface type_local
                                 tolerance_percent months)
  = filter (fun t => _matches_criteria t
                       (sales_params code_postal surface type_local
                                     tolerance_percent months))
           (loaded code_postal).
Proof. reflexivity. Qed.

(** The matching transactions, once sorted. *)
Lemma sorted_search_members (code_postal : string) (surface : Q)
  (type_local : string) (tolerance_percent : Q) (months : Z)
  (t : DVFTransaction) :
  In t (sort (search load_data
                (sales_params code_postal surface type_local
                              tolerance_percent months)))
  <-> In t (loaded code_postal)
      /\ comparable code_postal surface type_local tolerance_percent
                    months t.
Proof.
  rewrite search_sales, <- matches_comparable.
  set (params := sales_params code_postal surface type_local
                              tolerance_percent months).
  pose proof (filter_In (fun t => _matches_criteria t params) t
                (loaded code_postal)) as FI.
  cbv beta in FI. rewrite <- FI. split.
  - apply Permutation_in, sales_sort_perm.
  - apply Permutation_in, Permutation_sym, sales_sort_perm.
Qed.

Lemma sales_members (code_postal : string) (surface : Q)
  (type_local : string) (tolerance_percent : Q) (months limit : Z) :
  Forall (fun t =>
            In t (loaded code_postal)
            /\ comparable code_postal surface type_local tolerance_percent
                          months t)
         (find_comparable_sales load_data today code_postal surface
                                type_local tolerance_percent months limit).
Proof.
  unfold find_comparable_sales.
  fold (sales_params code_postal surface type_local tolerance_percent months).
  match goal with
  | |- Forall _ (slice_to limit ?l) =>
      destruct (slice_to_prefix limit l) as (rest & Hp)
  end.
  apply Forall_forall. intros t Ht. apply sorted_search_members.
  rewrite Hp. apply in_or_app. left. exact Ht.
Qed.

Lemma sales_length (code_postal : string) (surface : Q)
  (type_local : string) (tolerance_percent : Q) (months limit : Z) :
  (0 <= limit)%Z ->
  (length (find_comparable_sales load_data today code_postal surface
                                 type_local tolerance_percent months limit)
   <= Z.to_nat limit)%nat.
Proof.
  intros H. unfold find_comparable_sales. apply slice_to_length, H.
Qed.

(** X21.  The sales returned by [find_comparable_sales] are transactions of
    the department of the postal code (of all departments when the postal
    code is empty) that have the postal code, contain the type, are not
    older than [months * 30] days when they are dated, and, when they have a
    non-zero surface, have it between the two bounds that the function
    computes in floating point, [surface * (1 - tolerance_percent / 100)]
    and [surface * (1 + tolerance_percent / 100)], a bound equal to zero
    being not applied: a transaction without a date or without a surface is
    never rejected for it.  They come most recent first, the undated ones
    counted as the earliest date; there are at most [limit] of them, and all
    the matching transactions are returned when [limit] is at least the
    number of loaded transactions. *)
Theorem comparable_sales_sound (code_postal : string) (surface : Q)
  (type_local : string) (tolerance_percent : Q) (months limit : Z) :
  let sales :=
    find_comparable_sales load_data today code_postal surface type_local
                          tolerance_percent months limit in
  Forall (fun t =>
            In t (loaded code_postal)
            /\ comparable code_postal surface type_local tolerance_percent
                          months t) sales
  /\ StronglySorted newer_first sales
  /\ ((0 <= limit)%Z -> (length sales <= Z.to_nat limit)%nat)
  /\ ((Z.of_nat (length (loaded code_postal)) <= limit)%Z ->
      forall t,
        In t sales
        <-> In t (loaded code_postal)
            /\ comparable code_postal surface type_local tolerance_percent
                          months t).
Proof.
  cbn zeta. split; [apply sales_members|].
  split; [|split; [apply sales_length|]].
  - unfold find_comparable_sales.
    match goal with
    | |- StronglySorted _ (slice_to limit ?l) =>
        destruct (slice_to_prefix limit l) as (rest & Hp);
        apply prefix_sorted with (l2 := rest); rewrite <- Hp
    end.
    apply sales_sort_sorted.
  - intros H t. unfold find_comparable_sales.
    fold (sales_params code_postal surface type_local tolerance_percent
                       months).
    set (found := search load_data
                    (sales_params code_postal surface type_local
                                  tolerance_percent months)).
    assert (Hl : (Z.of_nat (length (sort found)) <= limit)%Z).
    { rewrite (Permutation_length (sales_sort_perm found)).
      unfold found. rewrite search_sales.
      pose proof (filter_length_le
                    (fun t => _matches_criteria t
                                (sales_params code_postal surface type_local
                                              tolerance_percent months))
                    (fun _ => true) (loaded code_postal)
                    (fun _ _ _ => eq_refl)) as F.
      assert (E : filter (fun _ : DVFTransaction => true)
                         (loaded code_postal) = loaded code_postal).
      { clear. induction (loaded code_postal) as [|x l IH]; cbn;
          [reflexivity | rewrite IH; reflexivity]. }
      rewrite E in F. lia. }
    assert (H0 : (0 <= limit)%Z) by lia.
    rewrite (proj2 (slice_to_length limit (sort found) H0) Hl).
    apply sorted_search_members.
Qed.

(** The upper bound for a surface of 50 and a tolerance of 15 is the float
    below 57.5: a sale of 57.5 square metres is not comparable. *)
Lemma surface_bound_is_rounded :
  Binary64.mul 50 (Binary64.add 1 (Binary64.div 15 100))
  == 8092405580431359 # 140737488355328
  /\ Binary64.mul 50 (Binary64.add 1 (Binary64.div 15 100)) < 575 # 10.
Proof. split; vm_compute; reflexivity. Qed.

(** The client as [DVFPriceSource] calls it, when loading the data does not
    raise. *)
Definition client_sales (code_postal : string) (surface : Q)
  (type_local : string) (tolerance_percent : Q) (months limit : Z)
  : option (list DVFSource.DVFTransaction) :=
  Some (map as_priced
            (find_comparable_sales load_data today code_postal surface
                                   type_local tolerance_percent months
                                   limit)).

Lemma valid_prices_length (ts : list DVFSource.DVFTransaction) :
  (length (DVFSource.valid_prices ts) <= length ts)%nat.
Proof.
  induction ts as [|t ts IH]; cbn [DVFSource.valid_prices length]; [lia|].
  destruct (DVFSource.keeps t); [|lia].
  destruct (DVFSource.prix_m2 t); cbn [length]; lia.
Qed.

Lemma mutation_dates_in (sales : list DVFTransaction) (d : Z) :
  In d (DVFPriceSource.mutation_dates (map as_priced sales)) ->
  exists t, In t sales /\ date_mutation t = Some d.
Proof.
  induction sales as [|t sales IH];
    cbn [map DVFPriceSource.mutation_dates]; [contradiction|].
  cbn [as_priced DVFSource.date_mutation].
  destruct (date_mutation t) as [d'|] eqn:E.
  - intros [<-|H].
    + exists t. split; [left; reflexivity | exact E].
    + destruct (IH H) as (t' & H1 & H2). exists t'. split; [right|]; auto.
  - intros H. destruct (IH H) as (t' & H1 & H2). exists t'.
    split; [right|]; auto.
Qed.

Lemma min_date_lower (lo d : Z) (rest : list Z) :
  (lo <= d)%Z -> Forall (fun x => (lo <= x)%Z) rest ->
  (lo <= DVFPriceSource.min_date d rest)%Z.
Proof.
  unfold DVFPriceSource.min_date. revert d.
  induction rest as [|x rest IH]; intros d Hd H; cbn [fold_left];
    [exact Hd|].
  inversion H; subst. apply IH; [lia | assumption].
Qed.

(** X22.  The DVF source on top of the DVF client: an estimate counts at
    most 50 transactions, and when it has a price its data are at most 730
    days old (every dated comparable sale is at most 720 days old, and 730
    is taken when none is dated), so that its confidence score is at least
    40. *)
Theorem dvf_estimate_with_client (code_postal ville type_bien : string)
  (surface : option Q) (e : PriceSources.PriceEstimate) :
  DVFPriceSource.get_price_estimate client_sales today code_postal ville
    type_bien surface = Some e ->
  (PriceSources.nb_data_points e <= 50)%Z
  /\ (PriceSources.prix_m2 e <> None ->
      (3 <= PriceSources.nb_data_points e)%Z
      /\ (PriceSources.date_range_days e <= 730)%Z
      /\ 40 <= PriceSources.confidence_score e).
Proof.
  unfold DVFPriceSource.get_price_estimate.
  destruct (Py.truthy_str code_postal); [|discriminate].
  cbn [negb]. cbv zeta. unfold client_sales.
  match goal with
  | |- context [find_comparable_sales load_data today ?a ?b ?c ?d ?e ?f] =>
      pose proof (sales_members a b c d e f) as S1;
      pose proof (sales_length a b c d e f ltac:(lia)) as S3;
      set (sales := find_comparable_sales load_data today a b c d e f) in *
  end.
  change (Z.to_nat 50) with 50%nat in S3.
  destruct (map as_priced sales) as [|t ts] eqn:M; [discriminate|].
  rewrite <- M.
  pose proof (valid_prices_length (map as_priced sales)) as V.
  rewrite length_map in V.
  set (valid := DVFSource.valid_prices (map as_priced sales)) in *.
  assert (Dates : Forall (fun d => (today - 24 * 30 <= d)%Z)
                         (DVFPriceSource.mutation_dates
                            (map as_priced sales))).
  { apply Forall_forall. intros d Hd.
    apply mutation_dates_in in Hd. destruct Hd as (t' & Ht & E).
    rewrite Forall_forall in S1. destruct (S1 t' Ht) as (_ & _ & _ & D & _).
    apply D, E. }
  destruct (length valid <? DVFSource.MIN_COMPARABLES)%nat eqn:N;
    intros E; injection E as <-;
    cbn [PriceSources.nb_data_points PriceSources.prix_m2
         PriceSources.date_range_days].
  - split; [lia | congruence].
  - apply Nat.ltb_ge in N. unfold DVFSource.MIN_COMPARABLES in N.
    split; [lia|]. intros _. split; [lia|].
    assert (R : (match DVFPriceSource.mutation_dates (map as_priced sales)
                 with
                 | d :: rest => today - DVFPriceSource.min_date d rest
                 | [] => 730
                 end <= 730)%Z).
    { destruct (DVFPriceSource.mutation_dates (map as_priced sales))
        as [|d rest]; [lia|].
      inversion Dates as [|? ? Hd Hr]; subst.
      pose proof (min_date_lower _ _ _ Hd Hr) as L. lia. }
    split; [exact R|].
    unfold PriceSources.confidence_score.
    cbn [PriceSources.nb_data_points PriceSources.date_range_days
         PriceSources.geographic_match].
    change (String.eqb "commune" "exact") with false.
    change (String.eqb "commune" "commune") with true.
    cbv iota.
    repeat match goal with
    | |- context [if (?a <=? ?b)%Z then _ else _] =>
        destruct (Z.leb_spec a b)
    end; try lia; unfold Qle; cbn; lia.
Qed.

End ComparableSales.

(** Three recent sales of flats of about 60 square metres in 75015. *)
Definition paris_sale (price : Q) : DVFClient.DVFTransaction :=
  {| DVFClient.date_mutation := Some 738000%Z;
     DVFClient.valeur_fonciere := price * 60;
     DVFClient.code_postal := "75015";
     DVFClient.commune := "Paris 15e Arrondissement";
     DVFClient.type_local := "Appartement";
     DVFClient.surface_reelle := Some 60;
     DVFClient.prix_m2 := Some price |}.

Definition paris_sales (department : string)
  : list DVFClient.DVFTransaction :=
  [paris_sale 9000; paris_sale 9400; paris_sale 9200].

Lemma dvf_estimate_with_client_witness :
  exists e,
    DVFPriceSource.get_price_estimate (client_sales paris_sales 738100)
      738100 "75015" "Paris" "appartement" None = Some e
    /\ (PriceSources.nb_data_points e <= 50)%Z
    /\ 40 <= PriceSources.confidence_score e.
Proof.
  eexists. split; [vm_compute; reflexivity|].
  match goal with
  | |- (PriceSources.nb_data_points ?e <= 50)%Z /\ _ =>
      assert (G : DVFPriceSource.get_price_estimate
                    (client_sales paris_sales 738100) 738100 "75015" "Paris"
                    "appartement" None = Some e)
        by (vm_compute; reflexivity);
      destruct (dvf_estimate_with_client paris_sales 738100 "75015" "Paris"
                  "appartement" None e G) as [A B]
  end.
  split; [exact A | apply B; discriminate].
Defined.

Section GreedyMatching.

Import CrossValidator.

Variable ratio : string -> string -> Q.

(** The positions of the second list that are taken when the listing at
    position [i] of the first list is examined: those in [used] and those of
    the matches of earlier listings. *)
Definition taken_before (i : nat) (used : list nat)
  (matches : list match_found) : list nat :=
  (used ++ map index2 (filter (fun m => (index1 m <? i)%nat) matches))%list.

(** What the inner loop of [find_matches] knows of the candidates at the
    positions below [n] when it holds [best] with [score]. *)
Definition dominated (a1 : Auction) (threshold : Q) (used : list nat)
  (s2 : list Auction) (n : nat) (best : option (nat * Auction)) (score : Q)
  : Prop :=
  (forall i a, best = Some (i, a) -> (i < n)%nat)
  /\ forall j b,
       (j < n)%nat -> nth_error s2 j = Some b -> ~ In j used ->
       exists sc,
         _match_auctions ratio a1 b = Some sc
         /\ (sc <= score \/ sc < threshold)
         /\ (forall i a, best = Some (i, a) -> (j < i)%nat -> sc < score).

Lemma best_candidate_dominates (a1 : Auction) (threshold : Q)
  (used : list nat) (pre rest : list Auction) :
  forall best best_score found score,
    dominated a1 threshold used (pre ++ rest) (length pre) best best_score ->
    best_candidate ratio a1 threshold used (length pre) rest best best_score
    = Some (found, score) ->
    dominated a1 threshold used (pre ++ rest) (length (pre ++ rest))
              found score.
Proof.
  revert pre. induction rest as [|a2 rest IH]; intros pre best best_score
    found score Hd E; cbn [best_candidate] in E.
  - injection E as <- <-. rewrite app_nil_r in *. exact Hd.
  - assert (Hshift : (pre ++ a2 :: rest = (pre ++ [a2]) ++ rest)%list)
      by (rewrite <- app_assoc; reflexivity).
    assert (Hlen : length (pre ++ [a2]) = S (length pre))
      by (rewrite length_app; cbn; lia).
    assert (Hnth : nth_error (pre ++ a2 :: rest) (length pre) = Some a2).
    { rewrite nth_error_app2 by lia. rewrite Nat.sub_diag. reflexivity. }
    destruct Hd as [Hi Hd].
    rewrite Hshift in *.
    destruct (existsb (Nat.eqb (length pre)) used) eqn:U.
    + rewrite <- Hlen in E. eapply IH; [|exact E].
      split.
      * intros i a Hb. specialize (Hi i a Hb). lia.
      * intros j b Hj Hn Hu. rewrite Hlen in Hj.
        destruct (Nat.eq_dec j (length pre)) as [->|Hne].
        -- exfalso. apply Hu.
           apply existsb_exists in U. destruct U as (x & Hx & Ex).
           apply Nat.eqb_eq in Ex. subst x. exact Hx.
        -- apply Hd; [lia | exact Hn | exact Hu].
    + destruct (_match_auctions ratio a1 a2) as [sc|] eqn:M; [|discriminate].
      destruct (Qlt_bool best_score sc && Qle_bool threshold sc) eqn:C.
      * rewrite <- Hlen in E. eapply IH; [|exact E].
        apply andb_true_iff in C. destruct C as [C1 C2].
        apply Qlt_bool_iff in C1. apply Qle_bool_iff in C2.
        split.
        -- intros i a Hb. injection Hb as <- <-. lia.
        -- intros j b Hj Hn Hu. rewrite Hlen in Hj.
           destruct (Nat.eq_dec j (length pre)) as [->|Hne].
           ++ rewrite Hnth in Hn. injection Hn as <-.
              exists sc. split; [exact M|]. split; [left; apply Qle_refl|].
              intros i a Hb Hlt. injection Hb as <- <-. lia.
           ++ destruct (Hd j b ltac:(lia) Hn Hu) as (scj & Mj & Hor & _).
              assert (Hs : scj < sc).
              { destruct Hor as [H|H].
                - eapply Qle_lt_trans; eassumption.
                - eapply Qlt_le_trans; eassumption. }
              exists scj. split; [exact Mj|].
              split; [left; apply Qlt_le_weak; exact Hs|].
              intros i a _ _. exact Hs.
      * rewrite <- Hlen in E. eapply IH; [|exact E].
        split.
        -- intros i a Hb. specialize (Hi i a Hb). lia.
        -- intros j b Hj Hn Hu. rewrite Hlen in Hj.
           destruct (Nat.eq_dec j (length pre)) as [->|Hne].
           ++ rewrite Hnth in Hn. injection Hn as <-.
              exists sc. split; [exact M|]. split.
              ** apply andb_false_iff in C. destruct C as [C|C].
                 --- left. unfold Qlt_bool in C.
                     apply negb_false_iff, Qle_bool_iff in C. exact C.
                 --- right. apply Qnot_le_lt. intros H.
                     apply Qle_bool_iff in H. congruence.
              ** intros i a Hb Hlt. specialize (Hi i a Hb). lia.
           ++ apply Hd; [lia | exact Hn | exact Hu].
Qed.

(** The outcome of the inner loop for one listing of the first list. *)
Lemma best_candidate_choice (a1 : Auction) (threshold : Q) (used : list nat)
  (s2 : list Auction) (found : option (nat * Auction)) (score : Q) :
  best_candidate ratio a1 threshold used 0 s2 None 0 = Some (found, score) ->
  forall j b,
    nth_error s2 j = Some b -> ~ In j used ->
    exists sc,
      _match_auctions ratio a1 b = Some sc
      /\ match found with
         | Some (i, _) => sc <= score /\ ((j < i)%nat -> sc < score)
         | None => sc <= 0 \/ sc < threshold
         end.
Proof.
  intros E j b Hn Hu.
  assert (D0 : dominated a1 threshold used ([] ++ s2) (length (@nil Auction))
                         None 0).
  { split; [intros i a H; discriminate|]. intros j' b' Hj. cbn in Hj. lia. }
  pose proof (best_candidate_dominates a1 threshold used [] s2 None 0 found
                score D0 E) as [_ D].
  pose proof (best_candidate_keeps ratio a1 threshold used [] s2 None 0
                found score eq_refl E) as K.
  cbn [app] in D, K.
  assert (Hj : (j < length s2)%nat) by (apply nth_error_Some; congruence).
  destruct (D j b Hj Hn Hu) as (sc & M & Hor & Hlt).
  exists sc. split; [exact M|].
  destruct found as [[i a]|].
  - destruct K as (_ & _ & _ & T & _). split.
    + destruct Hor as [H|H]; [exact H|].
      apply Qlt_le_weak. eapply Qlt_le_trans; eassumption.
    + intros L. exact (Hlt i a eq_refl L).
  - cbn in K. rewrite K in Hor. exact Hor.
Qed.

Lemma taken_before_later (i : nat) (used : list nat) (m0 : match_found)
  (matches : list match_found) (j : nat) :
  (index1 m0 < i)%nat ->
  ~ In j (taken_before i used (m0 :: matches)) ->
  ~ In j (taken_before i (index2 m0 :: used) matches).
Proof.
  intros L H I. apply H. unfold taken_before in *. cbn [filter].
  apply Nat.ltb_lt in L. rewrite L. cbn [map].
  apply in_app_or in I. apply in_or_app.
  destruct I as [[<-|I]|I].
  - right. left. reflexivity.
  - left. exact I.
  - right. right. exact I.
Qed.

(** The greedy choice, along the outer loop of [find_matches]. *)
Lemma find_matches_from_greedy (s2 : list Auction) (threshold : Q)
  (pre rest : list Auction) :
  forall used matches,
    find_matches_from ratio (length pre) rest s2 threshold used
    = Some matches ->
    (forall m, In m matches ->
     forall j b,
       nth_error s2 j = Some b ->
       ~ In j (taken_before (index1 m) used matches) ->
       exists sc,
         _match_auctions ratio (matched1 m) b = Some sc
         /\ sc <= match_score m
         /\ ((j < index2 m)%nat -> sc < match_score m))
    /\ (forall k a1,
          nth_error rest k = Some a1 ->
          ~ In (length pre + k)%nat (map index1 matches) ->
          forall j b,
            nth_error s2 j = Some b ->
            ~ In j (taken_before (length pre + k) used matches) ->
            exists sc,
              _match_auctions ratio a1 b = Some sc
              /\ (sc <= 0 \/ sc < threshold)).
Proof.
  revert pre. induction rest as [|a1 rest IH]; intros pre used matches E.
  - cbn [find_matches_from] in E. injection E as <-. split.
    + intros m [].
    + intros k a H. destruct k; discriminate.
  - assert (Hlen : length (pre ++ [a1]) = S (length pre))
      by (rewrite length_app; cbn; lia).
    pose proof E as E0. cbn [find_matches_from] in E.
    destruct (best_candidate ratio a1 threshold used 0 s2 None 0)
      as [[found score]|] eqn:B; [|discriminate].
    pose proof (best_candidate_choice a1 threshold used s2 found score B)
      as Choice.
    cbn [fst snd] in E.
    destruct found as [[best_idx best_match]|].
    + destruct (find_matches_from ratio (S (length pre)) rest s2 threshold
                  (best_idx :: used)) as [ms|] eqn:R; [|discriminate].
      injection E as <-.
      rewrite <- Hlen in R.
      destruct (find_matches_from_sound ratio s2 threshold (pre ++ [a1]) rest
                  (best_idx :: used) ms R) as (_ & S2 & _).
      assert (Later : Forall (fun m => (S (length pre) <= index1 m)%nat) ms).
      { eapply Forall_impl; [|exact S2]. cbn. intros m [A _]. lia. }
      destruct (IH (pre ++ [a1])%list (best_idx :: used) ms R) as [IA IB].
      set (m0 := mkMatch (length pre) a1 best_idx best_match score).
      split.
      * intros m [<-|Hm] j b Hn Hu.
        -- cbn [index1 matched1 match_score index2 m0] in *.
           assert (Hu' : ~ In j used).
           { intros I. apply Hu. unfold taken_before. apply in_or_app.
             left. exact I. }
           destruct (Choice j b Hn Hu') as (sc & M & H1 & H2).
           exists sc. repeat split; assumption.
        -- apply (IA m Hm j b Hn).
           rewrite Forall_forall in Later. specialize (Later m Hm).
           cbv beta in Later.
           apply (taken_before_later (index1 m) used m0 ms j);
             [unfold m0; cbn [index1]; exact Later | exact Hu].
      * intros k a Hk Hi j b Hn Hu. destruct k as [|k].
        -- exfalso. apply Hi. cbn [map]. left. unfold m0. cbn [index1]. lia.
        -- cbn [nth_error] in Hk.
           replace (length pre + S k)%nat
             with (length (pre ++ [a1]) + k)%nat in * by lia.
           apply (IB k a Hk (fun I => Hi (or_intror I)) j b Hn).
           apply (taken_before_later _ used m0 ms j);
             [unfold m0; cbn [index1]; lia | exact Hu].
    + rewrite <- Hlen in E.
      destruct (find_matches_from_sound ratio s2 threshold (pre ++ [a1]) rest
                  used matches E) as (_ & S2 & _).
      assert (Later : Forall (fun m => (S (length pre) <= index1 m)%nat)
                             matches).
      { eapply Forall_impl; [|exact S2]. cbn. intros m [A _]. lia. }
      destruct (IH (pre ++ [a1])%list used matches E) as [IA IB].
      split; [exact IA|].
      intros k a Hk Hi j b Hn Hu. destruct k as [|k].
      * cbn [nth_error] in Hk. injection Hk as <-.
        assert (Hu' : ~ In j used).
        { intros I. apply Hu. unfold taken_before. apply in_or_app.
          left. exact I. }
        destruct (Choice j b Hn Hu') as (sc & M & H). exists sc. auto.
      * cbn [nth_error] in Hk.
        replace (length pre + S k)%nat
          with (length (pre ++ [a1]) + k)%nat in * by lia.
        apply (IB k a Hk Hi j b Hn Hu).
Qed.

(** X23.  [find_matches] is greedy in the order of the first list.  The
    listing matched with a listing of the first list has the highest score
    among the listings of the second list that the matches of earlier
    listings have not taken, and it is the first one with that score; a
    listing of the first list is left unmatched only when every listing not
    yet taken scores below the threshold or scores zero. *)
Theorem find_matches_is_greedy (s1 s2 : list Auction) (threshold : Q)
  (matches : list match_found) :
  find_matches ratio s1 s2 threshold = Some matches ->
  (forall m, In m matches ->
   forall j b,
     nth_error s2 j = Some b ->
     ~ In j (taken_before (index1 m) [] matches) ->
     exists sc,
       _match_auctions ratio (matched1 m) b = Some sc
       /\ sc <= match_score m
       /\ ((j < index2 m)%nat -> sc < match_score m))
  /\ (forall i a1,
        nth_error s1 i = Some a1 ->
        ~ In i (map index1 matches) ->
        forall j b,
          nth_error s2 j = Some b ->
          ~ In j (taken_before i [] matches) ->
          exists sc,
            _match_auctions ratio a1 b = Some sc
            /\ (sc <= 0 \/ sc < threshold)).
Proof.
  intros E. unfold find_matches in E.
  destruct (find_matches_from_greedy s2 threshold [] s1 [] matches E)
    as [A B].
  split; [exact A|]. intros i a1 Hi. exact (B i a1 Hi).
Qed.

End GreedyMatching.

Lemma find_matches_is_greedy_witness :
  exists matches,
    CrossValidator.find_matches ratio_equal
      [listing_without_city; listing_with_city] [listing_second_source]
      (1 # 2) = Some matches
    /\ (forall m, In m matches ->
        forall j b,
          nth_error [listing_second_source] j = Some b ->
          ~ In j (taken_before (CrossValidator.index1 m) [] matches) ->
          exists sc,
            CrossValidator._match_auctions ratio_equal
              (CrossValidator.matched1 m) b = Some sc
            /\ sc <= CrossValidator.match_score m
            /\ ((j < CrossValidator.index2 m)%nat ->
                sc < CrossValidator.match_score m))
    /\ (forall i a1,
          nth_error [listing_without_city; listing_with_city] i = Some a1 ->
          ~ In i (map CrossValidator.index1 matches) ->
          forall j b,
            nth_error [listing_second_source] j = Some b ->
            ~ In j (taken_before i [] matches) ->
            exists sc,
              CrossValidator._match_auctions ratio_equal a1 b = Some sc
              /\ (sc <= 0 \/ sc < 1 # 2)).
Proof.
  eexists. split; [reflexivity|].
  apply (find_matches_is_greedy ratio_equal
           [listing_without_city; listing_with_city]
           [listing_second_source] (1 # 2)).
  reflexivity.
Defined.

(** * The combined price on floats *)

Section Rounding.

Import Binary64.

Lemma two_power_pos (e : Z) : 0 < 2 ^ e.
Proof. apply Qpower_0_lt. reflexivity. Qed.

(** The leading bit found by [exponent] is not above [x]. *)
Lemma exponent_lower (x : Q) : 0 < x -> 2 ^ exponent x <= x.
Proof.
  intros Hx. unfold exponent.
  rewrite (Qabs_pos x) by (apply Qlt_le_weak; exact Hx).
  destruct x as [n d]. cbn [Qnum Qden].
  assert (Hn : (0 < n)%Z).
  { unfold Qlt in Hx. cbn in Hx. lia. }
  rewrite (Z.abs_eq n) by lia.
  set (k := (Z.log2 n - Z.log2 (Z.pos d))%Z).
  destruct (Qle_bool (2 ^ k) (n # d)) eqn:E; [apply Qle_bool_iff; exact E|].
  pose proof (Z.log2_spec n Hn) as [Ln _].
  pose proof (Z.log2_spec (Z.pos d) (Pos2Z.is_pos d)) as [_ Ud].
  pose proof (Z.log2_nonneg n) as Pn.
  pose proof (Z.log2_nonneg (Z.pos d)) as Pd.
  set (a := Z.log2 n) in *. set (b := Z.log2 (Z.pos d)) in *.
  assert (Hd : inject_Z (Z.pos d) <= 2 ^ (b + 1)).
  { change 2 with (inject_Z 2). rewrite <- Zpower_Qpower by lia.
    rewrite <- Zle_Qle. rewrite <- Z.add_1_r in Ud. lia. }
  assert (Ha : 2 ^ a <= inject_Z n).
  { change 2 with (inject_Z 2). rewrite <- Zpower_Qpower by lia.
    rewrite <- Zle_Qle. exact Ln. }
  assert (Hk : 2 ^ (k - 1) * 2 ^ (b + 1) == 2 ^ a).
  { rewrite <- Qpower_plus by discriminate.
    replace (k - 1 + (b + 1))%Z with a by (unfold k; lia). reflexivity. }
  assert (Hq : n # d == inject_Z n / inject_Z (Z.pos d)).
  { rewrite Qmake_Qdiv. reflexivity. }
  rewrite Hq. apply Qle_shift_div_l.
  - change 0 with (inject_Z 0). rewrite <- Zlt_Qlt. apply Pos2Z.is_pos.
  - eapply Qle_trans; [|exact Ha]. rewrite <- Hk.
    apply Qmult_le_l; [apply two_power_pos | exact Hd].
Qed.

(** And the next power of two is above [x]. *)
Lemma exponent_upper (x : Q) : 0 < x -> x < 2 ^ (exponent x + 1).
Proof.
  intros Hx. unfold exponent.
  rewrite (Qabs_pos x) by (apply Qlt_le_weak; exact Hx).
  destruct x as [n d]. cbn [Qnum Qden].
  assert (Hn : (0 < n)%Z).
  { unfold Qlt in Hx. cbn in Hx. lia. }
  rewrite (Z.abs_eq n) by lia.
  set (k := (Z.log2 n - Z.log2 (Z.pos d))%Z).
  destruct (Qle_bool (2 ^ k) (n # d)) eqn:E.
  - pose proof (Z.log2_spec n Hn) as [_ Un].
    pose proof (Z.log2_spec (Z.pos d) (Pos2Z.is_pos d)) as [Ld _].
    pose proof (Z.log2_nonneg n) as Pn.
    pose proof (Z.log2_nonneg (Z.pos d)) as Pd.
    set (a := Z.log2 n) in *. set (b := Z.log2 (Z.pos d)) in *.
    assert (Hd : 2 ^ b <= inject_Z (Z.pos d)).
    { change 2 with (inject_Z 2). rewrite <- Zpower_Qpower by lia.
      rewrite <- Zle_Qle. exact Ld. }
    assert (Ha : inject_Z n < 2 ^ (a + 1)).
    { change 2 with (inject_Z 2). rewrite <- Zpower_Qpower by lia.
      rewrite <- Zlt_Qlt. rewrite <- Z.add_1_r in Un. exact Un. }
    assert (Hk : 2 ^ (k + 1) * 2 ^ b == 2 ^ (a + 1)).
    { rewrite <- Qpower_plus by discriminate.
      replace (k + 1 + b)%Z with (a + 1)%Z by (unfold k; lia). reflexivity. }
    assert (Hq : n # d == inject_Z n / inject_Z (Z.pos d)).
    { rewrite Qmake_Qdiv. reflexivity. }
    rewrite Hq. apply Qlt_shift_div_r.
    + change 0 with (inject_Z 0). rewrite <- Zlt_Qlt. apply Pos2Z.is_pos.
    + eapply Qlt_le_trans; [exact Ha|]. rewrite <- Hk.
      apply Qmult_le_l; [apply two_power_pos | exact Hd].
  - replace (k - 1 + 1)%Z with k by lia.
    apply Qnot_le_lt. intros H. apply Qle_bool_iff in H. congruence.
Qed.

(** The floats nearest to one tenth and to one third. *)
Lemma round_examples :
  round (1 # 10) == 3602879701896397 # 36028797018963968
  /\ round (1 # 3) == 6004799503160661 # 18014398509481984.
Proof. split; vm_compute; reflexivity. Qed.

(** One rounding changes a non-negative number by at most the unit
    roundoff, relatively. *)
Lemma round_accuracy (x : Q) :
  0 <= x ->
  x * (1 - unit_roundoff) <= round x /\ round x <= x * (1 + unit_roundoff).
Proof.
  intros Hx. unfold round.
  destruct (Qeq_bool x 0) eqn:Z0.
  - apply Qeq_bool_iff in Z0. rewrite Z0. split; lra.
  - assert (Hpos : 0 < x).
    { apply Qle_lteq in Hx. destruct Hx as [H|H]; [exact H|].
      symmetry in H. apply Qeq_bool_iff in H. congruence. }
    cbv zeta. set (ulp := 2 ^ (exponent x - 52)).
    assert (Hu : 0 < ulp) by apply two_power_pos.
    set (y := x / ulp).
    assert (Hy : y * ulp == x) by (unfold y; field; lra).
    assert (Hbig : 2 ^ 52 <= y).
    { unfold y. apply Qle_shift_div_l; [exact Hu|].
      unfold ulp. rewrite <- Qpower_plus by discriminate.
      replace (52 + (exponent x - 52))%Z with (exponent x) by lia.
      apply exponent_lower; exact Hpos. }
    pose proof (round0_close y) as C.
    apply Qabs_Qle_condition in C. destruct C as [C1 C2].
    assert (Hhalf : 1 # 2 <= y * unit_roundoff).
    { unfold unit_roundoff.
      setoid_replace (1 # 2) with (2 ^ 52 * (1 # 9007199254740992))
        by reflexivity.
      apply Qmult_le_compat_r; [exact Hbig | discriminate]. }
    split.
    + rewrite <- Hy at 1.
      setoid_replace (y * ulp * (1 - unit_roundoff))
        with ((y - y * unit_roundoff) * ulp) by ring.
      apply Qmult_le_compat_r; [lra | apply Qlt_le_weak; exact Hu].
    + rewrite <- Hy at 1.
      setoid_replace (y * ulp * (1 + unit_roundoff))
        with ((y + y * unit_roundoff) * ulp) by ring.
      apply Qmult_le_compat_r; [lra | apply Qlt_le_weak; exact Hu].
Qed.

End Rounding.

(** A summation of non-negative floats that is as accurate as adding them
    one after the other: each of the [len(xs) - 1] additions changes the
    running sum by at most the unit roundoff, relatively. *)
Definition accurate (sum : list Q -> Q) : Prop :=
  forall xs,
    Forall (fun x => 0 <= x) xs ->
    Py.sum xs * Binary64.power (1 - Binary64.unit_roundoff) (length xs - 1)
    <= sum xs
    /\ sum xs
       <= Py.sum xs
          * Binary64.power (1 + Binary64.unit_roundoff) (length xs - 1).

Section Summation.

Import Binary64.

Lemma power_up_ge_1 (n : nat) : 1 <= power (1 + unit_roundoff) n.
Proof.
  induction n as [|n IH]; cbn [power]; [apply Qle_refl|].
  unfold unit_roundoff in *. nra.
Qed.

Lemma power_down_range (n : nat) :
  0 < power (1 - unit_roundoff) n /\ power (1 - unit_roundoff) n <= 1.
Proof.
  induction n as [|n [IH1 IH2]]; cbn [power]; [split; lra|].
  unfold unit_roundoff in *. split; nra.
Qed.

Lemma power_plus (x : Q) (n m : nat) :
  power x (n + m) == power x n * power x m.
Proof.
  induction n as [|n IH]; cbn [power Nat.add]; [ring|]. rewrite IH. ring.
Qed.

(** The running sum of [Binary64.sum]. *)
Lemma fold_add_accuracy (l : list Q) :
  Forall (fun x => 0 <= x) l ->
  forall acc,
    0 <= acc ->
    (acc + Py.sum l) * power (1 - unit_roundoff) (length l)
    <= fold_left add l acc
    /\ fold_left add l acc
       <= (acc + Py.sum l) * power (1 + unit_roundoff) (length l).
Proof.
  induction 1 as [|y l Hy Hl IH]; intros acc Ha; cbn [fold_left length power].
  - rewrite sum_nil. split; lra.
  - pose proof (sum_nonneg l Hl) as Hs.
    assert (Hay : 0 <= acc + y) by lra.
    destruct (round_accuracy (acc + y) Hay) as [R1 R2].
    fold (add acc y) in R1, R2.
    assert (Hr : 0 <= add acc y).
    { eapply Qle_trans; [|exact R1]. unfold unit_roundoff. nra. }
    destruct (IH (add acc y) Hr) as [I1 I2].
    destruct (power_down_range (length l)) as [D1 D2].
    pose proof (power_up_ge_1 (length l)) as U1.
    rewrite sum_cons.
    set (d := power (1 - unit_roundoff) (length l)) in *.
    set (u := power (1 + unit_roundoff) (length l)) in *.
    set (s := Py.sum l) in *. set (r := add acc y) in *.
    unfold unit_roundoff in *.
    split.
    + eapply Qle_trans; [|exact I1].
      setoid_replace ((acc + (y + s)) * ((1 - (1 # 9007199254740992)) * d))
        with (((acc + y) * (1 - (1 # 9007199254740992))
               + s * (1 - (1 # 9007199254740992))) * d) by ring.
      apply Qmult_le_compat_r; [|lra].
      apply Qplus_le_compat; [exact R1|]. nra.
    + eapply Qle_trans; [exact I2|].
      setoid_replace ((acc + (y + s)) * ((1 + (1 # 9007199254740992)) * u))
        with (((acc + y) * (1 + (1 # 9007199254740992))
               + s * (1 + (1 # 9007199254740992))) * u) by ring.
      apply Qmult_le_compat_r; [|lra].
      apply Qplus_le_compat; [exact R2|]. nra.
Qed.

Lemma binary64_sum_accurate : accurate Binary64.sum.
Proof.
  intros xs H. destruct xs as [|x l]; cbn [Binary64.sum length].
  - rewrite sum_nil. cbn [Nat.sub power]. split; lra.
  - inversion H as [|? ? Hx Hl]; subst.
    replace (S (length l) - 1)%nat with (length l) by lia.
    rewrite sum_cons.
    apply (fold_add_accuracy l Hl x Hx).
Qed.

End Summation.

Section CombinedPriceOnFloats.

Import PriceSources.
Import Binary64.

Variable sum : list Q -> Q.

Hypothesis sum_accurate : accurate sum.

(** The rounded products [p * w] against the exact ones. *)
Lemma products_accuracy (acc : list PriceEstimate) :
  Forall (fun e => 0 <= price e) acc ->
  let products :=
    map (fun pw => mul (fst pw) (snd pw))
        (combine (map price acc) (map confidence_score acc)) in
  let exact := Py.sum (map (fun e => price e * confidence_score e) acc) in
  Forall (fun x => 0 <= x) products
  /\ length products = length acc
  /\ exact * (1 - unit_roundoff) <= Py.sum products
  /\ Py.sum products <= exact * (1 + unit_roundoff).
Proof.
  induction 1 as [|e acc He _ IH]; cbn zeta; cbn [map combine length].
  - split; [constructor|]. split; [reflexivity|].
    rewrite sum_nil. split; lra.
  - cbn zeta in IH. destruct IH as (F & L & I1 & I2).
    cbn [fst snd].
    pose proof (confidence_score_range e) as [W0 _].
    assert (Hpw : 0 <= price e * confidence_score e) by nra.
    destruct (round_accuracy _ Hpw) as [R1 R2].
    fold (mul (price e) (confidence_score e)) in R1, R2.
    split; [|split; [|split]].
    + constructor; [|exact F].
      eapply Qle_trans; [|exact R1]. unfold unit_roundoff. nra.
    + rewrite L. reflexivity.
    + rewrite !sum_cons. lra.
    + rewrite !sum_cons. lra.
Qed.

(** The float value of the combined price against any bounds of the
    prices. *)
Lemma combined_price_accuracy (lo hi : Q) (e : PriceEstimate)
  (rest : list PriceEstimate) :
  0 <= lo ->
  Forall (fun p => lo <= p) (map price (e :: rest)) ->
  Forall (fun p => p <= hi) (map price (e :: rest)) ->
  let n := length (e :: rest) in
  let c := CombinerBinary64.combined_price sum (e :: rest) in
  lo * power (1 - unit_roundoff) (n + 1) <= c * power (1 + unit_roundoff) (n - 1)
  /\ c * power (1 - unit_roundoff) (n - 1) <= hi * power (1 + unit_roundoff) (n + 1).
Proof.
  intros Hlo0 Hlo Hhi. set (acc := e :: rest) in *. cbn zeta.
  assert (Hn : (length acc - 1 = length rest)%nat) by (cbn; lia).
  assert (Hn1 : (length acc + 1 = length rest + 2)%nat) by (cbn; lia).
  rewrite Hn, Hn1, !power_plus. cbn [power].
  destruct (power_down_range (length rest)) as [D0 D1].
  pose proof (power_up_ge_1 (length rest)) as U1.
  set (D := power (1 - unit_roundoff) (length rest)) in *.
  set (U := power (1 + unit_roundoff) (length rest)) in *.
  assert (Hpos : Forall (fun x => 0 <= price x) acc).
  { apply Forall_forall. intros x Hx. rewrite Forall_forall in Hlo.
    eapply Qle_trans; [exact Hlo0|]. apply Hlo, in_map, Hx. }
  assert (Hhi0 : 0 <= hi).
  { rewrite Forall_forall in Hlo, Hhi.
    eapply Qle_trans; [exact Hlo0|].
    eapply Qle_trans; [apply (Hlo (price e)) | apply (Hhi (price e))];
      left; reflexivity. }
  unfold CombinerBinary64.combined_price.
  destruct (Qlt_le_dec 0 (sum (map confidence_score acc))) as [Wpos|Wle].
  - destruct (products_accuracy acc Hpos) as (F & L & P1 & P2).
    cbn zeta in F, L, P1, P2.
    set (products := map (fun pw => mul (fst pw) (snd pw))
                         (combine (map price acc) (map confidence_score acc)))
      in *.
    destruct (sum_accurate products F) as [S1 S2].
    destruct (sum_accurate _ (confidence_scores_nonneg acc)) as [W1 W2].
    rewrite L in S1, S2. rewrite length_map in W1, W2.
    rewrite Hn in S1, S2, W1, W2. fold D in S1, W1. fold U in S2, W2.
    pose proof (weighted_sum_lower lo acc Hlo) as E1.
    pose proof (weighted_sum_upper hi acc Hhi) as E2.
    set (exact := Py.sum (map (fun x => price x * confidence_score x) acc))
      in *.
    set (W := Py.sum (map confidence_score acc)) in *.
    set (W' := sum (map confidence_score acc)) in *.
    set (S' := sum products) in *.
    set (P := Py.sum products) in *.
    assert (HW : 0 < W).
    { destruct (Qlt_le_dec 0 W) as [H|H]; [exact H|]. exfalso.
      assert (W * U <= 0) by nra. lra. }
    assert (HE : 0 <= exact) by nra.
    assert (HP : 0 <= P) by (unfold unit_roundoff in *; nra).
    assert (HS : 0 <= S') by nra.
    assert (Hq : 0 <= S' / W').
    { apply Qle_shift_div_l; [exact Wpos | lra]. }
    destruct (round_accuracy _ Hq) as [R1 R2].
    fold (div S' W') in R1, R2.
    set (c := div S' W') in *.
    assert (Hq' : S' / W' * W' == S') by (field; lra).
    assert (C1 : S' * (1 - unit_roundoff) <= c * W').
    { rewrite <- Hq' at 1.
      setoid_replace (S' / W' * W' * (1 - unit_roundoff)) with (S' / W' * (1 - unit_roundoff) * W') by ring.
      apply Qmult_le_compat_r; [exact R1 | lra]. }
    assert (C2 : c * W' <= S' * (1 + unit_roundoff)).
    { rewrite <- Hq' at 1.
      setoid_replace (S' / W' * W' * (1 + unit_roundoff)) with (S' / W' * (1 + unit_roundoff) * W') by ring.
      apply Qmult_le_compat_r; [exact R2 | lra]. }
    assert (Hc : 0 <= c).
    { eapply Qle_trans; [|exact R1]. unfold unit_roundoff. nra. }
    unfold unit_roundoff in *.
    set (d := 1 - (1 # 9007199254740992)) in *.
    set (u := 1 + (1 # 9007199254740992)) in *.
    assert (Hd : 0 < d) by (unfold d; lra).
    assert (Hu : 1 <= u) by (unfold u; lra).
    split.
    + (* lo * W * D * d * d <= c * U * W *)
      apply (Qmult_le_r _ _ W HW).
      apply Qle_trans with (exact * D * d * d).
      * setoid_replace (lo * (D * (d * (d * 1))) * W)
          with (lo * W * (D * d * d)) by ring.
        setoid_replace (exact * D * d * d) with (exact * (D * d * d))
          by ring.
        apply Qmult_le_compat_r; [exact E1 | nra].
      * apply Qle_trans with (P * D * d).
        -- setoid_replace (exact * D * d * d) with (exact * d * (D * d))
             by ring.
           setoid_replace (P * D * d) with (P * (D * d)) by ring.
           apply Qmult_le_compat_r; [exact P1 | nra].
        -- apply Qle_trans with (S' * d).
           ++ apply Qmult_le_compat_r; [exact S1 | lra].
           ++ apply Qle_trans with (c * W'); [exact C1|].
              assert (0 <= c * (W * U - W'))
                by (apply Qmult_le_0_compat; lra).
              lra.
    + apply (Qmult_le_r _ _ W HW).
      apply Qle_trans with (c * W').
      * assert (0 <= c * (W' - W * D))
          by (apply Qmult_le_0_compat; lra).
        lra.
      * apply Qle_trans with (S' * u); [exact C2|].
        apply Qle_trans with (P * U * u).
        -- apply Qmult_le_compat_r; [exact S2 | lra].
        -- apply Qle_trans with (exact * u * U * u).
           ++ setoid_replace (P * U * u) with (P * (U * u)) by ring.
              setoid_replace (exact * u * U * u) with (exact * u * (U * u))
                by ring.
              apply Qmult_le_compat_r; [exact P2 | nra].
           ++ setoid_replace (exact * u * U * u) with (exact * (u * U * u))
                by ring.
              setoid_replace (hi * (U * (u * (u * 1))) * W)
                with (hi * W * (u * U * u)) by ring.
              apply Qmult_le_compat_r; [exact E2 | nra].
  - pose proof (len_pos (price e) (map price rest)) as Lpos.
    change (price e :: map price rest) with (map price acc) in Lpos.
    assert (Fp : Forall (fun x => 0 <= x) (map price acc)).
    { apply Forall_map. exact Hpos. }
    destruct (sum_accurate _ Fp) as [S1 S2].
    rewrite length_map, Hn in S1, S2. fold D in S1. fold U in S2.
    pose proof (plain_sum_lower lo _ Hlo) as E1.
    pose proof (plain_sum_upper hi _ Hhi) as E2.
    set (N := Py.len (map price acc)) in *.
    set (P := Py.sum (map price acc)) in *.
    set (S' := sum (map price acc)) in *.
    assert (HP : 0 <= P) by nra.
    assert (HS : 0 <= S') by nra.
    assert (Hq : 0 <= S' / N).
    { apply Qle_shift_div_l; [exact Lpos | lra]. }
    destruct (round_accuracy _ Hq) as [R1 R2].
    fold (div S' N) in R1, R2.
    set (c := div S' N) in *.
    assert (Hq' : S' / N * N == S') by (field; lra).
    assert (C1 : S' * (1 - unit_roundoff) <= c * N).
    { rewrite <- Hq' at 1.
      setoid_replace (S' / N * N * (1 - unit_roundoff)) with (S' / N * (1 - unit_roundoff) * N) by ring.
      apply Qmult_le_compat_r; [exact R1 | lra]. }
    assert (C2 : c * N <= S' * (1 + unit_roundoff)).
    { rewrite <- Hq' at 1.
      setoid_replace (S' / N * N * (1 + unit_roundoff)) with (S' / N * (1 + unit_roundoff) * N) by ring.
      apply Qmult_le_compat_r; [exact R2 | lra]. }
    assert (Hc : 0 <= c).
    { eapply Qle_trans; [|exact R1]. unfold unit_roundoff. nra. }
    unfold unit_roundoff in *.
    set (d := 1 - (1 # 9007199254740992)) in *.
    set (u := 1 + (1 # 9007199254740992)) in *.
    assert (Hd : 0 < d) by (unfold d; lra).
    assert (Hd1 : d <= 1) by (unfold d; lra).
    assert (Hu : 1 <= u) by (unfold u; lra).
    split.
    + apply (Qmult_le_r _ _ N Lpos).
      apply Qle_trans with (P * D * d).
      * setoid_replace (lo * (D * (d * (d * 1))) * N)
          with (lo * N * (D * d) * d) by ring.
        apply Qle_trans with (lo * N * (D * d)).
        -- assert (H1 : 0 <= lo * N) by (apply Qmult_le_0_compat; lra).
           assert (H2 : 0 <= D * d) by (apply Qmult_le_0_compat; lra).
           pose proof (Qmult_le_0_compat _ _ H1 H2) as H3.
           assert (0 <= lo * N * (D * d) * (1 - d))
             by (apply Qmult_le_0_compat; lra).
           lra.
        -- setoid_replace (P * D * d) with (P * (D * d)) by ring.
           apply Qmult_le_compat_r; [exact E1 | nra].
      * apply Qle_trans with (S' * d).
        -- apply Qmult_le_compat_r; [exact S1 | lra].
        -- apply Qle_trans with (c * N); [exact C1|].
           assert (H1 : 0 <= c * N) by (apply Qmult_le_0_compat; lra).
           assert (0 <= c * N * (U - 1)) by (apply Qmult_le_0_compat; lra).
           lra.
    + apply (Qmult_le_r _ _ N Lpos).
      apply Qle_trans with (c * N).
      * assert (H1 : 0 <= c * N) by (apply Qmult_le_0_compat; lra).
        assert (0 <= c * N * (1 - D)) by (apply Qmult_le_0_compat; lra).
        lra.
      * apply Qle_trans with (S' * u); [exact C2|].
        apply Qle_trans with (P * U * u).
        -- apply Qmult_le_compat_r; [exact S2 | lra].
        -- apply Qle_trans with (hi * N * (U * u)).
           ++ setoid_replace (P * U * u) with (P * (U * u)) by ring.
              apply Qmult_le_compat_r; [exact E2 | nra].
           ++ setoid_replace (hi * (U * (u * (u * 1))) * N)
                with (hi * N * (U * u) * u) by ring.
              assert (H1 : 0 <= hi * N) by (apply Qmult_le_0_compat; lra).
              assert (H2 : 0 <= U * u) by (apply Qmult_le_0_compat; lra).
              pose proof (Qmult_le_0_compat _ _ H1 H2) as H3.
              assert (0 <= hi * N * (U * u) * (u - 1))
                by (apply Qmult_le_0_compat; lra).
              lra.
Qed.

End CombinedPriceOnFloats.

Section CombinerOnFloats.

Import PriceSources.

Variable sum : list Q -> Q.

(** What a sequence of calls leaves in the fields of lines 106-129. *)
Lemma add_all_price_range (es : list PriceEstimate) :
  let m := CombinerBinary64.add_all sum es in
  let valid := valid_estimates es in
  CombinerBinary64.estimates m = valid
  /\ (valid = [] -> m = CombinerBinary64.empty)
  /\ (valid <> [] ->
      CombinerBinary64.prix_m2_combined m
      = Some (CombinerBinary64.combined_price sum valid)
      /\ CombinerBinary64.prix_m2_min m = Py.min_list (map price valid)
      /\ CombinerBinary64.prix_m2_max m = Py.max_list (map price valid)).
Proof.
  cbn zeta. induction es as [|e es IH] using rev_ind.
  - split; [reflexivity|]. split; [reflexivity|]. intros H. contradiction.
  - unfold CombinerBinary64.add_all in *. rewrite fold_left_app.
    cbn [fold_left]. rewrite valid_estimates_app.
    set (m := fold_left (CombinerBinary64.add_estimate sum) es
                        CombinerBinary64.empty) in *.
    destruct IH as (IH1 & IH0 & IH2).
    assert (Hv : valid_estimates [e]
                 = if Py.truthy_float (prix_m2 e) then [e] else []).
    { unfold valid_estimates. cbn [filter].
      destruct (Py.truthy_float (prix_m2 e)); reflexivity. }
    unfold CombinerBinary64.add_estimate.
    destruct (Py.truthy_float (prix_m2 e)) eqn:T; rewrite Hv.
    + unfold CombinerBinary64._recalculate.
      cbn [CombinerBinary64.estimates].
      rewrite valid_estimates_app, IH1, valid_estimates_idem, Hv.
      destruct (valid_estimates es ++ [e])%list as [|x l] eqn:E.
      * destruct (valid_estimates es); discriminate.
      * cbn [CombinerBinary64.estimates CombinerBinary64.prix_m2_combined
             CombinerBinary64.prix_m2_min CombinerBinary64.prix_m2_max].
        split; [reflexivity|]. split; [discriminate|].
        intros _. repeat split; reflexivity.
    + rewrite app_nil_r. split; [exact IH1|]. split; [exact IH0 | exact IH2].
Qed.

(** The accumulated estimates, the minimum and the maximum involve no
    arithmetic: they are those of the whole record of [PriceSources]. *)
Lemma price_range_agrees (pow_half : Q -> Q) (es : list PriceEstimate) :
  CombinerBinary64.estimates (CombinerBinary64.add_all sum es)
  = estimates (add_all pow_half es)
  /\ CombinerBinary64.prix_m2_min (CombinerBinary64.add_all sum es)
     = prix_m2_min (add_all pow_half es)
  /\ CombinerBinary64.prix_m2_max (CombinerBinary64.add_all sum es)
     = prix_m2_max (add_all pow_half es).
Proof.
  destruct (add_all_price_range es) as (E & E0 & E1). cbn zeta in E, E0, E1.
  rewrite E, add_all_estimates. split; [reflexivity|].
  destruct (add_all_recomputed pow_half es) as [[V A]|[V _]].
  - rewrite (E0 V), A. split; reflexivity.
  - destruct (E1 V) as (_ & M1 & M2).
    assert (Hne : estimates (add_all pow_half es) <> [])
      by (rewrite add_all_estimates; exact V).
    destruct (add_all_combined pow_half es Hne) as (_ & N1 & N2).
    cbn zeta in N1, N2. rewrite add_all_estimates in N1, N2.
    rewrite M1, M2, N1, N2. split; reflexivity.
Qed.

End CombinerOnFloats.

Section CombinedPriceRange.

Import PriceSources.

Variable sum : list Q -> Q.

(** C10, amended.  After any sequence of [add_estimate] calls with
    non-negative prices that accumulated at least one estimate, the combined
    price, the minimum and the maximum are all defined; the minimum and the
    maximum are accumulated prices that bound every accumulated price; and
    the combined price, a float computed with [N] roundings of products, the
    roundings of two sums and one of a quotient, lies in the range widened
    by these rounding errors: with [u] the unit roundoff and [N] the number
    of accumulated estimates,
    [min * (1-u)^(N+1) <= combined * (1+u)^(N-1)] and
    [combined * (1-u)^(N-1) <= max * (1+u)^(N+1)]. *)
Theorem combined_price_within_rounded_range (es : list PriceEstimate) :
  accurate sum ->
  Forall (fun e => 0 <= price e) es ->
  CombinerBinary64.estimates (CombinerBinary64.add_all sum es) <> [] ->
  let m := CombinerBinary64.add_all sum es in
  let prices := map price (CombinerBinary64.estimates m) in
  let n := length (CombinerBinary64.estimates m) in
  let u := Binary64.unit_roundoff in
  exists c lo hi,
    CombinerBinary64.prix_m2_combined m = Some c
    /\ CombinerBinary64.prix_m2_min m = Some lo
    /\ CombinerBinary64.prix_m2_max m = Some hi
    /\ In lo prices /\ In hi prices
    /\ (forall p, In p prices -> lo <= p <= hi)
    /\ lo * Binary64.power (1 - u) (n + 1) <= c * Binary64.power (1 + u) (n - 1)
    /\ c * Binary64.power (1 - u) (n - 1) <= hi * Binary64.power (1 + u) (n + 1).
Proof.
  intros Hsum Hpos Hne. cbn zeta.
  destruct (add_all_price_range sum es) as (He & _ & Hf).
  cbn zeta in He, Hf.
  rewrite He in *. specialize (Hf Hne). destruct Hf as (Hc & Hmin & Hmax).
  destruct (valid_estimates es) as [|e acc] eqn:Ev; [contradiction|].
  cbn [map] in Hmin, Hmax |- *.
  destruct (fold_min2_le (map price acc) (price e)) as [L1 L2].
  destruct (fold_max2_ge (map price acc) (price e)) as [U1 U2].
  set (lo := fold_left Py.min2 (map price acc) (price e)) in *.
  set (hi := fold_left Py.max2 (map price acc) (price e)) in *.
  assert (Hlo : Forall (fun p => lo <= p) (map price (e :: acc)))
    by (constructor; assumption).
  assert (Hhi : Forall (fun p => p <= hi) (map price (e :: acc)))
    by (constructor; assumption).
  assert (Hin : In lo (price e :: map price acc))
    by apply fold_min2_in.
  assert (Hlo0 : 0 <= lo).
  { assert (Hv : Forall (fun x => 0 <= price x) (e :: acc)).
    { rewrite <- Ev. unfold valid_estimates. apply Forall_forall.
      intros x Hx. apply filter_In in Hx. rewrite Forall_forall in Hpos.
      apply Hpos, Hx. }
    change (price e :: map price acc) with (map price (e :: acc)) in Hin.
    apply in_map_iff in Hin. destruct Hin as (x & <- & Hx).
    rewrite Forall_forall in Hv. apply Hv, Hx. }
  exists (CombinerBinary64.combined_price sum (e :: acc)), lo, hi.
  split; [exact Hc|]. split; [exact Hmin|]. split; [exact Hmax|].
  split; [exact Hin|]. split; [apply fold_max2_in|].
  split.
  - intros p Hp. rewrite Forall_forall in Hlo, Hhi.
    split; [apply Hlo | apply Hhi]; exact Hp.
  - apply (combined_price_accuracy sum Hsum lo hi e acc Hlo0 Hlo Hhi).
Qed.

End CombinedPriceRange.

(** The float 3333.33 reported by two sources, with confidence scores 100
    and 60. *)
Definition float_3333_33 : Q := 1832517547107287 # 549755813888.

Definition estimate_3333_33_exact : PriceSources.PriceEstimate :=
  {| PriceSources.source_type := PriceSources.LISTINGS;
     PriceSources.source_name := "listings";
     PriceSources.prix_m2 := Some float_3333_33;
     PriceSources.prix_total := None;
     PriceSources.nb_data_points := 20;
     PriceSources.date_range_days := 0;
     PriceSources.geographic_match := "exact";
     PriceSources.source_url := None;
     PriceSources.notes := EmptyString |}.

Definition estimate_3333_33_dated : PriceSources.PriceEstimate :=
  {| PriceSources.source_type := PriceSources.DVF;
     PriceSources.source_name := "dvf";
     PriceSources.prix_m2 := Some float_3333_33;
     PriceSources.prix_total := None;
     PriceSources.nb_data_points := 20;
     PriceSources.date_range_days := 365;
     PriceSources.geographic_match := EmptyString;
     PriceSources.source_url := None;
     PriceSources.notes := EmptyString |}.

Lemma combined_price_within_rounded_range_witness :
  exists c lo hi,
    CombinerBinary64.prix_m2_combined
      (CombinerBinary64.add_all Binary64.sum
         [estimate_3333_33_exact; estimate_3333_33_dated]) = Some c
    /\ CombinerBinary64.prix_m2_min
         (CombinerBinary64.add_all Binary64.sum
            [estimate_3333_33_exact; estimate_3333_33_dated]) = Some lo
    /\ CombinerBinary64.prix_m2_max
         (CombinerBinary64.add_all Binary64.sum
            [estimate_3333_33_exact; estimate_3333_33_dated]) = Some hi
    /\ lo * Binary64.power (1 - Binary64.unit_roundoff) 3
       <= c * Binary64.power (1 + Binary64.unit_roundoff) 1
    /\ c * Binary64.power (1 - Binary64.unit_roundoff) 1
       <= hi * Binary64.power (1 + Binary64.unit_roundoff) 3.
Proof.
  destruct (combined_price_within_rounded_range Binary64.sum
              [estimate_3333_33_exact; estimate_3333_33_dated]
              binary64_sum_accurate)
    as (c & lo & hi & Hc & Hlo & Hhi & _ & _ & _ & B1 & B2).
  - repeat constructor; discriminate.
  - discriminate.
  - exists c, lo, hi. repeat split; assumption.
Defined.

(** C10, as stated, fails on floats: two sources report the same price
    3333.33 with confidence scores 100 and 60; the products 333333.0 and
    199999.8 add up to 533332.8, and 533332.8 / 160.0 is
    3333.3300000000004, above the maximum 3333.33. *)
Lemma combined_price_above_maximum :
  Binary64.round (333333 # 100) == float_3333_33
  /\ PriceSources.confidence_score estimate_3333_33_exact == 100
  /\ PriceSources.confidence_score estimate_3333_33_dated == 60
  /\ exists c hi,
       CombinerBinary64.prix_m2_combined
         (CombinerBinary64.add_all Binary64.sum
            [estimate_3333_33_exact; estimate_3333_33_dated]) = Some c
       /\ CombinerBinary64.prix_m2_max
            (CombinerBinary64.add_all Binary64.sum
               [estimate_3333_33_exact; estimate_3333_33_dated]) = Some hi
       /\ hi == float_3333_33
       /\ c == 7330070188429149 # 2199023255552
       /\ ~ c <= hi.
Proof.
  split; [vm_compute; reflexivity|].
  split; [vm_compute; reflexivity|].
  split; [vm_compute; reflexivity|].
  eexists. eexists.
  split; [reflexivity|]. split; [reflexivity|].
  split; [vm_compute; reflexivity|].
  split; [vm_compute; reflexivity|].
  vm_compute. intros H. apply H. reflexivity.
Qed.
